(** * dbarts: the BART sampler core, embedded and checked against its specification

    The development follows the C++ sources:
    - [src/dbarts/bartFit.cpp]      the orchestrator [BARTFit]
    - [src/dbarts/endNodeModel.cpp] the Mean-Normal end-node model
    - [src/R_interface.cpp]         construction of [Data] from host objects

    Conventions of the embedding.
    - A C [double] is a real number ([R]): arithmetic is the exact one, so
      what is proved are the algebraic identities the code computes, not
      their rounding.
    - [size_t] and [uint32_t] quantities that take part in arithmetic are
      integers ([Z]) with the wrap-around written out ([wrap64], [wrap32]);
      lengths of buffers are [nat].
    - A column-major matrix is a list of columns, a row-major one a list of
      rows, the per-tree fits [treeFits + i * numObservations] a list of rows.
    - A call that does not return ([ext_throwError]) and an access outside a
      buffer are outcomes of their own ([Thrown], [Undefined]). *)

From Stdlib Require Import Reals Lra ZArith Lia List Bool String.
Import ListNotations.

Set Implicit Arguments.

(** ** Machine integers *)

Definition wrap32 (z : Z) : Z := (z mod 2 ^ 32)%Z.
Definition wrap64 (z : Z) : Z := (z mod 2 ^ 64)%Z.

(** [static_cast<uint32_t>(-1)], the "not yet set" mark of [numCutsPerVariable]. *)
Definition UINT32_UNSET : Z := (2 ^ 32 - 1)%Z.

(** ** Outcomes of a call *)

Inductive outcome (A : Type) : Type :=
| Returned (a : A)
| Thrown (msg : string)
| Undefined.

Arguments Returned {A} a.
Arguments Thrown {A} msg.
Arguments Undefined {A}.

Definition obind {A B : Type} (m : outcome A) (f : A -> outcome B) : outcome B :=
  match m with
  | Returned a => f a
  | Thrown msg => Thrown msg
  | Undefined => Undefined
  end.

Declare Scope outcome_scope.
Delimit Scope outcome_scope with outcome.
Notation "'do' x <- m ; f" := (obind m (fun x => f))
  (at level 10, x name, m at level 100, f at level 200) : outcome_scope.

Definition of_option {A : Type} (o : option A) : outcome A :=
  match o with
  | Some a => Returned a
  | None => Undefined
  end.

(** ** Buffers *)

(** [upd k v l]: the assignment [l[k] = v]; nothing is written outside [l]. *)
Fixpoint upd {A : Type} (k : nat) (v : A) (l : list A) : list A :=
  match l, k with
  | [], _ => []
  | _ :: t, O => v :: t
  | h :: t, S k' => h :: upd k' v t
  end.

(** [overwrite buf src]: [src] is written over the front of [buf], whose
    length stays what it is. *)
Fixpoint overwrite {A : Type} (buf src : list A) : list A :=
  match buf, src with
  | _ :: buf', v :: src' => v :: overwrite buf' src'
  | _, _ => buf
  end.

(** [std::memcpy(dst, src, k * sizeof(double))] on buffers. *)
Definition memcpy {A : Type} (dst src : list A) (k : nat) : list A :=
  overwrite dst (firstn k src).

Local Open Scope R_scope.

(** Modelled from the spec: the vector primitives of external/linearAlgebra.h
    are not part of the sources; they are taken from the comments at their
    call sites ("totalFits += currFits - oldTreeFits", "yRescaled = (y -
    offset - min) / (max - min) - 0.5"): [y[i] += alpha * x[i]] for [i < n]. *)
Fixpoint ext_addVectorsInPlace (x : list R) (n : nat) (alpha : R) (y : list R) : list R :=
  match n, x, y with
  | S n', xi :: x', yi :: y' => (yi + alpha * xi) :: ext_addVectorsInPlace x' n' alpha y'
  | _, _, _ => y
  end.

(** Modelled from the spec: [z[i] = alpha * x[i] + y[i]] for [i < n]. *)
Fixpoint ext_addVectors (x : list R) (n : nat) (alpha : R) (y : list R) : list R :=
  match n, x, y with
  | S n', xi :: x', yi :: y' => (alpha * xi + yi) :: ext_addVectors x' n' alpha y'
  | _, _, _ => []
  end.

(** Modelled from the spec: [x[i] = c] for [i < n]. *)
Fixpoint ext_setVectorToConstant (x : list R) (n : nat) (c : R) : list R :=
  match n, x with
  | S n', _ :: x' => c :: ext_setVectorToConstant x' n' c
  | _, _ => x
  end.

(** Modelled from the spec: [x[i] += c] for [i < n]. *)
Fixpoint ext_addScalarToVectorInPlace (x : list R) (n : nat) (c : R) : list R :=
  match n, x with
  | S n', xi :: x' => (xi + c) :: ext_addScalarToVectorInPlace x' n' c
  | _, _ => x
  end.

(** Modelled from the spec: [x[i] *= c] for [i < n]. *)
Fixpoint ext_scalarMultiplyVectorInPlace (x : list R) (n : nat) (c : R) : list R :=
  match n, x with
  | S n', xi :: x' => (xi * c) :: ext_scalarMultiplyVectorInPlace x' n' c
  | _, _ => x
  end.

(** Modelled from the spec: the sum of the first [n] entries. *)
Fixpoint ext_sumVectorElements (x : list R) (n : nat) : R :=
  match n, x with
  | S n', xi :: x' => xi + ext_sumVectorElements x' n'
  | _, _ => 0
  end.

(** ** The records of a fit *)

Record Control : Type := {
  responseIsBinary : bool;
  verbose : bool;
  keepTrainingFits : bool;
  useQuantiles : bool;
  numTrees : nat;
  treeThinningRate : Z;
  hasCallback : bool
}.

Inductive VariableType : Type := ORDINAL | CATEGORICAL.

Record Data : Type := {
  y : list R;
  X : list (list R);                 (* column-major: one list per predictor *)
  X_test : option (list (list R));
  weights : option (list R);
  offset : option (list R);
  testOffset : option (list R);
  numObservations : nat;
  numPredictors : nat;
  numTestObservations : nat;
  sigmaEstimate : R;
  variableTypes : list VariableType;
  maxNumCuts : option (list Z)
}.

Record DataScale : Type := { dsMin : R; dsMax : R; dsRange : R }.

Record Scratch : Type := {
  yRescaled : list R;
  Xt : list (list R);                (* row-major: one list per observation *)
  treeY : list R;
  dataScale : DataScale;
  cutPoints : list (list R);
  numCutsPerVariable : list Z
}.

(** [Response::NormalChiSquaredModel]: the sampler's sigma ([CHEAT_SIGMA]),
    the prior scale behind [getScale]/[setScale], and the [HAS_SCALE_PARAMETER]
    bit of [info]. *)
Record ResponseModel : Type := {
  sigma : R;
  scale : R;
  HAS_SCALE_PARAMETER : bool
}.

Record MeanNormalModel : Type := { precision : R }.

Record Model : Type := {
  responseModel : ResponseModel;
  endNodeModel : MeanNormalModel
}.

Record State (Tree : Type) : Type := {
  trees : list Tree;
  treeFits : list (list R);          (* row [i] is [treeFits + i * numObservations] *)
  totalFits : list R;
  totalTestFits : list R
}.

Record BARTFit (Tree : Type) : Type := {
  control : Control;
  model : Model;
  data : Data;
  scratch : Scratch;
  state : State Tree
}.

(** ** End nodes and the Mean-Normal model (endNodeModel.cpp) *)

(** The part of a leaf the end-node model reads: whether it is the root
    ([isTop]), its observation indices, their number, and the model's scratch. *)
Record NodeScratch : Type := {
  mu : R;  (* average of ys for the integrated likelihood, then the drawn mean *)
  numEffectiveObservations : R
}.

Record Node : Type := {
  isTop : bool;
  getObservationIndices : list nat;
  getNumObservations : nat;
  getScratch : NodeScratch
}.

(** The parallel reductions of external/stats_mt.h, which the sources only
    call.  The weighted means also write the sum of the weights they used
    through their last argument: the second component here. *)
Class ExtStats : Type := {
  ext_mt_computeMean : list R -> nat -> R;
  ext_mt_computeIndexedMean : list R -> list nat -> nat -> R;
  ext_mt_computeWeightedMean : list R -> nat -> list R -> R * R;
  ext_mt_computeIndexedWeightedMean : list R -> list nat -> nat -> list R -> R * R;
  ext_mt_computeVarianceForKnownMean : list R -> nat -> R -> R;
  ext_mt_computeIndexedVarianceForKnownMean : list R -> list nat -> nat -> R -> R;
  ext_mt_computeWeightedVarianceForKnownMean : list R -> nat -> list R -> R -> R;
  ext_mt_computeIndexedWeightedVarianceForKnownMean :
    list R -> list nat -> nat -> list R -> R -> R
}.

Module MeanNormal.
Section WithStats.
Context {stats : ExtStats}.
Variable Tree : Type.
Implicit Type fit : BARTFit Tree.

(** [updateType = (node.isTop() == false ? 1 : 0) + (weights != NULL ? 2 : 0)] *)
Definition computeVarianceForNode fit (node : Node) (y : list R) (average : R) : R :=
  let numObservations := getNumObservations node in
  match isTop node, weights (data fit) with
  | true, None =>
      ext_mt_computeVarianceForKnownMean y numObservations average
  | false, None =>
      ext_mt_computeIndexedVarianceForKnownMean y (getObservationIndices node)
        numObservations average
  | true, Some w =>
      ext_mt_computeWeightedVarianceForKnownMean y numObservations w average
  | false, Some w =>
      ext_mt_computeIndexedWeightedVarianceForKnownMean y (getObservationIndices node)
        numObservations w average
  end.

Definition logPrior fit (node : Node) : R :=
  let scratch := getScratch node in
  - 0.5 * mu scratch * mu scratch * precision (endNodeModel (model fit)).

Definition logIntegratedLikelihood fit (node : Node) (y : list R)
    (residualVariance : R) : R :=
  let numObservationsInNode := getNumObservations node in
  if Nat.eqb numObservationsInNode 0 then 0 else
  let model := endNodeModel (model fit) in
  let scratch := getScratch node in
  let y_bar := mu scratch in
  let var_y := computeVarianceForNode fit node y y_bar in
  let dataPrecision := numEffectiveObservations scratch / residualVariance in
  let result := 0.5 * ln (precision model / (precision model + dataPrecision)) in
  let result := result
    - 0.5 * (var_y / residualVariance) * INR (numObservationsInNode - 1) in
  let result := result
    - 0.5 * ((precision model * y_bar) * (dataPrecision * y_bar))
      / (precision model + dataPrecision) in
  result.

(** The scratch is written in place; the node with its new scratch is returned. *)
Definition setScratch (node : Node) (s : NodeScratch) : Node :=
  {| isTop := isTop node;
     getObservationIndices := getObservationIndices node;
     getNumObservations := getNumObservations node;
     getScratch := s |}.

Definition prepareScratchForLikelihoodAndPosteriorCalculations fit (node : Node)
    (y : list R) (residualVariance : R) : Node :=
  let numObservations := getNumObservations node in
  match isTop node, weights (data fit) with
  | true, None =>
      setScratch node
        {| mu := ext_mt_computeMean y numObservations;
           numEffectiveObservations := INR numObservations |}
  | false, None =>
      setScratch node
        {| mu := ext_mt_computeIndexedMean y (getObservationIndices node) numObservations;
           numEffectiveObservations := INR numObservations |}
  | true, Some w =>
      let '(m, n) := ext_mt_computeWeightedMean y numObservations w in
      setScratch node {| mu := m; numEffectiveObservations := n |}
  | false, Some w =>
      let '(m, n) :=
        ext_mt_computeIndexedWeightedMean y (getObservationIndices node) numObservations w in
      setScratch node {| mu := m; numEffectiveObservations := n |}
  end.

(** [for (i < numObservations) numEffectiveObservations += weights[observationIndices[i]]] *)
Fixpoint sumIndexedWeights (w : list R) (indices : list nat) (n : nat) (acc : R) : R :=
  match n, indices with
  | S n', i :: indices' => sumIndexedWeights w indices' n' (acc + nth i w 0)
  | _, _ => acc
  end.

Definition updateScratchWithMemberships fit (node : Node) (residualVariance : R) : Node :=
  let scratch := getScratch node in
  match weights (data fit) with
  | None =>
      setScratch node
        {| mu := mu scratch;
           numEffectiveObservations := INR (getNumObservations node) |}
  | Some w =>
      if isTop node then
        setScratch node
          {| mu := mu scratch;
             numEffectiveObservations :=
               ext_sumVectorElements w (numObservations (data fit)) |}
      else
        setScratch node
          {| mu := mu scratch;
             numEffectiveObservations :=
               sumIndexedWeights w (getObservationIndices node)
                 (getNumObservations node) 0 |}
  end.

End WithStats.
End MeanNormal.

(** ** Cut points (bartFit.cpp, anonymous namespace) *)

(** [std::set<double>::insert]: the set is its sorted list of distinct elements. *)
Fixpoint set_insert (v : R) (s : list R) : list R :=
  match s with
  | [] => [v]
  | h :: t =>
      if Rlt_dec v h then v :: s
      else if Rlt_dec h v then h :: set_insert v t
      else s
  end.

(** [uniqueElements.clear(); for (i < numObservations) uniqueElements.insert(x[i])] *)
Fixpoint insertObservations (x : list R) (n : nat) (s : list R) : list R :=
  match n, x with
  | S n', xi :: x' => insertObservations x' n' (set_insert xi s)
  | _, _ => s
  end.

Definition uniqueElements (n : nat) (x : list R) : list R := insertObservations x n [].

(** What a cut-point routine leaves behind: the two reference parameters
    [numCutsPerVariable] and [cutPoints], and the warning it issued, if any. *)
Record CutPointResult : Type := {
  newNumCuts : Z;
  newCutPoints : list R;
  warning : option string
}.

Definition fewerCutsMessage : string :=
  "Number of induced cut points in new predictor less than previous: old splits would be invalid.".
Definition moreCutsMessage : string :=
  "Number of induced cut points in new predictor greater than previous: ignoring extra quantiles.".

(** [step], [numCuts] and [offset] of setCutPointsFromQuantiles, in [size_t]
    arithmetic; [maxNumCuts + 1] is a [uint32_t] sum. *)
Definition quantileLayout (numUniqueElements maxNumCuts : Z) : Z * Z * Z :=
  if (numUniqueElements <=? wrap32 (maxNumCuts + 1))%Z then
    (1, wrap64 (numUniqueElements - 1), 0)%Z
  else
    let numCuts := maxNumCuts in
    let step := (numCuts / numUniqueElements)%Z in
    (step, numCuts, step / 2)%Z.

(** [index = std::min(i * step + offset, numUniqueElements - 2)] *)
Definition quantileIndex (i step offset numUniqueElements : Z) : Z :=
  Z.min (wrap64 (i * step + offset)) (wrap64 (numUniqueElements - 2)).

(** [for (i < numCutsPerVariable) cutPoints[i] = 0.5 * (sorted[index] + sorted[index + 1])];
    [count] is the number of rounds still to run. *)
Fixpoint quantileLoop (count : nat) (i step offset numUniqueElements : Z)
    (sortedElements cutPoints : list R) : outcome (list R) :=
  match count with
  | O => Returned cutPoints
  | S count' =>
      let index := quantileIndex i step offset numUniqueElements in
      (do lo <- of_option (nth_error sortedElements (Z.to_nat index));
       do hi <- of_option (nth_error sortedElements (Z.to_nat (wrap64 (index + 1))));
       if (Z.to_nat i <? List.length cutPoints)%nat then
         quantileLoop count' (i + 1)%Z step offset numUniqueElements sortedElements
           (upd (Z.to_nat i) (0.5 * (lo + hi)) cutPoints)
       else Undefined)%outcome
  end.

Definition setCutPointsFromQuantiles (numObservations : nat) (x : list R) (maxNumCuts : Z)
    (numCutsPerVariable : Z) (cutPoints : list R) : outcome CutPointResult :=
  let uniqueElements := uniqueElements numObservations x in
  let numUniqueElements := Z.of_nat (List.length uniqueElements) in
  let '(step, numCuts, offset) := quantileLayout numUniqueElements maxNumCuts in
  (do r <-
     (if negb (numCutsPerVariable =? UINT32_UNSET)%Z then
        if (numCuts <? numCutsPerVariable)%Z then Thrown fewerCutsMessage
        else if (numCutsPerVariable <? numCuts)%Z then
          Returned (numCutsPerVariable, cutPoints, Some moreCutsMessage)
        else Returned (numCutsPerVariable, cutPoints, None)
      else
        Returned (wrap32 numCuts, repeat 0 (Z.to_nat numCuts), None));
   let '(numCutsPerVariable, cutPoints, w) := r in
   let sortedElements := uniqueElements in
   do cutPoints <- quantileLoop (Z.to_nat numCutsPerVariable) 0 step offset
                     numUniqueElements sortedElements cutPoints;
   Returned {| newNumCuts := numCutsPerVariable;
               newCutPoints := cutPoints;
               warning := w |})%outcome.

(** [for (i = 1; i < numObservations; ++i)] of setCutPointsUniformly; the
    pair is [(xMin, xMax)], [x] the column from entry [1] on. *)
Fixpoint rangeLoop (count : nat) (x : list R) (mm : R * R) : outcome (R * R) :=
  match count with
  | O => Returned mm
  | S count' =>
      match x with
      | [] => Undefined
      | x_i :: x' =>
          let xMin := if Rlt_dec x_i (fst mm) then x_i else fst mm in
          let xMax := if Rgt_dec x_i (snd mm) then x_i else snd mm in
          rangeLoop count' x' (xMin, xMax)
      end
  end.

(** [for (i < numCutsPerVariable) cutPoints[i] = xMin + (double) (i + 1) * xIncrement] *)
Fixpoint uniformLoop (count : nat) (i : Z) (xMin xIncrement : R) (cutPoints : list R)
    : outcome (list R) :=
  match count with
  | O => Returned cutPoints
  | S count' =>
      if (Z.to_nat i <? List.length cutPoints)%nat then
        uniformLoop count' (i + 1)%Z xMin xIncrement
          (upd (Z.to_nat i) (xMin + IZR (wrap64 (i + 1)) * xIncrement) cutPoints)
      else Undefined
  end.

Definition setCutPointsUniformly (numObservations : nat) (x : list R) (maxNumCuts : Z)
    (numCutsPerVariable : Z) (cutPoints : list R) : outcome CutPointResult :=
  match x with
  | [] => Undefined
  | x0 :: x' =>
      (do mm <- rangeLoop (numObservations - 1) x' (x0, x0);
       let '(xMin, xMax) := mm in
       let '(numCutsPerVariable, cutPoints) :=
         if (numCutsPerVariable =? UINT32_UNSET)%Z
         then (maxNumCuts, repeat 0 (Z.to_nat maxNumCuts))
         else (numCutsPerVariable, cutPoints) in
       let xIncrement := (xMax - xMin) / IZR (wrap32 (numCutsPerVariable + 1)) in
       do cutPoints <- uniformLoop (Z.to_nat numCutsPerVariable) 0 xMin xIncrement cutPoints;
       Returned {| newNumCuts := numCutsPerVariable;
                   newCutPoints := cutPoints;
                   warning := None |})%outcome
  end.

(** ** Record updates *)

Section Updates.
Variable Tree : Type.
Implicit Type fit : BARTFit Tree.

Definition with_model fit (m : Model) : BARTFit Tree :=
  {| control := control fit; model := m; data := data fit;
     scratch := scratch fit; state := state fit |}.
Definition with_data fit (d : Data) : BARTFit Tree :=
  {| control := control fit; model := model fit; data := d;
     scratch := scratch fit; state := state fit |}.
Definition with_scratch fit (s : Scratch) : BARTFit Tree :=
  {| control := control fit; model := model fit; data := data fit;
     scratch := s; state := state fit |}.
Definition with_state fit (s : State Tree) : BARTFit Tree :=
  {| control := control fit; model := model fit; data := data fit;
     scratch := scratch fit; state := s |}.

Definition set_y (d : Data) (v : list R) : Data :=
  {| y := v; X := X d; X_test := X_test d; weights := weights d; offset := offset d;
     testOffset := testOffset d; numObservations := numObservations d;
     numPredictors := numPredictors d; numTestObservations := numTestObservations d;
     sigmaEstimate := sigmaEstimate d; variableTypes := variableTypes d;
     maxNumCuts := maxNumCuts d |}.
Definition set_offset (d : Data) (v : option (list R)) : Data :=
  {| y := y d; X := X d; X_test := X_test d; weights := weights d; offset := v;
     testOffset := testOffset d; numObservations := numObservations d;
     numPredictors := numPredictors d; numTestObservations := numTestObservations d;
     sigmaEstimate := sigmaEstimate d; variableTypes := variableTypes d;
     maxNumCuts := maxNumCuts d |}.
Definition set_weights (d : Data) (v : option (list R)) : Data :=
  {| y := y d; X := X d; X_test := X_test d; weights := v; offset := offset d;
     testOffset := testOffset d; numObservations := numObservations d;
     numPredictors := numPredictors d; numTestObservations := numTestObservations d;
     sigmaEstimate := sigmaEstimate d; variableTypes := variableTypes d;
     maxNumCuts := maxNumCuts d |}.
Definition set_X (d : Data) (v : list (list R)) : Data :=
  {| y := y d; X := v; X_test := X_test d; weights := weights d; offset := offset d;
     testOffset := testOffset d; numObservations := numObservations d;
     numPredictors := numPredictors d; numTestObservations := numTestObservations d;
     sigmaEstimate := sigmaEstimate d; variableTypes := variableTypes d;
     maxNumCuts := maxNumCuts d |}.

Definition set_yRescaled (s : Scratch) (v : list R) : Scratch :=
  {| yRescaled := v; Xt := Xt s; treeY := treeY s; dataScale := dataScale s;
     cutPoints := cutPoints s; numCutsPerVariable := numCutsPerVariable s |}.
Definition set_dataScale (s : Scratch) (v : DataScale) : Scratch :=
  {| yRescaled := yRescaled s; Xt := Xt s; treeY := treeY s; dataScale := v;
     cutPoints := cutPoints s; numCutsPerVariable := numCutsPerVariable s |}.
Definition set_Xt (s : Scratch) (v : list (list R)) : Scratch :=
  {| yRescaled := yRescaled s; Xt := v; treeY := treeY s; dataScale := dataScale s;
     cutPoints := cutPoints s; numCutsPerVariable := numCutsPerVariable s |}.
Definition set_treeY (s : Scratch) (v : list R) : Scratch :=
  {| yRescaled := yRescaled s; Xt := Xt s; treeY := v; dataScale := dataScale s;
     cutPoints := cutPoints s; numCutsPerVariable := numCutsPerVariable s |}.
Definition set_cuts (s : Scratch) (n : list Z) (c : list (list R)) : Scratch :=
  {| yRescaled := yRescaled s; Xt := Xt s; treeY := treeY s; dataScale := dataScale s;
     cutPoints := c; numCutsPerVariable := n |}.

Definition set_trees (s : State Tree) (v : list Tree) : State Tree :=
  {| trees := v; treeFits := treeFits s; totalFits := totalFits s;
     totalTestFits := totalTestFits s |}.
Definition set_fits (s : State Tree) (tf : list (list R)) (tot : list R) : State Tree :=
  {| trees := trees s; treeFits := tf; totalFits := tot;
     totalTestFits := totalTestFits s |}.
Definition set_totalTestFits (s : State Tree) (v : list R) : State Tree :=
  {| trees := trees s; treeFits := treeFits s; totalFits := totalFits s;
     totalTestFits := v |}.

Definition set_sigma (m : Model) (v : R) : Model :=
  {| responseModel :=
       {| sigma := v; scale := scale (responseModel m);
          HAS_SCALE_PARAMETER := HAS_SCALE_PARAMETER (responseModel m) |};
     endNodeModel := endNodeModel m |}.
(** [model.responseModel->setScale(fit, v)] *)
Definition setScale (m : Model) (v : R) : Model :=
  {| responseModel :=
       {| sigma := sigma (responseModel m); scale := v;
          HAS_SCALE_PARAMETER := HAS_SCALE_PARAMETER (responseModel m) |};
     endNodeModel := endNodeModel m |}.
Definition getScale (m : Model) : R := scale (responseModel m).
(** [CHEAT_SIGMA(model.responseModel)] *)
Definition CHEAT_SIGMA (m : Model) : R := sigma (responseModel m).
End Updates.

(** ** What the sources call but do not contain *)

(** The methods of [Tree] (tree.hpp) used by bartFit.cpp.  A method that
    changes the tree returns the changed tree; one that draws random numbers
    takes the generator and returns it; [getFits] returns what it writes to
    the training and test buffers it is handed. *)
Class TreeOps (Tree Rng : Type) : Type := {
  updateWithNewCovariates : BARTFit Tree -> R -> Tree -> Tree;
  isValid : Tree -> bool;
  prepareForMetropolisStep : BARTFit Tree -> list R -> R -> Tree -> Tree;
  drawFromTreeStructurePosterior : BARTFit Tree -> list R -> R -> Tree -> Rng -> Tree * Rng;
  drawFromEndNodePosteriors : BARTFit Tree -> list R -> R -> Tree -> Rng -> Tree * Rng;
  getFits : BARTFit Tree -> Tree -> list R * list R;
  countVariableUses : Tree -> list Z -> list Z;
  (** [model.responseModel->drawFromPosterior(fit, yRescaled, totalFits)]: the new sigma *)
  drawFromPosterior : BARTFit Tree -> list R -> list R -> Rng -> R * Rng
}.

(** The generator of external/random.h: a draw takes [(mean, bound)]. *)
Class RngOps (Rng : Type) : Type := {
  ext_rng_simulateLowerTruncatedNormalScale1 : Rng -> R -> R -> R * Rng;
  ext_rng_simulateUpperTruncatedNormalScale1 : Rng -> R -> R -> R * Rng
}.

(** ** BARTFit (bartFit.cpp) *)

Inductive Truncation : Type := LowerTruncated | UpperTruncated.

(** One call of the generator in sampleProbitLatentVariables. *)
Record ProbitDraw : Type := { side : Truncation; mean : R; bound : R }.

Section Fit.
Context {Tree Rng : Type} {treeOps : TreeOps Tree Rng} {rngOps : RngOps Rng}.
Implicit Type fit : BARTFit Tree.

Local Open Scope outcome_scope.

(** *** Response *)

Definition rescaleResponse fit : outcome (BARTFit Tree) :=
  let n := numObservations (data fit) in
  let yRescaled :=
    match offset (data fit) with
    | Some o => overwrite (yRescaled (scratch fit)) (ext_addVectors o n (-1) (y (data fit)))
    | None => memcpy (yRescaled (scratch fit)) (y (data fit)) n
    end in
  match yRescaled with
  | [] => Undefined
  | y0 :: rest =>
      do mm <- rangeLoop (n - 1) rest (y0, y0);
      let '(min, max) := mm in
      let range := max - min in
      let yRescaled := ext_addScalarToVectorInPlace yRescaled n (- min) in
      let yRescaled := ext_scalarMultiplyVectorInPlace yRescaled n (1 / range) in
      let yRescaled := ext_addScalarToVectorInPlace yRescaled n (- 0.5) in
      Returned
        (with_scratch fit
           (set_dataScale (set_yRescaled (scratch fit) yRescaled)
              {| dsMin := min; dsMax := max; dsRange := range |}))
  end.

(** The body of the loop of sampleProbitLatentVariables up to the draw
    (the branch without MATCH_BAYES_TREE). *)
Definition probitDraw fit (fits : list R) (i : nat) : outcome ProbitDraw :=
  do mean <- of_option (nth_error fits i);
  do offset <-
    match offset (data fit) with
    | None => Returned 0
    | Some o => of_option (nth_error o i)
    end;
  do y_i <- of_option (nth_error (y (data fit)) i);
  Returned
    (if Rgt_dec y_i 0
     then {| side := LowerTruncated; mean := mean; bound := - offset |}
     else {| side := UpperTruncated; mean := mean; bound := - offset |}).

Definition simulate (rng : Rng) (d : ProbitDraw) : R * Rng :=
  match side d with
  | LowerTruncated => ext_rng_simulateLowerTruncatedNormalScale1 rng (mean d) (bound d)
  | UpperTruncated => ext_rng_simulateUpperTruncatedNormalScale1 rng (mean d) (bound d)
  end.

Fixpoint probitLoop (count i : nat) fit (fits z : list R) (rng : Rng)
    : outcome (list R * Rng) :=
  match count with
  | O => Returned (z, rng)
  | S count' =>
      do d <- probitDraw fit fits i;
      let '(z_i, rng) := simulate rng d in
      if (i <? List.length z)%nat
      then probitLoop count' (S i) fit fits (upd i z_i z) rng
      else Undefined
  end.

Definition sampleProbitLatentVariables fit (fits z : list R) (rng : Rng)
    : outcome (list R * Rng) :=
  probitLoop (numObservations (data fit)) 0 fit fits z rng.

(** The two setters share their body; [install] is [data.y = newY] or
    [data.offset = newOffset]. *)
Definition replaceResponseData fit (rng : Rng) (install : Data -> Data)
    : outcome (BARTFit Tree * Rng) :=
  if negb (responseIsBinary (control fit)) then
    let sigmaUnscaled := CHEAT_SIGMA (model fit) * dsRange (dataScale (scratch fit)) in
    let priorUnscaled :=
      getScale (model fit) * dsRange (dataScale (scratch fit))
        * dsRange (dataScale (scratch fit)) in
    let fit := with_data fit (install (data fit)) in
    do fit <- rescaleResponse fit;
    let range := dsRange (dataScale (scratch fit)) in
    let fit := with_model fit (set_sigma (model fit) (sigmaUnscaled / range)) in
    let fit :=
      if HAS_SCALE_PARAMETER (responseModel (model fit))
      then with_model fit (setScale (model fit) (priorUnscaled / (range * range)))
      else fit in
    Returned (fit, rng)
  else
    let fit := with_data fit (install (data fit)) in
    do r <- sampleProbitLatentVariables fit (totalFits (state fit))
              (yRescaled (scratch fit)) rng;
    let '(z, rng) := r in
    Returned (with_scratch fit (set_yRescaled (scratch fit) z), rng).

Definition setResponse fit (rng : Rng) (newY : list R) : outcome (BARTFit Tree * Rng) :=
  replaceResponseData fit rng (fun d => set_y d newY).

Definition setOffset fit (rng : Rng) (newOffset : option (list R))
    : outcome (BARTFit Tree * Rng) :=
  replaceResponseData fit rng (fun d => set_offset d newOffset).

(** *** Fits *)

(** [treeY = y - (totalFits - oldTreeFits)] *)
Definition calculateResidualsFromOtherTreeFits (y totalFits oldTreeFits : list R)
    (numObservations : nat) (r : list R) : list R :=
  let r := memcpy r y numObservations in
  let r := ext_addVectorsInPlace totalFits numObservations (-1) r in
  ext_addVectorsInPlace oldTreeFits numObservations 1 r.

(** [totalFits += currFits - oldTreeFits] *)
Definition updateTotalFits (oldTreeFits currTreeFits : list R) (numObservations : nat)
    (totalFits : list R) : list R :=
  let totalFits := ext_addVectorsInPlace oldTreeFits numObservations (-1) totalFits in
  ext_addVectorsInPlace currTreeFits numObservations 1 totalFits.

(** The loop of updateTrainingFits, called with [state.treeFits] and
    [state.totalFits]: what it writes is seen through [fit] by [getFits]. *)
Fixpoint updateTrainingFitsLoop (count i : nat) fit : BARTFit Tree :=
  match count with
  | O => fit
  | S count' =>
      match nth_error (trees (state fit)) i, nth_error (treeFits (state fit)) i with
      | Some tree_i, Some treeFits_i =>
          let n := numObservations (data fit) in
          let total := ext_addVectorsInPlace treeFits_i n (-1) (totalFits (state fit)) in
          let fit := with_state fit (set_fits (state fit) (treeFits (state fit)) total) in
          let treeFits_i := overwrite treeFits_i (fst (getFits fit tree_i)) in
          let fit :=
            with_state fit
              (set_fits (state fit) (upd i treeFits_i (treeFits (state fit))) total) in
          let total := ext_addVectorsInPlace treeFits_i n 1 total in
          updateTrainingFitsLoop count' (S i)
            (with_state fit (set_fits (state fit) (treeFits (state fit)) total))
      | _, _ => fit
      end
  end.

Definition updateTrainingFits fit : BARTFit Tree :=
  updateTrainingFitsLoop (numTrees (control fit)) 0 fit.

(** [for (i < numTrees) TREE_AT(trees, i)->updateWithNewCovariates(fit, sigma_sq)] *)
Fixpoint updateTreesLoop (count i : nat) (sigma_sq : R) fit : BARTFit Tree :=
  match count with
  | O => fit
  | S count' =>
      match nth_error (trees (state fit)) i with
      | Some tree_i =>
          let tree_i := updateWithNewCovariates fit sigma_sq tree_i in
          updateTreesLoop count' (S i) sigma_sq
            (with_state fit (set_trees (state fit) (upd i tree_i (trees (state fit)))))
      | None => fit
      end
  end.

Definition setInitialFit fit : BARTFit Tree :=
  let n := numObservations (data fit) in
  let treeFits := repeat (repeat 0 n) (numTrees (control fit)) in
  let totalFits := repeat 0 n in
  let st := set_fits (state fit) treeFits totalFits in
  let st :=
    if (0 <? numTestObservations (data fit))%nat
    then set_totalTestFits st (repeat 0 (numTestObservations (data fit)))
    else st in
  let fit := with_state fit st in
  let sigma_sq := CHEAT_SIGMA (model fit) in
  updateTreesLoop (numTrees (control fit)) 0 sigma_sq fit.

End Fit.

Section Predictors.
Context {Tree Rng : Type} {treeOps : TreeOps Tree Rng}.
Implicit Type fit : BARTFit Tree.

Local Open Scope outcome_scope.

(** *** Cut points of a fit *)

(** One round of the loops of setCutPoints: column [col] through [routine]. *)
Definition setCutPointsOfColumn
    (routine : nat -> list R -> Z -> Z -> list R -> outcome CutPointResult)
    (maxNumCuts : list Z) fit (col : nat) : outcome (BARTFit Tree) :=
  do x <- of_option (nth_error (X (data fit)) col);
  do maxNumCuts_col <- of_option (nth_error maxNumCuts col);
  do numCuts_col <- of_option (nth_error (numCutsPerVariable (scratch fit)) col);
  do cutPoints_col <- of_option (nth_error (cutPoints (scratch fit)) col);
  do r <- routine (numObservations (data fit)) x maxNumCuts_col numCuts_col cutPoints_col;
  Returned
    (with_scratch fit
       (set_cuts (scratch fit)
          (upd col (newNumCuts r) (numCutsPerVariable (scratch fit)))
          (upd col (newCutPoints r) (cutPoints (scratch fit))))).

Fixpoint setCutPointsLoop
    (routine : nat -> list R -> Z -> Z -> list R -> outcome CutPointResult)
    (maxNumCuts : list Z) (columns : list nat) fit : outcome (BARTFit Tree) :=
  match columns with
  | [] => Returned fit
  | col :: columns' =>
      do fit <- setCutPointsOfColumn routine maxNumCuts fit col;
      setCutPointsLoop routine maxNumCuts columns' fit
  end.

Definition setCutPoints fit (columns : list nat) (numColumns : nat)
    : outcome (BARTFit Tree) :=
  let columns := firstn numColumns columns in
  if useQuantiles (control fit) then
    match maxNumCuts (data fit) with
    | None => Thrown "Num cuts cannot be NULL if useQuantiles is true."
    | Some maxNumCuts => setCutPointsLoop setCutPointsFromQuantiles maxNumCuts columns fit
    end
  else
    match maxNumCuts (data fit) with
    | None => Undefined
    | Some maxNumCuts => setCutPointsLoop setCutPointsUniformly maxNumCuts columns fit
    end.

(** *** Replacing predictors *)

(** [for (row < n) Xt[row * p + col] = x[row]] *)
Fixpoint writeXtColumn (Xt : list (list R)) (col : nat) (x : list R) (n : nat)
    : list (list R) :=
  match n, Xt, x with
  | S n', row :: Xt', x_row :: x' => upd col x_row row :: writeXtColumn Xt' col x' n'
  | _, _, _ => Xt
  end.

(** [for (col < p) for (row < n) Xt[row * p + col] = X[row + col * n]] *)
Fixpoint transposeInto (Xt : list (list R)) (X : list (list R)) (col n : nat)
    : list (list R) :=
  match X with
  | [] => Xt
  | x :: X' => transposeInto (writeXtColumn Xt col x n) X' (S col) n
  end.

(** The loop over the trees of setPredictor and updatePredictors: it stops
    at the first tree that is not valid; the last component is [treeNum]
    when it is left. *)
Fixpoint validityLoop (count treeNum : nat) (allTreesAreValid : bool) (sigma_sq : R) fit
    : BARTFit Tree * bool * nat :=
  match count with
  | O => (fit, allTreesAreValid, treeNum)
  | S count' =>
      if allTreesAreValid then
        match nth_error (trees (state fit)) treeNum with
        | Some tree_i =>
            let tree_i := updateWithNewCovariates fit sigma_sq tree_i in
            let fit :=
              with_state fit (set_trees (state fit) (upd treeNum tree_i (trees (state fit)))) in
            validityLoop count' (S treeNum) (allTreesAreValid && isValid tree_i) sigma_sq fit
        | None => (fit, allTreesAreValid, treeNum)
        end
      else (fit, allTreesAreValid, treeNum)
  end.

Definition setPredictor fit (newPredictor : list (list R)) : outcome (bool * BARTFit Tree) :=
  let columns := seq 0 (numPredictors (data fit)) in
  do fit <- setCutPoints fit columns (numPredictors (data fit));
  let fit := with_data fit (set_X (data fit) newPredictor) in
  let Xt :=
    transposeInto (Xt (scratch fit)) (firstn (numPredictors (data fit)) (X (data fit))) 0
      (numObservations (data fit)) in
  let fit := with_scratch fit (set_Xt (scratch fit) Xt) in
  let sigma_sq := CHEAT_SIGMA (model fit) * CHEAT_SIGMA (model fit) in
  let '(fit, allTreesAreValid, treeNum) :=
    validityLoop (numTrees (control fit)) 0 true sigma_sq fit in
  let fit := if allTreesAreValid then updateTrainingFits fit else fit in
  Returned (allTreesAreValid, fit).

(** [memcpy(X + col * n, x, n * sizeof(double))] and the write of the same
    column of [Xt]. *)
Definition installColumn fit (col : nat) (x : list R) : BARTFit Tree :=
  let n := numObservations (data fit) in
  let X' := upd col (memcpy (nth col (X (data fit)) []) x n) (X (data fit)) in
  let Xt' := writeXtColumn (Xt (scratch fit)) col x n in
  with_scratch (with_data fit (set_X (data fit) X')) (set_Xt (scratch fit) Xt').

Fixpoint installColumns fit (columns : list nat) (newPredictor : list (list R))
    : BARTFit Tree :=
  match columns, newPredictor with
  | col :: columns', x :: newPredictor' =>
      installColumns (installColumn fit col x) columns' newPredictor'
  | _, _ => fit
  end.

(** One round of the loop that puts the stored columns and cut points back. *)
Definition restoreColumn fit (col : nat) (oldX oldCuts : list R) : BARTFit Tree :=
  let fit := installColumn fit col oldX in
  let k := Z.to_nat (nth col (numCutsPerVariable (scratch fit)) 0%Z) in
  let cuts := memcpy (nth col (cutPoints (scratch fit)) []) oldCuts k in
  with_scratch fit
    (set_cuts (scratch fit) (numCutsPerVariable (scratch fit))
       (upd col cuts (cutPoints (scratch fit)))).

Fixpoint restoreColumns fit (columns : list nat) (oldPredictor oldCutPoints : list (list R))
    : BARTFit Tree :=
  match columns, oldPredictor, oldCutPoints with
  | col :: columns', oldX :: oldPredictor', oldCuts :: oldCutPoints' =>
      restoreColumns (restoreColumn fit col oldX oldCuts) columns' oldPredictor' oldCutPoints'
  | _, _, _ => fit
  end.

Definition updatePredictors fit (newPredictor : list (list R)) (columns : list nat)
    (numColumns : nat) : outcome (bool * BARTFit Tree) :=
  let n := numObservations (data fit) in
  let columns := firstn numColumns columns in
  (* store current *)
  let oldPredictor := map (fun col => firstn n (nth col (X (data fit)) [])) columns in
  let oldCutPoints :=
    map (fun col =>
           firstn (Z.to_nat (nth col (numCutsPerVariable (scratch fit)) 0%Z))
             (nth col (cutPoints (scratch fit)) [])) columns in
  (* install new *)
  do fit <- setCutPoints fit columns numColumns;
  let fit := installColumns fit columns newPredictor in
  (* check validity of new columns *)
  let sigma_sq := CHEAT_SIGMA (model fit) * CHEAT_SIGMA (model fit) in
  let '(fit, allTreesAreValid, treeNum) :=
    validityLoop (numTrees (control fit)) 0 true sigma_sq fit in
  if negb allTreesAreValid then
    let fit := restoreColumns fit columns oldPredictor oldCutPoints in
    let fit := updateTreesLoop treeNum 0 sigma_sq fit in
    Returned (allTreesAreValid, fit)
  else
    Returned (allTreesAreValid, updateTrainingFits fit).

Definition updatePredictor fit (newPredictor : list R) (column : nat)
    : outcome (bool * BARTFit Tree) :=
  updatePredictors fit [newPredictor] [column] 1.

End Predictors.

(** *** The sampler *)

(** Modelled from the spec: results.hpp is not part of the sources; the
    buffers are those of the results layout, one row per sample:
    [sigmaSamples[numSamples]], [trainingSamples[n x numSamples]],
    [testSamples[m x numSamples]], [variableCountSamples[p x numSamples]]. *)
Record Results : Type := {
  sigmaSamples : list R;
  trainingSamples : list (list R);
  testSamples : list (list R);
  variableCountSamples : list (list R)
}.

(** Modelled from the spec: [new Results(n, p, m, numSamples)]. *)
Definition newResults (n p m : nat) (numSamples : Z) : Results :=
  let k := Z.to_nat numSamples in
  {| sigmaSamples := repeat 0 k;
     trainingSamples := repeat (repeat 0 n) k;
     testSamples := repeat (repeat 0 m) k;
     variableCountSamples := repeat (repeat 0 p) k |}.

(** What one run of the sampler did, in order: the iterations it entered and
    the calls of storeSamples and of the callback it made.  The trace is kept
    beside the program's own state and read by no branch of it. *)
Inductive Event : Type :=
| Iteration (k : Z)
| SampleStored (k : Z) (simNum : Z) (isBurningIn : bool)
| CallbackInvoked (k : Z) (simNum : Z) (isBurningIn : bool).

Record Sampler (Tree Rng : Type) : Type := {
  theFit : BARTFit Tree;
  theRng : Rng;
  theResults : Results;
  currFits : list R;
  currTestFits : list R;
  trace : list Event
}.

Section Sampler.
Context {Tree Rng : Type} {treeOps : TreeOps Tree Rng} {rngOps : RngOps Rng}.
Implicit Type fit : BARTFit Tree.

Local Open Scope outcome_scope.

Definition storeSamples fit (results : Results) (trainingSample testSample : list R)
    (sigma : R) (variableCounts : list Z) (simNum : nat) : Results :=
  let data := data fit in
  let n := numObservations data in
  let m := numTestObservations data in
  let range := dsRange (dataScale (scratch fit)) in
  let min := dsMin (dataScale (scratch fit)) in
  let addOffset (o : option (list R)) (k : nat) (v : list R) :=
    match o with
    | Some o => ext_addVectorsInPlace o k 1 v
    | None => v
    end in
  let training :=
    if keepTrainingFits (control fit) then
      let row := nth simNum (trainingSamples results) [] in
      let row :=
        if responseIsBinary (control fit) then memcpy row trainingSample n
        else ext_addVectorsInPlace trainingSample n range
               (ext_setVectorToConstant row n (range * 0.5 + min)) in
      upd simNum (addOffset (offset data) n row) (trainingSamples results)
    else trainingSamples results in
  let test :=
    if (0 <? m)%nat then
      let row := nth simNum (testSamples results) [] in
      let row :=
        if responseIsBinary (control fit) then memcpy row testSample m
        else ext_addVectorsInPlace testSample m range
               (ext_setVectorToConstant row m (range * 0.5 + min)) in
      upd simNum (addOffset (testOffset data) m row) (testSamples results)
    else testSamples results in
  let sigmas :=
    upd simNum (if responseIsBinary (control fit) then 1 else sigma * range)
      (sigmaSamples results) in
  let counts :=
    upd simNum
      (overwrite (nth simNum (variableCountSamples results) [])
         (map IZR (firstn (numPredictors data) variableCounts)))
      (variableCountSamples results) in
  {| sigmaSamples := sigmas; trainingSamples := training;
     testSamples := test; variableCountSamples := counts |}.

(** [for (i < numPredictors) variableCounts[i] = 0], then every tree counts. *)
Definition countVariableUsesOfFit fit : list Z :=
  fold_left (fun counts tree => countVariableUses tree counts) (trees (state fit))
    (repeat 0%Z (numPredictors (data fit))).

(** The body of [for (size_t i = 0; i < control.numTrees; ++i)] in runSampler. *)
Definition treeStep (isThinningIteration : bool) (sigma_sq : R) (i : nat)
    (s : Sampler Tree Rng) : Sampler Tree Rng :=
  let fit := theFit s in
  let n := numObservations (data fit) in
  let m := numTestObservations (data fit) in
  match nth_error (trees (state fit)) i, nth_error (treeFits (state fit)) i with
  | Some tree_i, Some oldTreeFits =>
      let treeY :=
        calculateResidualsFromOtherTreeFits (yRescaled (scratch fit)) (totalFits (state fit))
          oldTreeFits n (treeY (scratch fit)) in
      let fit := with_scratch fit (set_treeY (scratch fit) treeY) in
      let tree_i := prepareForMetropolisStep fit treeY sigma_sq tree_i in
      let '(tree_i, rng) := drawFromTreeStructurePosterior fit treeY sigma_sq tree_i (theRng s) in
      let '(tree_i, rng) := drawFromEndNodePosteriors fit treeY sigma_sq tree_i rng in
      let fit := with_state fit (set_trees (state fit) (upd i tree_i (trees (state fit)))) in
      let fits := getFits fit tree_i in
      let currFits := overwrite (currFits s) (fst fits) in
      let currTestFits :=
        if isThinningIteration then currTestFits s
        else overwrite (currTestFits s) (snd fits) in
      let total := updateTotalFits oldTreeFits currFits n (totalFits (state fit)) in
      let totalTest :=
        if negb isThinningIteration && (0 <? m)%nat
        then ext_addVectorsInPlace currTestFits m 1 (totalTestFits (state fit))
        else totalTestFits (state fit) in
      let oldTreeFits := memcpy oldTreeFits currFits n in
      let st :=
        set_totalTestFits
          (set_fits (state fit) (upd i oldTreeFits (treeFits (state fit))) total) totalTest in
      {| theFit := with_state fit st; theRng := rng; theResults := theResults s;
         currFits := currFits; currTestFits := currTestFits; trace := trace s |}
  | _, _ => s
  end.

Fixpoint treeSweep (count i : nat) (isThinningIteration : bool) (sigma_sq : R)
    (s : Sampler Tree Rng) : Sampler Tree Rng :=
  match count with
  | O => s
  | S count' =>
      treeSweep count' (S i) isThinningIteration sigma_sq
        (treeStep isThinningIteration sigma_sq i s)
  end.

End Sampler.

Section RunSampler.
Context {Tree Rng : Type} {treeOps : TreeOps Tree Rng} {rngOps : RngOps Rng}.
Implicit Type fit : BARTFit Tree.

Local Open Scope outcome_scope.

(** The body of [for (uint32_t k = 0; k < totalNumIterations; ++k)].
    Modelled from the spec: control.hpp is not part of the sources; the
    thinning rate is taken to be a [uint32_t], as [majorIterationNum] is. *)
Definition iteration (numBurnIn k : Z) (s : Sampler Tree Rng) : outcome (Sampler Tree Rng) :=
  let fit := theFit s in
  let thin := treeThinningRate (control fit) in
  if (thin =? 0)%Z then Undefined else
  let isThinningIteration := negb (wrap32 (k + 1) mod thin =? 0)%Z in
  let majorIterationNum := (k / thin)%Z in
  let m := numTestObservations (data fit) in
  let s :=
    {| theFit := fit; theRng := theRng s; theResults := theResults s;
       currFits := currFits s; currTestFits := currTestFits s;
       trace := trace s ++ [Iteration k] |} in
  let fit :=
    if negb isThinningIteration && (0 <? m)%nat
    then with_state fit
           (set_totalTestFits (state fit)
              (ext_setVectorToConstant (totalTestFits (state fit)) m 0))
    else fit in
  let sigma_sq := CHEAT_SIGMA (model fit) * CHEAT_SIGMA (model fit) in
  let s :=
    treeSweep (numTrees (control fit)) 0 isThinningIteration sigma_sq
      {| theFit := fit; theRng := theRng s; theResults := theResults s;
         currFits := currFits s; currTestFits := currTestFits s; trace := trace s |} in
  let fit := theFit s in
  do r <-
    (if responseIsBinary (control fit) then
       do r <- sampleProbitLatentVariables fit (totalFits (state fit))
                 (yRescaled (scratch fit)) (theRng s);
       Returned (with_scratch fit (set_yRescaled (scratch fit) (fst r)), snd r)
     else
       let '(sigma, rng) :=
         drawFromPosterior fit (yRescaled (scratch fit)) (totalFits (state fit)) (theRng s) in
       Returned (with_model fit (set_sigma (model fit) sigma), rng));
  let '(fit, rng) := r in
  if negb isThinningIteration then
    (* if not out of burn-in, store result in first result; start
       overwriting after that *)
    let isBurningIn := (majorIterationNum <? numBurnIn)%Z in
    let simNum := if negb isBurningIn then (majorIterationNum - numBurnIn)%Z else 0%Z in
    let variableCounts := countVariableUsesOfFit fit in
    let results :=
      storeSamples fit (theResults s) (totalFits (state fit)) (totalTestFits (state fit))
        (CHEAT_SIGMA (model fit)) variableCounts (Z.to_nat simNum) in
    let events :=
      SampleStored k simNum isBurningIn ::
      (if hasCallback (control fit) then [CallbackInvoked k simNum isBurningIn] else []) in
    Returned
      {| theFit := fit; theRng := rng; theResults := results;
         currFits := currFits s; currTestFits := currTestFits s;
         trace := trace s ++ events |}
  else
    Returned
      {| theFit := fit; theRng := rng; theResults := theResults s;
         currFits := currFits s; currTestFits := currTestFits s; trace := trace s |}.

(** The loop itself.  [k] is a [uint32_t], compared with the [size_t]
    [totalNumIterations]; [fuel] bounds the number of rounds looked at, and
    [None] says that the loop had not ended when it ran out. *)
Fixpoint samplerLoop (fuel : nat) (numBurnIn totalNumIterations k : Z)
    (s : Sampler Tree Rng) : option (outcome (Sampler Tree Rng)) :=
  match fuel with
  | O => None
  | S fuel' =>
      if (k <? totalNumIterations)%Z then
        match iteration numBurnIn k s with
        | Returned s' => samplerLoop fuel' numBurnIn totalNumIterations (wrap32 (k + 1)) s'
        | Thrown msg => Some (Thrown msg)
        | Undefined => Some Undefined
        end
      else Some (Returned s)
  end.

(** What runSampler returns: the pointer it hands back ([None] is NULL)
    and the sampler as it is left. *)
Definition runSampler fit (rng : Rng) (numBurnIn numSamples : Z) (fuel : nat)
    : option (outcome (option Results * Sampler Tree Rng)) :=
  let n := numObservations (data fit) in
  let m := numTestObservations (data fit) in
  (* ensure at least one sample for state's sake *)
  let resultsPointer :=
    newResults n (numPredictors (data fit)) m
      (if (numSamples =? 0)%Z then 1%Z else numSamples) in
  let currFits := repeat 0 n in
  let currTestFits := if (0 <? m)%nat then repeat 0 m else [] in
  let totalNumIterations :=
    wrap64 (wrap64 (numBurnIn + numSamples) * treeThinningRate (control fit)) in
  match
    samplerLoop fuel numBurnIn totalNumIterations 0
      {| theFit := fit; theRng := rng; theResults := resultsPointer;
         currFits := currFits; currTestFits := currTestFits; trace := [] |}
  with
  | None => None
  | Some (Returned s) =>
      if (numSamples =? 0)%Z then Some (Returned (None, s))
      else Some (Returned (Some (theResults s), s))
  | Some (Thrown msg) => Some (Thrown msg)
  | Some Undefined => Some Undefined
  end.

End RunSampler.

(** ** Data from host objects (R_interface.cpp) *)

(** The host values the initializer looks at: [R_NilValue], a symbol (the
    S4 NULL is the symbol whose name starts with "\001NULL\001"), a real
    vector with its [dim] attribute, an integer vector, anything else. *)
Inductive SEXP : Type :=
| R_NilValue
| Symbol (isS4NullName : bool)
| RealVector (v : list R) (dims : option (list Z))
| IntegerVector (v : list Z)
| OtherObject (len : nat).

Definition isS4Null (expr : SEXP) : bool :=
  match expr with
  | Symbol isS4NullName => isS4NullName
  | _ => false
  end.

Definition isNull (expr : SEXP) : bool :=
  match expr with R_NilValue => true | _ => false end.

Definition isReal (expr : SEXP) : bool :=
  match expr with RealVector _ _ => true | _ => false end.

Definition isInteger (expr : SEXP) : bool :=
  match expr with IntegerVector _ => true | _ => false end.

Definition Rlength (expr : SEXP) : nat :=
  match expr with
  | R_NilValue => 0
  | Symbol _ => 1
  | RealVector v _ => List.length v
  | IntegerVector v => List.length v
  | OtherObject len => len
  end.

Definition REAL (expr : SEXP) : list R :=
  match expr with RealVector v _ => v | _ => [] end.

Definition INTEGER (expr : SEXP) : list Z :=
  match expr with IntegerVector v => v | _ => [] end.

(** [GET_ATTR(slotExpr, R_DimSymbol)] *)
Definition getDims (expr : SEXP) : option (list Z) :=
  match expr with RealVector _ dims => dims | _ => None end.

(** The columns of a column-major buffer of [p] columns of [n] entries. *)
Fixpoint columnsOf (n p : nat) (flat : list R) : list (list R) :=
  match p with
  | O => []
  | S p' => firstn n flat :: columnsOf n p' (skipn n flat)
  end.

Definition nullOrEmpty (slotExpr : SEXP) : bool :=
  isS4Null slotExpr || isNull slotExpr || (Rlength slotExpr =? 0)%nat.

Definition set_sizes (d : Data) (n p : nat) : Data :=
  {| y := y d; X := X d; X_test := X_test d; weights := weights d; offset := offset d;
     testOffset := testOffset d; numObservations := n; numPredictors := p;
     numTestObservations := numTestObservations d; sigmaEstimate := sigmaEstimate d;
     variableTypes := variableTypes d; maxNumCuts := maxNumCuts d |}.
Definition set_X_test (d : Data) (v : option (list (list R))) (m : nat) : Data :=
  {| y := y d; X := X d; X_test := v; weights := weights d; offset := offset d;
     testOffset := testOffset d; numObservations := numObservations d;
     numPredictors := numPredictors d; numTestObservations := m;
     sigmaEstimate := sigmaEstimate d; variableTypes := variableTypes d;
     maxNumCuts := maxNumCuts d |}.
Definition set_variableTypes (d : Data) (v : list VariableType) : Data :=
  {| y := y d; X := X d; X_test := X_test d; weights := weights d; offset := offset d;
     testOffset := testOffset d; numObservations := numObservations d;
     numPredictors := numPredictors d; numTestObservations := numTestObservations d;
     sigmaEstimate := sigmaEstimate d; variableTypes := v; maxNumCuts := maxNumCuts d |}.
Definition set_sigmaEstimate (d : Data) (v : R) : Data :=
  {| y := y d; X := X d; X_test := X_test d; weights := weights d; offset := offset d;
     testOffset := testOffset d; numObservations := numObservations d;
     numPredictors := numPredictors d; numTestObservations := numTestObservations d;
     sigmaEstimate := v; variableTypes := variableTypes d; maxNumCuts := maxNumCuts d |}.
Definition set_maxNumCuts (d : Data) (v : option (list Z)) : Data :=
  {| y := y d; X := X d; X_test := X_test d; weights := weights d; offset := offset d;
     testOffset := testOffset d; numObservations := numObservations d;
     numPredictors := numPredictors d; numTestObservations := numTestObservations d;
     sigmaEstimate := sigmaEstimate d; variableTypes := variableTypes d; maxNumCuts := v |}.

(** [if (!cond) error(msg)] *)
Definition require (cond : bool) (msg : string) : outcome unit :=
  if cond then Returned tt else Thrown msg.

Section InitializeData.
Local Open Scope outcome_scope.

(** The slots are read through [dataExpr], [GET_ATTR(dataExpr, install(name))].
    A real vector holds reals here, so the test [ISNAN] of the sigma
    estimate is never taken. *)
Definition initializeDataFromExpression (data : Data) (dataExpr : string -> SEXP)
    : outcome Data :=
  let slotExpr := dataExpr "y"%string in
  do u <- require (isReal slotExpr) "y must be of type real.";
  do u <- require (negb (Rlength slotExpr =? 0)%nat) "Length of y must be greater than 0.";
  let data := set_sizes (set_y data (REAL slotExpr)) (Rlength slotExpr) (numPredictors data) in

  let slotExpr := dataExpr "x"%string in
  do u <- require (isReal slotExpr) "x must be of type real.";
  do dims <-
    match getDims slotExpr with
    | Some [rows; cols] => Returned (rows, cols)
    | _ => Thrown "x must be a matrix, i.e. have two dimensions."
    end;
  do u <- require (fst dims =? Z.of_nat (numObservations data))%Z
            "Number of rows of x and length of y must be equal.";
  let p := Z.to_nat (snd dims) in
  let data :=
    set_sizes (set_X data (columnsOf (numObservations data) p (REAL slotExpr)))
      (numObservations data) p in

  let slotExpr := dataExpr "varTypes"%string in
  do u <- require (isInteger slotExpr) "Variable types must be of type integer.";
  do u <- require (Rlength slotExpr =? numPredictors data)%nat
            "Length of variable types must equal number of columns in x.";
  let data :=
    set_variableTypes data
      (map (fun t => if (t =? 0)%Z then ORDINAL else CATEGORICAL)
         (firstn (numPredictors data) (INTEGER slotExpr))) in

  let slotExpr := dataExpr "x.test"%string in
  do data <-
    (if nullOrEmpty slotExpr then Returned (set_X_test data None 0)
     else
       do u <- require (isReal slotExpr) "x.test must be of type real.";
       do dims <-
         match getDims slotExpr with
         | Some [rows; cols] => Returned (rows, cols)
         | _ => Thrown "x.test must be a matrix, i.e. have two dimensions."
         end;
       do u <- require (snd dims =? Z.of_nat (numPredictors data))%Z
                 "Number of columns of x.test and x must be equal.";
       let m := Z.to_nat (fst dims) in
       Returned (set_X_test data (Some (columnsOf m (numPredictors data) (REAL slotExpr))) m));

  let slotExpr := dataExpr "weights"%string in
  do data <-
    (if nullOrEmpty slotExpr then Returned (set_weights data None)
     else
       do u <- require (isReal slotExpr) "weights must be of type real.";
       do u <- require (Rlength slotExpr =? numObservations data)%nat
                 "Length of weights must equal length of y.";
       Returned (set_weights data (Some (REAL slotExpr))));

  let slotExpr := dataExpr "offset"%string in
  do data <-
    (if nullOrEmpty slotExpr then Returned (set_weights data None)
     else
       do u <- require (isReal slotExpr) "offset must be of type real.";
       do u <- require (Rlength slotExpr =? numObservations data)%nat
                 "Length of offset must equal length of y.";
       Returned (set_offset data (Some (REAL slotExpr))));

  let slotExpr := dataExpr "sigma"%string in
  do u <- require (isReal slotExpr) "sigma estimate must be of type real.";
  do u <- require (Rlength slotExpr =? 1)%nat "sigma estimate must be of length 1.";
  let d_temp := nth 0 (REAL slotExpr) 0 in
  do u <- require (if Rle_dec d_temp 0 then false else true)
            "sigma estimate must be positive.";
  let data := set_sigmaEstimate data d_temp in

  let slotExpr := dataExpr "n.cuts"%string in
  do u <- require (isInteger slotExpr) "Maximum number of cuts must be of integer type.";
  do u <- require (Rlength slotExpr =? numPredictors data)%nat
            "Length of maximum number of cuts and the number of columns of x must be equal.";
  let data :=
    set_maxNumCuts data
      (Some (map wrap32 (firstn (numPredictors data) (INTEGER slotExpr)))) in
  Returned data.
End InitializeData.

(** ** Reference implementations of what the sources only call

    They give the general statements below something to be applied to, and
    the concrete runs something to run on. *)

Module Reference.

(** [y[indices[i]]] for [i < n]. *)
Definition gather (y : list R) (indices : list nat) (n : nat) : list R :=
  map (fun i => nth i y 0) (firstn n indices).

Fixpoint weightedSum (w x : list R) (n : nat) : R :=
  match n, w, x with
  | S n', wi :: w', xi :: x' => wi * xi + weightedSum w' x' n'
  | _, _, _ => 0
  end.

Definition squaredDeviations (x : list R) (n : nat) (m : R) : list R :=
  map (fun xi => (xi - m) * (xi - m)) (firstn n x).

Definition computeMean (x : list R) (n : nat) : R :=
  ext_sumVectorElements x n / INR n.

Definition computeWeightedMean (x : list R) (n : nat) (w : list R) : R * R :=
  (weightedSum w x n / ext_sumVectorElements w n, ext_sumVectorElements w n).

Definition computeVarianceForKnownMean (x : list R) (n : nat) (m : R) : R :=
  ext_sumVectorElements (squaredDeviations x n m) n / INR (n - 1).

Definition computeWeightedVarianceForKnownMean (x : list R) (n : nat) (w : list R) (m : R)
    : R :=
  weightedSum w (squaredDeviations x n m) n / INR (n - 1).

(** Modelled from the spec: external/stats_mt.h is not part of the sources.
    The mean is the (weighted) average, the effective number of
    observations the sum of the weights, and the variance around a known
    mean the (weighted) sum of squared deviations over [n - 1]. *)
Definition stats : ExtStats :=
  {| ext_mt_computeMean := computeMean;
     ext_mt_computeIndexedMean := fun y idx n => computeMean (gather y idx n) n;
     ext_mt_computeWeightedMean := computeWeightedMean;
     ext_mt_computeIndexedWeightedMean :=
       fun y idx n w => computeWeightedMean (gather y idx n) n (gather w idx n);
     ext_mt_computeVarianceForKnownMean := computeVarianceForKnownMean;
     ext_mt_computeIndexedVarianceForKnownMean :=
       fun y idx n m => computeVarianceForKnownMean (gather y idx n) n m;
     ext_mt_computeWeightedVarianceForKnownMean := computeWeightedVarianceForKnownMean;
     ext_mt_computeIndexedWeightedVarianceForKnownMean :=
       fun y idx n w m =>
         computeWeightedVarianceForKnownMean (gather y idx n) n (gather w idx n) m |}.

End Reference.

(** The integrated log-likelihood of a leaf as the specification writes it:
    [L = 1/2 log(tau / (tau + n_eff/sigma^2)) - 1/2 (n_eff - 1) var_y / sigma^2
       - 1/2 (tau n_eff y_bar^2) / (sigma^2 (tau + n_eff/sigma^2))]. *)
Definition specLogIntegratedLikelihood (tau n_eff sigma_sq y_bar var_y : R) : R :=
  1 / 2 * ln (tau / (tau + n_eff / sigma_sq))
  - 1 / 2 * (n_eff - 1) * var_y / sigma_sq
  - 1 / 2 * (tau * n_eff * (y_bar * y_bar)) / (sigma_sq * (tau + n_eff / sigma_sq)).

(** The same with the number of observations [n] of the leaf in the second term. *)
Definition countLogIntegratedLikelihood (tau n_eff n sigma_sq y_bar var_y : R) : R :=
  1 / 2 * ln (tau / (tau + n_eff / sigma_sq))
  - 1 / 2 * (n - 1) * var_y / sigma_sq
  - 1 / 2 * (tau * n_eff * (y_bar * y_bar)) / (sigma_sq * (tau + n_eff / sigma_sq)).

(** A fit over trees of any kind with the given weights and leaf precision. *)
Definition leafFit (w : option (list R)) (n : nat) (tau : R) : BARTFit unit :=
  {| control :=
       {| responseIsBinary := false; verbose := false; keepTrainingFits := true;
          useQuantiles := false; numTrees := 0; treeThinningRate := 1;
          hasCallback := false |};
     model :=
       {| responseModel := {| sigma := 1; scale := 1; HAS_SCALE_PARAMETER := true |};
          endNodeModel := {| precision := tau |} |};
     data :=
       {| y := []; X := []; X_test := None; weights := w; offset := None;
          testOffset := None; numObservations := n; numPredictors := 0;
          numTestObservations := 0; sigmaEstimate := 1; variableTypes := [];
          maxNumCuts := None |};
     scratch :=
       {| yRescaled := []; Xt := []; treeY := [];
          dataScale := {| dsMin := 0; dsMax := 1; dsRange := 1 |};
          cutPoints := []; numCutsPerVariable := [] |};
     state := {| trees := []; treeFits := []; totalFits := []; totalTestFits := [] |} |}.

(** A root leaf of two observations whose scratch is still to be prepared. *)
Definition twoObservationLeaf : Node :=
  {| isTop := true; getObservationIndices := [0%nat; 1%nat]; getNumObservations := 2;
     getScratch := {| mu := 0; numEffectiveObservations := 0 |} |}.

(** A column of four distinct values. *)
Definition column0123 : list R := [0; 1; 2; 3].

(** The rule on replacement as the specification words it, for a cut-point
    routine: when a column induces (a first call on it yields) fewer cut
    points than the count already set, the call on that column is a fatal
    error. *)
Definition fewerCutPointsAreFatal
    (routine : nat -> list R -> Z -> Z -> list R -> outcome CutPointResult) : Prop :=
  forall (n : nat) (x : list R) (maxNumCuts previous : Z) (cuts : list R)
         (fresh : CutPointResult),
    previous <> UINT32_UNSET ->
    List.length cuts = Z.to_nat previous ->
    routine n x maxNumCuts UINT32_UNSET [] = Returned fresh ->
    (newNumCuts fresh < previous)%Z ->
    exists msg, routine n x maxNumCuts previous cuts = Thrown msg.

(** The cut points of uniform mode: [xMin + (i + 1) * xIncrement]. *)
Definition uniformCutPoint (xMin xIncrement : R) (i : nat) : R :=
  xMin + IZR (wrap64 (Z.of_nat i + 1)) * xIncrement.

(** A column of two values, and a buffer of two cut points to be replaced. *)
Definition column01 : list R := [0; 1].
Definition twoOldCuts : list R := [9; 9].

(** A generator whose state counts the draws made and whose truncated draws
    lie one unit on the allowed side of the bound. *)
Definition countingRng : RngOps nat :=
  {| ext_rng_simulateLowerTruncatedNormalScale1 := fun g _ bound => (bound + 1, S g);
     ext_rng_simulateUpperTruncatedNormalScale1 := fun g _ bound => (bound - 1, S g) |}.

(** Modelled from the spec: external/random.h is not part of the sources; a
    draw truncated below is not below its bound, one truncated above not
    above it. *)
Class RngTruncates {Rng : Type} (rngOps : RngOps Rng) : Prop := {
  lower_truncated :
    forall g mean bound,
      bound <= fst (ext_rng_simulateLowerTruncatedNormalScale1 g mean bound);
  upper_truncated :
    forall g mean bound,
      fst (ext_rng_simulateUpperTruncatedNormalScale1 g mean bound) <= bound
}.

(** A fit with a continuous response of two observations, [y = (0, 1)],
    hence already scaled with range [1], and no tree. *)
Definition twoObservationFit (binary : bool) (o : option (list R)) : BARTFit unit :=
  {| control :=
       {| responseIsBinary := binary; verbose := false; keepTrainingFits := true;
          useQuantiles := false; numTrees := 0; treeThinningRate := 1;
          hasCallback := false |};
     model :=
       {| responseModel := {| sigma := 3; scale := 5; HAS_SCALE_PARAMETER := true |};
          endNodeModel := {| precision := 1 |} |};
     data :=
       {| y := [0; 1]; X := [[0; 1]]; X_test := None; weights := None; offset := o;
          testOffset := None; numObservations := 2; numPredictors := 1;
          numTestObservations := 0; sigmaEstimate := 1; variableTypes := [ORDINAL];
          maxNumCuts := Some [1%Z] |};
     scratch :=
       {| yRescaled := [-0.5; 0.5]; Xt := [[0]; [1]]; treeY := [-0.5; 0.5];
          dataScale := {| dsMin := 0; dsMax := 1; dsRange := 1 |};
          cutPoints := [[0.5]]; numCutsPerVariable := [1%Z] |};
     state := {| trees := []; treeFits := []; totalFits := [0; 0]; totalTestFits := [] |} |}.

(** The offset of observation [i]: [0.0] when there is none. *)
Definition offsetAt {Tree : Type} (fit : BARTFit Tree) (i : nat) : R :=
  match offset (data fit) with
  | None => 0
  | Some o => nth i o 0
  end.

(** A host object with weights [(2, 2)] and no offset. *)
Definition weightsButNoOffset (name : string) : SEXP :=
  if String.eqb name "y" then RealVector [1; -1] None
  else if String.eqb name "x" then RealVector [0; 1] (Some [2%Z; 1%Z])
  else if String.eqb name "varTypes" then IntegerVector [0%Z]
  else if String.eqb name "weights" then RealVector [2; 2] None
  else if String.eqb name "sigma" then RealVector [1] None
  else if String.eqb name "n.cuts" then IntegerVector [1%Z]
  else R_NilValue.

(** A [Data] whose offset field holds [(7, 7)] before the initializer runs. *)
Definition dataWithOffset : Data := data (twoObservationFit false (Some [7; 7])).

(** *** A reference tree

    Modelled from the spec: tree.hpp and node.hpp are not part of the
    sources.  A tree is a leaf holding its observation indices and its
    parameter, or an ordinal split [(variableIndex, cutIndex)] with two
    children: "left iff X[.,j] <= cutPoints[j][c]".  Its memberships are
    recomputed from the transposed predictors; it is valid when no leaf is
    empty (a split that sends no observation to one side is not feasible).
    The moves of the sampler are those of a chain that proposes nothing:
    the structure and the leaf parameters stay, and so does sigma. *)
Module ReferenceTree.

Inductive Tree : Type :=
| Leaf (observationIndices : list nat) (mu : R)
| Split (variableIndex cutIndex : nat) (leftChild rightChild : Tree).

Definition goesLeft (fit : BARTFit Tree) (variableIndex cutIndex : nat) (i : nat) : bool :=
  let x := nth variableIndex (nth i (Xt (scratch fit)) []) 0 in
  let c := nth cutIndex (nth variableIndex (cutPoints (scratch fit)) []) 0 in
  if Rle_dec x c then true else false.

Fixpoint updateMemberships (fit : BARTFit Tree) (indices : list nat) (t : Tree) : Tree :=
  match t with
  | Leaf _ mu => Leaf indices mu
  | Split j c l r =>
      Split j c
        (updateMemberships fit (filter (goesLeft fit j c) indices) l)
        (updateMemberships fit (filter (fun i => negb (goesLeft fit j c i)) indices) r)
  end.

Definition updateFromRoot (fit : BARTFit Tree) (sigma_sq : R) (t : Tree) : Tree :=
  updateMemberships fit (seq 0 (numObservations (data fit))) t.

Fixpoint noLeafIsEmpty (t : Tree) : bool :=
  match t with
  | Leaf indices _ => negb (Nat.eqb (List.length indices) 0)
  | Split _ _ l r => noLeafIsEmpty l && noLeafIsEmpty r
  end.

(** [y_hat[i] = mu] for the observations [i] of every leaf. *)
Fixpoint writeFits (t : Tree) (y_hat : list R) : list R :=
  match t with
  | Leaf indices mu => fold_left (fun acc i => upd i mu acc) indices y_hat
  | Split _ _ l r => writeFits r (writeFits l y_hat)
  end.

Definition trainingFits (fit : BARTFit Tree) (t : Tree) : list R * list R :=
  (writeFits t (repeat 0 (numObservations (data fit))), []).

Fixpoint countSplits (t : Tree) (variableCounts : list Z) : list Z :=
  match t with
  | Leaf _ _ => variableCounts
  | Split j _ l r =>
      countSplits r
        (countSplits l (upd j (nth j variableCounts 0 + 1)%Z variableCounts))
  end.

Definition ops : TreeOps Tree nat :=
  {| updateWithNewCovariates := updateFromRoot;
     isValid := noLeafIsEmpty;
     prepareForMetropolisStep := fun _ _ _ t => t;
     drawFromTreeStructurePosterior := fun _ _ _ t rng => (t, rng);
     drawFromEndNodePosteriors := fun _ _ _ t rng => (t, rng);
     getFits := trainingFits;
     countVariableUses := countSplits;
     drawFromPosterior := fun fit _ _ rng => (sigma (responseModel (model fit)), rng) |}.

(** One tree that splits the two observations of the column [(0, 1)] at
    the cut point [0.5], with leaf parameters [-1/4] and [1/4]. *)
Definition stump : Tree := Split 0 0 (Leaf [0%nat] (- (1 / 4))) (Leaf [1%nat] (1 / 4)).

Definition stumpFit : BARTFit Tree :=
  {| control :=
       {| responseIsBinary := false; verbose := false; keepTrainingFits := true;
          useQuantiles := false; numTrees := 1; treeThinningRate := 1;
          hasCallback := false |};
     model :=
       {| responseModel := {| sigma := 1; scale := 1; HAS_SCALE_PARAMETER := true |};
          endNodeModel := {| precision := 1 |} |};
     data :=
       {| y := [0; 1]; X := [[0; 1]]; X_test := None; weights := None; offset := None;
          testOffset := None; numObservations := 2; numPredictors := 1;
          numTestObservations := 0; sigmaEstimate := 1; variableTypes := [ORDINAL];
          maxNumCuts := Some [1%Z] |};
     scratch :=
       {| yRescaled := [- (1 / 2); 1 / 2]; Xt := [[0]; [1]]; treeY := [- (1 / 2); 1 / 2];
          dataScale := {| dsMin := 0; dsMax := 1; dsRange := 1 |};
          cutPoints := [[0 + 1 * ((1 - 0) / 2)]]; numCutsPerVariable := [1%Z] |};
     state :=
       {| trees := [stump]; treeFits := [[- (1 / 4); 1 / 4]];
          totalFits := [- (1 / 4); 1 / 4]; totalTestFits := [] |} |}.

(** A column on which the split of [stump] sends both observations left. *)
Definition constantColumn : list R := [0; 0].

End ReferenceTree.

(** The invariant of the fits: the buffers have their sizes, and
    [totalFits[i]] is the sum over the trees [t] of [treeFits[i, t]]. *)
Definition sumOverTrees (treeFits : list (list R)) (i : nat) : R :=
  fold_right Rplus 0 (map (fun row => nth i row 0) treeFits).

Definition totalIsSumOfTreeFits {Tree : Type} (fit : BARTFit Tree) : Prop :=
  let n := numObservations (data fit) in
  List.length (totalFits (state fit)) = n /\
  Forall (fun row => List.length row = n) (treeFits (state fit)) /\
  forall i, (i < n)%nat ->
    nth i (totalFits (state fit)) 0 = sumOverTrees (treeFits (state fit)) i.

(** The invariant of the sampler: its fit has the invariant, and the buffer
    [currFits] holds one entry per observation. *)
Definition samplerFitsAreConsistent {Tree Rng : Type} (s : Sampler Tree Rng) : Prop :=
  totalIsSumOfTreeFits (theFit s) /\
  List.length (currFits s) = numObservations (data (theFit s)).

(** What iteration [k] of the sampler adds to the trace: itself and, when
    it is a [thin]-th iteration, the call of storeSamples (into the first
    slot while burning in) and of the callback, if there is one. *)
Definition eventsOfIteration (numBurnIn thin : Z) (callback : bool) (k : Z) : list Event :=
  Iteration k ::
  (if ((k + 1) mod thin =? 0)%Z then
     let majorIterationNum := (k / thin)%Z in
     let isBurningIn := (majorIterationNum <? numBurnIn)%Z in
     let simNum := if isBurningIn then 0%Z else (majorIterationNum - numBurnIn)%Z in
     SampleStored k simNum isBurningIn ::
     (if callback then [CallbackInvoked k simNum isBurningIn] else [])
   else []).

(** The iteration numbers [from, from + 1, ..., from + count - 1]. *)
Definition iterationNumbers (from count : nat) : list Z := map Z.of_nat (seq from count).

(** The rule of the specification on what is written when: iteration [k]
    writes a sample exactly when it is a [thin]-th iteration past burn-in. *)
Definition writesOnlyAfterBurnIn (numBurnIn thin : Z) (events : list Event) : Prop :=
  forall k : Z,
    (exists simNum isBurningIn, In (SampleStored k simNum isBurningIn) events)
    <-> ((k + 1) mod thin = 0 /\ numBurnIn <= k / thin)%Z.

(** The buffers of a fit with a binary response hold one entry per
    observation, so that the latent variables can be drawn. *)
Definition latentBuffersFit {Tree : Type} (fit : BARTFit Tree) : Prop :=
  responseIsBinary (control fit) = true ->
  let n := numObservations (data fit) in
  (n <= List.length (y (data fit)))%nat /\
  (n <= List.length (yRescaled (scratch fit)))%nat /\
  (n <= List.length (totalFits (state fit)))%nat /\
  match offset (data fit) with
  | None => True
  | Some o => (n <= List.length o)%nat
  end.

(** What a round of the tree sweep leaves as it is. *)
Definition sweepFrame {Tree Rng : Type} (s s' : Sampler Tree Rng) : Prop :=
  control (theFit s') = control (theFit s) /\
  model (theFit s') = model (theFit s) /\
  data (theFit s') = data (theFit s) /\
  yRescaled (scratch (theFit s')) = yRescaled (scratch (theFit s)) /\
  dataScale (scratch (theFit s')) = dataScale (scratch (theFit s)) /\
  List.length (totalFits (state (theFit s'))) = List.length (totalFits (state (theFit s))) /\
  theResults s' = theResults s /\
  trace s' = trace s.

Definition isIteration (e : Event) : bool :=
  match e with Iteration _ => true | _ => false end.

(** The number of iterations a run entered. *)
Definition iterationsExecuted (events : list Event) : nat :=
  List.length (filter isIteration events).

(** Two fits that differ in their state at most. *)
Definition sameSurroundings {Tree : Type} (fit fit' : BARTFit Tree) : Prop :=
  control fit = control fit' /\ model fit = model fit' /\
  data fit = data fit' /\ scratch fit = scratch fit'.

(** The tree methods read the control, model, data and scratch of the fit
    they are handed, not its ensemble: "no node is shared across trees". *)
Class TreeOpsAreLocal {Tree Rng : Type} (treeOps : TreeOps Tree Rng) : Prop := {
  updateWithNewCovariates_local :
    forall (fit fit' : BARTFit Tree) (sigma_sq : R) (t : Tree),
      sameSurroundings fit fit' ->
      updateWithNewCovariates fit sigma_sq t = updateWithNewCovariates fit' sigma_sq t
}.

(** The fit setPredictor hands to the trees: the new matrix and its
    transpose are in place, the state is still the one before the call. *)
Definition withNewPredictor {Tree : Type} (fit : BARTFit Tree) (newPredictor : list (list R))
    : BARTFit Tree :=
  let fit := with_data fit (set_X (data fit) newPredictor) in
  with_scratch fit
    (set_Xt (scratch fit)
       (transposeInto (Xt (scratch fit)) (firstn (numPredictors (data fit)) (X (data fit))) 0
          (numObservations (data fit)))).

(** The shape of the predictors of an existing fit: [X] has [p] columns of
    [n] entries, [Xt] is its transpose, every column has its cut points
    set, and the ensemble has [numTrees] trees. *)
Definition predictorsWellFormed {Tree : Type} (fit : BARTFit Tree) : Prop :=
  let n := numObservations (data fit) in
  let p := numPredictors (data fit) in
  List.length (X (data fit)) = p /\
  Forall (fun column => List.length column = n) (X (data fit)) /\
  List.length (Xt (scratch fit)) = n /\
  Forall (fun row => List.length row = p) (Xt (scratch fit)) /\
  (forall row col, (row < n)%nat -> (col < p)%nat ->
     nth col (nth row (Xt (scratch fit)) []) 0 = nth row (nth col (X (data fit)) []) 0) /\
  List.length (cutPoints (scratch fit)) = p /\
  List.length (numCutsPerVariable (scratch fit)) = p /\
  (forall col, (col < p)%nat ->
     nth col (numCutsPerVariable (scratch fit)) 0%Z <> UINT32_UNSET /\
     List.length (nth col (cutPoints (scratch fit)) [])
     = Z.to_nat (nth col (numCutsPerVariable (scratch fit)) 0%Z)) /\
  List.length (trees (state fit)) = numTrees (control fit).

(** A cut-point routine that, on a column whose count is set, leaves the
    count and the size of the buffer as they are. *)
Definition keepsCount
    (routine : nat -> list R -> Z -> Z -> list R -> outcome CutPointResult) : Prop :=
  forall n x maxNumCuts previous cuts r,
    previous <> UINT32_UNSET ->
    routine n x maxNumCuts previous cuts = Returned r ->
    newNumCuts r = previous /\ List.length (newCutPoints r) = List.length cuts.

(** The counts set, and the size of every buffer of cut points. *)
Definition sameCutShape {Tree : Type} (fit fit' : BARTFit Tree) : Prop :=
  numCutsPerVariable (scratch fit') = numCutsPerVariable (scratch fit) /\
  List.length (cutPoints (scratch fit')) = List.length (cutPoints (scratch fit)) /\
  forall col, List.length (nth col (cutPoints (scratch fit')) [])
              = List.length (nth col (cutPoints (scratch fit)) []).

(** The three writes of one round of the loop of updatePredictors that puts
    the stored columns back, each on the buffer it writes. *)
Definition restoreXStep (n : nat) (X0 : list (list R)) (Xc : list (list R)) (col : nat)
    : list (list R) :=
  upd col (memcpy (nth col Xc []) (firstn n (nth col X0 [])) n) Xc.

Definition restoreXtStep (n : nat) (X0 : list (list R)) (Xtc : list (list R)) (col : nat)
    : list (list R) :=
  writeXtColumn Xtc col (firstn n (nth col X0 [])) n.

Definition restoreCutsStep (numCuts : list Z) (cuts0 : list (list R)) (cutsc : list (list R))
    (col : nat) : list (list R) :=
  let k := Z.to_nat (nth col numCuts 0%Z) in
  upd col (memcpy (nth col cutsc []) (firstn k (nth col cuts0 [])) k) cutsc.

(** Modelled from the spec: the memberships of a tree are recomputed from
    the fit it is handed ("every affected subtree's observation partition is
    recomputed"), so that what an earlier update left behind does not
    matter. *)
Class TreesFollowTheFit {Tree Rng : Type} (treeOps : TreeOps Tree Rng) : Prop := {
  update_overwrites :
    forall (fit fit' : BARTFit Tree) (sigma_sq sigma_sq' : R) (t : Tree),
      updateWithNewCovariates fit' sigma_sq' (updateWithNewCovariates fit sigma_sq t)
      = updateWithNewCovariates fit' sigma_sq' t
}.

(** The trees of a fit hold the memberships its predictors give them. *)
Definition treesAgreeWithFit {Tree Rng : Type} {treeOps : TreeOps Tree Rng}
    (fit : BARTFit Tree) : Prop :=
  forall t, In t (trees (state fit)) ->
    updateWithNewCovariates fit (CHEAT_SIGMA (model fit) * CHEAT_SIGMA (model fit)) t = t.

(** ** Reading the quantile loop *)

(** The cut point [i] of a column whose sorted distinct values are [v]. *)
Definition quantileCutPoint (v : list R) (step offset : Z) (i : nat) : R :=
  let index := quantileIndex (Z.of_nat i) step offset (Z.of_nat (List.length v)) in
  0.5 * (nth (Z.to_nat index) v 0 + nth (Z.to_nat (wrap64 (index + 1))) v 0).

(** Both reads of round [i] fall inside [v]. *)
Definition quantileReadsInside (v : list R) (step offset : Z) (i : nat) : Prop :=
  let index := quantileIndex (Z.of_nat i) step offset (Z.of_nat (List.length v)) in
  (Z.to_nat index < List.length v)%nat /\
  (Z.to_nat (wrap64 (index + 1)) < List.length v)%nat.


(** * The rest of the sources

    What follows embeds the functions of the same files that the
    statements above do not reach. *)

From Stdlib Require Import Sorted.

(** ** Construction of a fit (bartFit.cpp) *)

(** [Node::initialize(fit, node, indices, numObservations)] of node.hpp,
    which the sources only call: the root it leaves in the storage of a
    tree. *)
Class NodeOps (Tree : Type) : Type := {
  Node_initialize : BARTFit Tree -> nat -> Tree
}.

(** [scratch.Xt_test], which the record [Scratch] above does not hold: it
    is threaded beside the fit by the functions that write it; [None] is
    the NULL pointer. *)
Definition TestScratch : Type := option (list (list R)).

Definition set_testOffset (d : Data) (v : option (list R)) : Data :=
  {| y := y d; X := X d; X_test := X_test d; weights := weights d; offset := offset d;
     testOffset := v; numObservations := numObservations d;
     numPredictors := numPredictors d; numTestObservations := numTestObservations d;
     sigmaEstimate := sigmaEstimate d; variableTypes := variableTypes d;
     maxNumCuts := maxNumCuts d |}.

Section Construction.
Context {Tree Rng : Type} {treeOps : TreeOps Tree Rng} {nodeOps : NodeOps Tree}.
Implicit Type fit : BARTFit Tree.

Local Open Scope outcome_scope.

(** The branch without MATCH_BAYES_TREE:
    [z = 2.0 * y - 1.0 - offset; so -1 if y == 0 and 1 if y == 1 when offset == 0]. *)
Definition initializeLatents fit : BARTFit Tree :=
  let n := numObservations (data fit) in
  let z := ext_setVectorToConstant (yRescaled (scratch fit)) n (- 1) in
  let z :=
    match offset (data fit) with
    | Some o => ext_addVectorsInPlace o n (- 1) z
    | None => z
    end in
  let z := ext_addVectorsInPlace (y (data fit)) n 2 z in
  with_scratch fit
    (set_dataScale (set_yRescaled (scratch fit) z)
       {| dsMin := - 1; dsMax := 1; dsRange := 2 |}).

(** A buffer [new double[rows * columns]], row by row; what it holds before
    it is written is not read. *)
Definition newMatrix (rows columns : nat) : list (list R) := repeat (repeat 0 columns) rows.

(** allocateMemory.  The thread manager it may create holds no state of the
    embedding. *)
Definition allocateMemory fit : outcome (BARTFit Tree * TestScratch) :=
  let n := numObservations (data fit) in
  let p := numPredictors (data fit) in
  let m := numTestObservations (data fit) in
  let fit := with_scratch fit (set_yRescaled (scratch fit) (repeat 0 n)) in
  do fit <-
    (if responseIsBinary (control fit) then Returned (initializeLatents fit)
     else rescaleResponse fit);
  let Xt := transposeInto (newMatrix n p) (firstn p (X (data fit))) 0 n in
  let fit := with_scratch fit (set_Xt (scratch fit) Xt) in
  do Xt_test <-
    (if (0 <? m)%nat then
       match X_test (data fit) with
       | Some X_test => Returned (Some (transposeInto (newMatrix m p) (firstn p X_test) 0 m))
       | None => Undefined
       end
     else Returned None);
  let treeY := memcpy (repeat 0 n) (yRescaled (scratch fit)) n in
  let fit := with_scratch fit (set_treeY (scratch fit) treeY) in
  let fit := with_scratch fit (set_cuts (scratch fit) (repeat 0%Z p) (repeat [] p)) in
  let trees := map (fun _ => Node_initialize fit n) (seq 0 (numTrees (control fit))) in
  Returned (with_state fit (set_trees (state fit) trees), Xt_test).

Definition setPrior fit : BARTFit Tree :=
  let fit :=
    with_model fit
      (set_sigma (model fit)
         (if responseIsBinary (control fit) then 1
          else sigmaEstimate (data fit) / dsRange (dataScale (scratch fit)))) in
  with_model fit
    (setScale (model fit)
       (CHEAT_SIGMA (model fit) * CHEAT_SIGMA (model fit) * getScale (model fit))).

Definition setInitialCutPoints fit : outcome (BARTFit Tree) :=
  let p := numPredictors (data fit) in
  let numCutsPerVariable :=
    overwrite (numCutsPerVariable (scratch fit)) (repeat UINT32_UNSET p) in
  let cutPoints := overwrite (cutPoints (scratch fit)) (repeat [] p) in
  let fit := with_scratch fit (set_cuts (scratch fit) numCutsPerVariable cutPoints) in
  setCutPoints fit (seq 0 p) p.

(** [BARTFit::BARTFit(control, model, data)]; [scratch()] and [state()] hold
    null pointers; the size of a node in memory, the running time and the
    summary printed when [verbose] is set are not part of the embedding. *)
Definition newBARTFit (control : Control) (model : Model) (data : Data)
    : outcome (BARTFit Tree * TestScratch) :=
  let fit :=
    {| control := control; model := model; data := data;
       scratch :=
         {| yRescaled := []; Xt := []; treeY := [];
            dataScale := {| dsMin := 0; dsMax := 0; dsRange := 0 |};
            cutPoints := []; numCutsPerVariable := [] |};
       state := {| trees := []; treeFits := []; totalFits := []; totalTestFits := [] |} |} in
  do r <- allocateMemory fit;
  let '(fit, Xt_test) := r in
  let fit := setPrior fit in
  do fit <- setInitialCutPoints fit;
  let fit := setInitialFit fit in
  Returned (fit, Xt_test).

(** *** The test observations *)

(** The loop of updateTestFits; [getFits] is handed no training buffer. *)
Fixpoint updateTestFitsLoop (count i : nat) fit (currTestFits : list R)
    : BARTFit Tree * list R :=
  match count with
  | O => (fit, currTestFits)
  | S count' =>
      match nth_error (trees (state fit)) i with
      | Some tree_i =>
          let m := numTestObservations (data fit) in
          let currTestFits := overwrite currTestFits (snd (getFits fit tree_i)) in
          let total := ext_addVectorsInPlace currTestFits m 1 (totalTestFits (state fit)) in
          updateTestFitsLoop count' (S i)
            (with_state fit (set_totalTestFits (state fit) total)) currTestFits
      | None => (fit, currTestFits)
      end
  end.

(** updateTestFits, called with [state.totalTestFits]. *)
Definition updateTestFits fit : BARTFit Tree :=
  let m := numTestObservations (data fit) in
  let currTestFits := repeat 0 m in
  let fit :=
    with_state fit
      (set_totalTestFits (state fit)
         (ext_setVectorToConstant (totalTestFits (state fit)) m 0)) in
  fst (updateTestFitsLoop (numTrees (control fit)) 0 fit currTestFits).

(** The offset argument of setTestPredictorAndOffset:
    "setting testOffset to NULL is valid; an invalid pointer address for
    testOffset is the object itself; when invalid, it is not updated". *)
Inductive TestOffsetArgument : Type :=
| INVALID_ADDRESS
| Address (testOffset : option (list R)).

Definition setTestPredictorAndOffset fit (Xt_test : TestScratch)
    (X_test : option (list (list R))) (testOffset : TestOffsetArgument)
    (numTestObservations' : nat) : outcome (BARTFit Tree * TestScratch) :=
  let p := numPredictors (data fit) in
  match (numTestObservations' =? 0)%nat, X_test with
  | false, Some X_test' =>
      let resize := negb (numTestObservations' =? numTestObservations (data fit))%nat in
      let fit := with_data fit (set_X_test (data fit) X_test (numTestObservations (data fit))) in
      let Xt_test :=
        if resize then Some (newMatrix numTestObservations' p) else Xt_test in
      let fit :=
        if resize then
          with_state
            (with_data fit (set_X_test (data fit) X_test numTestObservations'))
            (set_totalTestFits (state fit) (repeat 0 numTestObservations'))
        else fit in
      match Xt_test with
      | None => Undefined
      | Some buffer =>
          let buffer :=
            transposeInto buffer (firstn p X_test') 0 (numTestObservations (data fit)) in
          let fit :=
            match testOffset with
            | INVALID_ADDRESS => fit
            | Address o => with_data fit (set_testOffset (data fit) o)
            end in
          Returned (updateTestFits fit, Some buffer)
      end
  | _, _ =>
      let fit := with_state fit (set_totalTestFits (state fit) []) in
      let fit := with_data fit (set_testOffset (set_X_test (data fit) None 0) None) in
      Returned (fit, None)
  end.

Definition setTestPredictor fit (Xt_test : TestScratch)
    (newTestPredictor : option (list (list R))) (numTestObservations' : nat)
    : outcome (BARTFit Tree * TestScratch) :=
  setTestPredictorAndOffset fit Xt_test newTestPredictor INVALID_ADDRESS numTestObservations'.

Definition setTestOffset fit (newTestOffset : option (list R)) : BARTFit Tree :=
  with_data fit (set_testOffset (data fit) newTestOffset).

(** One round of the loop of updateTestPredictors, on the two matrices. *)
Definition installTestColumn (m : nat) (X_test Xt_test : list (list R)) (col : nat)
    (x : list R) : list (list R) * list (list R) :=
  (upd col (memcpy (nth col X_test []) x m) X_test, writeXtColumn Xt_test col x m).

Fixpoint installTestColumns (m : nat) (X_test Xt_test : list (list R))
    (columns : list nat) (newTestPredictor : list (list R))
    : list (list R) * list (list R) :=
  match columns, newTestPredictor with
  | col :: columns', x :: newTestPredictor' =>
      let '(X_test, Xt_test) := installTestColumn m X_test Xt_test col x in
      installTestColumns m X_test Xt_test columns' newTestPredictor'
  | _, _ => (X_test, Xt_test)
  end.

Definition updateTestPredictors fit (Xt_test : TestScratch)
    (newTestPredictor : list (list R)) (columns : list nat) (numColumns : nat)
    : outcome (BARTFit Tree * TestScratch) :=
  let m := numTestObservations (data fit) in
  let columns := firstn numColumns columns in
  match columns, X_test (data fit), Xt_test with
  | [], _, _ => Returned (updateTestFits fit, Xt_test)
  | _ :: _, Some X_test, Some buffer =>
      let '(X_test, buffer) := installTestColumns m X_test buffer columns newTestPredictor in
      let fit := with_data fit (set_X_test (data fit) (Some X_test) m) in
      Returned (updateTestFits fit, Some buffer)
  | _ :: _, _, _ => Undefined
  end.

Definition updateTestPredictor fit (Xt_test : TestScratch) (newTestPredictor : list R)
    (column : nat) : outcome (BARTFit Tree * TestScratch) :=
  updateTestPredictors fit Xt_test [newTestPredictor] [column] 1.

End Construction.

(** ** Invariants of the predictors *)

(** [X] has [p] columns of [n] entries and [Xt] has [n] rows of [p] entries. *)
Definition predictorShape {Tree : Type} (fit : BARTFit Tree) : Prop :=
  let n := numObservations (data fit) in
  let p := numPredictors (data fit) in
  List.length (X (data fit)) = p /\
  Forall (fun column => List.length column = n) (X (data fit)) /\
  List.length (Xt (scratch fit)) = n /\
  Forall (fun row => List.length row = p) (Xt (scratch fit)).

(** [Xt[row * p + col] = X[row + col * n]] *)
Definition XtIsTransposeOfX {Tree : Type} (fit : BARTFit Tree) : Prop :=
  forall row col,
    (row < numObservations (data fit))%nat -> (col < numPredictors (data fit))%nat ->
    nth col (nth row (Xt (scratch fit)) []) 0 = nth row (nth col (X (data fit)) []) 0.

(** Modelled from the spec: node.hpp is not part of the sources.  "Start
    with a single root", which holds every observation; its parameter is 0
    until it is drawn. *)
Definition referenceNodeOps : NodeOps ReferenceTree.Tree :=
  {| Node_initialize := fun _ n => ReferenceTree.Leaf (seq 0 n) 0 |}.

(** ** The test side of a fit *)

(** [Mt], of [rows] rows of [columns] entries, is the transpose of [M], of
    [columns] columns of [rows] entries:
    [Mt[row * columns + col] = M[row + col * rows]]. *)
Definition isTransposeOf (rows columns : nat) (Mt M : list (list R)) : Prop :=
  List.length M = columns /\
  Forall (fun column => List.length column = rows) M /\
  List.length Mt = rows /\
  Forall (fun row => List.length row = columns) Mt /\
  forall row col, (row < rows)%nat -> (col < columns)%nat ->
    nth col (nth row Mt []) 0 = nth row (nth col M []) 0.

(** What the statements on the test fits ask of [getFits]: it reads the
    control, model, data and scratch of the fit it is handed, not the fits
    of the ensemble, and it fills the test buffer, which holds one entry
    per test observation. *)
Class FitsAreLocal {Tree Rng : Type} (treeOps : TreeOps Tree Rng) : Prop := {
  getFits_local :
    forall (fit fit' : BARTFit Tree) (t : Tree),
      sameSurroundings fit fit' -> getFits fit t = getFits fit' t;
  getFits_fills_the_test_buffer :
    forall (fit : BARTFit Tree) (t : Tree),
      List.length (snd (getFits fit t)) = numTestObservations (data fit)
}.

(** The test fits of the [numTrees] trees of a fit, one row per tree. *)
Definition testFitsOfTrees {Tree Rng : Type} {treeOps : TreeOps Tree Rng}
    (fit : BARTFit Tree) : list (list R) :=
  map (fun t => snd (getFits fit t)) (firstn (numTrees (control fit)) (trees (state fit))).

(** Everything but the test side of two fits agrees. *)
Definition sameTrainingSide {Tree : Type} (fit fit' : BARTFit Tree) : Prop :=
  control fit' = control fit /\ model fit' = model fit /\ scratch fit' = scratch fit /\
  trees (state fit') = trees (state fit) /\ treeFits (state fit') = treeFits (state fit) /\
  totalFits (state fit') = totalFits (state fit) /\
  y (data fit') = y (data fit) /\ X (data fit') = X (data fit) /\
  weights (data fit') = weights (data fit) /\ offset (data fit') = offset (data fit) /\
  numObservations (data fit') = numObservations (data fit) /\
  numPredictors (data fit') = numPredictors (data fit) /\
  sigmaEstimate (data fit') = sigmaEstimate (data fit) /\
  variableTypes (data fit') = variableTypes (data fit) /\
  maxNumCuts (data fit') = maxNumCuts (data fit).

Module ReferenceTestTree.
Import ReferenceTree.

(** Modelled from the spec: tree.hpp is not part of the sources.  "Test
    fits are produced by mapping each test row through the tree's rules to
    a leaf index, then indexing the parameter vector." *)
Fixpoint leafParameterAt (fit : BARTFit Tree) (i : nat) (t : Tree) : R :=
  match t with
  | Leaf _ mu => mu
  | Split j c l r =>
      let x := nth i (nth j (match X_test (data fit) with Some M => M | None => [] end) []) 0 in
      let cut := nth c (nth j (cutPoints (scratch fit)) []) 0 in
      if Rle_dec x cut then leafParameterAt fit i l else leafParameterAt fit i r
  end.

Definition testFits (fit : BARTFit Tree) (t : Tree) : list R :=
  map (fun i => leafParameterAt fit i t) (seq 0 (numTestObservations (data fit))).

Definition ops : TreeOps Tree nat :=
  {| updateWithNewCovariates := updateFromRoot;
     isValid := noLeafIsEmpty;
     prepareForMetropolisStep := fun _ _ _ t => t;
     drawFromTreeStructurePosterior := fun _ _ _ t rng => (t, rng);
     drawFromEndNodePosteriors := fun _ _ _ t rng => (t, rng);
     getFits := fun fit t => (fst (trainingFits fit t), testFits fit t);
     countVariableUses := countSplits;
     drawFromPosterior := fun fit _ _ rng => (sigma (responseModel (model fit)), rng) |}.

(** The stump with two test observations, one on each side of the cut
    point, and the test buffers the constructor leaves. *)
Definition stumpFitWithTests : BARTFit Tree :=
  let fit :=
    with_data stumpFit (set_X_test (data stumpFit) (Some [[0; 1]]) 2) in
  with_state fit (set_totalTestFits (state fit) [0; 0]).

End ReferenceTestTree.

(** ** Host objects (R_interface.cpp) *)

(** What the host guarantees of a real vector with a [dim] attribute of two
    entries: the entries are not negative and their product is the length
    of the vector. *)
Definition isHostMatrix (expr : SEXP) : Prop :=
  forall v rows cols,
    expr = RealVector v (Some [rows; cols]) ->
    (0 <= rows)%Z /\ (0 <= cols)%Z /\ Z.of_nat (List.length v) = (rows * cols)%Z.

(** The sizes of a [Data] agree with the buffers it points to. *)
Definition dataIsConsistent (d : Data) : Prop :=
  let n := numObservations d in
  let p := numPredictors d in
  let m := numTestObservations d in
  (0 < n)%nat /\
  List.length (y d) = n /\
  List.length (X d) = p /\
  Forall (fun column => List.length column = n) (X d) /\
  List.length (variableTypes d) = p /\
  match weights d with Some w => List.length w = n | None => True end /\
  match X_test d with
  | Some M => (0 < m)%nat /\ List.length M = p /\ Forall (fun column => List.length column = m) M
  | None => m = 0%nat
  end /\
  0 < sigmaEstimate d /\
  exists cuts, maxNumCuts d = Some cuts /\ List.length cuts = p /\
               forall c, (c < p)%nat -> (0 <= nth c cuts 0 < 2 ^ 32)%Z.

(** A host object with a test matrix of three rows, weights and an
    offset. *)
Definition fullDataExpression (name : string) : SEXP :=
  if String.eqb name "y" then RealVector [1; -1] None
  else if String.eqb name "x" then RealVector [0; 1; 5; 6] (Some [2%Z; 2%Z])
  else if String.eqb name "varTypes" then IntegerVector [0%Z; 1%Z]
  else if String.eqb name "x.test" then RealVector [0; 1; 2; 5; 6; 7] (Some [3%Z; 2%Z])
  else if String.eqb name "weights" then RealVector [2; 2] None
  else if String.eqb name "offset" then RealVector [7; 7] None
  else if String.eqb name "sigma" then RealVector [1] None
  else if String.eqb name "n.cuts" then IntegerVector [1%Z; 3%Z]
  else R_NilValue.

(** ** The rest of the Mean-Normal model (endNodeModel.cpp) *)

(** The generator of external/random.h, for the draws of the end-node
    model; [fit.control.rng] is threaded beside the fit. *)
Class NormalRngOps (Rng : Type) : Type := {
  ext_rng_simulateStandardNormal : Rng -> R * Rng
}.

Module MeanNormalNode.
Section WithRng.
Context {Rng : Type} {normalRng : NormalRngOps Rng}.
Variable Tree : Type.
Implicit Type fit : BARTFit Tree.

(** [initializeMeanNormalModel(model)]: [model.precision = 1.0]. *)
Definition initializeMeanNormalModel : MeanNormalModel := {| precision := 1 |}.

(** [initializeMeanNormalModel(model, control, k)] *)
Definition initializeMeanNormalModelFromK (control : Control) (k : R) : MeanNormalModel :=
  let sigma :=
    (if responseIsBinary control then 3 else 0.5) / (k * sqrt (INR (numTrees control))) in
  {| precision := 1 / (sigma * sigma) |}.

(** print: the [k] it hands to [ext_printf]. *)
Definition print fit : R :=
  let sigma := sqrt (1 / precision (endNodeModel (model fit))) in
  (if responseIsBinary (control fit) then 3 else 0.5)
  / (sigma * sqrt (INR (numTrees (control fit)))).

Definition drawFromPrior fit (node : Node) (rng : Rng) : Node * Rng :=
  let scratch := getScratch node in
  let '(z, rng) := ext_rng_simulateStandardNormal rng in
  (MeanNormal.setScratch node
     {| mu := z / sqrt (precision (endNodeModel (model fit)));
        numEffectiveObservations := numEffectiveObservations scratch |},
   rng).

Definition drawFromPosterior fit (node : Node) (y : list R) (residualVariance : R)
    (rng : Rng) : Node * Rng :=
  let model := endNodeModel (model fit) in
  let scratch := getScratch node in
  let posteriorPrecision := numEffectiveObservations scratch / residualVariance in
  let posteriorMean := posteriorPrecision * mu scratch / (precision model + posteriorPrecision) in
  let posteriorSd := 1 / sqrt (precision model + posteriorPrecision) in
  let '(z, rng) := ext_rng_simulateStandardNormal rng in
  (MeanNormal.setScratch node
     {| mu := posteriorMean + posteriorSd * z;
        numEffectiveObservations := numEffectiveObservations scratch |},
   rng).

Definition getPrediction fit (node : Node) (Xt : list R) : R := mu (getScratch node).

Definition storeScratch fit (source : Node) : NodeScratch :=
  {| mu := mu (getScratch source);
     numEffectiveObservations := numEffectiveObservations (getScratch source) |}.

Definition restoreScratch fit (source : NodeScratch) (target : Node) : Node :=
  MeanNormal.setScratch target
    {| mu := mu source; numEffectiveObservations := numEffectiveObservations source |}.

Definition prepareScratchFromChildren fit (parentNode : Node) (y : list R)
    (residualVariance : R) (leftChildNode rightChildNode : Node) : Node :=
  let leftChild := getScratch leftChildNode in
  let rightChild := getScratch rightChildNode in
  let n := numEffectiveObservations leftChild + numEffectiveObservations rightChild in
  MeanNormal.setScratch parentNode
    {| mu := mu leftChild * (numEffectiveObservations leftChild / n)
             + mu rightChild * (numEffectiveObservations rightChild / n);
       numEffectiveObservations := n |}.

End WithRng.
End MeanNormalNode.

(** A generator that hands out the numbers of a list, then zeros. *)
Definition listNormalRng : NormalRngOps (list R) :=
  {| ext_rng_simulateStandardNormal :=
       fun rng => match rng with [] => (0, []) | z :: rng' => (z, rng') end |}.

(** A node below the root that holds the observations [indices]. *)
Definition nodeWith (indices : list nat) (s : NodeScratch) : Node :=
  {| isTop := false; getObservationIndices := indices;
     getNumObservations := List.length indices; getScratch := s |}.

(** ** The design matrices of the linear-regression model (endNodeModel.cpp) *)

Module LinearRegressionNormal.
Section WithTree.
Variable Tree : Type.
Implicit Type fit : BARTFit Tree.

(** The loop of initializeLinearRegressionNormalModel that fills
    [model.Xt], one column of [numPredictors + 1] entries per observation:
    [Xt[col * numPredictors] = 1.0] and
    [Xt[row + col * numPredictors + 1] = data.X[col + row * data.numObservations]]. *)
Definition initializeXt (data : Data) : list (list R) :=
  map (fun col =>
         1 :: map (fun row => nth col (nth row (X data) []) 0) (seq 0 (numPredictors data)))
    (seq 0 (numObservations data)).

(** createXtForNode: [Xt[col * numPredictors] = 1.0], then the
    [numPredictors] entries of [fit.scratch.Xt] from
    [observationIndices[col] * fit.data.numPredictors] on. *)
Definition createXtForNode fit (node : Node) : list (list R) :=
  map (fun col =>
         1 :: firstn (numPredictors (data fit))
                (nth (nth col (getObservationIndices node) 0%nat) (Xt (scratch fit)) []))
    (seq 0 (getNumObservations node)).

End WithTree.
End LinearRegressionNormal.

(** ** Control from host objects, and a run (R_interface.cpp) *)

Module RInterface.

(** The host values of [SEXP] and, beside them, the logical vectors the
    control is read from; a logical is an [int], [NA_LOGICAL] and
    [NA_INTEGER] are [INT_MIN]. *)
Inductive HostValue : Type :=
| Plain (expr : SEXP)
| LogicalVector (v : list Z).

Definition NA_INTEGER : Z := (- 2 ^ 31)%Z.
Definition NA_LOGICAL : Z := NA_INTEGER.

Definition isLogical (h : HostValue) : bool :=
  match h with LogicalVector _ => true | Plain _ => false end.

Definition hostIsInteger (h : HostValue) : bool :=
  match h with Plain expr => isInteger expr | LogicalVector _ => false end.

Definition hostLength (h : HostValue) : nat :=
  match h with Plain expr => Rlength expr | LogicalVector v => List.length v end.

Definition LOGICAL (h : HostValue) : list Z :=
  match h with LogicalVector v => v | Plain _ => [] end.

Definition hostINTEGER (h : HostValue) : list Z :=
  match h with Plain expr => INTEGER expr | LogicalVector _ => [] end.

(** The fields of [Control] that the record [Control] above does not hold. *)
Record ControlCounts : Type := {
  numSamples : Z;
  numBurnIn : Z;
  numThreads : Z;
  printEvery : Z;
  printCutoffs : Z
}.

Section InitializeControl.
Local Open Scope outcome_scope.

(** One logical slot: [isLogical], the test of its length ([length != 1]
    or [length == 0]), and [NA_LOGICAL]. *)
Definition logicalSlot (slotExpr : HostValue) (exactlyOne : bool)
    (typeMessage lengthMessage naMessage : string) : outcome bool :=
  do u <- require (isLogical slotExpr) typeMessage;
  do u <- require (if exactlyOne then (hostLength slotExpr =? 1)%nat
                   else negb (hostLength slotExpr =? 0)%nat) lengthMessage;
  let i_temp := nth 0 (LOGICAL slotExpr) 0%Z in
  do u <- require (negb (i_temp =? NA_LOGICAL)%Z) naMessage;
  Returned (negb (i_temp =? 0)%Z).

(** One integer slot, up to the read of its first entry. *)
Definition integerSlot (slotExpr : HostValue) (exactlyOne : bool)
    (typeMessage lengthMessage : string) : outcome Z :=
  do u <- require (hostIsInteger slotExpr) typeMessage;
  do u <- require (if exactlyOne then (hostLength slotExpr =? 1)%nat
                   else negb (hostLength slotExpr =? 0)%nat) lengthMessage;
  Returned (nth 0 (hostINTEGER slotExpr) 0%Z).

Definition initializeControlFromExpression (control : Control) (counts : ControlCounts)
    (controlExpr : string -> HostValue) : outcome (Control * ControlCounts) :=
  do binary <-
    logicalSlot (controlExpr "binary"%string) true
      "Binary response must be signified by logical type."
      "Binary response signifier must be of length 1."
      "Binary response must be either true or false.";
  do verbose' <-
    logicalSlot (controlExpr "verbose"%string) false
      "Verbose must be signified by logical type."
      "Verbose must be of length at least 1."
      "Verbose must be either true or false.";
  do keepTrainingFits' <-
    logicalSlot (controlExpr "keepTrainingFits"%string) true
      "Keep training fits must be signified by logical type."
      "Keep training fits must be of length 1."
      "Keep training fits must be either true or false.";
  do useQuantiles' <-
    logicalSlot (controlExpr "useQuantiles"%string) true
      "Use quantiles must be signified by logical type."
      "Use quantiles must be of length 1."
      "Use quantiles must be either true or false.";

  do i_temp <-
    integerSlot (controlExpr "n.samples"%string) true
      "Number of samples must be of integer type."
      "Number of samples must be of length 1.";
  do u <- require (negb (i_temp =? NA_INTEGER)%Z) "Number of samples cannot be NA.";
  do u <- require (negb (i_temp <=? 0)%Z) "Number of samples must be positive.";
  let numSamples' := i_temp in

  do i_temp <-
    integerSlot (controlExpr "n.burn"%string) true
      "Number of burn-in steps must be of integer type."
      "Number of burn-in steps must be of length 1.";
  let i_temp := if (i_temp =? NA_INTEGER)%Z then 0%Z else i_temp in
  do u <- require (negb (i_temp <? 0)%Z) "Number of burn-in steps must be non-negative.";
  let numBurnIn' := i_temp in

  do i_temp <-
    integerSlot (controlExpr "n.trees"%string) true
      "Number of trees must be of integer type."
      "Number of trees must be of length 1.";
  do u <- require (negb (i_temp =? NA_INTEGER)%Z) "Number of trees cannot be NA.";
  do u <- require (negb (i_temp <=? 0)%Z) "Number of trees must be positive.";
  let numTrees' := Z.to_nat i_temp in

  do i_temp <-
    integerSlot (controlExpr "n.threads"%string) true
      "Number of threads must be of integer type."
      "Number of threads must be of length 1.";
  let i_temp := if (i_temp =? NA_INTEGER)%Z then 1%Z else i_temp in
  do u <- require (negb (i_temp <=? 0)%Z) "Number of threads must be positive.";
  let numThreads' := i_temp in

  do i_temp <-
    integerSlot (controlExpr "n.thin"%string) true
      "Tree thinning rate must be of integer type."
      "Tree thinning rate must be of length 1.";
  let i_temp := if (i_temp =? NA_INTEGER)%Z then 1%Z else i_temp in
  do u <- require (negb (i_temp <? 0)%Z) "Tree thinning rate must be non-negative.";
  let treeThinningRate' := i_temp in

  do i_temp <-
    integerSlot (controlExpr "printEvery"%string) true
      "Print every must be of integer type."
      "Print every must be of length 1.";
  do printEvery' <-
    (if negb (i_temp =? NA_INTEGER)%Z then
       do u <- require (negb (i_temp <=? 0)%Z) "Print every must be positive.";
       Returned i_temp
     else Returned (printEvery counts));

  do i_temp <-
    integerSlot (controlExpr "printCutoffs"%string) false
      "Print cutoffs must be of integer type."
      "Print cutoffs must be of length at least 1.";
  let i_temp := if (i_temp =? NA_INTEGER)%Z then 0%Z else i_temp in
  do u <- require (negb (i_temp <? 0)%Z) "Print cutoffs must be non-negative.";
  let printCutoffs' := i_temp in

  Returned
    ({| responseIsBinary := binary; verbose := verbose';
        keepTrainingFits := keepTrainingFits'; useQuantiles := useQuantiles';
        numTrees := numTrees'; treeThinningRate := treeThinningRate';
        hasCallback := hasCallback control |},
     {| numSamples := numSamples'; numBurnIn := numBurnIn'; numThreads := numThreads';
        printEvery := printEvery'; printCutoffs := printCutoffs' |}).

(** The two arguments of dbarts_run: [NA_INTEGER] stands for the value of
    the control. *)
Definition runArguments (counts : ControlCounts) (numBurnInExpr numSamplesExpr : SEXP)
    : outcome (Z * Z) :=
  do u <- require (isInteger numBurnInExpr) "Number of burn-in steps must be of integer type.";
  do u <- require (negb (Rlength numBurnInExpr =? 0)%nat)
            "Number of burn-in steps must be of length at least 1.";
  let i_temp := nth 0 (INTEGER numBurnInExpr) 0%Z in
  do u <- require (negb (negb (i_temp =? NA_INTEGER)%Z && (i_temp <? 0)%Z))
            "Number of burn-in steps must be non-negative.";
  let numBurnIn' := if (i_temp =? NA_INTEGER)%Z then numBurnIn counts else i_temp in
  do u <- require (isInteger numSamplesExpr) "Number of samples must be of integer type.";
  do u <- require (negb (Rlength numSamplesExpr =? 0)%nat)
            "Number of samples must be of length at least 1.";
  let i_temp := nth 0 (INTEGER numSamplesExpr) 0%Z in
  do u <- require (negb (negb (i_temp =? NA_INTEGER)%Z && (i_temp <=? 0)%Z))
            "Number of samples must be positive.";
  let numSamples' := if (i_temp =? NA_INTEGER)%Z then numSamples counts else i_temp in
  Returned (numBurnIn', numSamples').

End InitializeControl.

Section Run.
Context {Tree Rng : Type} {treeOps : TreeOps Tree Rng} {rngOps : RngOps Rng}.

(** dbarts_run up to the copy of the four buffers of the results into the
    list it returns: the external pointer ([None] is NULL), the arguments,
    the sampler, and the first read through the pointer runSampler handed
    back, [bartResults->getNumSigmaSamples()]. *)
Definition dbarts_run (fit : option (BARTFit Tree)) (rng : Rng) (counts : ControlCounts)
    (numBurnInExpr numSamplesExpr : SEXP) (fuel : nat)
    : option (outcome (Results * Sampler Tree Rng)) :=
  match fit with
  | None => Some (Thrown "dbarts_run called on NULL external pointer.")
  | Some fit =>
      match runArguments counts numBurnInExpr numSamplesExpr with
      | Thrown msg => Some (Thrown msg)
      | Undefined => Some Undefined
      | Returned (numBurnIn', numSamples') =>
          match runSampler fit rng numBurnIn' numSamples' fuel with
          | None => None
          | Some (Thrown msg) => Some (Thrown msg)
          | Some Undefined => Some Undefined
          | Some (Returned (None, s)) => Some Undefined
          | Some (Returned (Some bartResults, s)) => Some (Returned (bartResults, s))
          end
      end
  end.

End Run.

(** A control object with [n.thin = 0] and [NA] for the number of threads. *)
Definition controlWithoutThinning (name : string) : HostValue :=
  if String.eqb name "binary" then LogicalVector [0%Z]
  else if String.eqb name "verbose" then LogicalVector [0%Z]
  else if String.eqb name "keepTrainingFits" then LogicalVector [1%Z]
  else if String.eqb name "useQuantiles" then LogicalVector [0%Z]
  else if String.eqb name "n.samples" then Plain (IntegerVector [2%Z])
  else if String.eqb name "n.burn" then Plain (IntegerVector [1%Z])
  else if String.eqb name "n.trees" then Plain (IntegerVector [1%Z])
  else if String.eqb name "n.threads" then Plain (IntegerVector [NA_INTEGER])
  else if String.eqb name "n.thin" then Plain (IntegerVector [0%Z])
  else if String.eqb name "printEvery" then Plain (IntegerVector [NA_INTEGER])
  else if String.eqb name "printCutoffs" then Plain (IntegerVector [0%Z])
  else Plain R_NilValue.

(** The counts of a control before it is read from a host object; the
    values are arbitrary. *)
Definition countsBefore : ControlCounts :=
  {| numSamples := 800; numBurnIn := 200; numThreads := 1; printEvery := 100;
     printCutoffs := 0 |}.

(** The stump under the control read from [controlWithoutThinning]. *)
Definition fitWithoutThinning : BARTFit ReferenceTree.Tree :=
  {| control :=
       {| responseIsBinary := false; verbose := false; keepTrainingFits := true;
          useQuantiles := false; numTrees := 1; treeThinningRate := 0;
          hasCallback := false |};
     model := model ReferenceTree.stumpFit; data := data ReferenceTree.stumpFit;
     scratch := scratch ReferenceTree.stumpFit; state := state ReferenceTree.stumpFit |}.

End RInterface.

(** ** Saving a fit (bartFit.cpp) *)

(** What saveToFile hands to the writers of binaryIO.hpp, in order. *)
Inductive FileItem (Tree : Type) : Type :=
| VersionString (version : string)
| WrittenControl (control : Control)
| WrittenModel (model : Model)
| WrittenData (data : Data)
| WrittenState (fit : BARTFit Tree).

Arguments VersionString {Tree} version.
Arguments WrittenControl {Tree} control.
Arguments WrittenModel {Tree} model.
Arguments WrittenData {Tree} data.

(** Which of the calls on the file succeed: [ext_bio_initialize],
    [ext_bio_writeNChars], [writeControl], [writeModel], [writeData] and
    [writeState], which the sources only call. *)
Record FileCalls : Type := {
  opens : bool;
  writesVersion : bool;
  writesControl : bool;
  writesModel : bool;
  writesData : bool;
  writesState : bool
}.

Section SaveToFile.
Variable Tree : Type.
Implicit Type fit : BARTFit Tree.

(** saveToFile: what it returns, the fit as it leaves it, and the file
    ([None] when none is left: it could not be opened, or it was unlinked). *)
Definition saveToFile fit (calls : FileCalls)
    : bool * BARTFit Tree * option (list (FileItem Tree)) :=
  if negb (opens calls) then (false, fit, None) else
  (* because of a peculiarity of how this gets mucked around on creation,
     this is necessary *)
  let scaleFactor :=
    if responseIsBinary (control fit) then 1
    else sigmaEstimate (data fit) / dsRange (dataScale (scratch fit)) in
  let originalScale := getScale (model fit) in
  let saved := with_model fit (setScale (model fit) (originalScale / (scaleFactor * scaleFactor))) in
  let restored := with_model saved (setScale (model saved) originalScale) in
  if negb (writesVersion calls) then (false, restored, None) else
  if negb (writesControl calls) then (false, restored, None) else
  if negb (writesModel calls) then (false, restored, None) else
  if negb (writesData calls) then (false, restored, None) else
  if negb (writesState calls) then (false, restored, None) else
  (true, restored,
   Some [VersionString "00.08.00"; WrittenControl (control saved);
         WrittenModel (model saved); WrittenData (data saved); WrittenState saved]).

End SaveToFile.

(** ** The state as a host object (R_interface.cpp) *)

(** [state.createTreeStrings(fit)] and [state.recreateTreesFromStrings(fit,
    treeStrings)] of state.hpp, which the sources only call. *)
Class TreeStrings (Tree : Type) : Type := {
  createTreeStrings : BARTFit Tree -> list string;
  recreateTreesFromStrings : BARTFit Tree -> list string -> list Tree
}.

(** An object of class "dbartsState": its slots [fit.tree], [fit.total],
    [fit.test], [sigma] and the character vector [trees]. *)
Record StateExpression : Type := {
  fit_tree : SEXP;
  fit_total : SEXP;
  fit_test : SEXP;
  sigmaSlot : SEXP;
  treesSlot : list string
}.

Section StateExpressions.
Context {Tree : Type} {treeStrings : TreeStrings Tree}.
Implicit Type fit : BARTFit Tree.

Local Open Scope outcome_scope.

(** createStateExpressionFromFit; [sigma] is [state.sigma], which the
    record [State] above does not hold. *)
Definition createStateExpressionFromFit fit (sigma : R) : StateExpression :=
  let n := numObservations (data fit) in
  let T := numTrees (control fit) in
  let m := numTestObservations (data fit) in
  {| fit_tree :=
       RealVector (firstn (n * T) (List.concat (treeFits (state fit))))
         (Some [Z.of_nat n; Z.of_nat T]);
     fit_total := RealVector (firstn n (totalFits (state fit))) None;
     fit_test :=
       if (m =? 0)%nat then R_NilValue
       else RealVector (firstn m (totalTestFits (state fit))) None;
     sigmaSlot := RealVector [sigma] None;
     treesSlot := firstn T (createTreeStrings fit) |}.

(** [std::memcpy(REAL(slotExpr), source, count * sizeof(double))] on a slot
    that is a real vector; on another object the write is not defined. *)
Definition copyIntoSlot (slotExpr : SEXP) (source : list R) (count : nat) : outcome SEXP :=
  match slotExpr with
  | RealVector v dims => Returned (RealVector (memcpy v source count) dims)
  | _ => Undefined
  end.

Definition storeStateExpressionFromFit fit (sigma : R) (stateExpr : StateExpression)
    : outcome StateExpression :=
  let n := numObservations (data fit) in
  let T := numTrees (control fit) in
  let m := numTestObservations (data fit) in
  do dims <-
    match getDims (fit_tree stateExpr) with
    | Some [rows; cols] => Returned (rows, cols)
    | _ => Thrown "Dimensions of state@fit.tree indicate that it is not a matrix."
    end;
  do u <- require ((fst dims =? Z.of_nat n)%Z && (snd dims =? Z.of_nat T)%Z)
            "Dimensions of state@fit.tree do not match object.";
  do fit_tree' <- copyIntoSlot (fit_tree stateExpr) (List.concat (treeFits (state fit))) (n * T);
  do u <- require (Rlength (fit_total stateExpr) =? n)%nat
            "Length of state@fit.total does not match object.";
  do fit_total' <- copyIntoSlot (fit_total stateExpr) (totalFits (state fit)) n;
  do fit_test' <-
    (if negb (m =? 0)%nat then
       do u <- require (Rlength (fit_test stateExpr) =? m)%nat
                 "Length of state@fit.test does not match object.";
       copyIntoSlot (fit_test stateExpr) (totalTestFits (state fit)) m
     else Returned (fit_test stateExpr));
  do u <- require (Rlength (sigmaSlot stateExpr) =? 1)%nat
            "Length of state@sigma does not match object.";
  do sigmaSlot' <- copyIntoSlot (sigmaSlot stateExpr) [sigma] 1;
  do u <- require (List.length (treesSlot stateExpr) =? T)%nat
            "Length of state@trees does not match object.";
  Returned
    {| fit_tree := fit_tree'; fit_total := fit_total'; fit_test := fit_test';
       sigmaSlot := sigmaSlot';
       treesSlot := overwrite (treesSlot stateExpr) (firstn T (createTreeStrings fit)) |}.

(** initializeStateFromExpression: the state it leaves and [state.sigma].
    The buffer [state.treeFits] is one block of [numTrees] rows. *)
Definition initializeStateFromExpression fit (state : State Tree) (sigma : R)
    (stateExpr : StateExpression) : State Tree * R :=
  let n := numObservations (data fit) in
  let T := numTrees (control fit) in
  let m := numTestObservations (data fit) in
  let treeFits' :=
    columnsOf n T (memcpy (List.concat (treeFits state)) (REAL (fit_tree stateExpr)) (n * T)) in
  let totalFits' := memcpy (totalFits state) (REAL (fit_total stateExpr)) n in
  let totalTestFits' :=
    if negb (m =? 0)%nat then memcpy (totalTestFits state) (REAL (fit_test stateExpr)) m
    else totalTestFits state in
  ({| trees := recreateTreesFromStrings fit (firstn T (treesSlot stateExpr));
      treeFits := treeFits'; totalFits := totalFits'; totalTestFits := totalTestFits' |},
   nth 0 (REAL (sigmaSlot stateExpr)) 0).

End StateExpressions.

(** The buffers of the fits of a fit have their sizes. *)
Definition fitBuffersHaveTheirSizes {Tree : Type} (fit : BARTFit Tree) : Prop :=
  List.length (treeFits (state fit)) = numTrees (control fit) /\
  Forall (fun row => List.length row = numObservations (data fit)) (treeFits (state fit)) /\
  List.length (totalFits (state fit)) = numObservations (data fit) /\
  List.length (totalTestFits (state fit)) = numTestObservations (data fit).

(** Modelled from the spec: state.hpp is not part of the sources.  The
    string of a reference tree is not looked into: a tree is written as
    ["leaf"] or ["split"], and read back as a root. *)
Definition referenceTreeStrings : TreeStrings ReferenceTree.Tree :=
  {| createTreeStrings :=
       fun fit =>
         map (fun t => match t with
                       | ReferenceTree.Leaf _ _ => "leaf"%string
                       | ReferenceTree.Split _ _ _ _ => "split"%string
                       end) (trees (state fit));
     recreateTreesFromStrings :=
       fun fit strings =>
         map (fun _ => ReferenceTree.Leaf (seq 0 (numObservations (data fit))) 0) strings |}.

(** ** Cross validation: the result array and the losses
       (R_interface_crossvalidate.cpp) *)

Module Crossvalidate.

(** allocateResult.  Modelled from the spec: rc/util.h is not part of the
    sources; [rc_setDims(obj, d1, ..., -1)] sets the [dim] attribute to the
    integers before the [-1].  What a fresh vector holds is not read. *)
Definition allocateResult (numNTrees numKs numPowers numBases numReps : nat)
    (dropUnusedDims : bool) : SEXP :=
  let result := repeat 0 (numNTrees * numKs * numPowers * numBases * numReps) in
  if dropUnusedDims then
    let one (k : nat) := if (1 <? k)%nat then 1%nat else 0%nat in
    let numDims := (1 + one numNTrees + one numKs + one numPowers + one numBases)%nat in
    if (1 <? numDims)%nat then
      let dim (k : nat) := if (1 <? k)%nat then [Z.of_nat k] else [] in
      RealVector result
        (Some (dim numNTrees ++ dim numKs ++ dim numPowers ++ dim numBases
               ++ [Z.of_nat numReps]))
    else RealVector result None
  else
    RealVector result
      (Some [Z.of_nat numNTrees; Z.of_nat numKs; Z.of_nat numPowers; Z.of_nat numBases;
             Z.of_nat numReps]).

(** Modelled from the spec: external/stats.h is not part of the sources;
    the sum over [i < n] of [(y[i] - y_hat[i])^2]. *)
Fixpoint ext_computeSumOfSquaredResiduals (y : list R) (n : nat) (y_hat : list R) : R :=
  match n, y, y_hat with
  | S n', yi :: y', hi :: y_hat' =>
      (yi - hi) * (yi - hi) + ext_computeSumOfSquaredResiduals y' n' y_hat'
  | _, _, _ => 0
  end.

(** [testSamples[i + j * numTestObservations]]: the samples are a list of
    one row per sample, as in [Results]. *)
Definition testSampleAt (testSamples : list (list R)) (i j : nat) : R :=
  nth i (nth j testSamples []) 0.

(** [y_test_hat[i] = 0.0; for (j < numSamples) y_test_hat[i] += ...;
    y_test_hat[i] /= numSamples] *)
Definition posteriorMean (testSamples : list (list R)) (numSamples : nat) (i : nat) : R :=
  fold_left (fun acc j => acc + testSampleAt testSamples i j) (seq 0 numSamples) 0
  / INR numSamples.

(** calculateMSELoss: [results[0]]. *)
Definition calculateMSELoss (y_test : list R) (numTestObservations : nat)
    (testSamples : list (list R)) (numSamples : nat) : R :=
  let y_test_hat := map (posteriorMean testSamples numSamples) (seq 0 numTestObservations) in
  ext_computeSumOfSquaredResiduals y_test numTestObservations y_test_hat
  / INR numTestObservations.

(** The two calls of external/stats.h in calculateMCRLoss. *)
Class ExtNormal : Type := {
  ext_cumulativeProbabilityOfNormal : R -> R -> R -> R;
  ext_computeMean : list R -> nat -> R
}.

Section MCR.
Context {extNormal : ExtNormal}.

(** [ext_computeMean(probabilities, numSamples) > 0.5 ? 1.0 : 0.0] *)
Definition predictedClass (testSamples : list (list R)) (numSamples : nat) (i : nat) : R :=
  let probabilities :=
    map (fun j => ext_cumulativeProbabilityOfNormal (testSampleAt testSamples i j) 0 1)
      (seq 0 numSamples) in
  if Rgt_dec (ext_computeMean probabilities numSamples) 0.5 then 1 else 0.

(** The loop over the test observations: the counts [(fp, fn)]. *)
Fixpoint countErrors (count i : nat) (y_test : list R) (testSamples : list (list R))
    (numSamples : nat) (fp fn : nat) : nat * nat :=
  match count with
  | O => (fp, fn)
  | S count' =>
      let y_test_hat := predictedClass testSamples numSamples i in
      let y_i := nth i y_test 0 in
      let '(fp, fn) :=
        if Req_dec_T y_i y_test_hat then (fp, fn)
        else if Req_dec_T y_i 1 then (fp, S fn) else (S fp, fn) in
      countErrors count' (S i) y_test testSamples numSamples fp fn
  end.

(** calculateMCRLoss: [results[0]]. *)
Definition calculateMCRLoss (y_test : list R) (numTestObservations : nat)
    (testSamples : list (list R)) (numSamples : nat) : R :=
  let '(fp, fn) := countErrors numTestObservations 0 y_test testSamples numSamples 0 0 in
  INR (fp + fn) / INR numTestObservations.

(** Test observation [i] is not given its class. *)
Definition misclassified (y_test : list R) (testSamples : list (list R)) (numSamples : nat)
    (i : nat) : bool :=
  if Req_dec_T (nth i y_test 0) (predictedClass testSamples numSamples i) then false
  else true.

End MCR.

(** A cumulative probability that is 1 above zero and 0 elsewhere, and
    the average, for the concrete runs. *)
Definition stepNormal : ExtNormal :=
  {| ext_cumulativeProbabilityOfNormal := fun x _ _ => if Rgt_dec x 0 then 1 else 0;
     ext_computeMean := fun x n => ext_sumVectorElements x n / INR n |}.

End Crossvalidate.

(** ** The listing of the cutoffs (printInitialSummary, bartFit.cpp) *)

(** What the listing hands to [ext_printf]: the head of a line
    ["x(%u) cutoffs: "], a cut point ["%f"], the break ["\n\t"] after every
    fifth cut point, the dots ["..."], and the end of the line. *)
Inductive Printed : Type :=
| ColumnHead (column : Z)
| Cutoff (x : R)
| BreakAndTab
| Dots
| EndOfLine.

(** The cut points among what was printed. *)
Fixpoint cutoffsPrinted (out : list Printed) : list R :=
  match out with
  | [] => []
  | Cutoff x :: out' => x :: cutoffsPrinted out'
  | _ :: out' => cutoffsPrinted out'
  end.

Definition isDots (p : Printed) : bool :=
  match p with Dots => true | _ => false end.

(** [for (j = 0; j < scratch.numCutsPerVariable[i] - 1 &&
    j < control.printCutoffs - 1; ++j)]: [j] is a [size_t], the two bounds
    are computed in [uint32_t]; [count] is what is left to the second
    bound.  The loop hands back [j] and what it printed. *)
Fixpoint printCutoffsLoop (count : nat) (j : Z) (numCuts : Z) (cutPoints_i : list R)
    (out : list Printed) : outcome (Z * list Printed) :=
  match count with
  | O => Returned (j, out)
  | S count' =>
      if (j <? wrap32 (numCuts - 1))%Z then
        match nth_error cutPoints_i (Z.to_nat j) with
        | Some c =>
            printCutoffsLoop count' (j + 1) numCuts cutPoints_i
              (out ++ Cutoff c :: (if ((j + 1) mod 5 =? 0)%Z then [BreakAndTab] else []))
        | None => Undefined
        end
      else Returned (j, out)
  end.

(** The body of [for (size_t i = 0; i < data.numPredictors; ++i)] under
    [if (control.printCutoffs > 0)]. *)
Definition printCutoffsOfColumn (i : nat) (numCuts printCutoffs : Z) (cutPoints_i : list R)
    : outcome (list Printed) :=
  match
    printCutoffsLoop (Z.to_nat (wrap32 (printCutoffs - 1))) 0 numCuts cutPoints_i
      [ColumnHead (Z.of_nat i + 1)]
  with
  | Returned (j, out) =>
      let out :=
        if ((2 <? j)%Z && (j =? printCutoffs)%Z && (j <? wrap32 (numCuts - 1))%Z)%bool
        then out ++ [Dots] else out in
      match nth_error cutPoints_i (Z.to_nat (wrap32 (numCuts - 1))) with
      | Some c => Returned (out ++ [Cutoff c; EndOfLine])
      | None => Undefined
      end
  | Thrown msg => Thrown msg
  | Undefined => Undefined
  end.

(** ** The registry of the fits (R_interface.cpp) *)

Module Registry.

(** The host as the registry sees it: the external pointer objects, named
    by their number, with the address each one holds ([None] is NULL, what
    [R_ClearExternalPtr] leaves); the members of the set [activeFits]; and
    the addresses of the fits that are allocated. *)
Record Host : Type := {
  externalPointers : list (option nat);
  activeFits : list nat;
  allocated : list nat
}.

Definition emptyHost : Host :=
  {| externalPointers := []; activeFits := []; allocated := [] |}.

Definition R_ExternalPtrAddr (h : Host) (fitExpr : nat) : option nat :=
  nth fitExpr (externalPointers h) None.

Definition R_ClearExternalPtr (h : Host) (fitExpr : nat) : Host :=
  {| externalPointers := upd fitExpr None (externalPointers h);
     activeFits := activeFits h; allocated := allocated h |}.

(** [ExternalPointerComparator] orders the objects by the address they
    hold: two objects are the same member of the set when neither address
    is below the other. *)
Definition sameAddress (a b : option nat) : bool :=
  match a, b with
  | Some x, Some y => (x =? y)%nat
  | None, None => true
  | _, _ => false
  end.

Definition equivalent (h : Host) (e e' : nat) : bool :=
  sameAddress (R_ExternalPtrAddr h e) (R_ExternalPtrAddr h e').

(** [activeFits.find(fitExpr) != activeFits.end()] *)
Definition found (h : Host) (fitExpr : nat) : bool :=
  existsb (equivalent h fitExpr) (activeFits h).

(** [activeFits.erase(fitExpr)], by key. *)
Definition eraseKey (h : Host) (fitExpr : nat) : Host :=
  {| externalPointers := externalPointers h;
     activeFits := filter (fun e => negb (equivalent h fitExpr e)) (activeFits h);
     allocated := allocated h |}.

(** [activeFits.erase(prev)], by iterator. *)
Definition eraseMember (h : Host) (member : nat) : Host :=
  {| externalPointers := externalPointers h;
     activeFits := filter (fun e => negb (e =? member)%nat) (activeFits h);
     allocated := allocated h |}.

(** [activeFits.insert(result)]; the order of the members, the one of their
    addresses, is not kept: nothing below reads it. *)
Definition insert (h : Host) (fitExpr : nat) : Host :=
  if found h fitExpr then h
  else {| externalPointers := externalPointers h;
          activeFits := fitExpr :: activeFits h; allocated := allocated h |}.

(** deleteFit: [delete fit] on an address that is not allocated is not
    defined. *)
Definition deleteFit (h : Host) (fit : option nat) : outcome Host :=
  match fit with
  | None => Returned h
  | Some address =>
      if existsb (Nat.eqb address) (allocated h) then
        Returned
          {| externalPointers := externalPointers h; activeFits := activeFits h;
             allocated := filter (fun a => negb (a =? address)%nat) (allocated h) |}
      else Undefined
  end.

Definition fitFinalizer (h : Host) (fitExpr : nat) : outcome Host :=
  let fit := R_ExternalPtrAddr h fitExpr in
  match fit with
  | None => Returned h
  | Some _ =>
      if negb (found h fitExpr) then Returned h
      else
        let h := eraseKey h fitExpr in
        obind (deleteFit h fit) (fun h => Returned (R_ClearExternalPtr h fitExpr))
  end.

Definition dbarts_isValidPointer (h : Host) (fitExpr : nat) : bool :=
  match R_ExternalPtrAddr h fitExpr with
  | None => false
  | Some _ => found h fitExpr
  end.

(** The end of dbarts_create: [new BARTFit] has handed back [address], the
    external pointer made for it is the next object of the host, and it is
    inserted into the set. *)
Definition dbarts_create (h : Host) (address : nat) : Host * nat :=
  let result := List.length (externalPointers h) in
  let h :=
    {| externalPointers := externalPointers h ++ [Some address];
       activeFits := activeFits h; allocated := address :: allocated h |} in
  (insert h result, result).

(** The loop of dbarts_finalize over the members of the set. *)
Fixpoint finalizeLoop (members : list nat) (h : Host) : outcome Host :=
  match members with
  | [] => Returned h
  | fitExpr :: members' =>
      obind (deleteFit h (R_ExternalPtrAddr h fitExpr))
        (fun h => finalizeLoop members' (R_ClearExternalPtr (eraseMember h fitExpr) fitExpr))
  end.

Definition dbarts_finalize (h : Host) : outcome Host := finalizeLoop (activeFits h) h.

(** The hosts that calls of dbarts_create, of the finalizer (on any object,
    at any time) and of dbarts_finalize lead to; the allocator hands out an
    address that is not allocated. *)
Inductive reachable : Host -> Prop :=
| reachable_empty : reachable emptyHost
| reachable_create (h : Host) (address : nat) :
    reachable h -> ~ In address (allocated h) ->
    reachable (fst (dbarts_create h address))
| reachable_finalizer (h h' : Host) (fitExpr : nat) :
    reachable h -> fitFinalizer h fitExpr = Returned h' -> reachable h'
| reachable_finalize (h h' : Host) :
    reachable h -> dbarts_finalize h = Returned h' -> reachable h'.

(** Every allocated fit is held by exactly one member of the set, and an
    object that is not a member holds NULL. *)
Definition consistent (h : Host) : Prop :=
  NoDup (activeFits h) /\ NoDup (allocated h) /\
  (forall e, In e (activeFits h) -> exists a, R_ExternalPtrAddr h e = Some a) /\
  (forall e a, R_ExternalPtrAddr h e = Some a -> In e (activeFits h) /\ In a (allocated h)) /\
  (forall a, In a (allocated h) -> exists e, R_ExternalPtrAddr h e = Some a) /\
  (forall e e' a, R_ExternalPtrAddr h e = Some a -> R_ExternalPtrAddr h e' = Some a -> e = e').

(** What the finalizer, and one round of dbarts_finalize, do to an object
    that holds the address of a fit: the fit is deleted, the object leaves
    the set and holds NULL. *)
Definition released (h : Host) (e a : nat) : Host :=
  {| externalPointers := upd e None (externalPointers h);
     activeFits := filter (fun e' => negb (e' =? e)%nat) (activeFits h);
     allocated := filter (fun a' => negb (a' =? a)%nat) (allocated h) |}.

End Registry.

(** * Theorems *)

Unset Implicit Arguments.

(** The decimal constants of the sources, as fractions. *)
Lemma half_decimal : 0.5 = 1 / 2.
Proof. lra. Qed.

Ltac decimals := rewrite ?half_decimal in *.

(** Closed arithmetic over the reals, after evaluation of the lists. *)
Ltac real_value :=
  simpl;
  unfold MeanNormal.computeVarianceForNode; simpl;
  unfold Reference.computeMean, Reference.computeWeightedMean,
    Reference.computeVarianceForKnownMean, Reference.computeWeightedVarianceForKnownMean;
  simpl;
  first [ lra | field; lra | unfold Rdiv; lra ].

(** ** The Mean-Normal integrated log-likelihood *)

Section MeanNormalFacts.
Context {stats : ExtStats} {Tree : Type}.
Implicit Type fit : BARTFit Tree.

Lemma logIntegratedLikelihood_empty fit node y residualVariance :
  getNumObservations node = 0%nat ->
  MeanNormal.logIntegratedLikelihood fit node y residualVariance = 0.
Proof.
  intros H. unfold MeanNormal.logIntegratedLikelihood. now rewrite H.
Qed.

(** Without weights the prepared scratch counts the observations. *)
Lemma prepareScratch_unweighted fit node y residualVariance :
  weights (data fit) = None ->
  numEffectiveObservations
    (getScratch
       (MeanNormal.prepareScratchForLikelihoodAndPosteriorCalculations
          fit node y residualVariance))
  = INR (getNumObservations node).
Proof.
  intros H. unfold MeanNormal.prepareScratchForLikelihoodAndPosteriorCalculations.
  rewrite H. now destruct (isTop node).
Qed.

Lemma prepareScratch_numObservations fit node y residualVariance :
  getNumObservations
    (MeanNormal.prepareScratchForLikelihoodAndPosteriorCalculations
       fit node y residualVariance)
  = getNumObservations node.
Proof.
  unfold MeanNormal.prepareScratchForLikelihoodAndPosteriorCalculations.
  destruct (isTop node), (weights (data fit)); try reflexivity;
    match goal with |- context [let '(_, _) := ?p in _] => now destruct p end.
Qed.

(** The value computed for a non-empty leaf, term by term. *)
Lemma logIntegratedLikelihood_value fit node y residualVariance :
  (1 <= getNumObservations node)%nat ->
  residualVariance <> 0 ->
  precision (endNodeModel (model fit))
    + numEffectiveObservations (getScratch node) / residualVariance <> 0 ->
  MeanNormal.logIntegratedLikelihood fit node y residualVariance
  = countLogIntegratedLikelihood
      (precision (endNodeModel (model fit)))
      (numEffectiveObservations (getScratch node))
      (INR (getNumObservations node))
      residualVariance
      (mu (getScratch node))
      (MeanNormal.computeVarianceForNode fit node y (mu (getScratch node))).
Proof.
  intros Hn Hs Hp.
  unfold MeanNormal.logIntegratedLikelihood, countLogIntegratedLikelihood.
  destruct (Nat.eqb_spec (getNumObservations node) 0) as [E | _]; [lia |].
  rewrite minus_INR by exact Hn. simpl INR.
  set (L := ln _). cbv zeta. decimals. field. split; [assumption |].
  intro E. apply Hp.
  match goal with |- ?t + ?n / ?s = 0 =>
    replace (t + n / s) with ((t * s + n) / s) by (field; assumption) end.
  rewrite E. unfold Rdiv. ring.
Qed.
End MeanNormalFacts.

(** The two formulas differ by [1/2 (n_eff - n) var_y / sigma^2]. *)
Lemma spec_minus_count tau n_eff n sigma_sq y_bar var_y :
  countLogIntegratedLikelihood tau n_eff n sigma_sq y_bar var_y
  - specLogIntegratedLikelihood tau n_eff sigma_sq y_bar var_y
  = 1 / 2 * (n_eff - n) * var_y / sigma_sq.
Proof.
  unfold countLogIntegratedLikelihood, specLogIntegratedLikelihood.
  set (L := ln _). unfold Rdiv. ring.
Qed.

(** C2 (as amended). For every leaf with at least one observation, the
    Mean-Normal integrated log-likelihood is
    [1/2 log(tau / (tau + n_eff/sigma^2)) - 1/2 (n - 1) var_y / sigma^2
     - 1/2 tau n_eff y_bar^2 / (sigma^2 (tau + n_eff/sigma^2))]
    where [n] is the number of observations of the leaf, not their weight
    sum [n_eff]; for a scratch prepared without weights [n_eff = n] and the
    value is the one of the specification. *)
Theorem C2_logIntegratedLikelihood_uses_count
    {stats : ExtStats} {Tree : Type} (fit : BARTFit Tree) (node : Node)
    (y : list R) (residualVariance : R) :
  (1 <= getNumObservations node)%nat ->
  residualVariance <> 0 ->
  precision (endNodeModel (model fit))
    + numEffectiveObservations (getScratch node) / residualVariance <> 0 ->
  let tau := precision (endNodeModel (model fit)) in
  let n_eff := numEffectiveObservations (getScratch node) in
  let y_bar := mu (getScratch node) in
  let var_y := MeanNormal.computeVarianceForNode fit node y y_bar in
  let L := MeanNormal.logIntegratedLikelihood fit node y residualVariance in
  L = countLogIntegratedLikelihood tau n_eff (INR (getNumObservations node))
        residualVariance y_bar var_y
  /\ (weights (data fit) = None ->
      forall node0 y0 v0,
        node = MeanNormal.prepareScratchForLikelihoodAndPosteriorCalculations fit node0 y0 v0 ->
        L = specLogIntegratedLikelihood tau n_eff residualVariance y_bar var_y).
Proof.
  intros Hn Hs Hp tau n_eff y_bar var_y L.
  assert (HL : L = countLogIntegratedLikelihood tau n_eff (INR (getNumObservations node))
                     residualVariance y_bar var_y)
    by (apply logIntegratedLikelihood_value; assumption).
  split; [exact HL |].
  intros Hw node0 y0 v0 Hnode. rewrite HL.
  assert (E : n_eff = INR (getNumObservations node)).
  { unfold n_eff. rewrite Hnode.
    rewrite prepareScratch_unweighted by exact Hw.
    now rewrite prepareScratch_numObservations. }
  rewrite <- E. reflexivity.
Qed.

(** The theorem applied to an unweighted root leaf holding [1] and [-1]. *)
Lemma C2_logIntegratedLikelihood_witness :
  let fit := leafFit None 2 1 in
  let node :=
    MeanNormal.prepareScratchForLikelihoodAndPosteriorCalculations
      (stats := Reference.stats) fit twoObservationLeaf [1; -1] 1 in
  (1 <= getNumObservations node)%nat /\
  MeanNormal.logIntegratedLikelihood (stats := Reference.stats) fit node [1; -1] 1
  = specLogIntegratedLikelihood 1 2 1 0
      (MeanNormal.computeVarianceForNode (stats := Reference.stats) fit node [1; -1] 0).
Proof.
  intros fit node.
  assert (Hn : (1 <= getNumObservations node)%nat) by (simpl; lia).
  assert (Hs : (1 : R) <> 0) by lra.
  assert (Hp : precision (endNodeModel (model fit))
               + numEffectiveObservations (getScratch node) / 1 <> 0)
    by (simpl; lra).
  split; [exact Hn |].
  destruct (C2_logIntegratedLikelihood_uses_count (stats := Reference.stats)
              fit node [1; -1] 1 Hn Hs Hp) as [_ H].
  specialize (H eq_refl twoObservationLeaf [1; -1] 1 eq_refl).
  rewrite H.
  replace (mu (getScratch node)) with 0
    by real_value.
  replace (numEffectiveObservations (getScratch node)) with 2 by (simpl; lra).
  reflexivity.
Defined.

(** C2 (counterexample). A root leaf of two observations [1] and [-1] with
    weights [2] and [2], residual variance [1] and prior precision [1]:
    [n_eff = 4], [y_bar = 0], [var_y = 4]; the code returns
    [1/2 log(1/5) - 2], the formula of the claim gives [1/2 log(1/5) - 6]. *)
Lemma C2_counterexample :
  let fit := leafFit (Some [2; 2]) 2 1 in
  let node :=
    MeanNormal.prepareScratchForLikelihoodAndPosteriorCalculations
      (stats := Reference.stats) fit twoObservationLeaf [1; -1] 1 in
  let tau := precision (endNodeModel (model fit)) in
  let n_eff := numEffectiveObservations (getScratch node) in
  let y_bar := mu (getScratch node) in
  let var_y := MeanNormal.computeVarianceForNode (stats := Reference.stats) fit node [1; -1] y_bar in
  (1 <= getNumObservations node)%nat /\ n_eff = 4 /\ y_bar = 0 /\ var_y = 4 /\
  MeanNormal.logIntegratedLikelihood (stats := Reference.stats) fit node [1; -1] 1
  = 1 / 2 * ln (1 / 5) - 2 /\
  specLogIntegratedLikelihood tau n_eff 1 y_bar var_y = 1 / 2 * ln (1 / 5) - 6 /\
  MeanNormal.logIntegratedLikelihood (stats := Reference.stats) fit node [1; -1] 1
  <> specLogIntegratedLikelihood tau n_eff 1 y_bar var_y.
Proof.
  intros fit node tau n_eff y_bar var_y.
  assert (Hn : (1 <= getNumObservations node)%nat) by (simpl; lia).
  assert (En : n_eff = 4) by (unfold n_eff; simpl; lra).
  assert (Ey : y_bar = 0) by (unfold y_bar; real_value).
  assert (Ev : var_y = 4).
  { unfold var_y. rewrite Ey. real_value. }
  assert (Ecode : MeanNormal.logIntegratedLikelihood (stats := Reference.stats)
                    fit node [1; -1] 1 = 1 / 2 * ln (1 / 5) - 2).
  { rewrite logIntegratedLikelihood_value; [| exact Hn | lra | simpl; lra].
    fold tau n_eff y_bar var_y. unfold countLogIntegratedLikelihood.
    rewrite En, Ey, Ev. replace tau with 1 by reflexivity. simpl INR.
    replace (1 / (1 + 4 / 1)) with (1 / 5) by lra.
    set (L := ln _). lra. }
  assert (Espec : specLogIntegratedLikelihood tau n_eff 1 y_bar var_y
                  = 1 / 2 * ln (1 / 5) - 6).
  { unfold specLogIntegratedLikelihood. rewrite En, Ey, Ev.
    replace tau with 1 by reflexivity.
    replace (1 / (1 + 4 / 1)) with (1 / 5) by lra.
    set (L := ln _). lra. }
  repeat split; try assumption.
  rewrite Ecode, Espec. set (L := ln _). lra.
Qed.

(** ** Buffers *)

Section BufferFacts.
Variable A : Type.
Implicit Types (l buf src : list A) (k : nat).

Lemma length_upd k (v : A) l : List.length (upd k v l) = List.length l.
Proof.
  revert k; induction l as [| h t IH]; intros [| k]; simpl; auto.
Qed.

Lemma length_overwrite buf src : List.length (overwrite buf src) = List.length buf.
Proof.
  revert src; induction buf as [| b buf IH]; intros [| s src]; simpl; auto.
Qed.

Lemma overwrite_same_length buf src :
  List.length src = List.length buf -> overwrite buf src = src.
Proof.
  revert src; induction buf as [| b buf IH]; intros [| s src]; simpl;
    try discriminate; auto.
  intros H. f_equal. apply IH. lia.
Qed.

Lemma memcpy_all buf src :
  List.length src = List.length buf -> memcpy buf src (List.length buf) = src.
Proof.
  intros H. unfold memcpy. rewrite <- H, firstn_all. now apply overwrite_same_length.
Qed.

Lemma nth_upd_same k (v d : A) l : (k < List.length l)%nat -> nth k (upd k v l) d = v.
Proof.
  revert k; induction l as [| h t IH]; intros [| k]; simpl; intros H;
    try lia; auto. apply IH. lia.
Qed.

Lemma nth_upd_other k j (v d : A) l : k <> j -> nth j (upd k v l) d = nth j l d.
Proof.
  revert k j; induction l as [| h t IH]; intros [| k] [| j]; simpl; intros H;
    try congruence; auto.
Qed.

Lemma nth_error_upd_same k (v : A) l :
  (k < List.length l)%nat -> nth_error (upd k v l) k = Some v.
Proof.
  revert k; induction l as [| h t IH]; intros [| k]; simpl; intros H;
    try lia; auto. apply IH. lia.
Qed.

Lemma nth_error_upd_other k j (v : A) l :
  k <> j -> nth_error (upd k v l) j = nth_error l j.
Proof.
  revert k j; induction l as [| h t IH]; intros [| k] [| j]; simpl; intros H;
    try congruence; auto.
Qed.

Lemma upd_nth_self k (d : A) l : upd k (nth k l d) l = l.
Proof.
  revert k; induction l as [| h t IH]; intros [| k]; simpl; auto.
  now rewrite IH.
Qed.

Lemma upd_upd k (v w : A) l : upd k v (upd k w l) = upd k v l.
Proof.
  revert k; induction l as [| h t IH]; intros [| k]; simpl; auto.
  now rewrite IH.
Qed.

Lemma upd_comm k j (v w : A) l :
  k <> j -> upd k v (upd j w l) = upd j w (upd k v l).
Proof.
  revert k j; induction l as [| h t IH]; intros [| k] [| j]; simpl; intros H;
    try congruence; auto.
  rewrite IH; auto.
Qed.

(** Writing entry [k] of a buffer filled up to [k]. *)
Lemma upd_prefix k (v : A) (done rest : list A) :
  List.length done = k -> rest <> [] ->
  upd k v (done ++ rest) = (done ++ [v]) ++ tl rest.
Proof.
  revert k; induction done as [| h t IH]; intros k Hk Hr; simpl in *; subst k.
  - destruct rest; [congruence | reflexivity].
  - simpl. f_equal. now apply IH.
Qed.
End BufferFacts.

(** ** Cut points *)

Lemma nth_error_inside (v : list R) (k : nat) :
  (k < List.length v)%nat -> nth_error v k = Some (nth k v 0).
Proof.
  intros H. now apply nth_error_nth'.
Qed.

(** The loop of setCutPointsFromQuantiles fills [count] entries from [i0] on. *)
Lemma quantileLoop_fills (v : list R) (step offset : Z) :
  forall (count i0 : nat) (done rest : list R),
    List.length done = i0 ->
    (count <= List.length rest)%nat ->
    (forall i, (i0 <= i < i0 + count)%nat -> quantileReadsInside v step offset i) ->
    quantileLoop count (Z.of_nat i0) step offset (Z.of_nat (List.length v)) v (done ++ rest)
    = Returned (done ++ map (quantileCutPoint v step offset) (seq i0 count)
                  ++ skipn count rest).
Proof.
  induction count as [| count IH]; intros i0 done rest Hd Hc Hin.
  - simpl. reflexivity.
  - destruct rest as [| r rest]; [simpl in Hc; lia |].
    destruct (Hin i0 ltac:(lia)) as [Hlo Hhi].
    cbn [quantileLoop].
    rewrite (nth_error_inside v _ Hlo), (nth_error_inside v _ Hhi). cbn [of_option obind].
    rewrite Nat2Z.id.
    replace (i0 <? List.length (done ++ r :: rest))%nat with true
      by (symmetry; apply Nat.ltb_lt; rewrite length_app; simpl; lia).
    rewrite upd_prefix by (auto; discriminate). cbn [tl].
    replace (Z.of_nat i0 + 1)%Z with (Z.of_nat (S i0)) by lia.
    rewrite IH.
    + cbn [seq map skipn]. rewrite <- app_assoc. reflexivity.
    + rewrite length_app. simpl. lia.
    + simpl in Hc. lia.
    + intros i Hi. apply Hin. lia.
Qed.

Lemma wrap32_small z : (0 <= z < 2 ^ 32)%Z -> wrap32 z = z.
Proof. intros H. unfold wrap32. now apply Z.mod_small. Qed.

Lemma wrap64_small z : (0 <= z < 2 ^ 64)%Z -> wrap64 z = z.
Proof. intros H. unfold wrap64. now apply Z.mod_small. Qed.

Lemma wrap32_le z : (0 <= z)%Z -> (wrap32 z <= z)%Z.
Proof. intros H. unfold wrap32. apply Z.mod_le; lia. Qed.

Lemma wrap64_nonneg z : (0 <= wrap64 z)%Z.
Proof. unfold wrap64. apply Z.mod_pos_bound. lia. Qed.

(** More distinct values than [maxNumCuts + 1]: the step is
    [maxNumCuts / numUniqueElements], which is [0]. *)
Lemma quantileLayout_many (numUniqueElements maxNumCuts : Z) :
  (0 <= maxNumCuts)%Z -> (maxNumCuts + 1 < numUniqueElements)%Z ->
  quantileLayout numUniqueElements maxNumCuts = (0, maxNumCuts, 0)%Z.
Proof.
  intros H0 H. unfold quantileLayout.
  pose proof (wrap32_le (maxNumCuts + 1)%Z ltac:(lia)).
  destruct (Z.leb_spec numUniqueElements (wrap32 (maxNumCuts + 1))); [lia |].
  rewrite Z.div_small by lia. reflexivity.
Qed.

(** At most [maxNumCuts + 1] distinct values: every gap gets its cut point. *)
Lemma quantileLayout_few (numUniqueElements maxNumCuts : Z) :
  (0 <= maxNumCuts)%Z -> (maxNumCuts + 1 < 2 ^ 32)%Z ->
  (1 <= numUniqueElements <= maxNumCuts + 1)%Z ->
  quantileLayout numUniqueElements maxNumCuts = (1, numUniqueElements - 1, 0)%Z.
Proof.
  intros H0 H1 H. unfold quantileLayout.
  rewrite wrap32_small by lia.
  destruct (Z.leb_spec numUniqueElements (maxNumCuts + 1)); [| lia].
  rewrite wrap64_small by lia. reflexivity.
Qed.

Lemma quantileIndex_step_0 (i numUniqueElements : Z) :
  quantileIndex i 0 0 numUniqueElements = 0%Z.
Proof.
  unfold quantileIndex. rewrite Z.mul_0_r. simpl Z.add.
  change (wrap64 0) with 0%Z. pose proof (wrap64_nonneg (numUniqueElements - 2)%Z). lia.
Qed.

Lemma quantileIndex_step_1 (i numUniqueElements : Z) :
  (0 <= i)%Z -> (i + 2 <= numUniqueElements)%Z -> (numUniqueElements < 2 ^ 64)%Z ->
  quantileIndex i 1 0 numUniqueElements = i.
Proof.
  intros H0 H1 H2. unfold quantileIndex.
  rewrite !wrap64_small by lia. lia.
Qed.

Lemma quantileCutPoint_step_0 (v : list R) (i : nat) :
  quantileCutPoint v 0 0 i = 0.5 * (nth 0 v 0 + nth 1 v 0).
Proof.
  unfold quantileCutPoint. rewrite quantileIndex_step_0. reflexivity.
Qed.

Lemma map_constant {A B : Type} (f : A -> B) (c : B) (l : list A) :
  (forall a, f a = c) -> map f l = repeat c (List.length l).
Proof.
  intros H. induction l as [| a l IH]; simpl; [reflexivity |]. now rewrite H, IH.
Qed.

(** A fresh buffer of [count] entries, filled by the loop. *)
Lemma quantileLoop_fresh (v : list R) (step offset : Z) (count : nat) :
  (forall i, (i < count)%nat -> quantileReadsInside v step offset i) ->
  quantileLoop count 0 step offset (Z.of_nat (List.length v)) v (repeat 0 count)
  = Returned (map (quantileCutPoint v step offset) (seq 0 count)).
Proof.
  intros Hin.
  pose proof (quantileLoop_fills v step offset count 0 [] (repeat 0 count) eq_refl) as H.
  simpl in H. rewrite H.
  - rewrite skipn_all2 by (rewrite repeat_length; lia). now rewrite app_nil_r.
  - rewrite repeat_length. lia.
  - intros i Hi. apply Hin. lia.
Qed.

(** C5 (what the code computes). In quantile mode a column with more than
    [maxNumCuts + 1] distinct values gets [numCuts = maxNumCuts] cut points,
    each [(v[idx] + v[idx+1]) / 2] with
    [idx = min(i (numCuts/numUnique) + (numCuts/numUnique)/2, numUnique - 2)];
    as [numCuts < numUnique] the quotient is [0], every [idx] is [0] and
    every cut point is the midpoint of the two smallest values. *)
Theorem C5_quantile_indices_all_zero (n : nat) (x : list R) (maxNumCuts : Z) :
  let v := uniqueElements n x in
  let numUnique := Z.of_nat (List.length v) in
  (0 <= maxNumCuts < 2 ^ 32)%Z ->
  (maxNumCuts + 1 < numUnique)%Z ->
  (forall i : Z,
     quantileIndex i (maxNumCuts / numUnique) (maxNumCuts / numUnique / 2) numUnique = 0%Z)
  /\ setCutPointsFromQuantiles n x maxNumCuts UINT32_UNSET []
     = Returned {| newNumCuts := maxNumCuts;
                   newCutPoints :=
                     repeat (0.5 * (nth 0 v 0 + nth 1 v 0)) (Z.to_nat maxNumCuts);
                   warning := None |}.
Proof.
  intros v numUnique Hm Hu. split.
  - intros i. rewrite Z.div_small by lia. apply quantileIndex_step_0.
  - unfold setCutPointsFromQuantiles. fold v. fold numUnique.
    rewrite quantileLayout_many by lia.
    change (UINT32_UNSET =? UINT32_UNSET)%Z with true. cbn [negb obind].
    rewrite wrap32_small by lia.
    unfold numUnique. rewrite quantileLoop_fresh.
    + cbn [obind]. do 2 f_equal.
      rewrite (map_constant _ (0.5 * (nth 0 v 0 + nth 1 v 0))).
      * now rewrite length_seq.
      * intros i. apply quantileCutPoint_step_0.
    + intros i _. unfold quantileReadsInside. rewrite quantileIndex_step_0.
      change (wrap64 (0 + 1)) with 1%Z. simpl. fold numUnique in Hu. lia.
Qed.

(** Comparisons of numerals, for the runs on concrete columns. *)
Ltac evaluate :=
  cbv - [Rplus Rmult Rminus Rdiv Ropp Rinv IZR INR Q2R ln
         Rlt Rle Rgt Rge Rlt_dec Rle_dec Rgt_dec Rge_dec].

Ltac compare_reals :=
  repeat
    (evaluate;
     match goal with
     | |- context [Rlt_dec ?a ?b] => destruct (Rlt_dec a b); try lra
     | |- context [Rgt_dec ?a ?b] => destruct (Rgt_dec a b); try lra
     | |- context [Rle_dec ?a ?b] => destruct (Rle_dec a b); try lra
     end).

Lemma uniqueElements_0123 : uniqueElements 4 column0123 = [0; 1; 2; 3].
Proof.
  unfold uniqueElements, column0123. compare_reals. reflexivity.
Qed.

(** The theorem on the column [0, 1, 2, 3] with [maxNumCuts = 2]: both cut
    points are [0.5 * (0 + 1)]. *)
Lemma C5_quantile_indices_all_zero_witness :
  (0 <= 2 < 2 ^ 32)%Z /\
  (2 + 1 < Z.of_nat (List.length (uniqueElements 4 column0123)))%Z /\
  setCutPointsFromQuantiles 4 column0123 2 UINT32_UNSET []
  = Returned {| newNumCuts := 2;
                newCutPoints := [0.5 * (0 + 1); 0.5 * (0 + 1)];
                warning := None |}.
Proof.
  assert (H1 : (0 <= 2 < 2 ^ 32)%Z) by lia.
  assert (H2 : (2 + 1 < Z.of_nat (List.length (uniqueElements 4 column0123)))%Z)
    by (rewrite uniqueElements_0123; simpl; lia).
  split; [exact H1 |]. split; [exact H2 |].
  destruct (C5_quantile_indices_all_zero 4 column0123 2 H1 H2) as [_ H].
  rewrite H. rewrite uniqueElements_0123. reflexivity.
Defined.

(** *** Replacing the cut points of a column *)

Lemma set_insert_nonempty (a : R) (s : list R) : set_insert a s <> [].
Proof.
  destruct s as [| h t]; simpl; [discriminate |].
  destruct (Rlt_dec a h); [discriminate |].
  destruct (Rlt_dec h a); discriminate.
Qed.

Lemma insertObservations_nonempty (x : list R) (n : nat) (s : list R) :
  s <> [] -> insertObservations x n s <> [].
Proof.
  revert x s; induction n as [| n IH]; intros [| a x] s H; simpl; auto.
  apply IH. apply set_insert_nonempty.
Qed.

Lemma uniqueElements_nonempty (n : nat) (x : list R) :
  (1 <= n)%nat -> x <> [] -> (1 <= List.length (uniqueElements n x))%nat.
Proof.
  intros Hn Hx. destruct n as [| n]; [lia |]. destruct x as [| a x]; [congruence |].
  unfold uniqueElements. simpl.
  pose proof (insertObservations_nonempty x n [a] ltac:(discriminate)) as H.
  destruct (insertObservations x n [a]); [congruence | simpl; lia].
Qed.

(** The reads of the first [numCuts] rounds stay inside the sorted values. *)
Lemma quantileReadsInside_layout (v : list R) (maxNumCuts step numCuts offset : Z) (i : nat) :
  (0 <= maxNumCuts)%Z -> (maxNumCuts + 1 < 2 ^ 32)%Z ->
  (1 <= List.length v)%nat ->
  quantileLayout (Z.of_nat (List.length v)) maxNumCuts = (step, numCuts, offset) ->
  (Z.of_nat i < numCuts)%Z ->
  quantileReadsInside v step offset i.
Proof.
  intros H0 H1 Hv Hl Hi.
  destruct (Z.le_gt_cases (Z.of_nat (List.length v)) (maxNumCuts + 1)) as [Hfew | Hmany].
  - rewrite quantileLayout_few in Hl by lia. inversion Hl; subst; clear Hl.
    unfold quantileReadsInside.
    rewrite quantileIndex_step_1 by lia.
    rewrite wrap64_small by lia. lia.
  - rewrite quantileLayout_many in Hl by lia. inversion Hl; subst; clear Hl.
    unfold quantileReadsInside. rewrite quantileIndex_step_0.
    change (wrap64 (0 + 1)) with 1%Z. simpl. lia.
Qed.

Lemma quantileLayout_numCuts_nonneg (numUnique maxNumCuts step numCuts offset : Z) :
  (0 <= maxNumCuts)%Z ->
  quantileLayout numUnique maxNumCuts = (step, numCuts, offset) -> (0 <= numCuts)%Z.
Proof.
  unfold quantileLayout. intros H0 H.
  destruct (numUnique <=? wrap32 (maxNumCuts + 1))%Z; inversion H; subst.
  - apply wrap64_nonneg.
  - exact H0.
Qed.

Lemma quantileLayout_numCuts_small (numUnique maxNumCuts step numCuts offset : Z) :
  (0 <= maxNumCuts)%Z -> (maxNumCuts + 1 < 2 ^ 32)%Z -> (1 <= numUnique)%Z ->
  quantileLayout numUnique maxNumCuts = (step, numCuts, offset) -> (numCuts < 2 ^ 32)%Z.
Proof.
  intros H0 H1 Hu H.
  destruct (Z.le_gt_cases numUnique (maxNumCuts + 1)) as [Hfew | Hmany].
  - rewrite quantileLayout_few in H by lia. inversion H; subst. lia.
  - rewrite quantileLayout_many in H by lia. inversion H; subst. lia.
Qed.

(** Quantile mode: a first call on a column, and a call that replaces. *)
Lemma setCutPointsFromQuantiles_first (n : nat) (x : list R)
    (maxNumCuts step numCuts offset : Z) :
  let v := uniqueElements n x in
  (0 <= maxNumCuts)%Z -> (maxNumCuts + 1 < 2 ^ 32)%Z ->
  (1 <= List.length v)%nat ->
  quantileLayout (Z.of_nat (List.length v)) maxNumCuts = (step, numCuts, offset) ->
  setCutPointsFromQuantiles n x maxNumCuts UINT32_UNSET []
  = Returned {| newNumCuts := numCuts;
                newCutPoints :=
                  map (quantileCutPoint v step offset) (seq 0 (Z.to_nat numCuts));
                warning := None |}.
Proof.
  intros v H0 H1 Hv Hl. unfold setCutPointsFromQuantiles. fold v. rewrite Hl.
  change (UINT32_UNSET =? UINT32_UNSET)%Z with true. cbn [negb obind].
  pose proof (quantileLayout_numCuts_nonneg _ _ _ _ _ H0 Hl).
  assert (Hu : (1 <= Z.of_nat (List.length v))%Z) by lia.
  pose proof (quantileLayout_numCuts_small _ _ _ _ _ H0 H1 Hu Hl).
  rewrite wrap32_small by lia.
  rewrite quantileLoop_fresh; [reflexivity |].
  intros i Hi.
    apply (quantileReadsInside_layout v maxNumCuts step numCuts offset i H0 H1 Hv Hl). lia.
Qed.

Lemma setCutPointsFromQuantiles_replace (n : nat) (x : list R)
    (maxNumCuts previous step numCuts offset : Z) (cuts : list R) :
  let v := uniqueElements n x in
  (0 <= maxNumCuts)%Z -> (maxNumCuts + 1 < 2 ^ 32)%Z ->
  (1 <= List.length v)%nat ->
  quantileLayout (Z.of_nat (List.length v)) maxNumCuts = (step, numCuts, offset) ->
  (0 <= previous < 2 ^ 32 - 1)%Z ->
  List.length cuts = Z.to_nat previous ->
  (previous <= numCuts)%Z ->
  setCutPointsFromQuantiles n x maxNumCuts previous cuts
  = Returned {| newNumCuts := previous;
                newCutPoints :=
                  map (quantileCutPoint v step offset) (seq 0 (Z.to_nat previous));
                warning :=
                  if (previous <? numCuts)%Z then Some moreCutsMessage else None |}.
Proof.
  intros v H0 H1 Hv Hl Hp Hc Hle. unfold setCutPointsFromQuantiles. fold v. rewrite Hl.
  replace (previous =? UINT32_UNSET)%Z with false
    by (symmetry; apply Z.eqb_neq; unfold UINT32_UNSET; lia).
  cbn [negb].
  destruct (Z.ltb_spec numCuts previous) as [Hlt | _]; [lia |].
  assert (Hloop :
    quantileLoop (Z.to_nat previous) 0 step offset (Z.of_nat (List.length v)) v cuts
    = Returned (map (quantileCutPoint v step offset) (seq 0 (Z.to_nat previous)))).
  { pose proof (quantileLoop_fills v step offset (Z.to_nat previous) 0 [] cuts eq_refl) as H.
    simpl in H. rewrite H.
    - rewrite skipn_all2 by lia. now rewrite app_nil_r.
    - lia.
    - intros i Hi.
    apply (quantileReadsInside_layout v maxNumCuts step numCuts offset i H0 H1 Hv Hl). lia. }
  destruct (previous <? numCuts)%Z; cbn [obind]; rewrite Hloop; reflexivity.
Qed.

Lemma setCutPointsFromQuantiles_fewer (n : nat) (x : list R)
    (maxNumCuts previous step numCuts offset : Z) (cuts : list R) :
  quantileLayout (Z.of_nat (List.length (uniqueElements n x))) maxNumCuts
  = (step, numCuts, offset) ->
  previous <> UINT32_UNSET ->
  (numCuts < previous)%Z ->
  setCutPointsFromQuantiles n x maxNumCuts previous cuts = Thrown fewerCutsMessage.
Proof.
  intros Hl Hp Hlt. unfold setCutPointsFromQuantiles. rewrite Hl.
  replace (previous =? UINT32_UNSET)%Z with false by (symmetry; now apply Z.eqb_neq).
  cbn [negb].
  destruct (Z.ltb_spec numCuts previous); [reflexivity | lia].
Qed.

(** Uniform mode. *)
Lemma rangeLoop_returns (count : nat) :
  forall (x : list R) (mm : R * R),
    (count <= List.length x)%nat -> exists mm', rangeLoop count x mm = Returned mm'.
Proof.
  induction count as [| count IH]; intros x mm H; simpl.
  - now exists mm.
  - destruct x as [| a x]; [simpl in H; lia |]. apply IH. simpl in H. lia.
Qed.

Lemma uniformLoop_fills (xMin xIncrement : R) :
  forall (count i0 : nat) (done rest : list R),
    List.length done = i0 ->
    (count <= List.length rest)%nat ->
    uniformLoop count (Z.of_nat i0) xMin xIncrement (done ++ rest)
    = Returned (done ++ map (uniformCutPoint xMin xIncrement) (seq i0 count)
                  ++ skipn count rest).
Proof.
  induction count as [| count IH]; intros i0 done rest Hd Hc.
  - simpl. reflexivity.
  - destruct rest as [| r rest]; [simpl in Hc; lia |].
    cbn [uniformLoop]. rewrite Nat2Z.id.
    replace (i0 <? List.length (done ++ r :: rest))%nat with true
      by (symmetry; apply Nat.ltb_lt; rewrite length_app; simpl; lia).
    rewrite upd_prefix by (auto; discriminate). cbn [tl].
    replace (Z.of_nat i0 + 1)%Z with (Z.of_nat (S i0)) at 1 by lia.
    rewrite IH.
    + cbn [seq map skipn]. rewrite <- app_assoc. reflexivity.
    + rewrite length_app. simpl. lia.
    + simpl in Hc. lia.
Qed.

Lemma setCutPointsUniformly_replace (n : nat) (x0 : R) (x' : list R)
    (maxNumCuts previous : Z) (cuts : list R) :
  (n - 1 <= List.length x')%nat ->
  (0 <= previous < 2 ^ 32 - 1)%Z ->
  List.length cuts = Z.to_nat previous ->
  exists xMin xMax,
    rangeLoop (n - 1) x' (x0, x0) = Returned (xMin, xMax) /\
    setCutPointsUniformly n (x0 :: x') maxNumCuts previous cuts
    = Returned {| newNumCuts := previous;
                  newCutPoints :=
                    map (uniformCutPoint xMin ((xMax - xMin) / IZR (previous + 1)))
                      (seq 0 (Z.to_nat previous));
                  warning := None |}.
Proof.
  intros Hn Hp Hc.
  destruct (rangeLoop_returns (n - 1) x' (x0, x0) Hn) as [[xMin xMax] Hr].
  exists xMin, xMax. split; [exact Hr |].
  unfold setCutPointsUniformly. rewrite Hr. cbn [obind].
  replace (previous =? UINT32_UNSET)%Z with false
    by (symmetry; apply Z.eqb_neq; unfold UINT32_UNSET; lia).
  rewrite wrap32_small by lia.
  pose proof (uniformLoop_fills xMin ((xMax - xMin) / IZR (previous + 1))
                (Z.to_nat previous) 0 [] cuts eq_refl ltac:(lia)) as H.
  simpl in H. rewrite H. cbn [obind].
  rewrite skipn_all2 by lia. now rewrite app_nil_r.
Qed.

Lemma firstn_seq_le (k len : nat) : (k <= len)%nat -> firstn k (seq 0 len) = seq 0 k.
Proof.
  intros H. replace len with (k + (len - k))%nat by lia.
  rewrite seq_app, firstn_app, length_seq, Nat.sub_diag. simpl.
  rewrite app_nil_r. rewrite firstn_all2 by (rewrite length_seq; lia). reflexivity.
Qed.




(** ** Replacing the response or the offset *)

Lemma obind_Returned {A B : Type} (m : outcome A) (f : A -> outcome B) (b : B) :
  obind m f = Returned b -> exists a, m = Returned a /\ f a = Returned b.
Proof.
  destruct m as [a | msg |]; simpl; intros H; try discriminate. now exists a.
Qed.

Section ResponseFacts.
Context {Tree Rng : Type} {rngOps : RngOps Rng}.
Implicit Type fit : BARTFit Tree.

(** rescaleResponse touches the scratch only. *)
Lemma rescaleResponse_frame fit fit' :
  rescaleResponse fit = Returned fit' ->
  control fit' = control fit /\ model fit' = model fit /\
  data fit' = data fit /\ state fit' = state fit.
Proof.
  unfold rescaleResponse. intros H.
  destruct (match offset (data fit) with Some _ => _ | None => _ end) as [| y0 rest];
    [discriminate |].
  apply obind_Returned in H. destruct H as [[mn mx] [_ H]].
  inversion H; subst; clear H. simpl. auto.
Qed.

Lemma replaceResponseData_continuous fit rng install fit' rng' :
  responseIsBinary (control fit) = false ->
  replaceResponseData fit rng install = Returned (fit', rng') ->
  let oldRange := dsRange (dataScale (scratch fit)) in
  let newRange := dsRange (dataScale (scratch fit')) in
  CHEAT_SIGMA (model fit') = CHEAT_SIGMA (model fit) * oldRange / newRange /\
  getScale (model fit')
  = (if HAS_SCALE_PARAMETER (responseModel (model fit))
     then getScale (model fit) * oldRange * oldRange / (newRange * newRange)
     else getScale (model fit)).
Proof.
  intros Hb H. unfold replaceResponseData in H. rewrite Hb in H. cbn [negb] in H.
  apply obind_Returned in H. destruct H as [fit1 [Hr H]].
  apply rescaleResponse_frame in Hr. destruct Hr as [Hc [Hm [Hd Hs]]].
  simpl in Hm, Hc.
  cbn [with_model model set_sigma responseModel HAS_SCALE_PARAMETER] in H.
  rewrite Hm in H.
  destruct (HAS_SCALE_PARAMETER (responseModel (model fit))) eqn:Eflag;
    inversion H; subst; clear H; simpl; auto.
Qed.
End ResponseFacts.

(** C6. For a continuous response, after setResponse or setOffset the sigma
    of the sampler is [sigma_old * (oldRange / newRange)] and the scale of
    the residual-variance prior [scale_old * (oldRange / newRange)^2]: the
    unscaled sigma [sigma * range] and the unscaled prior scale
    [scale * range^2] are what they were. *)
Theorem C6_rescaling_keeps_unscaled_sigma_and_scale
    {Tree Rng : Type} {rngOps : RngOps Rng}
    (fit fit' : BARTFit Tree) (rng rng' : Rng) :
  responseIsBinary (control fit) = false ->
  HAS_SCALE_PARAMETER (responseModel (model fit)) = true ->
  ((exists newY, setResponse fit rng newY = Returned (fit', rng')) \/
   (exists newOffset, setOffset fit rng newOffset = Returned (fit', rng'))) ->
  let oldRange := dsRange (dataScale (scratch fit)) in
  let newRange := dsRange (dataScale (scratch fit')) in
  newRange <> 0 ->
  scale (responseModel (model fit'))
  = scale (responseModel (model fit)) * (oldRange / newRange) * (oldRange / newRange)
  /\ sigma (responseModel (model fit'))
     = sigma (responseModel (model fit)) * (oldRange / newRange)
  /\ scale (responseModel (model fit')) * newRange * newRange
     = scale (responseModel (model fit)) * oldRange * oldRange
  /\ sigma (responseModel (model fit')) * newRange
     = sigma (responseModel (model fit)) * oldRange.
Proof.
  intros Hb Hflag Hcall oldRange newRange Hnew.
  assert (H : exists install, replaceResponseData fit rng install = Returned (fit', rng')).
  { destruct Hcall as [[newY H] | [newOffset H]]; eexists; exact H. }
  destruct H as [install H].
  destruct (replaceResponseData_continuous fit rng install fit' rng' Hb H) as [Hsigma Hscale].
  rewrite Hflag in Hscale. unfold CHEAT_SIGMA in Hsigma. unfold getScale in Hscale.
  fold oldRange newRange in Hsigma, Hscale.
  rewrite Hsigma, Hscale. repeat split; field; exact Hnew.
Qed.

(** The theorem on the fit with [y = (0, 1)], sigma [3] and scale [5], whose
    response becomes [(0, 2)]: the range goes from [1] to [2]. *)
Lemma C6_rescaling_keeps_unscaled_sigma_and_scale_witness :
  exists fit' : BARTFit unit,
    setResponse (rngOps := countingRng) (twoObservationFit false None) 0%nat [0; 2]
    = Returned (fit', 0%nat)
    /\ dsRange (dataScale (scratch fit')) = 2
    /\ scale (responseModel (model fit')) = 5 * (1 / 2) * (1 / 2)
    /\ sigma (responseModel (model fit')) = 3 * (1 / 2).
Proof.
  assert (Hrun : exists fit' : BARTFit unit,
             setResponse (rngOps := countingRng) (twoObservationFit false None) 0%nat [0; 2]
             = Returned (fit', 0%nat)
             /\ dsRange (dataScale (scratch fit')) = 2 - 0).
  { unfold setResponse, replaceResponseData, rescaleResponse. compare_reals.
    eexists. split; reflexivity. }
  destruct Hrun as [fit' [Hrun Hrange]].
  exists fit'. split; [exact Hrun |].
  assert (Hb : responseIsBinary (control (twoObservationFit false None)) = false)
    by reflexivity.
  assert (Hflag : HAS_SCALE_PARAMETER (responseModel (model (twoObservationFit false None)))
                  = true) by reflexivity.
  assert (Hnew : dsRange (dataScale (scratch fit')) <> 0) by (rewrite Hrange; lra).
  destruct (C6_rescaling_keeps_unscaled_sigma_and_scale (rngOps := countingRng)
              (twoObservationFit false None) fit' 0%nat 0%nat Hb Hflag
              (or_introl (ex_intro _ [0; 2] Hrun)) Hnew) as [Hscale [Hsigma _]].
  rewrite Hscale, Hsigma, Hrange. simpl. repeat split; lra.
Defined.

(** ** The probit latent variables *)

Section ProbitFacts.
Context {Tree Rng : Type} {rngOps : RngOps Rng}.
Implicit Type fit : BARTFit Tree.

Lemma probitDraw_Returned fit fits i d :
  probitDraw fit fits i = Returned d ->
  d = (if Rgt_dec (nth i (y (data fit)) 0) 0
       then {| side := LowerTruncated; mean := nth i fits 0; bound := - offsetAt fit i |}
       else {| side := UpperTruncated; mean := nth i fits 0; bound := - offsetAt fit i |}).
Proof.
  unfold probitDraw, offsetAt. intros H.
  destruct (nth_error fits i) as [m |] eqn:Em; [| discriminate]. cbn [of_option obind] in H.
  rewrite (nth_error_nth _ _ 0 Em).
  destruct (offset (data fit)) as [o |].
  - destruct (nth_error o i) as [oi |] eqn:Eo; [| discriminate].
    cbn [of_option obind] in H. rewrite (nth_error_nth _ _ 0 Eo).
    destruct (nth_error (y (data fit)) i) as [yi |] eqn:Ey; [| discriminate].
    cbn [of_option obind] in H. rewrite (nth_error_nth _ _ 0 Ey). congruence.
  - cbn [obind] in H.
    destruct (nth_error (y (data fit)) i) as [yi |] eqn:Ey; [| discriminate].
    cbn [of_option obind] in H. rewrite (nth_error_nth _ _ 0 Ey). congruence.
Qed.

(** Rounds from [i] on leave the entries before [i] alone. *)
Lemma probitLoop_before fit fits :
  forall count i z rng z' rng',
    probitLoop count i fit fits z rng = Returned (z', rng') ->
    forall j, (j < i)%nat -> nth j z' 0 = nth j z 0.
Proof.
  induction count as [| count IH]; intros i z rng z' rng' H j Hj.
  - simpl in H. congruence.
  - cbn [probitLoop] in H. apply obind_Returned in H. destruct H as [d [_ H]].
    destruct (simulate rng d) as [z_i rng1].
    destruct (i <? List.length z)%nat; [| discriminate].
    rewrite (IH _ _ _ _ _ H j ltac:(lia)). apply nth_upd_other. lia.
Qed.

(** Entry [j] is the draw of round [j]. *)
Lemma probitLoop_draws fit fits :
  forall count i z rng z' rng',
    probitLoop count i fit fits z rng = Returned (z', rng') ->
    forall j, (i <= j < i + count)%nat ->
      exists d g g',
        probitDraw fit fits j = Returned d /\ simulate g d = (nth j z' 0, g').
Proof.
  induction count as [| count IH]; intros i z rng z' rng' H j Hj; [lia |].
  cbn [probitLoop] in H. apply obind_Returned in H. destruct H as [d [Hd H]].
  destruct (simulate rng d) as [z_i rng1] eqn:Es.
  destruct (Nat.ltb_spec i (List.length z)) as [Hi |]; [| discriminate].
  destruct (Nat.eq_dec j i) as [-> | Hne].
  - exists d, rng, rng1. split; [exact Hd |].
    rewrite (probitLoop_before _ _ _ _ _ _ _ _ H i ltac:(lia)).
    rewrite nth_upd_same by exact Hi. exact Es.
  - apply (IH _ _ _ _ _ H). lia.
Qed.
End ProbitFacts.

(** C7. For a binary response, sampleProbitLatentVariables sets every [z[i]]
    to a draw from the unit-variance normal of mean [fits[i]] (the total
    fits at its call sites): truncated below at [-offset[i]] when
    [y[i] > 0], truncated above at [-offset[i]] otherwise; the draw stays on
    its side of that bound, which is [0] when there is no offset. *)
Theorem C7_probit_latents_are_truncated_draws
    {Tree Rng : Type} {rngOps : RngOps Rng} {truncates : RngTruncates rngOps}
    (fit : BARTFit Tree) (fits z z' : list R) (rng rng' : Rng) :
  sampleProbitLatentVariables fit fits z rng = Returned (z', rng') ->
  forall i, (i < numObservations (data fit))%nat ->
    let y_i := nth i (y (data fit)) 0 in
    let mean := nth i fits 0 in
    let bound := - offsetAt fit i in
    (exists g g',
       (if Rgt_dec y_i 0
        then ext_rng_simulateLowerTruncatedNormalScale1 g mean bound
        else ext_rng_simulateUpperTruncatedNormalScale1 g mean bound)
       = (nth i z' 0, g'))
    /\ (y_i > 0 -> bound <= nth i z' 0)
    /\ (~ y_i > 0 -> nth i z' 0 <= bound)
    /\ (offset (data fit) = None ->
        (y_i > 0 -> 0 <= nth i z' 0) /\ (~ y_i > 0 -> nth i z' 0 <= 0)).
Proof.
  intros H i Hi y_i mean bound.
  unfold sampleProbitLatentVariables in H.
  destruct (probitLoop_draws fit fits _ _ _ _ _ _ H i ltac:(lia)) as [d [g [g' [Hd Hs]]]].
  apply probitDraw_Returned in Hd. fold y_i mean bound in Hd.
  assert (Hdraw :
    (if Rgt_dec y_i 0
     then ext_rng_simulateLowerTruncatedNormalScale1 g mean bound
     else ext_rng_simulateUpperTruncatedNormalScale1 g mean bound) = (nth i z' 0, g')).
  { rewrite <- Hs, Hd. unfold simulate. now destruct (Rgt_dec y_i 0). }
  assert (Hlow : y_i > 0 -> bound <= nth i z' 0).
  { intros Hy. destruct (Rgt_dec y_i 0) as [_ | Hn]; [| contradiction].
    pose proof (lower_truncated g mean bound) as Hl. rewrite Hdraw in Hl. exact Hl. }
  assert (Hup : ~ y_i > 0 -> nth i z' 0 <= bound).
  { intros Hy. destruct (Rgt_dec y_i 0) as [Hp | _]; [contradiction |].
    pose proof (upper_truncated g mean bound) as Hu. rewrite Hdraw in Hu. exact Hu. }
  split; [exists g, g'; exact Hdraw |]. split; [exact Hlow |]. split; [exact Hup |].
  intros Ho.
  assert (Hb : bound = 0) by (unfold bound, offsetAt; rewrite Ho; lra).
  rewrite Hb in Hlow, Hup. split; assumption.
Qed.

Lemma countingRng_truncates : RngTruncates countingRng.
Proof.
  split; intros g mean bound; simpl; lra.
Qed.

(** The theorem on the binary fit with [y = (0, 1)] and no offset: [z[0]] is
    drawn below [0] and [z[1]] above. *)
Lemma C7_probit_latents_are_truncated_draws_witness :
  exists z' : list R,
    sampleProbitLatentVariables (rngOps := countingRng) (twoObservationFit true None)
      [0; 0] [0; 0] 0%nat = Returned (z', 2%nat)
    /\ nth 0 z' 0 <= 0 /\ 0 <= nth 1 z' 0.
Proof.
  assert (Hrun : exists z' : list R,
             sampleProbitLatentVariables (rngOps := countingRng)
               (twoObservationFit true None) [0; 0] [0; 0] 0%nat = Returned (z', 2%nat)).
  { unfold sampleProbitLatentVariables, probitLoop, probitDraw. compare_reals.
    eexists. reflexivity. }
  destruct Hrun as [z' Hrun]. exists z'. split; [exact Hrun |].
  pose proof (C7_probit_latents_are_truncated_draws (truncates := countingRng_truncates)
                (twoObservationFit true None) [0; 0] [0; 0] z' 0%nat 2%nat Hrun) as H.
  split.
  - destruct (H 0%nat ltac:(simpl; lia)) as [_ [_ [_ Hnone]]].
    apply (Hnone eq_refl). simpl. lra.
  - destruct (H 1%nat ltac:(simpl; lia)) as [_ [_ [_ Hnone]]].
    apply (Hnone eq_refl). simpl. lra.
Defined.

(** ** Data from host objects *)

Ltac bind_step H a Ha :=
  apply obind_Returned in H; destruct H as [a [Ha H]]; cbv beta zeta in H.

Ltac check_step H :=
  let u := fresh "u" in
  let Hu := fresh "Hu" in
  bind_step H u Hu; clear u Hu.

(** What the two blocks for [weights] and [offset] do to a [Data]. *)
Lemma initializeData_weights_then_offset (data data' : Data) (dataExpr : string -> SEXP) :
  initializeDataFromExpression data dataExpr = Returned data' ->
  offset data'
  = (if nullOrEmpty (dataExpr "offset"%string) then offset data
     else Some (REAL (dataExpr "offset"%string)))
  /\ weights data'
     = (if nullOrEmpty (dataExpr "offset"%string) then None
        else if nullOrEmpty (dataExpr "weights"%string) then None
             else Some (REAL (dataExpr "weights"%string))).
Proof.
  unfold initializeDataFromExpression. intros H. cbv zeta in H.
  do 3 check_step H. bind_step H dims Hdims. do 3 check_step H.
  bind_step H dataT HT. bind_step H dataW HW. bind_step H dataO HO.
  do 5 check_step H.
  injection H as <-. cbn [set_maxNumCuts set_sigmaEstimate offset weights].
  assert (ET : offset dataT = offset data).
  { destruct (nullOrEmpty (dataExpr "x.test"%string)).
    - injection HT as <-. reflexivity.
    - check_step HT. bind_step HT dimsT HdimsT. check_step HT.
      injection HT as <-. reflexivity. }
  assert (EW : offset dataW = offset dataT /\
               weights dataW = if nullOrEmpty (dataExpr "weights"%string) then None
                               else Some (REAL (dataExpr "weights"%string))).
  { destruct (nullOrEmpty (dataExpr "weights"%string)).
    - injection HW as <-. split; reflexivity.
    - do 2 check_step HW. injection HW as <-. split; reflexivity. }
  destruct EW as [EWo EWw].
  destruct (nullOrEmpty (dataExpr "offset"%string)).
  - injection HO as <-. cbn [set_weights offset weights].
    split; [congruence | reflexivity].
  - do 2 check_step HO. injection HO as <-. cbn [set_offset offset weights].
    split; [reflexivity | exact EWw].
Qed.

(** C9. When initializeDataFromExpression returns: a null or absent offset
    makes it write NULL to [weights] and leave [offset] as it found it; a
    null or absent weights argument writes NULL to [weights]; an offset
    that is there is assigned to [offset]. *)
Theorem C9_offset_branch_writes_weights (data data' : Data) (dataExpr : string -> SEXP) :
  initializeDataFromExpression data dataExpr = Returned data' ->
  (nullOrEmpty (dataExpr "offset"%string) = true ->
   weights data' = None /\ offset data' = offset data)
  /\ (nullOrEmpty (dataExpr "weights"%string) = true -> weights data' = None)
  /\ (nullOrEmpty (dataExpr "offset"%string) = false ->
      offset data' = Some (REAL (dataExpr "offset"%string))).
Proof.
  intros H. destruct (initializeData_weights_then_offset data data' dataExpr H) as [Ho Hw].
  split; [| split].
  - intros E. rewrite E in Ho, Hw. split; assumption.
  - intros E. rewrite E in Hw. rewrite Hw.
    now destruct (nullOrEmpty (dataExpr "offset"%string)).
  - intros E. rewrite E in Ho. exact Ho.
Qed.

(** The theorem on a host object with weights and without offset: the
    weights are gone and the offset field still holds what it held. *)
Lemma C9_offset_branch_writes_weights_witness :
  exists data' : Data,
    initializeDataFromExpression dataWithOffset weightsButNoOffset = Returned data'
    /\ nullOrEmpty (weightsButNoOffset "weights"%string) = false
    /\ nullOrEmpty (weightsButNoOffset "offset"%string) = true
    /\ weights data' = None
    /\ offset data' = Some [7; 7].
Proof.
  assert (Hrun : exists data' : Data,
             initializeDataFromExpression dataWithOffset weightsButNoOffset
             = Returned data').
  { unfold initializeDataFromExpression. compare_reals. eexists. reflexivity. }
  destruct Hrun as [data' Hrun]. exists data'.
  split; [exact Hrun |]. split; [reflexivity |]. split; [reflexivity |].
  destruct (C9_offset_branch_writes_weights dataWithOffset data' weightsButNoOffset Hrun)
    as [H _].
  exact (H eq_refl).
Defined.

(** ** The total fits are the sum of the tree fits *)

Lemma length_ext_addVectorsInPlace (x : list R) (n : nat) (alpha : R) (y : list R) :
  List.length (ext_addVectorsInPlace x n alpha y) = List.length y.
Proof.
  revert x y; induction n as [| n IH]; intros [| xi x] [| yi y]; simpl; auto.
Qed.

Lemma nth_ext_addVectorsInPlace (x : list R) (n : nat) (alpha : R) (y : list R) (i : nat) :
  List.length x = n -> List.length y = n ->
  nth i (ext_addVectorsInPlace x n alpha y) 0 = nth i y 0 + alpha * nth i x 0.
Proof.
  revert x y i; induction n as [| n IH]; intros [| xi x] [| yi y] i Hx Hy;
    simpl in *; try discriminate.
  - destruct i; lra.
  - destruct i as [| i]; [reflexivity |]. apply IH; lia.
Qed.

Lemma Forall_upd {A : Type} (P : A -> Prop) (k : nat) (v : A) (l : list A) :
  Forall P l -> P v -> Forall P (upd k v l).
Proof.
  intros Hl Hv. revert k; induction Hl as [| h t Hh Ht IH]; intros [| k]; simpl;
    constructor; auto.
Qed.

Lemma sumOverTrees_upd (rows : list (list R)) (t : nat) (old new : list R) (i : nat) :
  nth_error rows t = Some old ->
  sumOverTrees (upd t new rows) i = sumOverTrees rows i - nth i old 0 + nth i new 0.
Proof.
  unfold sumOverTrees. revert t; induction rows as [| row rows IH]; intros [| t] H;
    simpl in *; try discriminate.
  - injection H as ->. lra.
  - rewrite (IH t H). lra.
Qed.

Lemma sumOverTrees_zero (n T i : nat) : sumOverTrees (repeat (repeat 0 n) T) i = 0.
Proof.
  unfold sumOverTrees. induction T as [| T IH]; simpl; [reflexivity |].
  rewrite IH, nth_repeat. lra.
Qed.

(** The step common to the sampler and to updateTrainingFits: the old fits
    of tree [t] leave the total, the new ones enter it and take their row. *)
Lemma replacing_a_row_keeps_the_sum (n : nat) (rows : list (list R)) (total : list R)
    (t : nat) (old new : list R) :
  nth_error rows t = Some old ->
  List.length total = n ->
  Forall (fun row => List.length row = n) rows ->
  List.length new = n ->
  (forall i, (i < n)%nat -> nth i total 0 = sumOverTrees rows i) ->
  let total' := ext_addVectorsInPlace new n 1 (ext_addVectorsInPlace old n (-1) total) in
  List.length total' = n /\
  Forall (fun row => List.length row = n) (upd t new rows) /\
  forall i, (i < n)%nat -> nth i total' 0 = sumOverTrees (upd t new rows) i.
Proof.
  intros Hold Htotal Hrows Hnew Hsum total'.
  assert (Hlen_old : List.length old = n).
  { rewrite Forall_forall in Hrows. apply Hrows. eapply nth_error_In; eauto. }
  split; [| split].
  - unfold total'. now rewrite !length_ext_addVectorsInPlace.
  - apply Forall_upd; assumption.
  - intros i Hi. unfold total'.
    rewrite nth_ext_addVectorsInPlace
      by (try rewrite length_ext_addVectorsInPlace; assumption).
    rewrite nth_ext_addVectorsInPlace by assumption.
    rewrite (sumOverTrees_upd rows t old new i Hold), (Hsum i Hi). lra.
Qed.

Section FitsFacts.
Context {Tree Rng : Type} {treeOps : TreeOps Tree Rng}.
Implicit Type fit : BARTFit Tree.

(** Updating the trees touches the trees only. *)
Lemma updateTreesLoop_frame sigma_sq :
  forall count i fit,
    let fit' := updateTreesLoop count i sigma_sq fit in
    control fit' = control fit /\ model fit' = model fit /\ data fit' = data fit /\
    scratch fit' = scratch fit /\
    treeFits (state fit') = treeFits (state fit) /\
    totalFits (state fit') = totalFits (state fit) /\
    totalTestFits (state fit') = totalTestFits (state fit).
Proof.
  induction count as [| count IH]; intros i fit; simpl.
  - repeat split.
  - destruct (nth_error (trees (state fit)) i) as [tree_i |]; [| repeat split].
    match goal with |- context [updateTreesLoop count (S i) sigma_sq ?f] =>
      destruct (IH (S i) f) as (Hc & Hm & Hd & Hs & H1 & H2 & H3) end.
    simpl in *. repeat split; assumption.
Qed.

Lemma setInitialFit_sums fit : totalIsSumOfTreeFits (setInitialFit fit).
Proof.
  unfold setInitialFit, totalIsSumOfTreeFits.
  match goal with |- context [updateTreesLoop ?c ?i ?s ?f] =>
    destruct (updateTreesLoop_frame s c i f) as (_ & _ & Hd & _ & H1 & H2 & _) end.
  cbv zeta in *. rewrite Hd, H1, H2. clear Hd H1 H2.
  cbn [with_state data state set_fits set_totalTestFits treeFits totalFits].
  assert (E : forall st : State Tree,
             treeFits (if (0 <? numTestObservations (data fit))%nat
                       then set_totalTestFits st
                              (repeat 0 (numTestObservations (data fit)))
                       else st) = treeFits st
             /\ totalFits (if (0 <? numTestObservations (data fit))%nat
                           then set_totalTestFits st
                                  (repeat 0 (numTestObservations (data fit)))
                           else st) = totalFits st).
  { intros st. destruct (0 <? numTestObservations (data fit))%nat; split; reflexivity. }
  destruct (E (set_fits (state fit)
                 (repeat (repeat 0 (numObservations (data fit))) (numTrees (control fit)))
                 (repeat 0 (numObservations (data fit))))) as [E1 E2].
  rewrite E1, E2. cbn [set_fits treeFits totalFits].
  split; [apply repeat_length |]. split.
  - apply Forall_forall. intros row Hrow. apply repeat_spec in Hrow. subst row.
    apply repeat_length.
  - intros i Hi. now rewrite nth_repeat, sumOverTrees_zero.
Qed.

Lemma updateTrainingFitsLoop_sums :
  forall count i fit,
    totalIsSumOfTreeFits fit ->
    totalIsSumOfTreeFits (updateTrainingFitsLoop count i fit).
Proof.
  induction count as [| count IH]; intros i fit H; simpl; [exact H |].
  destruct (nth_error (trees (state fit)) i) as [tree_i |]; [| exact H].
  destruct (nth_error (treeFits (state fit)) i) as [treeFits_i |] eqn:Erow; [| exact H].
  apply IH. destruct H as (Htotal & Hrows & Hsum).
  unfold totalIsSumOfTreeFits.
  cbn [with_state data state set_fits treeFits totalFits].
  apply replacing_a_row_keeps_the_sum; try assumption.
  rewrite length_overwrite.
  rewrite Forall_forall in Hrows. apply Hrows. eapply nth_error_In; eauto.
Qed.

Lemma updateTrainingFits_sums fit :
  totalIsSumOfTreeFits fit -> totalIsSumOfTreeFits (updateTrainingFits fit).
Proof. apply updateTrainingFitsLoop_sums. Qed.
End FitsFacts.

Section ReplacementFrames.
Context {Tree Rng : Type} {treeOps : TreeOps Tree Rng}.
Implicit Type fit : BARTFit Tree.

(** The invariant reads the sizes and the fits only. *)
Lemma totalIsSumOfTreeFits_transport fit fit' :
  numObservations (data fit') = numObservations (data fit) ->
  treeFits (state fit') = treeFits (state fit) ->
  totalFits (state fit') = totalFits (state fit) ->
  totalIsSumOfTreeFits fit -> totalIsSumOfTreeFits fit'.
Proof.
  unfold totalIsSumOfTreeFits. intros -> -> ->. auto.
Qed.

(** setCutPoints writes the cut points and their numbers, nothing else. *)
Lemma setCutPointsOfColumn_frame routine maxNumCuts fit col fit' :
  setCutPointsOfColumn routine maxNumCuts fit col = Returned fit' ->
  control fit' = control fit /\ model fit' = model fit /\ data fit' = data fit /\
  state fit' = state fit /\
  Xt (scratch fit') = Xt (scratch fit) /\
  yRescaled (scratch fit') = yRescaled (scratch fit) /\
  dataScale (scratch fit') = dataScale (scratch fit).
Proof.
  unfold setCutPointsOfColumn. intros H.
  repeat (apply obind_Returned in H; destruct H as [? [_ H]]).
  injection H as <-. simpl. repeat split.
Qed.

Lemma setCutPointsLoop_frame routine maxNumCuts :
  forall columns fit fit',
    setCutPointsLoop routine maxNumCuts columns fit = Returned fit' ->
    control fit' = control fit /\ model fit' = model fit /\ data fit' = data fit /\
    state fit' = state fit /\
    Xt (scratch fit') = Xt (scratch fit) /\
    yRescaled (scratch fit') = yRescaled (scratch fit) /\
    dataScale (scratch fit') = dataScale (scratch fit).
Proof.
  induction columns as [| col columns IH]; intros fit fit' H; simpl in H.
  - injection H as <-. repeat split.
  - apply obind_Returned in H. destruct H as [fit1 [H1 H]].
    apply setCutPointsOfColumn_frame in H1. apply IH in H.
    destruct H1 as (? & ? & ? & ? & ? & ? & ?), H as (? & ? & ? & ? & ? & ? & ?).
    repeat split; congruence.
Qed.

Lemma setCutPoints_frame fit columns numColumns fit' :
  setCutPoints fit columns numColumns = Returned fit' ->
  control fit' = control fit /\ model fit' = model fit /\ data fit' = data fit /\
  state fit' = state fit /\
  Xt (scratch fit') = Xt (scratch fit) /\
  yRescaled (scratch fit') = yRescaled (scratch fit) /\
  dataScale (scratch fit') = dataScale (scratch fit).
Proof.
  unfold setCutPoints. intros H.
  destruct (useQuantiles (control fit)), (maxNumCuts (data fit)); try discriminate;
    eapply setCutPointsLoop_frame; eauto.
Qed.

(** The validity loop writes trees, nothing else. *)
Lemma validityLoop_frame sigma_sq :
  forall count treeNum valid fit,
    let '(fit', _, _) := validityLoop count treeNum valid sigma_sq fit in
    control fit' = control fit /\ model fit' = model fit /\ data fit' = data fit /\
    scratch fit' = scratch fit /\
    treeFits (state fit') = treeFits (state fit) /\
    totalFits (state fit') = totalFits (state fit) /\
    totalTestFits (state fit') = totalTestFits (state fit).
Proof.
  induction count as [| count IH]; intros treeNum valid fit; simpl.
  - repeat split.
  - destruct valid; [| repeat split].
    destruct (nth_error (trees (state fit)) treeNum) as [tree_i |]; [| repeat split].
    match goal with |- context [validityLoop count ?k ?b sigma_sq ?f] =>
      specialize (IH k b f); destruct (validityLoop count k b sigma_sq f) as [[fit' b'] k']
    end.
    destruct IH as (? & ? & ? & ? & ? & ? & ?). simpl in *. repeat split; assumption.
Qed.

(** Installing columns writes [X] and [Xt], nothing else. *)
Lemma installColumns_frame :
  forall columns newPredictor fit,
    let fit' := installColumns fit columns newPredictor in
    control fit' = control fit /\ model fit' = model fit /\ state fit' = state fit /\
    numObservations (data fit') = numObservations (data fit) /\
    numPredictors (data fit') = numPredictors (data fit) /\
    cutPoints (scratch fit') = cutPoints (scratch fit) /\
    numCutsPerVariable (scratch fit') = numCutsPerVariable (scratch fit).
Proof.
  induction columns as [| col columns IH]; intros [| x newPredictor] fit; simpl;
    try (repeat split; fail).
  destruct (IH newPredictor (installColumn fit col x)) as (? & ? & ? & ? & ? & ? & ?).
  simpl in *. repeat split; assumption.
Qed.
End ReplacementFrames.

Section SamplerFits.
Context {Tree Rng : Type} {treeOps : TreeOps Tree Rng}.

Lemma treeStep_sums isThinningIteration sigma_sq i (s : Sampler Tree Rng) :
  samplerFitsAreConsistent s ->
  samplerFitsAreConsistent (treeStep isThinningIteration sigma_sq i s).
Proof.
  intros [(Htotal & Hrows & Hsum) Hcurr]. unfold treeStep.
  destruct (nth_error (trees (state (theFit s))) i) as [tree_i |];
    [| split; [repeat split |]; assumption].
  destruct (nth_error (treeFits (state (theFit s))) i) as [oldTreeFits |] eqn:Erow;
    [| split; [repeat split |]; assumption].
  cbv zeta.
  destruct (drawFromTreeStructurePosterior _ _ _ _ _) as [tree1 rng1].
  destruct (drawFromEndNodePosteriors _ _ _ _ _) as [tree2 rng2].
  assert (Hold : List.length oldTreeFits = numObservations (data (theFit s))).
  { rewrite Forall_forall in Hrows. apply Hrows. eapply nth_error_In; eauto. }
  set (n := numObservations (data (theFit s))) in *.
  match goal with |- context [overwrite (currFits s) ?f] =>
    set (curr := overwrite (currFits s) f) end.
  assert (Hlen : List.length curr = n) by (unfold curr; now rewrite length_overwrite).
  assert (Hrow : memcpy oldTreeFits curr n = curr).
  { unfold memcpy. rewrite <- Hlen, firstn_all. apply overwrite_same_length. lia. }
  rewrite Hrow. split; [| exact Hlen].
  unfold totalIsSumOfTreeFits, updateTotalFits.
  cbn [theFit with_state with_scratch data state set_fits set_totalTestFits set_trees
         treeFits totalFits].
  fold n. apply replacing_a_row_keeps_the_sum; assumption.
Qed.

Lemma treeSweep_sums isThinningIteration sigma_sq :
  forall count i (s : Sampler Tree Rng),
    samplerFitsAreConsistent s ->
    samplerFitsAreConsistent (treeSweep count i isThinningIteration sigma_sq s).
Proof.
  induction count as [| count IH]; intros i s H; simpl; [exact H |].
  apply IH. now apply treeStep_sums.
Qed.
End SamplerFits.

Section ReplacementFits.
Context {Tree Rng : Type} {treeOps : TreeOps Tree Rng}.
Implicit Type fit : BARTFit Tree.

Lemma setPredictor_sums fit newPredictor fit' :
  totalIsSumOfTreeFits fit ->
  setPredictor fit newPredictor = Returned (true, fit') ->
  totalIsSumOfTreeFits fit'.
Proof.
  intros Hinv H. unfold setPredictor in H.
  apply obind_Returned in H. destruct H as [fit1 [H1 H]].
  apply setCutPoints_frame in H1. destruct H1 as (_ & _ & Hd1 & Hs1 & _).
  match type of H with context [validityLoop ?c ?k ?b ?s ?f] =>
    pose proof (validityLoop_frame s c k b f) as Hv;
    destruct (validityLoop c k b s f) as [[fitV valid] treeNum] end.
  destruct Hv as (_ & _ & Hd & _ & Htf & Htot & _).
  simpl in Hd, Htf, Htot.
  destruct valid; [| discriminate]. injection H as <-.
  apply updateTrainingFits_sums.
  apply (totalIsSumOfTreeFits_transport fit fitV); try assumption.
  - rewrite Hd. simpl. now rewrite Hd1.
  - now rewrite Htf, Hs1.
  - now rewrite Htot, Hs1.
Qed.

Lemma updatePredictors_sums fit newPredictor columns numColumns fit' :
  totalIsSumOfTreeFits fit ->
  updatePredictors fit newPredictor columns numColumns = Returned (true, fit') ->
  totalIsSumOfTreeFits fit'.
Proof.
  intros Hinv H. unfold updatePredictors in H.
  apply obind_Returned in H. destruct H as [fit1 [H1 H]].
  apply setCutPoints_frame in H1. destruct H1 as (_ & _ & Hd1 & Hs1 & _).
  cbv zeta in H.
  pose proof (installColumns_frame (firstn numColumns columns) newPredictor fit1) as Hi.
  cbv zeta in Hi. destruct Hi as (_ & _ & His & Hin & _).
  match type of H with context [validityLoop ?c ?k ?b ?s ?f] =>
    pose proof (validityLoop_frame s c k b f) as Hv;
    destruct (validityLoop c k b s f) as [[fitV valid] treeNum] end.
  destruct Hv as (_ & _ & Hd & _ & Htf & Htot & _).
  destruct valid; cbn [negb] in H; [| discriminate]. injection H as <-.
  apply updateTrainingFits_sums.
  apply (totalIsSumOfTreeFits_transport fit fitV); try assumption.
  - now rewrite Hd, Hin, Hd1.
  - now rewrite Htf, His, Hs1.
  - now rewrite Htot, His, Hs1.
Qed.
End ReplacementFits.

(** C8. [totalFits[i]] is the sum over the trees [t] of [treeFits[i, t]] for
    every observation [i]: after setInitialFit, the last step of the
    construction that writes fits; after every round of the sweep over the
    trees in runSampler; after every setPredictor and updatePredictors that
    returns true. *)
Theorem C8_total_fits_are_the_sum_of_the_tree_fits
    {Tree Rng : Type} {treeOps : TreeOps Tree Rng} :
  (forall fit : BARTFit Tree, totalIsSumOfTreeFits (setInitialFit fit))
  /\ (forall isThinningIteration sigma_sq i (s : Sampler Tree Rng),
        samplerFitsAreConsistent s ->
        samplerFitsAreConsistent (treeStep isThinningIteration sigma_sq i s))
  /\ (forall (fit fit' : BARTFit Tree) newPredictor,
        totalIsSumOfTreeFits fit ->
        setPredictor fit newPredictor = Returned (true, fit') ->
        totalIsSumOfTreeFits fit')
  /\ (forall (fit fit' : BARTFit Tree) newPredictor columns numColumns,
        totalIsSumOfTreeFits fit ->
        updatePredictors fit newPredictor columns numColumns = Returned (true, fit') ->
        totalIsSumOfTreeFits fit').
Proof.
  split; [| split; [| split]].
  - apply setInitialFit_sums.
  - intros. now apply treeStep_sums.
  - intros fit fit' newPredictor Hinv H. exact (setPredictor_sums fit newPredictor fit' Hinv H).
  - intros fit fit' newPredictor columns numColumns Hinv H.
    exact (updatePredictors_sums fit newPredictor columns numColumns fit' Hinv H).
Qed.

(** ** Replacing predictors: what is rolled back *)

Import ReferenceTree.

(** updatePredictors on the stump with the constant column: the right leaf
    is left without observations, the call returns false and the fit is the
    one before the call. *)
Lemma updatePredictors_rolls_back_on_stump :
  updatePredictors (treeOps := ops) stumpFit [constantColumn] [0%nat] 1
  = Returned (false, stumpFit).
Proof.
  unfold updatePredictors, setCutPoints, stumpFit, stump, constantColumn.
  compare_reals. reflexivity.
Qed.

(** C1 (the code at the failing input). The stump splits the column
    [(0, 1)] at [0.5]; the constant column [(0, 0)] leaves its right leaf
    empty.  setPredictor returns false and keeps the new predictor, its
    transpose and the memberships computed from it; updatePredictors
    returns false and hands back the fit as it was before the call. *)
Theorem C1_setPredictor_keeps_the_rejected_predictor :
  (exists fit' : BARTFit Tree,
     setPredictor (treeOps := ops) stumpFit [constantColumn] = Returned (false, fit') /\
     X (data fit') = [constantColumn] /\
     Xt (scratch fit') = [[0]; [0]] /\
     trees (state fit')
     = [Split 0 0 (Leaf [0%nat; 1%nat] (- (1 / 4))) (Leaf [] (1 / 4))] /\
     fit' <> stumpFit)
  /\ updatePredictors (treeOps := ops) stumpFit [constantColumn] [0%nat] 1
     = Returned (false, stumpFit).
Proof.
  split; [| exact updatePredictors_rolls_back_on_stump].
  assert (Hrun : exists fit' : BARTFit Tree,
             setPredictor (treeOps := ops) stumpFit [constantColumn]
             = Returned (false, fit') /\
             X (data fit') = [constantColumn] /\
             Xt (scratch fit') = [[0]; [0]] /\
             trees (state fit')
             = [Split 0 0 (Leaf [0%nat; 1%nat] (- (1 / 4))) (Leaf [] (1 / 4))]).
  { unfold setPredictor, setCutPoints, stumpFit, stump, constantColumn.
    compare_reals. eexists. repeat split. }
  destruct Hrun as (fit' & Hrun & HX & HXt & Htrees).
  exists fit'. repeat split; try assumption.
  intros E. rewrite E in HX. unfold stumpFit, constantColumn in HX. cbn in HX.
  injection HX as HX. lra.
Qed.

(** The invariant of the fits on the stump, and a replacement that succeeds. *)
Lemma stumpFit_sums : totalIsSumOfTreeFits stumpFit.
Proof.
  unfold totalIsSumOfTreeFits, sumOverTrees. cbn.
  split; [reflexivity |]. split; [repeat constructor |].
  intros [| [| i]] Hi; cbn; try lra; lia.
Qed.

Lemma C8_total_fits_are_the_sum_of_the_tree_fits_witness :
  totalIsSumOfTreeFits stumpFit /\
  exists fit' : BARTFit Tree,
    updatePredictors (treeOps := ops) stumpFit [column01] [0%nat] 1 = Returned (true, fit') /\
    totalIsSumOfTreeFits fit'.
Proof.
  split; [exact stumpFit_sums |].
  assert (Hrun : exists fit' : BARTFit Tree,
             updatePredictors (treeOps := ops) stumpFit [column01] [0%nat] 1
             = Returned (true, fit')).
  { unfold updatePredictors, setCutPoints, stumpFit, stump, column01.
    compare_reals. eexists. reflexivity. }
  destruct Hrun as [fit' Hrun]. exists fit'. split; [exact Hrun |].
  destruct (C8_total_fits_are_the_sum_of_the_tree_fits (treeOps := ops))
    as (_ & _ & _ & Hupdate).
  exact (Hupdate stumpFit fit' [column01] [0%nat] 1%nat stumpFit_sums Hrun).
Defined.

(** ** The sampler *)

Section SamplerFrames.
Context {Tree Rng : Type} {treeOps : TreeOps Tree Rng} {rngOps : RngOps Rng}.
Implicit Type fit : BARTFit Tree.
Implicit Type s : Sampler Tree Rng.

Lemma sweepFrame_refl s : sweepFrame s s.
Proof. repeat split. Qed.

Lemma sweepFrame_trans s1 s2 s3 : sweepFrame s1 s2 -> sweepFrame s2 s3 -> sweepFrame s1 s3.
Proof.
  unfold sweepFrame. intros (? & ? & ? & ? & ? & ? & ? & ?) (? & ? & ? & ? & ? & ? & ? & ?).
  repeat split; congruence.
Qed.

Lemma treeStep_frame isThinningIteration sigma_sq i s :
  sweepFrame s (treeStep isThinningIteration sigma_sq i s).
Proof.
  unfold treeStep.
  destruct (nth_error (trees (state (theFit s))) i) as [tree_i |];
    [| apply sweepFrame_refl].
  destruct (nth_error (treeFits (state (theFit s))) i) as [oldTreeFits |];
    [| apply sweepFrame_refl].
  cbv zeta.
  destruct (drawFromTreeStructurePosterior _ _ _ _ _) as [tree1 rng1].
  destruct (drawFromEndNodePosteriors _ _ _ _ _) as [tree2 rng2].
  unfold sweepFrame, updateTotalFits. simpl.
  rewrite !length_ext_addVectorsInPlace. repeat split.
Qed.

Lemma treeSweep_frame isThinningIteration sigma_sq :
  forall count i s, sweepFrame s (treeSweep count i isThinningIteration sigma_sq s).
Proof.
  induction count as [| count IH]; intros i s; simpl; [apply sweepFrame_refl |].
  eapply sweepFrame_trans; [apply treeStep_frame | apply IH].
Qed.

(** The latent variables can be drawn when the buffers are long enough. *)
Lemma probitDraw_returns fit fits i :
  (i < List.length fits)%nat ->
  (i < List.length (y (data fit)))%nat ->
  match offset (data fit) with
  | None => True
  | Some o => (i < List.length o)%nat
  end ->
  exists d, probitDraw fit fits i = Returned d.
Proof.
  intros Hf Hy Ho. unfold probitDraw.
  rewrite (nth_error_inside fits i Hf). cbn [of_option obind].
  destruct (offset (data fit)) as [o |].
  - rewrite (nth_error_inside o i Ho). cbn [of_option obind].
    rewrite (nth_error_inside _ i Hy). cbn [of_option obind]. eexists; reflexivity.
  - cbn [obind]. rewrite (nth_error_inside _ i Hy). cbn [of_option obind].
    eexists; reflexivity.
Qed.

Lemma probitLoop_returns fit fits :
  forall count i z rng,
    (i + count <= List.length fits)%nat ->
    (i + count <= List.length (y (data fit)))%nat ->
    (i + count <= List.length z)%nat ->
    match offset (data fit) with
    | None => True
    | Some o => (i + count <= List.length o)%nat
    end ->
    exists z' rng',
      probitLoop count i fit fits z rng = Returned (z', rng')
      /\ List.length z' = List.length z.
Proof.
  induction count as [| count IH]; intros i z rng Hf Hy Hz Ho.
  - exists z, rng. split; reflexivity.
  - cbn [probitLoop].
    destruct (probitDraw_returns fit fits i) as [d Hd]; try lia.
    { destruct (offset (data fit)); [lia | exact I]. }
    rewrite Hd. cbn [obind]. destruct (simulate rng d) as [z_i rng1].
    replace (i <? List.length z)%nat with true by (symmetry; apply Nat.ltb_lt; lia).
    destruct (IH (S i) (upd i z_i z) rng1) as [z' [rng' [H Hl]]];
      try rewrite length_upd; try lia.
    { destruct (offset (data fit)); [lia | exact I]. }
    exists z', rng'. split; [exact H |]. now rewrite Hl, length_upd.
Qed.
End SamplerFrames.

Section IterationFacts.
Context {Tree Rng : Type} {treeOps : TreeOps Tree Rng} {rngOps : RngOps Rng}.
Implicit Type fit : BARTFit Tree.
Implicit Type s : Sampler Tree Rng.

Lemma storeSamples_sigma_length fit results training test sigma counts simNum :
  List.length (sigmaSamples (storeSamples fit results training test sigma counts simNum))
  = List.length (sigmaSamples results).
Proof.
  unfold storeSamples. cbn [sigmaSamples]. apply length_upd.
Qed.

(** One iteration returns, and adds its events to the trace. *)
Lemma iteration_returns numBurnIn k s :
  latentBuffersFit (theFit s) ->
  treeThinningRate (control (theFit s)) <> 0%Z ->
  (0 <= k)%Z -> (k + 1 < 2 ^ 32)%Z ->
  exists s',
    iteration numBurnIn k s = Returned s' /\
    control (theFit s') = control (theFit s) /\
    data (theFit s') = data (theFit s) /\
    latentBuffersFit (theFit s') /\
    trace s'
    = trace s ++ eventsOfIteration numBurnIn (treeThinningRate (control (theFit s)))
                   (hasCallback (control (theFit s))) k /\
    List.length (sigmaSamples (theResults s'))
    = List.length (sigmaSamples (theResults s)).
Proof.
  intros Hready Hthin Hk0 Hk1. unfold iteration.
  destruct (Z.eqb_spec (treeThinningRate (control (theFit s))) 0) as [E | _];
    [contradiction |].
  rewrite (wrap32_small (k + 1)) by lia. cbv zeta.
  set (thin := treeThinningRate (control (theFit s))) in *.
  set (stored := ((k + 1) mod thin =? 0)%Z).
  set (fit0 := if negb (negb stored) && (0 <? numTestObservations (data (theFit s)))%nat
               then _ else theFit s).
  assert (H0 : control fit0 = control (theFit s) /\ model fit0 = model (theFit s) /\
               data fit0 = data (theFit s) /\ scratch fit0 = scratch (theFit s) /\
               totalFits (state fit0) = totalFits (state (theFit s))).
  { unfold fit0. destruct (negb (negb stored) && _); repeat split. }
  destruct H0 as (Hc0 & Hm0 & Hd0 & Hs0 & Ht0).
  match goal with |- context [treeSweep ?c ?i ?b ?sg ?s0] =>
    pose proof (treeSweep_frame b sg c i s0) as Hf;
    set (s1 := treeSweep c i b sg s0) in * end.
  destruct Hf as (Hc & Hm & Hd & Hy & Hds & Hlen & Hres & Htr).
  cbn [theFit theResults trace] in Hc, Hm, Hd, Hy, Hds, Hlen, Hres, Htr.
  rewrite Hs0 in Hy, Hds. rewrite Ht0 in Hlen.
  assert (Hrun : exists fit2 rng2,
    (if responseIsBinary (control (theFit s1))
     then do r <- sampleProbitLatentVariables (theFit s1) (totalFits (state (theFit s1)))
                    (yRescaled (scratch (theFit s1))) (theRng s1);
          Returned (with_scratch (theFit s1) (set_yRescaled (scratch (theFit s1)) (fst r)),
                    snd r)
     else let '(sigma, rng) :=
            drawFromPosterior (theFit s1) (yRescaled (scratch (theFit s1)))
              (totalFits (state (theFit s1))) (theRng s1) in
          Returned (with_model (theFit s1) (set_sigma (model (theFit s1)) sigma), rng))%outcome
    = Returned (fit2, rng2)
    /\ control fit2 = control (theFit s) /\ data fit2 = data (theFit s)
    /\ latentBuffersFit fit2).
  { destruct (responseIsBinary (control (theFit s1))) eqn:Eb.
    - assert (Eb' : responseIsBinary (control (theFit s)) = true) by congruence.
      destruct (Hready Eb') as (Hly & Hlz & Hlt & Hlo).
      unfold sampleProbitLatentVariables.
      destruct (probitLoop_returns (theFit s1) (totalFits (state (theFit s1)))
                  (numObservations (data (theFit s1))) 0
                  (yRescaled (scratch (theFit s1))) (theRng s1))
        as [z' [rng' [Hp Hz]]].
      + rewrite Hlen, Hd, Hd0. simpl. exact Hlt.
      + rewrite Hd, Hd0. simpl. exact Hly.
      + rewrite Hy, Hd, Hd0. simpl. exact Hlz.
      + rewrite Hd, Hd0. destruct (offset (data (theFit s))); [simpl; exact Hlo | exact I].
      + rewrite Hp. cbn [obind fst snd]. eexists _, _. split; [reflexivity |].
        cbn [with_scratch control data]. split; [congruence |]. split; [congruence |].
        intros _. cbn [with_scratch data scratch state set_yRescaled yRescaled].
        rewrite Hz, Hy, Hlen, Hd, Hd0. repeat split; assumption.
    - destruct (drawFromPosterior _ _ _ _) as [sigma' rng'].
      eexists _, _. split; [reflexivity |].
      cbn [with_model control data]. split; [congruence |]. split; [congruence |].
      intros Eb'. cbn [with_model control] in Eb'. congruence. }
  destruct Hrun as (fit2 & rng2 & Hrun & Hc2 & Hd2 & Hready2).
  rewrite Hrun. cbn [obind]. rewrite negb_involutive.
  unfold eventsOfIteration. fold stored.
  destruct stored.
  - eexists. split; [reflexivity |].
    cbn [theFit trace theResults].
    split; [exact Hc2 |]. split; [exact Hd2 |]. split; [exact Hready2 |].
    split.
    + rewrite Htr, Hc2, <- app_assoc. cbn [app]. do 2 f_equal.
      destruct (k / thin <? numBurnIn)%Z; reflexivity.
    + rewrite storeSamples_sigma_length. now rewrite Hres.
  - eexists. split; [reflexivity |].
    cbn [theFit trace theResults].
    split; [exact Hc2 |]. split; [exact Hd2 |]. split; [exact Hready2 |].
    split; [exact Htr | now rewrite Hres].
Qed.
End IterationFacts.

Section LoopFacts.
Context {Tree Rng : Type} {treeOps : TreeOps Tree Rng} {rngOps : RngOps Rng}.
Implicit Type fit : BARTFit Tree.
Implicit Type s : Sampler Tree Rng.

(** With fuel for it, the loop runs the [todo] iterations left and stops. *)
Lemma samplerLoop_runs numBurnIn :
  forall todo done s fuel,
    latentBuffersFit (theFit s) ->
    treeThinningRate (control (theFit s)) <> 0%Z ->
    (Z.of_nat (done + todo) < 2 ^ 32)%Z ->
    (todo < fuel)%nat ->
    exists s',
      samplerLoop fuel numBurnIn (Z.of_nat (done + todo)) (Z.of_nat done) s
      = Some (Returned s') /\
      control (theFit s') = control (theFit s) /\
      data (theFit s') = data (theFit s) /\
      trace s'
      = trace s ++ flat_map (eventsOfIteration numBurnIn
                               (treeThinningRate (control (theFit s)))
                               (hasCallback (control (theFit s))))
                     (iterationNumbers done todo) /\
      List.length (sigmaSamples (theResults s'))
      = List.length (sigmaSamples (theResults s)).
Proof.
  induction todo as [| todo IH]; intros done s fuel Hready Hthin Htotal Hfuel.
  - destruct fuel as [| fuel]; [lia |]. cbn [samplerLoop].
    rewrite Nat.add_0_r, Z.ltb_irrefl. exists s.
    unfold iterationNumbers. cbn [seq map flat_map]. rewrite app_nil_r. repeat split.
  - destruct fuel as [| fuel]; [lia |]. cbn [samplerLoop].
    replace (Z.of_nat done <? Z.of_nat (done + S todo))%Z with true
      by (symmetry; apply Z.ltb_lt; lia).
    destruct (iteration_returns numBurnIn (Z.of_nat done) s Hready Hthin)
      as (s1 & Hit & Hc1 & Hd1 & Hready1 & Htr1 & Hlen1); [lia | lia |].
    rewrite Hit. rewrite wrap32_small by lia.
    replace (Z.of_nat done + 1)%Z with (Z.of_nat (S done)) by lia.
    replace (done + S todo)%nat with (S done + todo)%nat in * by lia.
    destruct (IH (S done) s1 fuel Hready1) as (s' & Hloop & Hc & Hd & Htr & Hlen);
      [rewrite Hc1; exact Hthin | exact Htotal | lia |].
    exists s'. split; [exact Hloop |].
    split; [congruence |]. split; [congruence |]. split; [| congruence].
    rewrite Htr, Htr1, Hc1, <- app_assoc. reflexivity.
Qed.

Lemma iterationsExecuted_flat_map numBurnIn thin callback (ks : list Z) :
  iterationsExecuted (flat_map (eventsOfIteration numBurnIn thin callback) ks)
  = List.length ks.
Proof.
  unfold iterationsExecuted. induction ks as [| k ks IH]; [reflexivity |].
  cbn [flat_map]. rewrite filter_app, length_app, IH.
  unfold eventsOfIteration. cbn [filter isIteration].
  destruct ((k + 1) mod thin =? 0)%Z; [destruct callback |]; reflexivity.
Qed.

(** runSampler returns when it has fuel for its iterations. *)
Lemma runSampler_runs fit (rng : Rng) (numBurnIn numSamples : Z) (fuel : nat) :
  latentBuffersFit fit ->
  (1 <= treeThinningRate (control fit))%Z ->
  (0 <= numBurnIn)%Z -> (0 <= numSamples)%Z ->
  ((numBurnIn + numSamples) * treeThinningRate (control fit) < 2 ^ 32)%Z ->
  (Z.to_nat ((numBurnIn + numSamples) * treeThinningRate (control fit)) < fuel)%nat ->
  exists s,
    runSampler fit rng numBurnIn numSamples fuel
    = Some (Returned (if (numSamples =? 0)%Z then None else Some (theResults s), s)) /\
    trace s
    = flat_map (eventsOfIteration numBurnIn (treeThinningRate (control fit))
                  (hasCallback (control fit)))
        (iterationNumbers 0
           (Z.to_nat ((numBurnIn + numSamples) * treeThinningRate (control fit)))) /\
    List.length (sigmaSamples (theResults s))
    = Z.to_nat (if (numSamples =? 0)%Z then 1%Z else numSamples).
Proof.
  intros Hready Hthin Hb Hs Htotal Hfuel. unfold runSampler. cbv zeta.
  set (thin := treeThinningRate (control fit)) in *.
  assert (Hsum : (numBurnIn + numSamples < 2 ^ 32)%Z) by nia.
  rewrite (wrap64_small (numBurnIn + numSamples)) by lia.
  rewrite wrap64_small by nia.
  set (total := ((numBurnIn + numSamples) * thin)%Z) in *.
  match goal with |- context [samplerLoop fuel numBurnIn total 0 ?s0] =>
    destruct (samplerLoop_runs numBurnIn (Z.to_nat total) 0 s0 fuel)
      as (s & Hloop & Hc & Hd & Htr & Hlen) end.
  - exact Hready.
  - cbn [theFit]. fold thin. lia.
  - rewrite Nat.add_0_l, Z2Nat.id by nia. exact Htotal.
  - exact Hfuel.
  - cbn [theFit theResults trace Nat.add] in Hloop, Hc, Hd, Htr, Hlen.
    rewrite Z2Nat.id in Hloop by nia. change (Z.of_nat 0) with 0%Z in Hloop.
    rewrite Hloop. exists s. split; [destruct (numSamples =? 0)%Z; reflexivity |].
    split; [exact Htr |].
    rewrite Hlen. unfold newResults. cbn [sigmaSamples]. apply repeat_length.
Qed.
End LoopFacts.

Lemma In_iterationNumbers (k : Z) (count : nat) :
  In k (iterationNumbers 0 count) <-> (0 <= k < Z.of_nat count)%Z.
Proof.
  unfold iterationNumbers. rewrite in_map_iff. split.
  - intros [i [<- Hi]]. apply in_seq in Hi. lia.
  - intros H. exists (Z.to_nat k). split; [lia |]. apply in_seq. lia.
Qed.

Lemma In_SampleStored_eventsOfIteration numBurnIn thin callback k k' simNum isBurningIn :
  In (SampleStored k' simNum isBurningIn) (eventsOfIteration numBurnIn thin callback k)
  <-> (k' = k /\ (k + 1) mod thin = 0 /\ isBurningIn = (k / thin <? numBurnIn) /\
       simNum = if isBurningIn then 0 else k / thin - numBurnIn)%Z.
Proof.
  unfold eventsOfIteration. cbn [In].
  destruct (Z.eqb_spec ((k + 1) mod thin) 0) as [E | E].
  - cbv zeta. cbn [In]. split.
    + intros [H | [H | H]]; [discriminate | |].
      * injection H as <- <- <-. repeat split. exact E.
      * destruct callback; cbn [In] in H; [destruct H as [H | []]; discriminate | contradiction].
    + intros (-> & _ & -> & ->). right. left. reflexivity.
  - split.
    + intros [H | []]. discriminate.
    + intros (_ & H & _). contradiction.
Qed.


Lemma stumpFit_latentBuffersFit : latentBuffersFit stumpFit.
Proof. intros H. discriminate. Qed.


(** The run of the stump with one iteration of burn-in and one sample. *)
Lemma stump_run_with_burn_in :
  exists r s,
    runSampler (treeOps := ops) (rngOps := countingRng) stumpFit 0%nat 1 1 3
    = Some (Returned (r, s)) /\
    trace s = [Iteration 0; SampleStored 0 0 true; Iteration 1; SampleStored 1 0 false].
Proof.
  destruct (runSampler_runs (treeOps := ops) (rngOps := countingRng) stumpFit 0%nat 1 1 3
              stumpFit_latentBuffersFit)
    as (s & Hrun & Htr & _); try (cbv; congruence); [cbv; lia |].
  eexists _, s. split; [exact Hrun |]. rewrite Htr. reflexivity.
Qed.




(** ** Replacing predictors: when false is returned *)

Section ValidityFacts.
Context {Tree Rng : Type} {treeOps : TreeOps Tree Rng} {local : TreeOpsAreLocal treeOps}.
Implicit Type fit : BARTFit Tree.

Lemma sameSurroundings_set_trees fit (ts : list Tree) :
  sameSurroundings fit (with_state fit (set_trees (state fit) ts)).
Proof. repeat split. Qed.

Lemma skipn_upd_before {A : Type} (k : nat) (v : A) (l : list A) :
  skipn (S k) (upd k v l) = skipn (S k) l.
Proof.
  revert k; induction l as [| h t IH]; intros [| k]; try reflexivity.
  exact (IH k).
Qed.

Lemma skipn_nth_error {A : Type} (k : nat) (l : list A) (a : A) :
  nth_error l k = Some a -> skipn k l = a :: skipn (S k) l.
Proof.
  revert k; induction l as [| h t IH]; intros [| k] H; try discriminate.
  - cbn in H. now injection H as ->.
  - exact (IH k H).
Qed.

Lemma skipn_nth_error_None {A : Type} (k : nat) (l : list A) :
  nth_error l k = None -> skipn k l = [].
Proof.
  intros H. apply skipn_all2. now apply nth_error_None.
Qed.

Lemma forallb_equal {A : Type} (f g : A -> bool) (l : list A) :
  (forall a, f a = g a) -> forallb f l = forallb g l.
Proof.
  intros H. induction l as [| h t IH]; simpl; [reflexivity |]. now rewrite H, IH.
Qed.

(** The loop says whether every tree it is to visit is valid once updated
    with the surroundings of the fit it started from. *)
Lemma validityLoop_valid sigma_sq :
  forall count treeNum fit,
    snd (fst (validityLoop count treeNum true sigma_sq fit))
    = forallb (fun t => isValid (updateWithNewCovariates fit sigma_sq t))
        (firstn count (skipn treeNum (trees (state fit)))).
Proof.
  induction count as [| count IH]; intros treeNum fit; [reflexivity |].
  cbn [validityLoop].
  destruct (nth_error (trees (state fit)) treeNum) as [tree_i |] eqn:E.
  - rewrite (skipn_nth_error _ _ _ E). cbn [firstn forallb andb].
    destruct (isValid (updateWithNewCovariates fit sigma_sq tree_i)) eqn:Ev.
    + rewrite IH. cbn [with_state state set_trees trees andb].
      rewrite skipn_upd_before. apply forallb_equal. intros t. f_equal.
      symmetry. apply updateWithNewCovariates_local. apply sameSurroundings_set_trees.
    + destruct count; reflexivity.
  - rewrite (skipn_nth_error_None _ _ E). now rewrite firstn_nil.
Qed.

Lemma forallb_false_iff {A : Type} (f : A -> bool) (l : list A) :
  forallb f l = false <-> exists a, In a l /\ f a = false.
Proof.
  induction l as [| h t IH]; simpl.
  - split; [discriminate | intros [a [[] _]]].
  - rewrite andb_false_iff, IH. split.
    + intros [H | [a [Ha Hf]]]; [exists h | exists a]; auto.
    + intros [a [[-> | Ha] Hf]]; [left | right; exists a]; auto.
Qed.

(** X11.  A setPredictor that returns, returns false exactly when one of
    the [numTrees] trees is not valid once it is updated with the new
    predictor (the fit with the new matrix and its transpose in place). *)
Lemma setPredictor_false_iff fit newPredictor (b : bool) fit' :
  setPredictor fit newPredictor = Returned (b, fit') ->
  exists fit1,
    setCutPoints fit (seq 0 (numPredictors (data fit))) (numPredictors (data fit))
    = Returned fit1 /\
    let sigma_sq := CHEAT_SIGMA (model fit) * CHEAT_SIGMA (model fit) in
    (b = false <->
     exists t, In t (firstn (numTrees (control fit)) (trees (state fit))) /\
               isValid (updateWithNewCovariates (withNewPredictor fit1 newPredictor)
                          sigma_sq t) = false).
Proof.
  intros H. unfold setPredictor in H.
  apply obind_Returned in H. destruct H as [fit1 [H1 H]].
  exists fit1. split; [exact H1 |]. cbv zeta.
  pose proof (setCutPoints_frame _ _ _ _ H1) as (Hc & Hm & Hd & Hs & _).
  match type of H with context [validityLoop ?c ?k true ?s ?f] =>
    pose proof (validityLoop_valid s c k f) as Hv;
    destruct (validityLoop c k true s f) as [[fitV valid] treeNum] end.
  cbn [fst snd] in Hv.
  assert (Eb : b = valid) by (destruct valid; now injection H as <- _).
  rewrite Eb, Hv. cbn [with_scratch with_data control model state skipn].
  rewrite Hc, Hm, Hs. unfold withNewPredictor. apply forallb_false_iff.
Qed.

(** X12.  An updatePredictors that returns, returns false exactly when one
    of the [numTrees] trees is not valid once it is updated with the fit in
    which the columns it was handed are installed. *)
Lemma updatePredictors_false_iff fit newPredictor columns numColumns (b : bool) fit' :
  updatePredictors fit newPredictor columns numColumns = Returned (b, fit') ->
  exists fit1,
    setCutPoints fit (firstn numColumns columns) numColumns = Returned fit1 /\
    let sigma_sq := CHEAT_SIGMA (model fit) * CHEAT_SIGMA (model fit) in
    (b = false <->
     exists t, In t (firstn (numTrees (control fit)) (trees (state fit))) /\
               isValid (updateWithNewCovariates
                          (installColumns fit1 (firstn numColumns columns) newPredictor)
                          sigma_sq t) = false).
Proof.
  intros H. unfold updatePredictors in H.
  apply obind_Returned in H. destruct H as [fit1 [H1 H]].
  exists fit1. split; [exact H1 |]. cbv zeta in *.
  pose proof (setCutPoints_frame _ _ _ _ H1) as (Hc & Hm & Hd & Hs & _).
  pose proof (installColumns_frame (firstn numColumns columns) newPredictor fit1) as Hi.
  cbv zeta in Hi. destruct Hi as (Hci & Hmi & Hsi & _).
  match type of H with context [validityLoop ?c ?k true ?s ?f] =>
    pose proof (validityLoop_valid s c k f) as Hv;
    destruct (validityLoop c k true s f) as [[fitV valid] treeNum] end.
  cbn [fst snd] in Hv.
  assert (Eb : b = valid) by (destruct valid; cbn [negb] in H; now injection H as <- _).
  rewrite Eb, Hv. cbn [skipn]. rewrite Hci, Hmi, Hsi, Hc, Hm, Hs.
  apply forallb_false_iff.
Qed.
End ValidityFacts.

(** ** Replacing predictors: updatePredictors rolls back *)

Lemma quantileLoop_length (v : list R) (step offset numUnique : Z) :
  forall count i cuts cuts',
    quantileLoop count i step offset numUnique v cuts = Returned cuts' ->
    List.length cuts' = List.length cuts.
Proof.
  induction count as [| count IH]; intros i cuts cuts' H; cbn [quantileLoop] in H.
  - now injection H as <-.
  - apply obind_Returned in H. destruct H as [lo [_ H]].
    apply obind_Returned in H. destruct H as [hi [_ H]].
    destruct (Z.to_nat i <? List.length cuts)%nat; [| discriminate].
    rewrite (IH _ _ _ H). apply length_upd.
Qed.

Lemma uniformLoop_length (xMin xIncrement : R) :
  forall count i cuts cuts',
    uniformLoop count i xMin xIncrement cuts = Returned cuts' ->
    List.length cuts' = List.length cuts.
Proof.
  induction count as [| count IH]; intros i cuts cuts' H; cbn [uniformLoop] in H.
  - now injection H as <-.
  - destruct (Z.to_nat i <? List.length cuts)%nat; [| discriminate].
    rewrite (IH _ _ _ H). apply length_upd.
Qed.

Lemma setCutPointsFromQuantiles_keepsCount : keepsCount setCutPointsFromQuantiles.
Proof.
  intros n x maxNumCuts previous cuts r Hp H. unfold setCutPointsFromQuantiles in H.
  destruct (quantileLayout _ _) as [[step numCuts] offset].
  replace (previous =? UINT32_UNSET)%Z with false in H
    by (symmetry; now apply Z.eqb_neq).
  cbn [negb] in H.
  destruct (numCuts <? previous)%Z; [discriminate |].
  destruct (previous <? numCuts)%Z; cbn [obind] in H;
    apply obind_Returned in H; destruct H as [cuts' [Hl H]];
    injection H as <-; cbn [newNumCuts newCutPoints];
    (split; [reflexivity | exact (quantileLoop_length _ _ _ _ _ _ _ _ Hl)]).
Qed.

Lemma setCutPointsUniformly_keepsCount : keepsCount setCutPointsUniformly.
Proof.
  intros n x maxNumCuts previous cuts r Hp H. unfold setCutPointsUniformly in H.
  destruct x as [| x0 x']; [discriminate |].
  apply obind_Returned in H. destruct H as [[xMin xMax] [_ H]].
  replace (previous =? UINT32_UNSET)%Z with false in H
    by (symmetry; now apply Z.eqb_neq).
  apply obind_Returned in H. destruct H as [cuts' [Hl H]].
  injection H as <-. cbn [newNumCuts newCutPoints].
  split; [reflexivity | exact (uniformLoop_length _ _ _ _ _ _ Hl)].
Qed.

Section CutPointsKept.
Context {Tree : Type}.
Implicit Type fit : BARTFit Tree.

Lemma of_option_Returned {A : Type} (o : option A) (a : A) :
  of_option o = Returned a -> o = Some a.
Proof. destruct o; simpl; intros H; [now injection H as -> | discriminate]. Qed.

Lemma upd_same_value {A : Type} (k : nat) (v : A) (l : list A) :
  nth_error l k = Some v -> upd k v l = l.
Proof.
  revert k; induction l as [| h t IH]; intros [| k] H; simpl in *; try discriminate.
  - now injection H as ->.
  - now rewrite IH.
Qed.

Lemma setCutPointsOfColumn_sameCutShape routine maxNumCuts fit col fit' :
  keepsCount routine ->
  (forall c numCuts, nth_error (numCutsPerVariable (scratch fit)) c = Some numCuts ->
                     numCuts <> UINT32_UNSET) ->
  setCutPointsOfColumn routine maxNumCuts fit col = Returned fit' ->
  sameCutShape fit fit'.
Proof.
  intros Hkeep Hset H. unfold setCutPointsOfColumn in H.
  apply obind_Returned in H. destruct H as [x [_ H]].
  apply obind_Returned in H. destruct H as [m [_ H]].
  apply obind_Returned in H. destruct H as [numCuts [Hn H]].
  apply obind_Returned in H. destruct H as [cuts [Hcuts H]].
  apply obind_Returned in H. destruct H as [r [Hr H]].
  injection H as <-.
  apply of_option_Returned in Hn. apply of_option_Returned in Hcuts.
  destruct (Hkeep _ _ _ _ _ _ (Hset _ _ Hn) Hr) as [Ecount Elen].
  unfold sameCutShape. cbn [with_scratch scratch set_cuts numCutsPerVariable cutPoints].
  split; [| split].
  - rewrite Ecount. now apply upd_same_value.
  - apply length_upd.
  - intros c. destruct (Nat.eq_dec c col) as [-> | Hne].
    + rewrite nth_upd_same by (apply nth_error_Some; congruence).
      rewrite Elen. now rewrite (nth_error_nth _ _ [] Hcuts).
    + now rewrite nth_upd_other by congruence.
Qed.
End CutPointsKept.

Section CutPointsKeptByLoops.
Context {Tree : Type}.
Implicit Type fit : BARTFit Tree.

Lemma sameCutShape_refl fit : sameCutShape fit fit.
Proof. repeat split. Qed.

Lemma sameCutShape_trans fit1 fit2 fit3 :
  sameCutShape fit1 fit2 -> sameCutShape fit2 fit3 -> sameCutShape fit1 fit3.
Proof.
  intros (H1 & H2 & H3) (K1 & K2 & K3). unfold sameCutShape.
  split; [congruence |]. split; [congruence |]. intros c. now rewrite K3, H3.
Qed.

Lemma setCutPointsLoop_sameCutShape routine maxNumCuts :
  keepsCount routine ->
  forall columns fit fit',
    Forall (fun numCuts => numCuts <> UINT32_UNSET) (numCutsPerVariable (scratch fit)) ->
    setCutPointsLoop routine maxNumCuts columns fit = Returned fit' ->
    sameCutShape fit fit'.
Proof.
  intros Hkeep. induction columns as [| col columns IH]; intros fit fit' Hset H;
    cbn [setCutPointsLoop] in H.
  - injection H as <-. apply sameCutShape_refl.
  - apply obind_Returned in H. destruct H as [fit1 [H1 H]].
    assert (S1 : sameCutShape fit fit1).
    { eapply setCutPointsOfColumn_sameCutShape; eauto.
      intros c numCuts Hc. rewrite Forall_forall in Hset. apply Hset.
      eapply nth_error_In; eauto. }
    eapply sameCutShape_trans; [exact S1 |]. apply IH; [| exact H].
    destruct S1 as (E & _). now rewrite E.
Qed.

Lemma setCutPoints_sameCutShape fit columns numColumns fit' :
  Forall (fun numCuts => numCuts <> UINT32_UNSET) (numCutsPerVariable (scratch fit)) ->
  setCutPoints fit columns numColumns = Returned fit' ->
  sameCutShape fit fit'.
Proof.
  intros Hset H. unfold setCutPoints in H.
  destruct (useQuantiles (control fit)), (maxNumCuts (data fit)); try discriminate.
  - eapply setCutPointsLoop_sameCutShape; eauto. apply setCutPointsFromQuantiles_keepsCount.
  - eapply setCutPointsLoop_sameCutShape; eauto. apply setCutPointsUniformly_keepsCount.
Qed.
End CutPointsKeptByLoops.

(** *** Putting columns back *)

Lemma list_equal_by_nth {A : Type} (d : A) (l l' : list A) :
  List.length l = List.length l' -> (forall k, nth k l d = nth k l' d) -> l = l'.
Proof.
  intros Hlen H. apply (nth_ext l l' d d Hlen). intros k _. apply H.
Qed.

Lemma nth_upd {A : Type} (d : A) (k j : nat) (v : A) (l : list A) :
  nth j (upd k v l) d = if (Nat.eqb j k && (k <? List.length l)%nat)%bool then v else nth j l d.
Proof.
  destruct (Nat.eqb_spec j k) as [-> | Hne]; cbn [andb].
  - destruct (Nat.ltb_spec k (List.length l)) as [Hk | Hk].
    + now apply nth_upd_same.
    + rewrite !nth_overflow; try rewrite length_upd; auto.
  - apply nth_upd_other. congruence.
Qed.

(** A loop that, column by column, writes back the original entry puts the
    original list back, whatever the entries of those columns were. *)
Lemma fold_restores {A : Type} (d : A) (orig : list A) (step : list A -> nat -> list A)
    (I : list A -> Prop) :
  (forall l c, I l -> List.length l = List.length orig ->
               step l c = upd c (nth c orig d) l /\ I (step l c)) ->
  forall columns cur,
    I cur -> List.length cur = List.length orig ->
    (forall c, In c columns \/ nth c cur d = nth c orig d) ->
    fold_left step columns cur = orig.
Proof.
  intros Hstep. induction columns as [| c0 columns IH]; intros cur HI Hlen Hout;
    cbn [fold_left].
  - apply (list_equal_by_nth d); [exact Hlen |]. intros k.
    destruct (Hout k) as [[] | E]. exact E.
  - destruct (Hstep cur c0 HI Hlen) as [E HI']. apply IH.
    + exact HI'.
    + rewrite E. now rewrite length_upd.
    + intros c. rewrite E, nth_upd.
      destruct (Nat.eqb_spec c c0) as [-> | Hne]; cbn [andb].
      * right. destruct (Nat.ltb_spec c0 (List.length cur)) as [Hk | Hk]; [reflexivity |].
        rewrite !nth_overflow; auto. lia.
      * destruct (Hout c) as [[-> | Hin] | Heq]; [congruence | now left | now right].
Qed.

Lemma memcpy_restores (cur orig : list R) (n : nat) :
  List.length cur = List.length orig ->
  List.length orig = n \/ orig = [] ->
  memcpy cur (firstn n orig) n = orig.
Proof.
  intros Hlen [Hn | ->]; unfold memcpy.
  - rewrite <- Hn, !firstn_all. apply overwrite_same_length. lia.
  - rewrite !firstn_nil. destruct cur; [reflexivity | discriminate].
Qed.

Lemma length_memcpy {A : Type} (dst src : list A) (k : nat) :
  List.length (memcpy dst src k) = List.length dst.
Proof. apply length_overwrite. Qed.

Lemma restoreXStep_restores (n : nat) (X0 : list (list R)) :
  (forall c, List.length (nth c X0 []) = n \/ nth c X0 [] = []) ->
  forall columns cur,
    List.length cur = List.length X0 ->
    (forall c, List.length (nth c cur []) = List.length (nth c X0 [])) ->
    (forall c, In c columns \/ nth c cur [] = nth c X0 []) ->
    fold_left (restoreXStep n X0) columns cur = X0.
Proof.
  intros Hshape columns cur Hlen Hcols Hout.
  apply (fold_restores [] X0 (restoreXStep n X0)
           (fun l => forall c, List.length (nth c l []) = List.length (nth c X0 [])));
    try assumption.
  intros l c Hl _. unfold restoreXStep.
  rewrite (memcpy_restores _ _ n (Hl c) (Hshape c)). split; [reflexivity |].
  intros c'. rewrite nth_upd.
  destruct (Nat.eqb c' c && (c <? List.length l)%nat)%bool eqn:E; [| apply Hl].
  apply andb_prop in E. destruct E as [E _]. apply Nat.eqb_eq in E. now subst c'.
Qed.

Lemma restoreCutsStep_restores (numCuts : list Z) (cuts0 : list (list R)) :
  (forall c, List.length (nth c cuts0 []) = Z.to_nat (nth c numCuts 0%Z)) ->
  forall columns cur,
    List.length cur = List.length cuts0 ->
    (forall c, List.length (nth c cur []) = List.length (nth c cuts0 [])) ->
    (forall c, In c columns \/ nth c cur [] = nth c cuts0 []) ->
    fold_left (restoreCutsStep numCuts cuts0) columns cur = cuts0.
Proof.
  intros Hshape columns cur Hlen Hcols Hout.
  apply (fold_restores [] cuts0 (restoreCutsStep numCuts cuts0)
           (fun l => forall c, List.length (nth c l []) = List.length (nth c cuts0 [])));
    try assumption.
  intros l c Hl _. unfold restoreCutsStep.
  rewrite (memcpy_restores _ _ _ (Hl c) (or_introl (Hshape c))).
  split; [reflexivity |].
  intros c'. rewrite nth_upd.
  destruct (Nat.eqb c' c && (c <? List.length l)%nat)%bool eqn:E; [| apply Hl].
  apply andb_prop in E. destruct E as [E _]. apply Nat.eqb_eq in E. now subst c'.
Qed.

(** setCutPoints writes the cut points of the columns it is handed only. *)
Lemma setCutPointsLoop_outside {Tree : Type} routine maxNumCuts :
  forall columns (fit fit' : BARTFit Tree),
    setCutPointsLoop routine maxNumCuts columns fit = Returned fit' ->
    forall c, In c columns \/
              nth c (cutPoints (scratch fit')) [] = nth c (cutPoints (scratch fit)) [].
Proof.
  induction columns as [| col columns IH]; intros fit fit' H c; cbn [setCutPointsLoop] in H.
  - injection H as <-. now right.
  - apply obind_Returned in H. destruct H as [fit1 [H1 H]].
    destruct (Nat.eq_dec c col) as [-> | Hne]; [left; now left |].
    destruct (IH _ _ H c) as [Hin | E]; [left; now right | right].
    rewrite E. unfold setCutPointsOfColumn in H1.
    repeat (apply obind_Returned in H1; destruct H1 as [? [_ H1]]).
    injection H1 as <-. cbn [with_scratch scratch set_cuts cutPoints].
    apply nth_upd_other. congruence.
Qed.

Lemma setCutPoints_outside {Tree : Type} (fit fit' : BARTFit Tree) columns numColumns :
  setCutPoints fit columns numColumns = Returned fit' ->
  forall c, In c (firstn numColumns columns) \/
            nth c (cutPoints (scratch fit')) [] = nth c (cutPoints (scratch fit)) [].
Proof.
  intros H. unfold setCutPoints in H.
  destruct (useQuantiles (control fit)), (maxNumCuts (data fit)); try discriminate;
    eapply setCutPointsLoop_outside; eauto.
Qed.

(** [writeXtColumn]: which rows it writes, and what. *)
Lemma length_writeXtColumn (Xt : list (list R)) (col : nat) (x : list R) (n : nat) :
  List.length (writeXtColumn Xt col x n) = List.length Xt.
Proof.
  revert Xt x; induction n as [| n IH]; intros [| row Xt] [| x0 x]; simpl; auto.
Qed.

Lemma nth_writeXtColumn (Xt : list (list R)) (col : nat) (x : list R) (n r : nat) :
  nth r (writeXtColumn Xt col x n) []
  = if ((r <? n)%nat && (r <? List.length Xt)%nat && (r <? List.length x)%nat)%bool
    then upd col (nth r x 0) (nth r Xt [])
    else nth r Xt [].
Proof.
  revert Xt x r; induction n as [| n IH]; intros Xt x r.
  - replace (r <? 0)%nat with false by (symmetry; apply Nat.ltb_ge; lia).
    destruct Xt; reflexivity.
  - destruct Xt as [| row Xt].
    + replace (r <? List.length (@nil (list R)))%nat with false
        by (symmetry; apply Nat.ltb_ge; simpl; lia).
      rewrite andb_false_r. destruct r; reflexivity.
    + destruct x as [| x0 x].
      * replace (r <? List.length (@nil R))%nat with false
          by (symmetry; apply Nat.ltb_ge; simpl; lia).
        rewrite andb_false_r. reflexivity.
      * destruct r as [| r]; [reflexivity |].
        cbn [writeXtColumn nth]. rewrite IH. reflexivity.
Qed.

Lemma nth_firstn_inside {A : Type} (d : A) (l : list A) (k r : nat) :
  (r < k)%nat -> nth r (firstn k l) d = nth r l d.
Proof.
  revert l r; induction k as [| k IH]; intros [| h t] [| r] H; simpl; try lia; auto.
  apply IH. lia.
Qed.

Lemma restoreXtStep_restores (n p : nat) (X0 Xt0 : list (list R)) :
  List.length X0 = p ->
  (forall c, (c < p)%nat -> List.length (nth c X0 []) = n) ->
  List.length Xt0 = n ->
  (forall r, (r < n)%nat -> List.length (nth r Xt0 []) = p) ->
  (forall r c, (r < n)%nat -> (c < p)%nat ->
     nth c (nth r Xt0 []) 0 = nth r (nth c X0 []) 0) ->
  forall columns cur,
    List.length cur = n ->
    (forall r, List.length (nth r cur []) = List.length (nth r Xt0 [])) ->
    (forall r c, In c columns \/ nth c (nth r cur []) 0 = nth c (nth r Xt0 []) 0) ->
    fold_left (restoreXtStep n X0) columns cur = Xt0.
Proof.
  intros HX HXc HXt HXtr Htr.
  induction columns as [| c0 columns IH]; intros cur Hlen Hrows Hout; cbn [fold_left].
  - apply (list_equal_by_nth []); [congruence |]. intros r.
    apply (list_equal_by_nth 0); [apply Hrows |]. intros c.
    destruct (Hout r c) as [[] | E]. exact E.
  - assert (Hrow' : forall r,
              List.length (nth r (restoreXtStep n X0 cur c0) [])
              = List.length (nth r cur [])).
    { intros r. unfold restoreXtStep. rewrite nth_writeXtColumn.
      destruct (_ && _ && _)%bool; [apply length_upd | reflexivity]. }
    apply IH.
    + unfold restoreXtStep. now rewrite length_writeXtColumn.
    + intros r. now rewrite Hrow', Hrows.
    + intros r c. unfold restoreXtStep. rewrite nth_writeXtColumn.
      destruct (Nat.eq_dec c c0) as [-> | Hne].
      * right.
        destruct (Nat.lt_ge_cases r n) as [Hr | Hr].
        2:{ replace (r <? n)%nat with false by (symmetry; apply Nat.ltb_ge; lia).
            cbn [andb]. rewrite !(nth_overflow _ _ (n := r)); auto; lia. }
        destruct (Nat.lt_ge_cases c0 p) as [Hc | Hc].
        2:{ assert (Hl : List.length (nth r cur []) = p) by (rewrite Hrows; auto).
            destruct (_ && _ && _)%bool;
              rewrite !(nth_overflow _ _ (n := c0));
              try rewrite length_upd; try rewrite HXtr; auto; lia. }
        replace (r <? n)%nat with true by (symmetry; apply Nat.ltb_lt; lia).
        replace (r <? List.length cur)%nat with true by (symmetry; apply Nat.ltb_lt; lia).
        replace (r <? List.length (firstn n (nth c0 X0 [])))%nat with true
          by (symmetry; apply Nat.ltb_lt; rewrite length_firstn, HXc; lia).
        cbn [andb]. rewrite nth_upd_same by (rewrite Hrows, HXtr; auto).
        rewrite nth_firstn_inside by exact Hr. symmetry. now apply Htr.
      * destruct (Hout r c) as [[E | Hin] | E]; [congruence | now left | right].
        destruct (_ && _ && _)%bool; [| exact E].
        rewrite nth_upd_other by congruence. exact E.
Qed.

Section RestoreProjections.
Context {Tree : Type}.
Implicit Type fit : BARTFit Tree.

Lemma set_X_same (d : Data) : set_X d (X d) = d.
Proof. now destruct d. Qed.

Lemma set_Xt_cuts_same (s : Scratch) :
  set_cuts (set_Xt s (Xt s)) (numCutsPerVariable s) (cutPoints s) = s.
Proof. now destruct s. Qed.

Lemma set_Xt_same (s : Scratch) : set_Xt s (Xt s) = s.
Proof. now destruct s. Qed.

(** The loop that puts the columns back, buffer by buffer. *)
Lemma restoreColumns_projections (n : nat) (X0 : list (list R)) (numCuts : list Z)
    (cuts0 : list (list R)) :
  forall columns fit,
    numObservations (data fit) = n ->
    numCutsPerVariable (scratch fit) = numCuts ->
    let fit' :=
      restoreColumns fit columns
        (map (fun col => firstn n (nth col X0 [])) columns)
        (map (fun col => firstn (Z.to_nat (nth col numCuts 0%Z)) (nth col cuts0 [])) columns) in
    control fit' = control fit /\ model fit' = model fit /\ state fit' = state fit /\
    data fit' = set_X (data fit) (fold_left (restoreXStep n X0) columns (X (data fit))) /\
    scratch fit'
    = set_cuts
        (set_Xt (scratch fit) (fold_left (restoreXtStep n X0) columns (Xt (scratch fit))))
        numCuts
        (fold_left (restoreCutsStep numCuts cuts0) columns (cutPoints (scratch fit))).
Proof.
  induction columns as [| col columns IH]; intros fit Hn Hk; cbn [map restoreColumns fold_left].
  - cbv zeta. repeat split.
    + symmetry. apply set_X_same.
    + rewrite <- Hk. symmetry. apply set_Xt_cuts_same.
  - match goal with |- context [restoreColumns ?f columns _ _] =>
      destruct (IH f) as (Hc & Hm & Hs & Hd & Hsc) end.
    + simpl. exact Hn.
    + simpl. exact Hk.
    + cbv zeta in *. rewrite Hc, Hm, Hs, Hd, Hsc.
      unfold restoreColumn, installColumn.
      cbn [with_scratch with_data control model state data scratch set_X set_Xt set_cuts
             X Xt cutPoints numCutsPerVariable numObservations].
      rewrite Hn, Hk. repeat split.
Qed.

(** Installing columns keeps the shape, and writes the columns it is handed only. *)
Lemma installColumns_shape :
  forall columns newPredictor fit,
    let fit' := installColumns fit columns newPredictor in
    data fit' = set_X (data fit) (X (data fit')) /\
    scratch fit' = set_Xt (scratch fit) (Xt (scratch fit')) /\
    List.length (X (data fit')) = List.length (X (data fit)) /\
    (forall c, List.length (nth c (X (data fit')) []) = List.length (nth c (X (data fit)) [])) /\
    (forall c, In c columns \/ nth c (X (data fit')) [] = nth c (X (data fit)) []) /\
    List.length (Xt (scratch fit')) = List.length (Xt (scratch fit)) /\
    (forall r, List.length (nth r (Xt (scratch fit')) [])
               = List.length (nth r (Xt (scratch fit)) [])) /\
    (forall r c, In c columns \/
                 nth c (nth r (Xt (scratch fit')) []) 0 = nth c (nth r (Xt (scratch fit)) []) 0).
Proof.
  induction columns as [| col columns IH]; intros [| x newPredictor] fit;
    cbn [installColumns]; cbv zeta;
    try (split; [symmetry; apply set_X_same |];
         split; [symmetry; apply set_Xt_same |];
         repeat split; auto; fail).
  destruct (IH newPredictor (installColumn fit col x))
    as (Hd & Hs & HlX & HcX & HoX & HlXt & HrXt & HoXt).
  cbv zeta in *.
  unfold installColumn in *.
  cbn [with_scratch with_data data scratch set_X set_Xt X Xt numObservations] in *.
  split; [rewrite Hd; reflexivity |]. split; [rewrite Hs; reflexivity |].
  split; [rewrite HlX; apply length_upd |].
  split.
  { intros c. rewrite HcX, nth_upd.
    destruct (Nat.eqb c col && _)%bool eqn:E; [| reflexivity].
    apply andb_prop in E. destruct E as [E _]. apply Nat.eqb_eq in E. subst c.
    apply length_memcpy. }
  split.
  { intros c. destruct (Nat.eq_dec c col) as [-> | Hne]; [left; now left |].
    destruct (HoX c) as [Hin | E]; [left; now right | right].
    rewrite E. apply nth_upd_other. congruence. }
  split; [rewrite HlXt; apply length_writeXtColumn |].
  split.
  { intros r. rewrite HrXt, nth_writeXtColumn.
    destruct (_ && _ && _)%bool; [apply length_upd | reflexivity]. }
  intros r c. destruct (Nat.eq_dec c col) as [-> | Hne]; [left; now left |].
  destruct (HoXt r c) as [Hin | E]; [left; now right | right].
  rewrite E, nth_writeXtColumn.
  destruct (_ && _ && _)%bool; [| reflexivity].
  apply nth_upd_other. congruence.
Qed.
End RestoreProjections.

Section TreesPutBack.
Context {Tree Rng : Type} {treeOps : TreeOps Tree Rng} {local : TreeOpsAreLocal treeOps}.
Implicit Type fit : BARTFit Tree.

Lemma nth_error_upd {A : Type} (k i : nat) (v : A) (l : list A) :
  nth_error (upd k v l) i
  = if Nat.eqb i k then option_map (fun _ => v) (nth_error l i) else nth_error l i.
Proof.
  destruct (Nat.eqb_spec i k) as [-> | Hne].
  - destruct (nth_error l k) eqn:E.
    + apply nth_error_upd_same. apply nth_error_Some. congruence.
    + apply nth_error_None. rewrite length_upd. now apply nth_error_None.
  - apply nth_error_upd_other. congruence.
Qed.

(** The trees the validity loop leaves: those it visited are updated. *)
Lemma validityLoop_trees sigma_sq :
  forall count k fit,
    let '(fit', _, k') := validityLoop count k true sigma_sq fit in
    (k <= k')%nat /\
    forall i,
      nth_error (trees (state fit')) i
      = if ((k <=? i)%nat && (i <? k')%nat)%bool
        then option_map (updateWithNewCovariates fit sigma_sq) (nth_error (trees (state fit)) i)
        else nth_error (trees (state fit)) i.
Proof.
  induction count as [| count IH]; intros k fit; cbn [validityLoop].
  - split; [lia |]. intros i.
    destruct (Nat.leb_spec k i), (Nat.ltb_spec i k); try reflexivity; lia.
  - destruct (nth_error (trees (state fit)) k) as [tree_k |] eqn:E.
    2:{ split; [lia |]. intros i.
        destruct (Nat.leb_spec k i), (Nat.ltb_spec i k); try reflexivity; lia. }
    cbn [andb].
    destruct (isValid (updateWithNewCovariates fit sigma_sq tree_k)) eqn:Ev.
    + match goal with |- context [validityLoop count (S k) true sigma_sq ?f] =>
        specialize (IH (S k) f);
        destruct (validityLoop count (S k) true sigma_sq f) as [[fit' b'] k'] end.
      destruct IH as [Hk IH]. split; [lia |]. intros i. rewrite IH.
      cbn [with_state state set_trees trees]. rewrite nth_error_upd.
      destruct (Nat.eqb_spec i k) as [-> | Hne].
      * replace (S k <=? k)%nat with false by (symmetry; apply Nat.leb_gt; lia).
        replace (k <=? k)%nat with true by (symmetry; apply Nat.leb_le; lia).
        replace (k <? k')%nat with true by (symmetry; apply Nat.ltb_lt; lia).
        cbn [andb]. now rewrite E.
      * destruct (Nat.leb_spec (S k) i), (Nat.leb_spec k i); try lia; cbn [andb];
          try reflexivity.
        destruct (i <? k')%nat; [| reflexivity].
        destruct (nth_error (trees (state fit)) i); [| reflexivity]. cbn [option_map].
        f_equal. symmetry. apply updateWithNewCovariates_local.
        apply sameSurroundings_set_trees.
    + assert (Hstop : forall f, validityLoop count (S k) false sigma_sq f = (f, false, S k))
        by (intros f; destruct count; reflexivity).
      rewrite Hstop. split; [lia |]. intros i.
      cbn [with_state state set_trees trees]. rewrite nth_error_upd.
      destruct (Nat.eqb_spec i k) as [-> | Hne].
      * replace (k <=? k)%nat with true by (symmetry; apply Nat.leb_le; lia).
        replace (k <? S k)%nat with true by (symmetry; apply Nat.ltb_lt; lia).
        cbn [andb]. now rewrite E.
      * destruct (Nat.leb_spec k i), (Nat.ltb_spec i (S k)); try lia; reflexivity.
Qed.

(** The trees the loop of the rollback leaves. *)
Lemma updateTreesLoop_trees sigma_sq :
  forall count k fit i,
    nth_error (trees (state (updateTreesLoop count k sigma_sq fit))) i
    = if ((k <=? i)%nat && (i <? k + count)%nat)%bool
      then option_map (updateWithNewCovariates fit sigma_sq) (nth_error (trees (state fit)) i)
      else nth_error (trees (state fit)) i.
Proof.
  induction count as [| count IH]; intros k fit i; cbn [updateTreesLoop].
  - destruct (Nat.leb_spec k i), (Nat.ltb_spec i (k + 0)); try reflexivity; lia.
  - destruct (nth_error (trees (state fit)) k) as [tree_k |] eqn:E.
    2:{ destruct (Nat.leb_spec k i); cbn [andb]; [| reflexivity].
        assert (Hi : nth_error (trees (state fit)) i = None).
        { apply nth_error_None. apply nth_error_None in E. lia. }
        rewrite Hi. now destruct (i <? k + S count)%nat. }
    rewrite IH. cbn [with_state state set_trees trees]. rewrite nth_error_upd.
    destruct (Nat.eqb_spec i k) as [-> | Hne].
    + replace (S k <=? k)%nat with false by (symmetry; apply Nat.leb_gt; lia).
      replace (k <=? k)%nat with true by (symmetry; apply Nat.leb_le; lia).
      replace (k <? k + S count)%nat with true by (symmetry; apply Nat.ltb_lt; lia).
      cbn [andb]. now rewrite E.
    + replace (i <? S k + count)%nat with (i <? k + S count)%nat by (f_equal; lia).
      destruct (Nat.leb_spec (S k) i), (Nat.leb_spec k i); try lia; cbn [andb];
        try reflexivity.
      destruct (i <? k + S count)%nat; [| reflexivity].
      destruct (nth_error (trees (state fit)) i); [| reflexivity]. cbn [option_map].
      f_equal. symmetry. apply updateWithNewCovariates_local.
      apply sameSurroundings_set_trees.
Qed.

Lemma updateTreesLoop_state sigma_sq count k fit :
  state (updateTreesLoop count k sigma_sq fit)
  = set_trees (state fit) (trees (state (updateTreesLoop count k sigma_sq fit))).
Proof.
  destruct (updateTreesLoop_frame sigma_sq count k fit) as (_ & _ & _ & _ & H1 & H2 & H3).
  cbv zeta in *.
  set (s' := state (updateTreesLoop count k sigma_sq fit)) in *.
  set (s := state fit) in *. clearbody s' s.
  destruct s', s. simpl in *. subst. reflexivity.
Qed.
End TreesPutBack.

Section RollBack.
Context {Tree Rng : Type} {treeOps : TreeOps Tree Rng}
        {local : TreeOpsAreLocal treeOps} {follow : TreesFollowTheFit treeOps}.
Implicit Type fit : BARTFit Tree.

Lemma setCutPointsLoop_scratch routine maxNumCuts :
  forall columns fit fit',
    setCutPointsLoop routine maxNumCuts columns fit = Returned fit' ->
    scratch fit'
    = set_cuts (scratch fit) (numCutsPerVariable (scratch fit')) (cutPoints (scratch fit')).
Proof.
  induction columns as [| col columns IH]; intros fit fit' H; cbn [setCutPointsLoop] in H.
  - injection H as <-. now destruct (scratch fit).
  - apply obind_Returned in H. destruct H as [fit1 [H1 H]].
    rewrite (IH _ _ H). unfold setCutPointsOfColumn in H1.
    repeat (apply obind_Returned in H1; destruct H1 as [? [_ H1]]).
    injection H1 as <-. reflexivity.
Qed.

Lemma setCutPoints_scratch fit columns numColumns fit' :
  setCutPoints fit columns numColumns = Returned fit' ->
  scratch fit'
  = set_cuts (scratch fit) (numCutsPerVariable (scratch fit')) (cutPoints (scratch fit')).
Proof.
  intros H. unfold setCutPoints in H.
  destruct (useQuantiles (control fit)), (maxNumCuts (data fit)); try discriminate;
    eapply setCutPointsLoop_scratch; eauto.
Qed.

Lemma state_with_its_trees (s s' : State Tree) :
  treeFits s' = treeFits s -> totalFits s' = totalFits s ->
  totalTestFits s' = totalTestFits s -> trees s' = trees s -> s' = s.
Proof. destruct s, s'. simpl. congruence. Qed.

Lemma fit_by_components fit fit' :
  control fit' = control fit -> model fit' = model fit -> data fit' = data fit ->
  scratch fit' = scratch fit -> state fit' = state fit -> fit' = fit.
Proof. destruct fit, fit'. simpl. congruence. Qed.

Lemma list_equal_by_nth_error {A : Type} (l l' : list A) :
  (forall i, nth_error l i = nth_error l' i) -> l = l'.
Proof.
  revert l'; induction l as [| h t IH]; intros [| h' t'] H.
  - reflexivity.
  - specialize (H 0%nat). discriminate.
  - specialize (H 0%nat). discriminate.
  - pose proof (H 0%nat) as H0. injection H0 as ->. f_equal. apply IH.
    intros i. exact (H (S i)).
Qed.

(** X10.  On a fit whose predictors are well formed and whose trees hold
    the memberships its predictors give them, an updatePredictors that
    returns false returns the fit it was handed: the columns, their
    transposed entries, the cut points and the trees are put back. *)
Theorem updatePredictors_rolls_back fit newPredictor columns numColumns fit' :
  predictorsWellFormed fit ->
  treesAgreeWithFit fit ->
  updatePredictors fit newPredictor columns numColumns = Returned (false, fit') ->
  fit' = fit.
Proof.
  intros (HlX & HcX & HlXt & HrXt & Htr & Hlc & Hln & Hcuts & Hnt) Hagree H.
  unfold updatePredictors in H. cbv zeta in H.
  set (cols := firstn numColumns columns) in *.
  set (n := numObservations (data fit)) in *.
  set (p := numPredictors (data fit)) in *.
  apply obind_Returned in H. destruct H as [fit1 [H1 H]].
  (* the cut points *)
  assert (Hset : Forall (fun k => k <> UINT32_UNSET) (numCutsPerVariable (scratch fit))).
  { apply Forall_forall. intros k Hk. apply In_nth with (d := 0%Z) in Hk.
    destruct Hk as [c [Hc <-]]. apply Hcuts. lia. }
  pose proof (setCutPoints_frame _ _ _ _ H1) as (Hc1 & Hm1 & Hd1 & Hs1 & HXt1 & _).
  pose proof (setCutPoints_scratch _ _ _ _ H1) as Hscr1.
  pose proof (setCutPoints_sameCutShape _ _ _ _ Hset H1) as (Hk1 & Hlc1 & Hlcc1).
  pose proof (setCutPoints_outside _ _ _ _ H1) as Hout1.
  unfold cols in Hout1. rewrite firstn_firstn, Nat.min_id in Hout1. fold cols in Hout1.
  (* the new columns *)
  pose proof (installColumns_frame cols newPredictor fit1) as Hif.
  pose proof (installColumns_shape cols newPredictor fit1) as Hish.
  cbv zeta in Hif, Hish.
  set (fitI := installColumns fit1 cols newPredictor) in *.
  destruct Hif as (Hci & Hmi & Hsi & Hni & _ & Hcuti & Hki).
  destruct Hish as (Hdi & Hscri & HlXi & HcXi & HoXi & HlXti & HrXti & HoXti).
  (* the trees *)
  set (sigma_sq := CHEAT_SIGMA (model fitI) * CHEAT_SIGMA (model fitI)) in *.
  pose proof (validityLoop_frame sigma_sq (numTrees (control fitI)) 0 true fitI) as Hvf.
  pose proof (validityLoop_trees sigma_sq (numTrees (control fitI)) 0 fitI) as Hvt.
  destruct (validityLoop (numTrees (control fitI)) 0 true sigma_sq fitI)
    as [[fitV valid] treeNum].
  destruct Hvf as (Hcv & Hmv & Hdv & Hsv & Htfv & Htotv & Htestv).
  destruct Hvt as (_ & Htrees).
  destruct valid; cbn [negb] in H; [discriminate |]. injection H as <-.
  (* the columns put back *)
  pose proof (restoreColumns_projections n (X (data fit))
                (numCutsPerVariable (scratch fit)) (cutPoints (scratch fit)) cols fitV)
    as Hproj.
  cbv zeta in Hproj.
  destruct Hproj as (Hcr & Hmr & Hsr & Hdr & Hscrr).
  { rewrite Hdv, Hni, Hd1. reflexivity. }
  { rewrite Hsv, Hki, Hk1. reflexivity. }
  set (fitR := restoreColumns fitV cols _ _) in *.
  assert (HXR : fold_left (restoreXStep n (X (data fit))) cols (X (data fitV)) = X (data fit)).
  { apply restoreXStep_restores.
    - intros c. destruct (Nat.lt_ge_cases c p) as [Hc | Hc].
      + left. rewrite Forall_forall in HcX. apply HcX. apply nth_In. lia.
      + right. apply nth_overflow. lia.
    - rewrite Hdv, HlXi, Hd1. reflexivity.
    - intros c. rewrite Hdv, HcXi, Hd1. reflexivity.
    - intros c. rewrite Hdv. destruct (HoXi c) as [Hin | E]; [now left | right].
      rewrite E, Hd1. reflexivity. }
  assert (HXtR : fold_left (restoreXtStep n (X (data fit))) cols (Xt (scratch fitV))
                 = Xt (scratch fit)).
  { apply (restoreXtStep_restores n p); try assumption.
    - intros c Hc. rewrite Forall_forall in HcX. apply HcX. apply nth_In. lia.
    - intros r Hr. rewrite Forall_forall in HrXt. apply HrXt. apply nth_In. lia.
    - rewrite Hsv, HlXti, HXt1. exact HlXt.
    - intros r. rewrite Hsv, HrXti, HXt1. reflexivity.
    - intros r c. rewrite Hsv. destruct (HoXti r c) as [Hin | E]; [now left | right].
      rewrite E, HXt1. reflexivity. }
  assert (HcutsR : fold_left (restoreCutsStep (numCutsPerVariable (scratch fit))
                                (cutPoints (scratch fit))) cols (cutPoints (scratch fitV))
                   = cutPoints (scratch fit)).
  { apply restoreCutsStep_restores.
    - intros c. destruct (Nat.lt_ge_cases c p) as [Hc | Hc].
      + apply Hcuts. exact Hc.
      + rewrite !nth_overflow by lia. reflexivity.
    - rewrite Hsv, Hcuti. exact Hlc1.
    - intros c. rewrite Hsv, Hcuti. apply Hlcc1.
    - intros c. rewrite Hsv, Hcuti. apply Hout1. }
  rewrite HXR in Hdr. rewrite HXtR, HcutsR in Hscrr.
  assert (HdataR : data fitR = data fit).
  { rewrite Hdr, Hdv.
    transitivity (set_X (set_X (data fit1) (X (data fitI))) (X (data fit)));
      [now rewrite <- Hdi |].
    rewrite Hd1. now destruct (data fit). }
  assert (HscratchR : scratch fitR = scratch fit).
  { rewrite Hscrr, Hsv.
    transitivity
      (set_cuts
         (set_Xt
            (set_Xt
               (set_cuts (scratch fit) (numCutsPerVariable (scratch fit1))
                  (cutPoints (scratch fit1)))
               (Xt (scratch fitI)))
            (Xt (scratch fit)))
         (numCutsPerVariable (scratch fit)) (cutPoints (scratch fit)));
      [now rewrite <- Hscr1, <- Hscri |].
    now destruct (scratch fit). }
  (* the trees put back *)
  pose proof (updateTreesLoop_frame sigma_sq treeNum 0 fitR) as Huf.
  pose proof (updateTreesLoop_trees sigma_sq treeNum 0 fitR) as Hut.
  cbv zeta in Huf. destruct Huf as (Hcu & Hmu & Hdu & Hsu & Htfu & Htotu & Htestu).
  assert (HsameR : sameSurroundings fitR fit).
  { unfold sameSurroundings. rewrite Hcr, Hmr, HdataR, HscratchR, Hcv, Hmv, Hci, Hmi.
    repeat split; congruence. }
  assert (Hsigma : sigma_sq = CHEAT_SIGMA (model fit) * CHEAT_SIGMA (model fit)).
  { unfold sigma_sq. now rewrite Hmi, Hm1. }
  apply fit_by_components.
  - congruence.
  - congruence.
  - congruence.
  - congruence.
  - apply state_with_its_trees.
    + rewrite Htfu, Hsr, Htfv, Hsi, Hs1. reflexivity.
    + rewrite Htotu, Hsr, Htotv, Hsi, Hs1. reflexivity.
    + rewrite Htestu, Hsr, Htestv, Hsi, Hs1. reflexivity.
    + apply list_equal_by_nth_error. intros i. rewrite Hut, Hsr, Htrees, Hsi, Hs1.
      replace (0 <=? i)%nat with true by (symmetry; apply Nat.leb_le; lia).
      cbn [andb Nat.add].
      destruct (i <? treeNum)%nat; [| reflexivity].
      destruct (nth_error (trees (state fit)) i) as [t |] eqn:Et; [| reflexivity].
      cbn [option_map]. f_equal.
      rewrite update_overwrites.
      rewrite (updateWithNewCovariates_local sigma_sq t HsameR), Hsigma.
      apply Hagree. eapply nth_error_In; eauto.
Qed.
End RollBack.

(** *** The reference tree meets what is asked of the tree methods *)

Lemma updateMemberships_same_surroundings (fit fit' : BARTFit Tree) (t : Tree) :
  scratch fit = scratch fit' ->
  forall indices, updateMemberships fit indices t = updateMemberships fit' indices t.
Proof.
  intros Hs. induction t as [obs m | j c l IHl r IHr]; intros indices; cbn [updateMemberships].
  - reflexivity.
  - assert (E : forall i, goesLeft fit j c i = goesLeft fit' j c i)
      by (intros i; unfold goesLeft; now rewrite Hs).
    rewrite IHl, IHr. f_equal; f_equal; apply filter_ext; intros i; now rewrite E.
Qed.

Lemma referenceTree_is_local : TreeOpsAreLocal ops.
Proof.
  split. intros fit fit' sigma_sq t (_ & _ & Hd & Hs). cbn.
  unfold updateFromRoot. rewrite Hd. now apply updateMemberships_same_surroundings.
Qed.

Lemma updateMemberships_overwrites (fit fit' : BARTFit Tree) (t : Tree) :
  forall indices indices',
    updateMemberships fit' indices' (updateMemberships fit indices t)
    = updateMemberships fit' indices' t.
Proof.
  induction t as [obs m | j c l IHl r IHr]; intros indices indices'; cbn [updateMemberships].
  - reflexivity.
  - now rewrite IHl, IHr.
Qed.

Lemma referenceTree_follows_the_fit : TreesFollowTheFit ops.
Proof.
  split. intros fit fit' sigma_sq sigma_sq' t. cbn. unfold updateFromRoot.
  apply updateMemberships_overwrites.
Qed.

Lemma stumpFit_wellFormed : predictorsWellFormed stumpFit.
Proof.
  unfold predictorsWellFormed. cbn.
  repeat split; try reflexivity; try (repeat constructor; fail).
  - intros [| [| r]] [| c] Hr Hc; try lia; reflexivity.
  - destruct col as [| col]; [| lia]. cbn. unfold UINT32_UNSET. lia.
  - destruct col as [| col]; [| lia]. reflexivity.
Qed.

Lemma stumpFit_trees_agree : treesAgreeWithFit (treeOps := ops) stumpFit.
Proof.
  intros t [<- | []]. cbn. unfold updateFromRoot, stumpFit, stump.
  compare_reals. reflexivity.
Qed.

Lemma updatePredictors_rolls_back_witness :
  predictorsWellFormed stumpFit /\
  treesAgreeWithFit (treeOps := ops) stumpFit /\
  exists fit',
    updatePredictors (treeOps := ops) stumpFit [constantColumn] [0%nat] 1
    = Returned (false, fit') /\
    fit' = stumpFit.
Proof.
  split; [exact stumpFit_wellFormed |].
  split; [exact stumpFit_trees_agree |].
  exists stumpFit. split; [exact updatePredictors_rolls_back_on_stump |].
  exact (updatePredictors_rolls_back (local := referenceTree_is_local)
           (follow := referenceTree_follows_the_fit)
           stumpFit [constantColumn] [0%nat] 1%nat stumpFit
           stumpFit_wellFormed stumpFit_trees_agree updatePredictors_rolls_back_on_stump).
Defined.

(** The constant column is rejected by setPredictor as well. *)
Lemma setPredictor_rejects_on_stump :
  exists fit' : BARTFit Tree,
    setPredictor (treeOps := ops) stumpFit [constantColumn] = Returned (false, fit').
Proof.
  unfold setPredictor, setCutPoints, stumpFit, stump, constantColumn.
  compare_reals. eexists. reflexivity.
Qed.

Lemma setPredictor_false_iff_witness :
  exists fit' fit1 : BARTFit Tree,
    setPredictor (treeOps := ops) stumpFit [constantColumn] = Returned (false, fit') /\
    setCutPoints stumpFit (seq 0 (numPredictors (data stumpFit)))
      (numPredictors (data stumpFit)) = Returned fit1 /\
    (false = false <->
     exists t, In t (firstn (numTrees (control stumpFit)) (trees (state stumpFit))) /\
               @isValid _ _ ops (@updateWithNewCovariates _ _ ops (withNewPredictor fit1 [constantColumn])
                          (CHEAT_SIGMA (model stumpFit) * CHEAT_SIGMA (model stumpFit)) t)
               = false).
Proof.
  destruct setPredictor_rejects_on_stump as [fit' Hrun].
  destruct (setPredictor_false_iff (local := referenceTree_is_local)
              stumpFit [constantColumn] false fit' Hrun) as [fit1 [Hcuts Hiff]].
  exists fit', fit1. split; [exact Hrun |]. split; [exact Hcuts | exact Hiff].
Defined.

Lemma updatePredictors_false_iff_witness :
  exists fit1 : BARTFit Tree,
    updatePredictors (treeOps := ops) stumpFit [constantColumn] [0%nat] 1
    = Returned (false, stumpFit) /\
    setCutPoints stumpFit (firstn 1 [0%nat]) 1 = Returned fit1 /\
    (false = false <->
     exists t, In t (firstn (numTrees (control stumpFit)) (trees (state stumpFit))) /\
               @isValid _ _ ops (@updateWithNewCovariates _ _ ops
                          (installColumns fit1 (firstn 1 [0%nat]) [constantColumn])
                          (CHEAT_SIGMA (model stumpFit) * CHEAT_SIGMA (model stumpFit)) t)
               = false).
Proof.
  destruct (updatePredictors_false_iff (local := referenceTree_is_local)
              stumpFit [constantColumn] [0%nat] 1%nat false stumpFit
              updatePredictors_rolls_back_on_stump) as [fit1 [Hcuts Hiff]].
  exists fit1. split; [exact updatePredictors_rolls_back_on_stump |].
  split; [exact Hcuts | exact Hiff].
Defined.

(** ** What storeSamples writes *)

Lemma nth_ext_setVectorToConstant (x : list R) (n : nat) (c : R) (i : nat) :
  List.length x = n -> (i < n)%nat -> nth i (ext_setVectorToConstant x n c) 0 = c.
Proof.
  revert x i; induction n as [| n IH]; intros [| x0 x] i Hx Hi; simpl in *; try lia.
  destruct i as [| i]; [reflexivity |]. apply IH; lia.
Qed.

Lemma length_ext_setVectorToConstant (x : list R) (n : nat) (c : R) :
  List.length (ext_setVectorToConstant x n c) = List.length x.
Proof.
  revert x; induction n as [| n IH]; intros [| x0 x]; simpl; auto.
Qed.

(** For a continuous response the sample written to slot [simNum] holds
    sigma in the units of the response, [sigma * range], and, when the
    training fits are kept and there is no offset, the training means
    [range * (totalFits[i] + 0.5) + min]. *)
Lemma storeSamples_continuous {Tree : Type} (fit : BARTFit Tree) (results : Results)
    (trainingSample testSample : list R) (sigma : R) (variableCounts : list Z)
    (simNum : nat) :
  responseIsBinary (control fit) = false ->
  keepTrainingFits (control fit) = true ->
  offset (data fit) = None ->
  (simNum < List.length (sigmaSamples results))%nat ->
  (simNum < List.length (trainingSamples results))%nat ->
  List.length (nth simNum (trainingSamples results) []) = numObservations (data fit) ->
  List.length trainingSample = numObservations (data fit) ->
  let stored := storeSamples fit results trainingSample testSample sigma variableCounts simNum in
  let range := dsRange (dataScale (scratch fit)) in
  nth simNum (sigmaSamples stored) 0 = sigma * range /\
  forall i, (i < numObservations (data fit))%nat ->
    nth i (nth simNum (trainingSamples stored) []) 0
    = range * (nth i trainingSample 0 + 0.5) + dsMin (dataScale (scratch fit)).
Proof.
  intros Hb Hk Ho Hs Ht Hrow Hsample stored range.
  unfold stored, storeSamples. rewrite Hb, Hk, Ho. cbn [sigmaSamples trainingSamples].
  split.
  - now apply nth_upd_same.
  - intros i Hi. rewrite nth_upd_same by exact Ht.
    rewrite nth_ext_addVectorsInPlace;
      [| exact Hsample | now rewrite length_ext_setVectorToConstant].
    rewrite nth_ext_setVectorToConstant by assumption.
    fold range. lra.
Qed.

(** ** The response on the scale of the sampler *)

Lemma nth_overwrite {A : Type} (d : A) (buf src : list A) (i : nat) :
  (i < List.length src)%nat -> (i < List.length buf)%nat ->
  nth i (overwrite buf src) d = nth i src d.
Proof.
  revert buf src; induction i as [| i IH]; intros [| b buf] [| s src] Hs Hb;
    simpl in *; try lia; auto.
  apply IH; lia.
Qed.

Lemma nth_memcpy {A : Type} (d : A) (dst src : list A) (k i : nat) :
  (i < k)%nat -> (i < List.length src)%nat -> (i < List.length dst)%nat ->
  nth i (memcpy dst src k) d = nth i src d.
Proof.
  intros Hk Hs Hd. unfold memcpy. rewrite nth_overwrite.
  - apply nth_firstn_inside. exact Hk.
  - rewrite length_firstn. lia.
  - exact Hd.
Qed.

Lemma length_ext_addVectors (x : list R) (n : nat) (alpha : R) (y : list R) :
  (n <= List.length x)%nat -> (n <= List.length y)%nat ->
  List.length (ext_addVectors x n alpha y) = n.
Proof.
  revert x y; induction n as [| n IH]; intros [| xi x] [| yi y] Hx Hy;
    simpl in *; try lia; auto.
  f_equal. apply IH; lia.
Qed.

Lemma nth_ext_addVectors (x : list R) (n : nat) (alpha : R) (y : list R) (i : nat) :
  (i < n)%nat -> (n <= List.length x)%nat -> (n <= List.length y)%nat ->
  nth i (ext_addVectors x n alpha y) 0 = alpha * nth i x 0 + nth i y 0.
Proof.
  revert x y i; induction n as [| n IH]; intros [| xi x] [| yi y] i Hi Hx Hy;
    simpl in *; try lia.
  destruct i as [| i]; [reflexivity |]. apply IH; lia.
Qed.

Lemma length_ext_addScalarToVectorInPlace (x : list R) (n : nat) (c : R) :
  List.length (ext_addScalarToVectorInPlace x n c) = List.length x.
Proof.
  revert x; induction n as [| n IH]; intros [| xi x]; simpl; auto.
Qed.

Lemma nth_ext_addScalarToVectorInPlace (x : list R) (n : nat) (c : R) (i : nat) :
  (i < n)%nat -> (i < List.length x)%nat ->
  nth i (ext_addScalarToVectorInPlace x n c) 0 = nth i x 0 + c.
Proof.
  revert x i; induction n as [| n IH]; intros [| xi x] i Hi Hx; simpl in *; try lia.
  destruct i as [| i]; [reflexivity |]. apply IH; lia.
Qed.

Lemma length_ext_scalarMultiplyVectorInPlace (x : list R) (n : nat) (c : R) :
  List.length (ext_scalarMultiplyVectorInPlace x n c) = List.length x.
Proof.
  revert x; induction n as [| n IH]; intros [| xi x]; simpl; auto.
Qed.

Lemma nth_ext_scalarMultiplyVectorInPlace (x : list R) (n : nat) (c : R) (i : nat) :
  (i < n)%nat -> (i < List.length x)%nat ->
  nth i (ext_scalarMultiplyVectorInPlace x n c) 0 = nth i x 0 * c.
Proof.
  revert x i; induction n as [| n IH]; intros [| xi x] i Hi Hx; simpl in *; try lia.
  destruct i as [| i]; [reflexivity |]. apply IH; lia.
Qed.

(** The loop that looks for the smallest and the largest entry: its result
    bounds the pair it started from and the entries it went through, and is
    one of them. *)
Lemma rangeLoop_bounds (count : nat) :
  forall (x : list R) (mn mx mn' mx' : R),
    rangeLoop count x (mn, mx) = Returned (mn', mx') ->
    mn' <= mn /\ mx <= mx' /\
    (forall v, In v (firstn count x) -> mn' <= v <= mx') /\
    (mn' = mn \/ In mn' (firstn count x)) /\
    (mx' = mx \/ In mx' (firstn count x)).
Proof.
  induction count as [| count IH]; intros x mn mx mn' mx' H.
  - cbn in H. injection H as <- <-. cbn.
    repeat split; try lra; auto; contradiction.
  - destruct x as [| a x]; [discriminate |]. cbn [rangeLoop fst snd] in H.
    apply IH in H. destruct H as (H1 & H2 & H3 & H4 & H5). cbn [firstn].
    destruct (Rlt_dec a mn) as [Ha | Ha]; destruct (Rgt_dec a mx) as [Hb | Hb];
      (split; [lra |]); (split; [lra |]); (split; [| split]).
    all: try (intros v [<- | Hv]; [lra | now apply H3]).
    all: try (destruct H4 as [-> | H4]; [| now right; right]).
    all: try (destruct H5 as [-> | H5]; [| now right; right]).
    all: try (now right; left).
    all: try (now left).
Qed.

Section RescalingFacts.
Context {Tree : Type}.
Implicit Type fit : BARTFit Tree.

(** The entries rescaleResponse starts from: [y[i] - offset[i]]. *)
Lemma rescaleResponse_start fit :
  let n := numObservations (data fit) in
  let start :=
    match offset (data fit) with
    | Some o => overwrite (yRescaled (scratch fit)) (ext_addVectors o n (-1) (y (data fit)))
    | None => memcpy (yRescaled (scratch fit)) (y (data fit)) n
    end in
  List.length (yRescaled (scratch fit)) = n ->
  (n <= List.length (y (data fit)))%nat ->
  match offset (data fit) with
  | Some o => (n <= List.length o)%nat
  | None => True
  end ->
  List.length start = n /\
  forall i, (i < n)%nat -> nth i start 0 = nth i (y (data fit)) 0 - offsetAt fit i.
Proof.
  intros n start Hbuf Hy Ho. unfold start, offsetAt.
  destruct (offset (data fit)) as [o |].
  - split; [now rewrite length_overwrite |].
    intros i Hi. rewrite nth_overwrite.
    + rewrite nth_ext_addVectors by assumption. lra.
    + rewrite length_ext_addVectors by assumption. exact Hi.
    + now rewrite Hbuf.
  - split; [now rewrite length_memcpy |].
    intros i Hi. rewrite nth_memcpy by lia. lra.
Qed.
End RescalingFacts.

(** X1. rescaleResponse finds the smallest and the largest entry of
    [y - offset] and stores them with their difference as the data scale;
    when they differ, the rescaled response is
    [(y[i] - offset[i] - min) / range - 0.5], which lies in [[-0.5, 0.5]]. *)
Theorem X1_rescaleResponse_maps_the_response_into_the_half_interval
    {Tree : Type} (fit : BARTFit Tree) :
  let n := numObservations (data fit) in
  (1 <= n)%nat ->
  List.length (yRescaled (scratch fit)) = n ->
  (n <= List.length (y (data fit)))%nat ->
  match offset (data fit) with
  | Some o => (n <= List.length o)%nat
  | None => True
  end ->
  exists fit',
    rescaleResponse fit = Returned fit' /\
    let ds := dataScale (scratch fit') in
    dsRange ds = dsMax ds - dsMin ds /\
    (forall i, (i < n)%nat ->
       dsMin ds <= nth i (y (data fit)) 0 - offsetAt fit i <= dsMax ds) /\
    (exists i, (i < n)%nat /\ nth i (y (data fit)) 0 - offsetAt fit i = dsMin ds) /\
    (exists i, (i < n)%nat /\ nth i (y (data fit)) 0 - offsetAt fit i = dsMax ds) /\
    (dsMin ds < dsMax ds ->
     forall i, (i < n)%nat ->
       nth i (yRescaled (scratch fit')) 0
       = (nth i (y (data fit)) 0 - offsetAt fit i - dsMin ds) / dsRange ds - 0.5 /\
       - 0.5 <= nth i (yRescaled (scratch fit')) 0 <= 0.5).
Proof.
  intros n Hn Hbuf Hy Ho.
  destruct (rescaleResponse_start fit Hbuf Hy Ho) as [Hlen Hnth].
  fold n in Hlen, Hnth. unfold rescaleResponse. fold n.
  remember (match offset (data fit) with Some o => overwrite _ _ | None => _ end)
    as start eqn:Estart.
  clear Estart. destruct start as [| y0 rest]; [simpl in Hlen; lia |].
  set (full := y0 :: rest) in *.
  assert (Hrest : List.length rest = (n - 1)%nat) by (simpl in Hlen; lia).
  destruct (rangeLoop_returns (n - 1) rest (y0, y0) ltac:(lia)) as [[mn mx] Hloop].
  rewrite Hloop. cbn [obind].
  eexists. split; [reflexivity |].
  cbn [scratch with_scratch dataScale set_dataScale dsRange dsMin dsMax yRescaled set_yRescaled].
  apply rangeLoop_bounds in Hloop. destruct Hloop as (H1 & H2 & H3 & H4 & H5).
  rewrite <- Hrest, firstn_all in H3, H4, H5.
  assert (Hin : forall v, In v full -> mn <= v <= mx).
  { intros v [<- | Hv]; [lra | now apply H3]. }
  assert (Hmn : In mn full) by (destruct H4 as [-> | H4]; [now left | now right]).
  assert (Hmx : In mx full) by (destruct H5 as [-> | H5]; [now left | now right]).
  split; [reflexivity |]. split; [| split; [| split]].
  - intros i Hi. rewrite <- Hnth by exact Hi. apply Hin, nth_In. lia.
  - destruct (In_nth full mn 0 Hmn) as [i [Hi E]]. exists i.
    split; [lia |]. rewrite <- Hnth by lia. exact E.
  - destruct (In_nth full mx 0 Hmx) as [i [Hi E]]. exists i.
    split; [lia |]. rewrite <- Hnth by lia. exact E.
  - intros Hlt i Hi.
    assert (E : nth i
                  (ext_addScalarToVectorInPlace
                     (ext_scalarMultiplyVectorInPlace
                        (ext_addScalarToVectorInPlace full n (- mn)) n (1 / (mx - mn)))
                     n (- 0.5)) 0
                = (nth i full 0 - mn) / (mx - mn) - 0.5).
    { rewrite nth_ext_addScalarToVectorInPlace;
        [| exact Hi
         | rewrite length_ext_scalarMultiplyVectorInPlace,
             length_ext_addScalarToVectorInPlace; lia].
      rewrite nth_ext_scalarMultiplyVectorInPlace;
        [| exact Hi | rewrite length_ext_addScalarToVectorInPlace; lia].
      rewrite nth_ext_addScalarToVectorInPlace by lia.
      unfold Rdiv, Rminus. lra. }
    rewrite E, Hnth by exact Hi. split; [reflexivity |].
    rewrite <- Hnth by exact Hi.
    assert (Hv : mn <= nth i full 0 <= mx) by (apply Hin, nth_In; lia).
    assert (Hr : 0 < mx - mn) by lra.
    assert (H01 : 0 <= (nth i full 0 - mn) / (mx - mn) <= 1).
    { split.
      - apply Rmult_le_pos; [lra |]. left. now apply Rinv_0_lt_compat.
      - apply (Rmult_le_reg_r (mx - mn)); [exact Hr |].
        unfold Rdiv. rewrite Rmult_assoc, Rinv_l by lra. lra. }
    lra.
Qed.

Lemma X1_rescaleResponse_maps_the_response_into_the_half_interval_witness :
  let fit := twoObservationFit false (Some [7; 7]) in
  exists fit',
    rescaleResponse fit = Returned fit' /\
    let ds := dataScale (scratch fit') in
    dsRange ds = dsMax ds - dsMin ds /\
    (forall i, (i < 2)%nat ->
       dsMin ds <= nth i (y (data fit)) 0 - offsetAt fit i <= dsMax ds) /\
    (exists i, (i < 2)%nat /\ nth i (y (data fit)) 0 - offsetAt fit i = dsMin ds) /\
    (exists i, (i < 2)%nat /\ nth i (y (data fit)) 0 - offsetAt fit i = dsMax ds) /\
    (dsMin ds < dsMax ds ->
     forall i, (i < 2)%nat ->
       nth i (yRescaled (scratch fit')) 0
       = (nth i (y (data fit)) 0 - offsetAt fit i - dsMin ds) / dsRange ds - 0.5 /\
       - 0.5 <= nth i (yRescaled (scratch fit')) 0 <= 0.5).
Proof.
  intros fit.
  apply (X1_rescaleResponse_maps_the_response_into_the_half_interval fit);
    cbn; try lia; reflexivity.
Defined.

Lemma nth_ext_addVectorsInPlace_inside (x : list R) (n : nat) (alpha : R) (y : list R)
    (i : nat) :
  (i < n)%nat -> (i < List.length x)%nat -> (i < List.length y)%nat ->
  nth i (ext_addVectorsInPlace x n alpha y) 0 = nth i y 0 + alpha * nth i x 0.
Proof.
  revert x y i; induction n as [| n IH]; intros [| xi x] [| yi y] i Hi Hx Hy;
    simpl in *; try lia.
  destruct i as [| i]; [reflexivity |]. apply IH; lia.
Qed.

Lemma nth_ext_setVectorToConstant_inside (x : list R) (n : nat) (c : R) (i : nat) :
  (i < n)%nat -> (i < List.length x)%nat -> nth i (ext_setVectorToConstant x n c) 0 = c.
Proof.
  revert x i; induction n as [| n IH]; intros [| xi x] i Hi Hx; simpl in *; try lia.
  destruct i as [| i]; [reflexivity |]. apply IH; lia.
Qed.

Lemma Returned_inj {A : Type} (a b : A) : Returned a = Returned b -> a = b.
Proof.
  intros H. now injection H.
Qed.

Section StoringFacts.
Context {Tree : Type}.
Implicit Type fit : BARTFit Tree.

(** What rescaleResponse leaves in the scratch, entry by entry. *)
Lemma rescaleResponse_entries fit fit' :
  let n := numObservations (data fit) in
  List.length (yRescaled (scratch fit)) = n ->
  (n <= List.length (y (data fit)))%nat ->
  match offset (data fit) with
  | Some o => (n <= List.length o)%nat
  | None => True
  end ->
  rescaleResponse fit = Returned fit' ->
  let ds := dataScale (scratch fit') in
  dsRange ds = dsMax ds - dsMin ds /\
  List.length (yRescaled (scratch fit')) = n /\
  forall i, (i < n)%nat ->
    nth i (yRescaled (scratch fit')) 0
    = (nth i (y (data fit)) 0 - offsetAt fit i + - dsMin ds) * (1 / dsRange ds) + - 0.5.
Proof.
  intros n Hbuf Hy Ho H.
  destruct (rescaleResponse_start fit Hbuf Hy Ho) as [Hlen Hnth].
  fold n in Hlen, Hnth. unfold rescaleResponse in H. fold n in H.
  remember (match offset (data fit) with Some o => overwrite _ _ | None => _ end)
    as start eqn:Estart.
  clear Estart. destruct start as [| y0 rest]; [discriminate |].
  set (full := y0 :: rest) in *.
  apply obind_Returned in H. destruct H as [[mn mx] [_ H]].
  apply Returned_inj in H. rewrite <- H. clear H fit'.
  lazy beta iota zeta delta
    [scratch with_scratch dataScale set_dataScale dsRange dsMin dsMax yRescaled set_yRescaled].
  split; [reflexivity |]. split.
  - now rewrite length_ext_addScalarToVectorInPlace, length_ext_scalarMultiplyVectorInPlace,
      length_ext_addScalarToVectorInPlace.
  - intros i Hi.
    rewrite nth_ext_addScalarToVectorInPlace;
      [| exact Hi
       | rewrite length_ext_scalarMultiplyVectorInPlace,
           length_ext_addScalarToVectorInPlace; lia].
    rewrite nth_ext_scalarMultiplyVectorInPlace;
      [| exact Hi | rewrite length_ext_addScalarToVectorInPlace; lia].
    rewrite nth_ext_addScalarToVectorInPlace by lia.
    now rewrite Hnth.
Qed.

(** The training row storeSamples writes for a continuous response:
    [range * (sample[i] + 0.5) + min + offset[i]]. *)
Lemma storeSamples_training_row fit (results : Results)
    (trainingSample testSample : list R) (sigma : R) (variableCounts : list Z)
    (simNum : nat) :
  let n := numObservations (data fit) in
  responseIsBinary (control fit) = false ->
  keepTrainingFits (control fit) = true ->
  (simNum < List.length (trainingSamples results))%nat ->
  List.length (nth simNum (trainingSamples results) []) = n ->
  (n <= List.length trainingSample)%nat ->
  match offset (data fit) with
  | Some o => (n <= List.length o)%nat
  | None => True
  end ->
  forall i, (i < n)%nat ->
    nth i (nth simNum
             (trainingSamples
                (storeSamples fit results trainingSample testSample sigma variableCounts
                   simNum)) []) 0
    = dsRange (dataScale (scratch fit)) * (nth i trainingSample 0 + 0.5)
      + dsMin (dataScale (scratch fit)) + offsetAt fit i.
Proof.
  intros n Hb Hk Hs Hrow Hsample Ho i Hi.
  unfold storeSamples, offsetAt. rewrite Hb, Hk. cbn [trainingSamples].
  rewrite nth_upd_same by exact Hs. fold n.
  assert (Hinner :
    nth i (ext_addVectorsInPlace trainingSample n (dsRange (dataScale (scratch fit)))
             (ext_setVectorToConstant (nth simNum (trainingSamples results) []) n
                (dsRange (dataScale (scratch fit)) * 0.5 + dsMin (dataScale (scratch fit)))))
      0
    = dsRange (dataScale (scratch fit)) * (nth i trainingSample 0 + 0.5)
      + dsMin (dataScale (scratch fit))).
  { rewrite nth_ext_addVectorsInPlace_inside;
      [| exact Hi | lia | rewrite length_ext_setVectorToConstant; lia].
    rewrite nth_ext_setVectorToConstant_inside by lia. lra. }
  destruct (offset (data fit)) as [o |].
  - rewrite nth_ext_addVectorsInPlace_inside;
      [| exact Hi | lia
       | rewrite length_ext_addVectorsInPlace, length_ext_setVectorToConstant; lia].
    rewrite Hinner. lra.
  - rewrite Hinner. lra.
Qed.
End StoringFacts.

(** X2. The scale of the sampler and the scale of the results are inverse
    to each other: for a continuous response that is not constant, storing
    the rescaled response itself as a training sample writes [y] back. *)
Theorem X2_storing_the_rescaled_response_gives_the_response_back
    {Tree : Type} (fit fit' : BARTFit Tree) (results : Results) (testSample : list R)
    (sigma : R) (variableCounts : list Z) (simNum : nat) :
  let n := numObservations (data fit) in
  responseIsBinary (control fit) = false ->
  keepTrainingFits (control fit) = true ->
  List.length (yRescaled (scratch fit)) = n ->
  (n <= List.length (y (data fit)))%nat ->
  match offset (data fit) with
  | Some o => (n <= List.length o)%nat
  | None => True
  end ->
  rescaleResponse fit = Returned fit' ->
  dsMin (dataScale (scratch fit')) < dsMax (dataScale (scratch fit')) ->
  (simNum < List.length (trainingSamples results))%nat ->
  List.length (nth simNum (trainingSamples results) []) = n ->
  forall i, (i < n)%nat ->
    nth i (nth simNum
             (trainingSamples
                (storeSamples fit' results (yRescaled (scratch fit')) testSample sigma
                   variableCounts simNum)) []) 0
    = nth i (y (data fit)) 0.
Proof.
  intros n Hb Hk Hbuf Hy Ho Hr Hlt Hs Hrow i Hi.
  destruct (rescaleResponse_entries fit fit' Hbuf Hy Ho Hr) as (Hrange & Hlen & Hnth).
  destruct (rescaleResponse_frame fit fit' Hr) as (Hc & _ & Hd & _).
  fold n in Hlen, Hnth.
  rewrite storeSamples_training_row; rewrite ?Hc, ?Hd; try assumption; try (fold n; lia).
  rewrite Hnth by exact Hi. unfold offsetAt. rewrite Hd.
  set (r := dsRange (dataScale (scratch fit'))) in *.
  assert (Hr0 : r <> 0) by (rewrite Hrange; lra).
  generalize (match offset (data fit) with Some o => nth i o 0 | None => 0 end).
  intros o.
  set (a := nth i (y (data fit)) 0 - o + - dsMin (dataScale (scratch fit'))).
  assert (Ha : r * (a * (1 / r)) = a) by (field; exact Hr0).
  unfold a in *. lra.
Qed.

Lemma X2_storing_the_rescaled_response_gives_the_response_back_witness :
  let fit := twoObservationFit false (Some [7; 7]) in
  let results := newResults 2 1 0 1 in
  exists fit',
    rescaleResponse fit = Returned fit' /\
    forall i, (i < 2)%nat ->
      nth i (nth 0
               (trainingSamples
                  (storeSamples fit' results (yRescaled (scratch fit')) [] 1 [0%Z] 0)) []) 0
      = nth i (y (data fit)) 0.
Proof.
  intros fit results. eexists. split; [reflexivity |].
  apply (X2_storing_the_rescaled_response_gives_the_response_back fit _ results [] 1 [0%Z] 0%nat);
    cbn; try lia; try reflexivity.
  - repeat (destruct (Rlt_dec _ _) || destruct (Rgt_dec _ _)); lra.
  - simpl. lia.
Defined.

(** ** Where the cut points of a first call lie *)

Lemma IZR_to_nat (z : Z) : (0 <= z)%Z -> INR (Z.to_nat z) = IZR z.
Proof.
  intros H. rewrite INR_IZR_INZ. now rewrite Z2Nat.id.
Qed.

Lemma uniformCutPoint_value (xMin xIncrement : R) (i : nat) :
  (Z.of_nat i + 1 < 2 ^ 64)%Z ->
  uniformCutPoint xMin xIncrement i = xMin + (INR i + 1) * xIncrement.
Proof.
  intros H. unfold uniformCutPoint. rewrite wrap64_small by lia.
  rewrite plus_IZR, <- INR_IZR_INZ. reflexivity.
Qed.

(** A fraction [(i + 1) / (k + 1)] with [i < k] lies strictly between 0 and 1. *)
Lemma inner_fraction (i k : R) : 0 <= i -> i < k -> 0 < (i + 1) / (k + 1) < 1.
Proof.
  intros H0 Hlt. assert (Hk : 0 < k + 1) by lra. split.
  - apply Rdiv_lt_0_compat; lra.
  - apply (Rmult_lt_reg_r (k + 1)); [exact Hk |].
    unfold Rdiv. rewrite Rmult_assoc, Rinv_l by lra. lra.
Qed.

(** X3. A first call of setCutPointsUniformly on a column returns: it
    takes [maxNumCuts] cut points, [xMin + (i + 1) (xMax - xMin) /
    (maxNumCuts + 1)], where [xMin] and [xMax] are the smallest and the
    largest of the observations.  On a column that is not constant they are
    strictly increasing and strictly inside the range; on a constant column
    every cut point is that constant. *)
Theorem X3_uniform_cut_points_divide_the_range_evenly
    (n : nat) (x : list R) (maxNumCuts : Z) :
  (1 <= n <= List.length x)%nat ->
  (0 <= maxNumCuts < 2 ^ 32 - 1)%Z ->
  exists (r : CutPointResult) (xMin xMax : R),
    setCutPointsUniformly n x maxNumCuts UINT32_UNSET [] = Returned r /\
    In xMin (firstn n x) /\ In xMax (firstn n x) /\
    (forall v, In v (firstn n x) -> xMin <= v <= xMax) /\
    newNumCuts r = maxNumCuts /\
    List.length (newCutPoints r) = Z.to_nat maxNumCuts /\
    forall i, (i < Z.to_nat maxNumCuts)%nat ->
      let c := nth i (newCutPoints r) 0 in
      c = xMin + (INR i + 1) * ((xMax - xMin) / (IZR maxNumCuts + 1)) /\
      (xMin < xMax -> xMin < c < xMax) /\
      (xMin < xMax -> (S i < Z.to_nat maxNumCuts)%nat -> c < nth (S i) (newCutPoints r) 0) /\
      (xMin = xMax -> c = xMin).
Proof.
  intros Hn Hm. destruct x as [| x0 x']; [simpl in Hn; lia |].
  assert (Hx' : (n - 1 <= List.length x')%nat) by (simpl in Hn; lia).
  destruct (rangeLoop_returns (n - 1) x' (x0, x0) Hx') as [[xMin xMax] Hloop].
  set (k := Z.to_nat maxNumCuts).
  set (xIncrement := (xMax - xMin) / IZR (maxNumCuts + 1)).
  assert (Hrun :
    setCutPointsUniformly n (x0 :: x') maxNumCuts UINT32_UNSET []
    = Returned {| newNumCuts := maxNumCuts;
                  newCutPoints := map (uniformCutPoint xMin xIncrement) (seq 0 k);
                  warning := None |}).
  { unfold setCutPointsUniformly. rewrite Hloop. cbn [obind].
    change (UINT32_UNSET =? UINT32_UNSET)%Z with true. cbv iota.
    rewrite wrap32_small by lia. fold xIncrement. fold k.
    pose proof (uniformLoop_fills xMin xIncrement k 0 [] (repeat 0 k) eq_refl) as H.
    simpl in H. rewrite H by (rewrite repeat_length; lia). cbn [obind].
    rewrite skipn_all2 by (rewrite repeat_length; lia). now rewrite app_nil_r. }
  apply rangeLoop_bounds in Hloop. destruct Hloop as (H1 & H2 & H3 & H4 & H5).
  replace (firstn n (x0 :: x')) with (x0 :: firstn (n - 1) x')
    by (destruct n as [| n']; [lia |];
        replace (S n' - 1)%nat with n' by lia; reflexivity).
  eexists _, xMin, xMax. split; [exact Hrun |]. cbn [newNumCuts newCutPoints].
  split; [destruct H4 as [-> | H4]; [now left | now right] |].
  split; [destruct H5 as [-> | H5]; [now left | now right] |].
  split; [intros v [<- | Hv]; [lra | now apply H3] |].
  split; [reflexivity |].
  split; [now rewrite length_map, length_seq |].
  assert (Hcut : forall i, (i < k)%nat ->
            nth i (map (uniformCutPoint xMin xIncrement) (seq 0 k)) 0
            = xMin + (INR i + 1) * ((xMax - xMin) / (IZR maxNumCuts + 1))).
  { intros i Hi.
    rewrite (nth_indep _ 0 (uniformCutPoint xMin xIncrement 0%nat))
      by (now rewrite length_map, length_seq).
    rewrite map_nth, seq_nth by exact Hi. cbn [Nat.add].
    rewrite uniformCutPoint_value by (unfold k in Hi; lia).
    unfold xIncrement. now rewrite plus_IZR. }
  intros i Hi. rewrite (Hcut i Hi).
  assert (Hik : INR i < IZR maxNumCuts).
  { rewrite <- IZR_to_nat by lia. apply lt_INR. exact Hi. }
  pose proof (pos_INR i) as Hi0.
  pose proof (inner_fraction (INR i) (IZR maxNumCuts) Hi0 Hik) as [Hf0 Hf1].
  assert (E : (INR i + 1) * ((xMax - xMin) / (IZR maxNumCuts + 1))
              = (xMax - xMin) * ((INR i + 1) / (IZR maxNumCuts + 1)))
    by (unfold Rdiv; ring).
  split; [reflexivity |]. split; [| split].
  - intros Hlt. rewrite E. split; nra.
  - intros Hlt HS. rewrite (Hcut (S i) HS). rewrite S_INR.
    assert (Hd : 0 < (xMax - xMin) / (IZR maxNumCuts + 1))
      by (apply Rdiv_lt_0_compat; lra).
    nra.
  - intros ->. unfold Rdiv, Rminus. rewrite Rplus_opp_r. ring.
Qed.

(** *** The sorted distinct values of a column *)

Lemma In_set_insert (a v : R) (s : list R) :
  In a (set_insert v s) <-> a = v \/ In a s.
Proof.
  induction s as [| h t IH]; cbn [set_insert].
  - simpl. intuition.
  - destruct (Rlt_dec v h) as [Hvh | Hvh]; [simpl; intuition |].
    destruct (Rlt_dec h v) as [Hhv | Hhv].
    + simpl. rewrite IH. intuition.
    + assert (v = h) by lra. subst. simpl. intuition.
Qed.

Lemma HdRel_set_insert (b v : R) (s : list R) :
  b < v -> HdRel Rlt b s -> HdRel Rlt b (set_insert v s).
Proof.
  intros Hbv Hs. destruct s as [| h t]; cbn [set_insert]; [now constructor |].
  destruct (Rlt_dec v h); [now constructor |].
  destruct (Rlt_dec h v); [constructor; now inversion Hs | exact Hs].
Qed.

Lemma Sorted_set_insert (v : R) (s : list R) :
  Sorted Rlt s -> Sorted Rlt (set_insert v s).
Proof.
  induction s as [| h t IH]; intros Hs; cbn [set_insert].
  - repeat constructor.
  - destruct (Rlt_dec v h) as [Hvh | Hvh]; [constructor; [exact Hs | now constructor] |].
    destruct (Rlt_dec h v) as [Hhv | Hhv]; [| exact Hs].
    inversion Hs as [| ? ? Ht Hhd]; subst. constructor.
    + now apply IH.
    + now apply HdRel_set_insert.
Qed.

Lemma insertObservations_spec (n : nat) :
  forall (x s : list R),
    Sorted Rlt s ->
    Sorted Rlt (insertObservations x n s) /\
    forall a, In a (insertObservations x n s) <-> In a (firstn n x) \/ In a s.
Proof.
  induction n as [| n IH]; intros x s Hs.
  - destruct x; cbn; (split; [exact Hs | intuition]).
  - destruct x as [| xi x]; cbn [insertObservations firstn].
    + split; [exact Hs | simpl; intuition].
    + destruct (IH x (set_insert xi s) (Sorted_set_insert xi s Hs)) as [Hsorted Hin].
      split; [exact Hsorted |]. intros a. rewrite Hin, In_set_insert. simpl. intuition.
Qed.

(** In a sorted list, neighbours increase. *)
Lemma Sorted_neighbours (v : list R) :
  Sorted Rlt v -> forall i, (S i < List.length v)%nat -> nth i v 0 < nth (S i) v 0.
Proof.
  induction 1 as [| a l Hl IH Hhd]; intros i Hi; [simpl in Hi; lia |].
  destruct i as [| i].
  - destruct l as [| b l]; [simpl in Hi; lia |]. inversion Hhd; subst. assumption.
  - apply (IH i). simpl in Hi. lia.
Qed.

(** X4. Quantile mode on a column with at most [maxNumCuts + 1] distinct
    values: the distinct values of the column are kept in increasing order,
    a first call takes one cut point per gap, the midpoint of two
    neighbours, so that every cut point separates two neighbouring values;
    a constant column gets no cut point. *)
Theorem X4_quantile_cut_points_separate_the_distinct_values
    (n : nat) (x : list R) (maxNumCuts : Z) :
  let v := uniqueElements n x in
  (1 <= n <= List.length x)%nat ->
  (0 <= maxNumCuts < 2 ^ 32 - 1)%Z ->
  (Z.of_nat (List.length v) <= maxNumCuts + 1)%Z ->
  Sorted Rlt v /\
  (forall a, In a v <-> In a (firstn n x)) /\
  exists r,
    setCutPointsFromQuantiles n x maxNumCuts UINT32_UNSET [] = Returned r /\
    newNumCuts r = Z.of_nat (List.length v - 1) /\
    List.length (newCutPoints r) = (List.length v - 1)%nat /\
    forall i, (i < List.length v - 1)%nat ->
      nth i (newCutPoints r) 0 = 0.5 * (nth i v 0 + nth (S i) v 0) /\
      nth i v 0 < nth i (newCutPoints r) 0 < nth (S i) v 0.
Proof.
  intros v Hn Hm Hfew.
  destruct (insertObservations_spec n x [] (Sorted_nil Rlt)) as [Hsorted Hin].
  fold (uniqueElements n x) in Hsorted, Hin. fold v in Hsorted, Hin.
  split; [exact Hsorted |].
  split; [intros a; rewrite Hin; simpl; intuition |].
  assert (Hv : (1 <= List.length v)%nat).
  { apply uniqueElements_nonempty; [lia |]. destruct x; [simpl in Hn; lia | discriminate]. }
  pose proof (setCutPointsFromQuantiles_first n x maxNumCuts 1
                (Z.of_nat (List.length v) - 1) 0 ltac:(lia) ltac:(lia) Hv) as Hrun.
  fold v in Hrun. rewrite Hrun by (apply quantileLayout_few; lia).
  eexists. split; [reflexivity |]. cbn [newNumCuts newCutPoints].
  replace (Z.to_nat (Z.of_nat (List.length v) - 1)) with (List.length v - 1)%nat by lia.
  split; [lia |]. split; [now rewrite length_map, length_seq |].
  intros i Hi.
  assert (E : nth i (map (quantileCutPoint v 1 0) (seq 0 (List.length v - 1))) 0
              = 0.5 * (nth i v 0 + nth (S i) v 0)).
  { rewrite (nth_indep _ 0 (quantileCutPoint v 1 0 0%nat))
      by (now rewrite length_map, length_seq).
    rewrite map_nth, seq_nth by exact Hi. cbn [Nat.add].
    unfold quantileCutPoint. rewrite quantileIndex_step_1 by lia.
    rewrite wrap64_small by lia. rewrite Nat2Z.id.
    replace (Z.to_nat (Z.of_nat i + 1)) with (S i) by lia. reflexivity. }
  rewrite E. split; [reflexivity |].
  pose proof (Sorted_neighbours v Hsorted i ltac:(lia)). lra.
Qed.

Lemma X4_quantile_cut_points_separate_the_distinct_values_witness :
  let v := uniqueElements 4 column0123 in
  Sorted Rlt v /\
  (forall a, In a v <-> In a (firstn 4 column0123)) /\
  exists r,
    setCutPointsFromQuantiles 4 column0123 5 UINT32_UNSET [] = Returned r /\
    newNumCuts r = Z.of_nat (List.length v - 1) /\
    List.length (newCutPoints r) = (List.length v - 1)%nat /\
    forall i, (i < List.length v - 1)%nat ->
      nth i (newCutPoints r) 0 = 0.5 * (nth i v 0 + nth (S i) v 0) /\
      nth i v 0 < nth i (newCutPoints r) 0 < nth (S i) v 0.
Proof.
  apply (X4_quantile_cut_points_separate_the_distinct_values 4 column0123 5).
  - simpl. lia.
  - lia.
  - rewrite uniqueElements_0123. simpl. lia.
Defined.

Lemma X3_uniform_cut_points_divide_the_range_evenly_witness :
  exists (r : CutPointResult) (xMin xMax : R),
    setCutPointsUniformly 4 column0123 3 UINT32_UNSET [] = Returned r /\
    In xMin (firstn 4 column0123) /\ In xMax (firstn 4 column0123) /\
    (forall v, In v (firstn 4 column0123) -> xMin <= v <= xMax) /\
    newNumCuts r = 3%Z /\
    List.length (newCutPoints r) = Z.to_nat 3 /\
    forall i, (i < Z.to_nat 3)%nat ->
      let c := nth i (newCutPoints r) 0 in
      c = xMin + (INR i + 1) * ((xMax - xMin) / (IZR 3 + 1)) /\
      (xMin < xMax -> xMin < c < xMax) /\
      (xMin < xMax -> (S i < Z.to_nat 3)%nat -> c < nth (S i) (newCutPoints r) 0) /\
      (xMin = xMax -> c = xMin).
Proof.
  apply (X3_uniform_cut_points_divide_the_range_evenly 4 column0123 3).
  - simpl. lia.
  - lia.
Defined.

(** ** The transposed predictors *)

Lemma nth_memcpy_cases {A : Type} (d : A) (dst src : list A) (k i : nat) :
  nth i (memcpy dst src k) d
  = if ((i <? k)%nat && (i <? List.length src)%nat && (i <? List.length dst)%nat)%bool
    then nth i src d else nth i dst d.
Proof.
  unfold memcpy. revert dst src i; induction k as [| k IH]; intros dst src i.
  - replace (i <? 0)%nat with false by (symmetry; apply Nat.ltb_ge; lia).
    destruct dst; reflexivity.
  - destruct src as [| s src].
    + replace (i <? List.length (@nil A))%nat with false
        by (symmetry; apply Nat.ltb_ge; simpl; lia).
      rewrite andb_false_r. destruct dst; reflexivity.
    + destruct dst as [| b dst].
      * replace (i <? List.length (@nil A))%nat with false
          by (symmetry; apply Nat.ltb_ge; simpl; lia).
        rewrite andb_false_r. reflexivity.
      * destruct i as [| i]; [reflexivity |].
        cbn [firstn overwrite nth List.length]. rewrite IH. reflexivity.
Qed.

Lemma Forall_nth_length {A : Type} (l : list (list A)) (k i : nat) :
  Forall (fun e => List.length e = k) l -> (i < List.length l)%nat ->
  List.length (nth i l []) = k.
Proof.
  intros H Hi. rewrite Forall_forall in H. apply H. now apply nth_In.
Qed.

Lemma Forall_by_nth {A : Type} (P : list A -> Prop) (l : list (list A)) :
  (forall i, (i < List.length l)%nat -> P (nth i l [])) -> Forall P l.
Proof.
  intros H. apply Forall_forall. intros e He.
  destruct (In_nth l e [] He) as [i [Hi <-]]. now apply H.
Qed.

Lemma upd_outside {A : Type} (k : nat) (v : A) (l : list A) :
  (List.length l <= k)%nat -> upd k v l = l.
Proof.
  revert k; induction l as [| h t IH]; intros [| k] H; simpl in *; try lia; auto.
  f_equal. apply IH. lia.
Qed.

Section TransposeFacts.
Context {Tree : Type}.
Implicit Type fit : BARTFit Tree.

(** Writing a column into both matrices keeps their shape, and keeps one
    the transpose of the other. *)
Lemma installColumn_transpose fit (col : nat) (x : list R) :
  predictorShape fit -> XtIsTransposeOfX fit ->
  predictorShape (installColumn fit col x) /\ XtIsTransposeOfX (installColumn fit col x).
Proof.
  intros (HlX & HcX & HlXt & HrXt) Ht.
  unfold predictorShape, XtIsTransposeOfX, installColumn in *.
  cbn [with_scratch with_data data scratch set_X set_Xt X Xt numObservations numPredictors]
    in *.
  set (n := numObservations (data fit)) in *.
  set (p := numPredictors (data fit)) in *.
  split; [split; [| split; [| split]] |].
  - now rewrite length_upd.
  - destruct (Nat.lt_ge_cases col (List.length (X (data fit)))) as [Hc | Hc].
    + apply Forall_upd; [exact HcX |]. rewrite length_memcpy.
      now apply Forall_nth_length.
    + now rewrite upd_outside.
  - now rewrite length_writeXtColumn.
  - apply Forall_by_nth. intros r Hr. rewrite length_writeXtColumn in Hr.
    rewrite nth_writeXtColumn.
    destruct (_ && _ && _)%bool; [rewrite length_upd |]; now apply Forall_nth_length.
  - intros row c Hrow Hc. rewrite nth_writeXtColumn.
    assert (Hrow_len : List.length (nth row (Xt (scratch fit)) []) = p)
      by (apply Forall_nth_length; [exact HrXt | lia]).
    destruct (Nat.eq_dec c col) as [-> | Hne].
    + rewrite nth_upd_same by lia. rewrite nth_memcpy_cases.
      rewrite (Forall_nth_length _ n col HcX) by lia.
      replace (row <? List.length (Xt (scratch fit)))%nat with (row <? n)%nat
        by now rewrite HlXt.
      destruct (row <? n)%nat eqn:E1; cbn [andb]; [| now apply Ht].
      destruct (row <? List.length x)%nat eqn:E2; cbn [andb].
      * now apply nth_upd_same; lia.
      * now apply Ht.
    + rewrite nth_upd_other by congruence.
      destruct (_ && _ && _)%bool; [rewrite nth_upd_other by congruence |]; now apply Ht.
Qed.
End TransposeFacts.

Section TransposeKept.
Context {Tree Rng : Type} {treeOps : TreeOps Tree Rng}.
Implicit Type fit : BARTFit Tree.

(** The two properties read the data and [Xt] only. *)
Lemma transpose_transport fit fit' :
  data fit' = data fit -> Xt (scratch fit') = Xt (scratch fit) ->
  predictorShape fit /\ XtIsTransposeOfX fit ->
  predictorShape fit' /\ XtIsTransposeOfX fit'.
Proof.
  unfold predictorShape, XtIsTransposeOfX. intros -> ->. auto.
Qed.

Lemma installColumns_transpose :
  forall columns newPredictor fit,
    predictorShape fit /\ XtIsTransposeOfX fit ->
    predictorShape (installColumns fit columns newPredictor) /\
    XtIsTransposeOfX (installColumns fit columns newPredictor).
Proof.
  induction columns as [| col columns IH]; intros [| x newPredictor] fit H;
    cbn [installColumns]; try exact H.
  apply IH. destruct H as [Hs Ht]. now apply installColumn_transpose.
Qed.

Lemma restoreColumns_transpose :
  forall columns oldPredictor oldCutPoints fit,
    predictorShape fit /\ XtIsTransposeOfX fit ->
    predictorShape (restoreColumns fit columns oldPredictor oldCutPoints) /\
    XtIsTransposeOfX (restoreColumns fit columns oldPredictor oldCutPoints).
Proof.
  induction columns as [| col columns IH];
    intros [| oldX oldPredictor] [| oldCuts oldCutPoints] fit H;
    cbn [restoreColumns]; try exact H.
  apply IH. destruct H as [Hs Ht].
  apply (transpose_transport (installColumn fit col oldX)); try reflexivity.
  now apply installColumn_transpose.
Qed.

(** updateTrainingFits writes the fits, nothing else. *)
Lemma updateTrainingFitsLoop_frame :
  forall count i fit,
    let fit' := updateTrainingFitsLoop count i fit in
    control fit' = control fit /\ model fit' = model fit /\ data fit' = data fit /\
    scratch fit' = scratch fit /\ trees (state fit') = trees (state fit) /\
    totalTestFits (state fit') = totalTestFits (state fit).
Proof.
  induction count as [| count IH]; intros i fit; cbn [updateTrainingFitsLoop]; cbv zeta.
  - repeat split.
  - destruct (nth_error (trees (state fit)) i) as [tree_i |]; [| repeat split].
    destruct (nth_error (treeFits (state fit)) i) as [treeFits_i |]; [| repeat split].
    match goal with |- context [updateTrainingFitsLoop count (S i) ?f] =>
      destruct (IH (S i) f) as (Hc & Hm & Hd & Hs & Ht & Htt) end.
    cbv zeta in *. rewrite Hc, Hm, Hd, Hs, Ht, Htt. repeat split.
Qed.
End TransposeKept.

Import ReferenceTree.

(** The stump takes the column it was built on. *)
Lemma updatePredictors_accepts_its_own_column :
  exists fit' : BARTFit Tree,
    updatePredictors (treeOps := ops) stumpFit [column01] [0%nat] 1 = Returned (true, fit').
Proof.
  unfold updatePredictors, setCutPoints, stumpFit, stump, column01.
  compare_reals. eexists. reflexivity.
Qed.

Lemma stumpFit_shape : predictorShape stumpFit /\ XtIsTransposeOfX stumpFit.
Proof.
  pose proof stumpFit_wellFormed as (H1 & H2 & H3 & H4 & H5 & _).
  split; [repeat split; assumption | exact H5].
Qed.

(** X5. updatePredictors keeps the two copies of the predictors in step:
    whether it accepts the new columns or puts the old ones back, [X] and
    [Xt] keep their shape and [Xt] is the transpose of [X] when it returns. *)
Theorem X5_updatePredictors_keeps_Xt_the_transpose_of_X
    {Tree Rng : Type} {treeOps : TreeOps Tree Rng}
    (fit fit' : BARTFit Tree) (newPredictor : list (list R)) (columns : list nat)
    (numColumns : nat) (accepted : bool) :
  predictorShape fit -> XtIsTransposeOfX fit ->
  updatePredictors fit newPredictor columns numColumns = Returned (accepted, fit') ->
  predictorShape fit' /\ XtIsTransposeOfX fit'.
Proof.
  intros Hshape Htrans H. unfold updatePredictors in H. cbv zeta in H.
  apply obind_Returned in H. destruct H as [fit1 [H1 H]].
  pose proof (setCutPoints_frame _ _ _ _ H1) as (_ & _ & Hd1 & _ & HXt1 & _).
  assert (P1 : predictorShape fit1 /\ XtIsTransposeOfX fit1)
    by (apply (transpose_transport fit); auto).
  pose proof (installColumns_transpose (firstn numColumns columns) newPredictor fit1 P1)
    as P2.
  match type of H with context [validityLoop ?c ?k true ?s ?f] =>
    pose proof (validityLoop_frame s c k true f) as Hv;
    destruct (validityLoop c k true s f) as [[fitV valid] treeNum] end.
  destruct Hv as (_ & _ & HdV & HsV & _).
  assert (PV : predictorShape fitV /\ XtIsTransposeOfX fitV)
    by (apply (transpose_transport _ _ HdV); [now rewrite HsV | exact P2]).
  destruct valid; cbn [negb] in H; apply Returned_inj in H; injection H as _ <-.
  - pose proof (updateTrainingFitsLoop_frame (numTrees (control fitV)) 0 fitV)
      as (_ & _ & Hd & Hs & _).
    unfold updateTrainingFits.
    apply (transpose_transport fitV); [exact Hd | now rewrite Hs | exact PV].
  - match goal with |- context [updateTreesLoop ?c ?k ?s ?f] =>
      pose proof (updateTreesLoop_frame s c k f) as (_ & _ & Hd & Hs & _) end.
    apply (transpose_transport _ _ Hd); [now rewrite Hs |].
    now apply restoreColumns_transpose.
Qed.

Lemma X5_updatePredictors_keeps_Xt_the_transpose_of_X_witness :
  exists fit' : BARTFit Tree,
    updatePredictors (treeOps := ops) stumpFit [column01] [0%nat] 1 = Returned (true, fit') /\
    predictorShape fit' /\ XtIsTransposeOfX fit'.
Proof.
  destruct updatePredictors_accepts_its_own_column as [fit' Hrun].
  exists fit'. split; [exact Hrun |].
  exact (X5_updatePredictors_keeps_Xt_the_transpose_of_X stumpFit fit' [column01] [0%nat]
           1%nat true (proj1 stumpFit_shape) (proj2 stumpFit_shape) Hrun).
Defined.

(** ** Construction of a fit *)

Lemma transposeInto_spec (n p : nat) :
  forall (M Xt : list (list R)) (col0 : nat),
    List.length Xt = n -> Forall (fun row => List.length row = p) Xt ->
    Forall (fun column => (n <= List.length column)%nat) M ->
    let Xt' := transposeInto Xt M col0 n in
    List.length Xt' = n /\ Forall (fun row => List.length row = p) Xt' /\
    forall row c, (row < n)%nat -> (c < p)%nat ->
      nth c (nth row Xt' []) 0
      = if ((col0 <=? c)%nat && (c <? col0 + List.length M)%nat)%bool
        then nth row (nth (c - col0) M []) 0
        else nth c (nth row Xt []) 0.
Proof.
  induction M as [| x X' IH]; intros Xt col0 HlXt HrXt HX; cbn [transposeInto]; cbv zeta.
  - split; [exact HlXt |]. split; [exact HrXt |]. intros row c _ _.
    cbn [List.length]. rewrite Nat.add_0_r.
    destruct (Nat.leb_spec col0 c), (Nat.ltb_spec c col0); try reflexivity; lia.
  - apply Forall_cons_iff in HX. destruct HX as [Hx HX'].
    assert (Hl1 : List.length (writeXtColumn Xt col0 x n) = n)
      by now rewrite length_writeXtColumn.
    assert (Hr1 : Forall (fun row => List.length row = p) (writeXtColumn Xt col0 x n)).
    { apply Forall_by_nth. intros r Hr. rewrite length_writeXtColumn in Hr.
      rewrite nth_writeXtColumn.
      destruct (_ && _ && _)%bool; [rewrite length_upd |]; now apply Forall_nth_length. }
    destruct (IH (writeXtColumn Xt col0 x n) (S col0) Hl1 Hr1 HX') as (H1 & H2 & H3).
    split; [exact H1 |]. split; [exact H2 |]. intros row c Hrow Hc.
    rewrite (H3 row c Hrow Hc). rewrite nth_writeXtColumn.
    replace ((row <? n)%nat && (row <? List.length Xt)%nat && (row <? List.length x)%nat)%bool
      with true
      by (symmetry; rewrite !andb_true_iff; repeat split; apply Nat.ltb_lt; lia).
    cbn [List.length].
    destruct (Nat.eq_dec c col0) as [-> | Hne].
    + replace (S col0 <=? col0)%nat with false by (symmetry; apply Nat.leb_gt; lia).
      replace (col0 <=? col0)%nat with true by (symmetry; apply Nat.leb_le; lia).
      replace (col0 <? col0 + S (List.length X'))%nat with true
        by (symmetry; apply Nat.ltb_lt; lia).
      cbn [andb]. rewrite Nat.sub_diag. cbn [nth].
      apply nth_upd_same. rewrite (Forall_nth_length Xt p row HrXt); lia.
    + replace (c <? col0 + S (List.length X'))%nat
        with (c <? S col0 + List.length X')%nat by (f_equal; lia).
      destruct (Nat.leb_spec (S col0) c), (Nat.leb_spec col0 c); try lia; cbn [andb].
      * destruct (c <? S col0 + List.length X')%nat.
        -- replace (c - col0)%nat with (S (c - S col0)) by lia. reflexivity.
        -- apply nth_upd_other. congruence.
      * apply nth_upd_other. congruence.
Qed.

Lemma newMatrix_shape (rows columns : nat) :
  List.length (newMatrix rows columns) = rows /\
  Forall (fun row => List.length row = columns) (newMatrix rows columns).
Proof.
  unfold newMatrix. split; [apply repeat_length |].
  apply Forall_forall. intros row Hrow. apply repeat_spec in Hrow. subst.
  apply repeat_length.
Qed.

(** X6. initializeLatents starts the latent variables of a binary response
    at [2 y - 1 - offset]: at [-1] where [y] is 0 and at [1] where it is 1
    when there is no offset; the data scale it leaves is [(-1, 1)] with
    range [2]. *)
Theorem X6_initializeLatents_starts_the_latents_at_plus_or_minus_one
    {Tree : Type} (fit : BARTFit Tree) :
  let n := numObservations (data fit) in
  List.length (yRescaled (scratch fit)) = n ->
  (n <= List.length (y (data fit)))%nat ->
  match offset (data fit) with
  | Some o => (n <= List.length o)%nat
  | None => True
  end ->
  let fit' := initializeLatents fit in
  dataScale (scratch fit') = {| dsMin := - 1; dsMax := 1; dsRange := 2 |} /\
  forall i, (i < n)%nat ->
    nth i (yRescaled (scratch fit')) 0 = 2 * nth i (y (data fit)) 0 - 1 - offsetAt fit i /\
    (offset (data fit) = None -> nth i (y (data fit)) 0 = 0 ->
     nth i (yRescaled (scratch fit')) 0 = - 1) /\
    (offset (data fit) = None -> nth i (y (data fit)) 0 = 1 ->
     nth i (yRescaled (scratch fit')) 0 = 1).
Proof.
  intros n Hbuf Hy Ho fit'. split; [reflexivity |]. intros i Hi.
  assert (E : nth i (yRescaled (scratch fit')) 0
              = 2 * nth i (y (data fit)) 0 - 1 - offsetAt fit i).
  { unfold fit', initializeLatents, offsetAt. fold n.
    cbn [scratch with_scratch set_dataScale set_yRescaled yRescaled].
    destruct (offset (data fit)) as [o |].
    - rewrite nth_ext_addVectorsInPlace_inside;
        [| exact Hi | lia
         | rewrite length_ext_addVectorsInPlace, length_ext_setVectorToConstant; lia].
      rewrite nth_ext_addVectorsInPlace_inside;
        [| exact Hi | lia | rewrite length_ext_setVectorToConstant; lia].
      rewrite nth_ext_setVectorToConstant_inside by lia. lra.
    - rewrite nth_ext_addVectorsInPlace_inside;
        [| exact Hi | lia | rewrite length_ext_setVectorToConstant; lia].
      rewrite nth_ext_setVectorToConstant_inside by lia. lra. }
  split; [exact E |]. unfold offsetAt in E.
  split; intros Hnone Hyi; rewrite E, Hnone, Hyi; lra.
Qed.

Lemma X6_initializeLatents_starts_the_latents_at_plus_or_minus_one_witness :
  let fit := twoObservationFit true None in
  let fit' := initializeLatents fit in
  dataScale (scratch fit') = {| dsMin := - 1; dsMax := 1; dsRange := 2 |} /\
  forall i, (i < 2)%nat ->
    nth i (yRescaled (scratch fit')) 0 = 2 * nth i (y (data fit)) 0 - 1 - offsetAt fit i /\
    (offset (data fit) = None -> nth i (y (data fit)) 0 = 0 ->
     nth i (yRescaled (scratch fit')) 0 = - 1) /\
    (offset (data fit) = None -> nth i (y (data fit)) 0 = 1 ->
     nth i (yRescaled (scratch fit')) 0 = 1).
Proof.
  intros fit.
  apply (X6_initializeLatents_starts_the_latents_at_plus_or_minus_one fit);
    cbn; try lia; reflexivity.
Defined.

(** *** The first cut points *)

(** A first call of setCutPointsUniformly, whatever buffer it is handed. *)
Lemma setCutPointsUniformly_first (n : nat) (x : list R) (maxNumCuts : Z) (cuts : list R) :
  (1 <= n <= List.length x)%nat ->
  (0 <= maxNumCuts < 2 ^ 32 - 1)%Z ->
  exists r,
    setCutPointsUniformly n x maxNumCuts UINT32_UNSET cuts = Returned r /\
    newNumCuts r = maxNumCuts /\
    List.length (newCutPoints r) = Z.to_nat maxNumCuts.
Proof.
  intros Hn Hm. destruct x as [| x0 x']; [simpl in Hn; lia |].
  assert (Hx' : (n - 1 <= List.length x')%nat) by (simpl in Hn; lia).
  destruct (rangeLoop_returns (n - 1) x' (x0, x0) Hx') as [[xMin xMax] Hloop].
  unfold setCutPointsUniformly. rewrite Hloop. cbn [obind].
  change (UINT32_UNSET =? UINT32_UNSET)%Z with true. cbv iota.
  match goal with |- context [uniformLoop ?k 0 ?a ?b (repeat 0 ?k)] =>
    pose proof (uniformLoop_fills a b k 0 [] (repeat 0 k) eq_refl) as H;
    simpl in H; rewrite H by (rewrite repeat_length; lia) end.
  cbn [obind]. eexists. split; [reflexivity |]. cbn [newNumCuts newCutPoints].
  split; [reflexivity |].
  rewrite length_app, length_map, length_seq, length_skipn, repeat_length. lia.
Qed.

Section FirstCutPoints.
Context {Tree : Type}.
Implicit Type fit : BARTFit Tree.

(** The loop of setCutPoints in uniform mode, over columns whose counts are
    not set: every such column takes its [maxNumCuts] cut points. *)
Lemma setCutPointsLoop_uniform_first (maxNumCuts : list Z) :
  forall columns fit,
    let n := numObservations (data fit) in
    let p := numPredictors (data fit) in
    (1 <= n)%nat ->
    List.length (X (data fit)) = p ->
    Forall (fun column => (n <= List.length column)%nat) (X (data fit)) ->
    List.length maxNumCuts = p ->
    (forall c, (c < p)%nat -> (0 <= nth c maxNumCuts 0 < 2 ^ 32 - 1)%Z) ->
    List.length (numCutsPerVariable (scratch fit)) = p ->
    List.length (cutPoints (scratch fit)) = p ->
    NoDup columns ->
    (forall c, In c columns ->
       (c < p)%nat /\ nth c (numCutsPerVariable (scratch fit)) 0%Z = UINT32_UNSET) ->
    exists fit',
      setCutPointsLoop setCutPointsUniformly maxNumCuts columns fit = Returned fit' /\
      List.length (numCutsPerVariable (scratch fit')) = p /\
      List.length (cutPoints (scratch fit')) = p /\
      forall c,
        (In c columns ->
         nth c (numCutsPerVariable (scratch fit')) 0%Z = nth c maxNumCuts 0%Z /\
         List.length (nth c (cutPoints (scratch fit')) [])
         = Z.to_nat (nth c maxNumCuts 0%Z)) /\
        (~ In c columns ->
         nth c (numCutsPerVariable (scratch fit')) 0%Z
         = nth c (numCutsPerVariable (scratch fit)) 0%Z /\
         nth c (cutPoints (scratch fit')) [] = nth c (cutPoints (scratch fit)) []).
Proof.
  induction columns as [| col columns IH];
    intros fit n p Hn HlX HcX Hlm Hm Hln Hlc Hnd Hcols; cbn [setCutPointsLoop].
  - exists fit. split; [reflexivity |]. split; [exact Hln |]. split; [exact Hlc |].
    intros c. split; [intros [] | auto].
  - destruct (Hcols col (or_introl eq_refl)) as [Hcol Hunset].
    inversion Hnd as [| ? ? Hnotin Hnd']; subst.
    assert (Hx : nth_error (X (data fit)) col = Some (nth col (X (data fit)) []))
      by (apply nth_error_nth'; fold p in HlX; lia).
    assert (Hmc : nth_error maxNumCuts col = Some (nth col maxNumCuts 0%Z))
      by (apply nth_error_nth'; lia).
    assert (Hnc : nth_error (numCutsPerVariable (scratch fit)) col = Some UINT32_UNSET)
      by (rewrite <- Hunset; apply nth_error_nth'; fold p in Hln; lia).
    assert (Hcp : nth_error (cutPoints (scratch fit)) col
                  = Some (nth col (cutPoints (scratch fit)) []))
      by (apply nth_error_nth'; fold p in Hlc; lia).
    assert (Hxn : (1 <= n <= List.length (nth col (X (data fit)) []))%nat).
    { split; [exact Hn |]. rewrite Forall_forall in HcX. apply HcX, nth_In.
      fold p in HlX. lia. }
    destruct (setCutPointsUniformly_first n (nth col (X (data fit)) [])
                (nth col maxNumCuts 0%Z) (nth col (cutPoints (scratch fit)) [])
                Hxn (Hm col Hcol)) as (r & Hr & Hrn & Hrl).
    unfold setCutPointsOfColumn at 1. rewrite Hx, Hmc, Hnc, Hcp. cbn [of_option obind].
    fold n. rewrite Hr. cbn [obind].
    match goal with |- context [setCutPointsLoop _ _ columns ?f] => set (fit1 := f) end.
    destruct (IH fit1) as (fit' & Hrun & Hln' & Hlc' & Hall).
    + exact Hn.
    + exact HlX.
    + exact HcX.
    + exact Hlm.
    + exact Hm.
    + unfold fit1. cbn [scratch with_scratch set_cuts numCutsPerVariable].
      now rewrite length_upd.
    + unfold fit1. cbn [scratch with_scratch set_cuts cutPoints].
      now rewrite length_upd.
    + exact Hnd'.
    + intros c Hc. destruct (Hcols c (or_intror Hc)) as [Hcp' Hu]. split; [exact Hcp' |].
      unfold fit1. cbn [scratch with_scratch set_cuts numCutsPerVariable].
      rewrite nth_upd_other; [exact Hu |]. intros ->. contradiction.
    + exists fit'. split; [exact Hrun |]. split; [exact Hln' |]. split; [exact Hlc' |].
      intros c. destruct (Hall c) as [Hin Hout]. split.
      * intros [<- | Hc]; [| now apply Hin].
        destruct (Hout Hnotin) as [E1 E2]. rewrite E1, E2.
        unfold fit1. cbn [scratch with_scratch set_cuts numCutsPerVariable cutPoints].
        rewrite !nth_upd_same by (fold p in Hln, Hlc; lia). now rewrite Hrn, Hrl.
      * intros Hnot. destruct (Hout (fun H => Hnot (or_intror H))) as [E1 E2].
        rewrite E1, E2.
        unfold fit1. cbn [scratch with_scratch set_cuts numCutsPerVariable cutPoints].
        assert (col <> c) by (intros ->; apply Hnot; now left).
        now rewrite !nth_upd_other.
Qed.
End FirstCutPoints.

(** setInitialCutPoints in uniform mode: it returns, the counts are the
    [maxNumCuts], and nothing but the cut points is written. *)
Lemma setInitialCutPoints_uniform {Tree : Type} (fit : BARTFit Tree) (maxNumCuts' : list Z) :
  let n := numObservations (data fit) in
  let p := numPredictors (data fit) in
  List.length (numCutsPerVariable (scratch fit)) = p ->
  List.length (cutPoints (scratch fit)) = p ->
  useQuantiles (control fit) = false ->
  maxNumCuts (data fit) = Some maxNumCuts' ->
  List.length maxNumCuts' = p ->
  (forall c, (c < p)%nat -> (0 <= nth c maxNumCuts' 0 < 2 ^ 32 - 1)%Z) ->
  (1 <= n)%nat ->
  List.length (X (data fit)) = p ->
  Forall (fun column => (n <= List.length column)%nat) (X (data fit)) ->
  exists fit',
    setInitialCutPoints fit = Returned fit' /\
    numCutsPerVariable (scratch fit') = maxNumCuts' /\
    List.length (cutPoints (scratch fit')) = p /\
    (forall c, (c < p)%nat ->
       List.length (nth c (cutPoints (scratch fit')) []) = Z.to_nat (nth c maxNumCuts' 0%Z)) /\
    control fit' = control fit /\ model fit' = model fit /\ data fit' = data fit /\
    state fit' = state fit /\ Xt (scratch fit') = Xt (scratch fit) /\
    yRescaled (scratch fit') = yRescaled (scratch fit) /\
    dataScale (scratch fit') = dataScale (scratch fit) /\
    treeY (scratch fit') = treeY (scratch fit).
Proof.
  intros n p Hln Hlc Hq Hsome Hlm Hm Hn HlX HcX.
  unfold setInitialCutPoints, setCutPoints. fold p.
  cbn [with_scratch control data]. rewrite Hq, Hsome.
  rewrite firstn_all2 by (rewrite length_seq; lia).
  match goal with |- context [setCutPointsLoop _ _ _ ?f] => set (fit0 := f) end.
  assert (Hp0 : numPredictors (data fit0) = p) by reflexivity.
  assert (Hn0 : numObservations (data fit0) = n) by reflexivity.
  destruct (setCutPointsLoop_uniform_first maxNumCuts' (seq 0 p) fit0)
    as (fit' & Hrun & H1 & H2 & Hall).
  - exact Hn.
  - exact HlX.
  - exact HcX.
  - exact Hlm.
  - exact Hm.
  - unfold fit0. cbn [scratch with_scratch set_cuts numCutsPerVariable].
    now rewrite length_overwrite.
  - unfold fit0. cbn [scratch with_scratch set_cuts cutPoints].
    now rewrite length_overwrite.
  - apply seq_NoDup.
  - intros c Hc. apply in_seq in Hc. rewrite Hp0. split; [lia |].
    unfold fit0. cbn [scratch with_scratch set_cuts numCutsPerVariable].
    rewrite overwrite_same_length by (rewrite repeat_length; lia).
    apply nth_repeat_lt. lia.
  - rewrite Hp0 in H1, H2.
    pose proof (setCutPointsLoop_frame _ _ _ _ _ Hrun) as (Fc & Fm & Fd & Fs & FXt & Fy & Fds).
    pose proof (setCutPointsLoop_scratch _ _ _ _ _ Hrun) as Fscr.
    exists fit'. split; [exact Hrun |]. split; [| split; [exact H2 | split]].
    + apply (list_equal_by_nth 0%Z); [lia |].
      intros k. destruct (Nat.lt_ge_cases k p) as [Hk | Hk].
      * apply (proj1 (Hall k)). apply in_seq. lia.
      * rewrite !nth_overflow; auto; lia.
    + intros c Hc. apply (proj1 (Hall c)). apply in_seq. lia.
    + repeat split; try assumption. rewrite Fscr. reflexivity.
Qed.

(** X7. setInitialCutPoints marks every count as not set and lets
    setCutPoints fill them: in uniform mode it returns, and every column
    has taken exactly its [maxNumCuts] cut points, whatever the buffers held
    before. *)
Theorem X7_setInitialCutPoints_takes_maxNumCuts_cut_points_per_column
    {Tree : Type} (fit : BARTFit Tree) (maxNumCuts' : list Z) :
  let n := numObservations (data fit) in
  let p := numPredictors (data fit) in
  List.length (numCutsPerVariable (scratch fit)) = p ->
  List.length (cutPoints (scratch fit)) = p ->
  useQuantiles (control fit) = false ->
  maxNumCuts (data fit) = Some maxNumCuts' ->
  List.length maxNumCuts' = p ->
  (forall c, (c < p)%nat -> (0 <= nth c maxNumCuts' 0 < 2 ^ 32 - 1)%Z) ->
  (1 <= n)%nat ->
  List.length (X (data fit)) = p ->
  Forall (fun column => (n <= List.length column)%nat) (X (data fit)) ->
  exists fit',
    setInitialCutPoints fit = Returned fit' /\
    (forall c, (c < p)%nat ->
       nth c (numCutsPerVariable (scratch fit')) 0%Z = nth c maxNumCuts' 0%Z /\
       nth c (numCutsPerVariable (scratch fit')) 0%Z <> UINT32_UNSET /\
       List.length (nth c (cutPoints (scratch fit')) [])
       = Z.to_nat (nth c (numCutsPerVariable (scratch fit')) 0%Z)) /\
    data fit' = data fit /\ state fit' = state fit.
Proof.
  intros n p Hln Hlc Hq Hsome Hlm Hm Hn HlX HcX.
  destruct (setInitialCutPoints_uniform fit maxNumCuts' Hln Hlc Hq Hsome Hlm Hm Hn HlX HcX)
    as (fit' & Hrun & Hnum & _ & Hcuts & _ & _ & Hd & Hs & _).
  exists fit'. split; [exact Hrun |]. split; [| split; assumption].
  intros c Hc. rewrite Hnum. split; [reflexivity |]. split.
  - pose proof (Hm c Hc). unfold UINT32_UNSET. lia.
  - now apply Hcuts.
Qed.

Lemma X7_setInitialCutPoints_takes_maxNumCuts_cut_points_per_column_witness :
  let fit := twoObservationFit false None in
  exists fit',
    setInitialCutPoints fit = Returned fit' /\
    (forall c, (c < 1)%nat ->
       nth c (numCutsPerVariable (scratch fit')) 0%Z = nth c [1%Z] 0%Z /\
       nth c (numCutsPerVariable (scratch fit')) 0%Z <> UINT32_UNSET /\
       List.length (nth c (cutPoints (scratch fit')) [])
       = Z.to_nat (nth c (numCutsPerVariable (scratch fit')) 0%Z)) /\
    data fit' = data fit /\ state fit' = state fit.
Proof.
  intros fit.
  apply (X7_setInitialCutPoints_takes_maxNumCuts_cut_points_per_column fit [1%Z]);
    try reflexivity.
  - intros c Hc. cbn in Hc. destruct c; [cbn; lia | lia].
  - cbn. lia.
  - cbn. repeat constructor.
Defined.

(** *** The constructor *)

Section ConstructorFacts.
Context {Tree Rng : Type} {treeOps : TreeOps Tree Rng} {nodeOps : NodeOps Tree}.
Implicit Type fit : BARTFit Tree.

Lemma rescaleResponse_returns fit :
  let n := numObservations (data fit) in
  (1 <= n)%nat ->
  List.length (yRescaled (scratch fit)) = n ->
  (n <= List.length (y (data fit)))%nat ->
  match offset (data fit) with
  | Some o => (n <= List.length o)%nat
  | None => True
  end ->
  exists fit', rescaleResponse fit = Returned fit'.
Proof.
  intros n Hn Hbuf Hy Ho.
  destruct (rescaleResponse_start fit Hbuf Hy Ho) as [Hlen _].
  fold n in Hlen. unfold rescaleResponse. fold n.
  remember (match offset (data fit) with Some o => overwrite _ _ | None => _ end)
    as start eqn:Estart.
  clear Estart. destruct start as [| y0 rest]; [simpl in Hlen; lia |].
  destruct (rangeLoop_returns (n - 1) rest (y0, y0) ltac:(simpl in Hlen; lia))
    as [[mn mx] Hloop].
  rewrite Hloop. cbn [obind]. eexists. reflexivity.
Qed.

Lemma updateTreesLoop_length sigma_sq :
  forall count i fit,
    List.length (trees (state (updateTreesLoop count i sigma_sq fit)))
    = List.length (trees (state fit)).
Proof.
  induction count as [| count IH]; intros i fit; cbn [updateTreesLoop]; [reflexivity |].
  destruct (nth_error (trees (state fit)) i) as [tree_i |]; [| reflexivity].
  rewrite IH. cbn [state with_state set_trees trees]. apply length_upd.
Qed.

(** allocateMemory for a continuous response: what it leaves. *)
Lemma allocateMemory_continuous fit :
  let n := numObservations (data fit) in
  let p := numPredictors (data fit) in
  responseIsBinary (control fit) = false ->
  (1 <= n <= List.length (y (data fit)))%nat ->
  match offset (data fit) with
  | Some o => (n <= List.length o)%nat
  | None => True
  end ->
  List.length (X (data fit)) = p ->
  Forall (fun column => List.length column = n) (X (data fit)) ->
  ((0 < numTestObservations (data fit))%nat -> X_test (data fit) <> None) ->
  exists fit' Xt_test,
    allocateMemory fit = Returned (fit', Xt_test) /\
    control fit' = control fit /\ model fit' = model fit /\ data fit' = data fit /\
    predictorShape fit' /\ XtIsTransposeOfX fit' /\
    treeY (scratch fit') = yRescaled (scratch fit') /\
    numCutsPerVariable (scratch fit') = repeat 0%Z p /\
    cutPoints (scratch fit') = repeat [] p /\
    List.length (trees (state fit')) = numTrees (control fit).
Proof.
  intros n p Hb Hn Ho HlX HcX Htest.
  unfold allocateMemory. fold n. fold p. cbn [control with_scratch]. rewrite Hb.
  match goal with |- context [rescaleResponse ?f] => set (fit0 := f) end.
  destruct (rescaleResponse_returns fit0) as [fit1 H1];
    [cbn; lia | apply repeat_length | cbn; lia | exact Ho |].
  rewrite H1. cbn [obind].
  destruct (rescaleResponse_frame fit0 fit1 H1) as (Hc1 & Hm1 & Hd1 & Hs1).
  destruct (rescaleResponse_entries fit0 fit1 (repeat_length _ _) ltac:(cbn; lia) Ho H1)
    as (_ & Hlen1 & _).
  change (data fit0) with (data fit) in *.
  change (control fit0) with (control fit) in *.
  change (model fit0) with (model fit) in *.
  fold n in Hlen1.
  cbn [data with_scratch with_state]. rewrite Hd1.
  rewrite firstn_all2 by lia.
  assert (Htest' : exists xt,
            (if (0 <? numTestObservations (data fit))%nat
             then match X_test (data fit) with
                  | Some X_test =>
                      Returned (Some (transposeInto (newMatrix (numTestObservations (data fit)) p)
                                        (firstn p X_test) 0 (numTestObservations (data fit))))
                  | None => Undefined
                  end
             else Returned None) = Returned xt).
  { destruct (Nat.ltb_spec 0 (numTestObservations (data fit))) as [Hm | Hm].
    - destruct (X_test (data fit)) as [Xtest |]; [eexists; reflexivity |].
      exfalso. now apply Htest.
    - eexists. reflexivity. }
  destruct Htest' as [xt Hxt]. rewrite Hxt. cbn [obind].
  eexists _, xt. split; [reflexivity |].
  cbn [control model data scratch state with_state with_scratch set_trees set_cuts
       set_treeY set_Xt trees treeY yRescaled Xt numCutsPerVariable cutPoints].
  destruct (newMatrix_shape n p) as [Hnl Hnr].
  destruct (transposeInto_spec n p (X (data fit)) (newMatrix n p) 0 Hnl Hnr)
    as (Ht1 & Ht2 & Ht3).
  { eapply Forall_impl; [| exact HcX]. cbn. intros a ->. lia. }
  split; [exact Hc1 |]. split; [exact Hm1 |]. split; [exact Hd1 |].
  split; [| split; [| split; [| split; [| split]]]].
  - unfold predictorShape.
    cbn [data scratch with_state with_scratch set_trees set_cuts set_treeY set_Xt Xt].
    rewrite Hd1. fold n. fold p. repeat split; assumption.
  - unfold XtIsTransposeOfX.
    cbn [data scratch with_state with_scratch set_trees set_cuts set_treeY set_Xt Xt].
    rewrite Hd1. fold n. fold p.
    intros row col Hrow Hcol. rewrite (Ht3 row col Hrow Hcol).
    replace (0 <=? col)%nat with true by (symmetry; apply Nat.leb_le; lia).
    replace (col <? 0 + List.length (X (data fit)))%nat with true
      by (symmetry; apply Nat.ltb_lt; lia).
    cbn [andb]. now rewrite Nat.sub_0_r.
  - unfold memcpy. rewrite firstn_all2 by lia.
    apply overwrite_same_length. now rewrite repeat_length.
  - reflexivity.
  - reflexivity.
  - now rewrite length_map, length_seq, Hc1.
Qed.
End ConstructorFacts.



(** ** The loop counter of the sampler *)

Section CounterFacts.
Context {Tree Rng : Type} {treeOps : TreeOps Tree Rng} {rngOps : RngOps Rng}.

(** The counter is a [uint32_t]: it stays below [2 ^ 32], so a bound of
    [2 ^ 32] or more is never reached. *)
Lemma samplerLoop_never_ends (numBurnIn totalNumIterations : Z) :
  (2 ^ 32 <= totalNumIterations)%Z ->
  forall (fuel : nat) (k : Z) (s s' : Sampler Tree Rng),
    (0 <= k < 2 ^ 32)%Z ->
    samplerLoop fuel numBurnIn totalNumIterations k s <> Some (Returned s').
Proof.
  intros Htotal. induction fuel as [| fuel IH]; intros k s s' Hk; cbn [samplerLoop].
  - discriminate.
  - destruct (Z.ltb_spec k totalNumIterations) as [_ | Hge]; [| lia].
    destruct (iteration numBurnIn k s) as [s1 | msg |]; try discriminate.
    apply IH. unfold wrap32. apply Z.mod_pos_bound. lia.
Qed.
End CounterFacts.

(** X9.  runSampler counts its iterations in a [uint32_t] and compares the
    counter with the [size_t] product [(numBurnIn + numSamples) * thinRate]:
    when that product is [2 ^ 32] or more the loop never ends, so that no
    amount of iterations makes the call return (it can only break off
    inside an iteration). *)
Theorem X9_runSampler_never_returns_when_the_iterations_reach_2_32
    {Tree Rng : Type} {treeOps : TreeOps Tree Rng} {rngOps : RngOps Rng}
    (fit : BARTFit Tree) (rng : Rng) (numBurnIn numSamples : Z) :
  (2 ^ 32 <= wrap64 (wrap64 (numBurnIn + numSamples) * treeThinningRate (control fit)))%Z ->
  forall (fuel : nat) (r : option Results * Sampler Tree Rng),
    runSampler fit rng numBurnIn numSamples fuel <> Some (Returned r).
Proof.
  intros Htotal fuel r. unfold runSampler. cbv zeta.
  match goal with |- context [samplerLoop fuel numBurnIn ?total 0%Z ?s0] =>
    pose proof (fun s' => samplerLoop_never_ends numBurnIn total Htotal fuel 0%Z s0 s') as Hloop;
    destruct (samplerLoop fuel numBurnIn total 0%Z s0) as [[s1 | msg |] |] end.
  - exfalso. apply (Hloop s1); [lia | reflexivity].
  - discriminate.
  - discriminate.
  - discriminate.
Qed.

Lemma X9_runSampler_never_returns_when_the_iterations_reach_2_32_witness :
  (2 ^ 32 <= wrap64 (wrap64 (2 ^ 32 + 0)
                     * treeThinningRate (control ReferenceTree.stumpFit)))%Z /\
  forall (fuel : nat) (r : option Results * Sampler ReferenceTree.Tree nat),
    runSampler (treeOps := ReferenceTree.ops) (rngOps := countingRng)
      ReferenceTree.stumpFit 0%nat (2 ^ 32) 0 fuel <> Some (Returned r).
Proof.
  assert (H : (2 ^ 32 <= wrap64 (wrap64 (2 ^ 32 + 0)
                                 * treeThinningRate (control ReferenceTree.stumpFit)))%Z)
    by (vm_compute; discriminate).
  split; [exact H |].
  exact (X9_runSampler_never_returns_when_the_iterations_reach_2_32
           (treeOps := ReferenceTree.ops) (rngOps := countingRng)
           ReferenceTree.stumpFit 0%nat (2 ^ 32) 0 H).
Defined.

(** ** The residual a tree is fit against *)

(** X13.  On a fit whose total fits are the sums of the tree fits, the
    residual that calculateResidualsFromOtherTreeFits writes for tree [t] is
    the response minus the fits of all the other trees: entry [i] is
    [y[i]] minus the sum of the tree fits with the row of [t] taken out. *)
Theorem X13_a_tree_is_fit_against_the_residual_of_the_other_trees
    {Tree : Type} (fit : BARTFit Tree) (t : nat) (oldTreeFits treeY : list R) :
  let n := numObservations (data fit) in
  totalIsSumOfTreeFits fit ->
  List.length (yRescaled (scratch fit)) = n ->
  List.length treeY = n ->
  nth_error (treeFits (state fit)) t = Some oldTreeFits ->
  let residual :=
    calculateResidualsFromOtherTreeFits (yRescaled (scratch fit)) (totalFits (state fit))
      oldTreeFits n treeY in
  List.length residual = n /\
  forall i, (i < n)%nat ->
    nth i residual 0
    = nth i (yRescaled (scratch fit)) 0
      - sumOverTrees (upd t (repeat 0 n) (treeFits (state fit))) i.
Proof.
  intros n (Htotal & Hrows & Hsum) Hy Hbuf Hold residual.
  assert (Hlen : List.length oldTreeFits = n).
  { apply nth_error_In in Hold. rewrite Forall_forall in Hrows. now apply Hrows. }
  assert (H1 : List.length (memcpy treeY (yRescaled (scratch fit)) n) = n)
    by (now rewrite length_memcpy).
  assert (H2 : List.length (ext_addVectorsInPlace (totalFits (state fit)) n (-1)
                              (memcpy treeY (yRescaled (scratch fit)) n)) = n)
    by (now rewrite length_ext_addVectorsInPlace).
  split.
  - unfold residual, calculateResidualsFromOtherTreeFits.
    now rewrite length_ext_addVectorsInPlace.
  - intros i Hi. unfold residual, calculateResidualsFromOtherTreeFits.
    rewrite nth_ext_addVectorsInPlace by assumption.
    rewrite nth_ext_addVectorsInPlace by assumption.
    rewrite nth_memcpy by lia.
    rewrite (sumOverTrees_upd _ _ _ _ _ Hold).
    rewrite (Hsum i Hi).
    replace (nth i (repeat 0 n) 0) with 0 by (symmetry; apply nth_repeat).
    lra.
Qed.

Lemma X13_a_tree_is_fit_against_the_residual_of_the_other_trees_witness :
  let fit := ReferenceTree.stumpFit in
  let residual :=
    calculateResidualsFromOtherTreeFits (yRescaled (scratch fit)) (totalFits (state fit))
      [- (1 / 4); 1 / 4] 2 [0; 0] in
  List.length residual = 2%nat /\
  forall i, (i < 2)%nat ->
    nth i residual 0
    = nth i (yRescaled (scratch fit)) 0
      - sumOverTrees (upd 0 (repeat 0 2) (treeFits (state fit))) i.
Proof.
  apply (X13_a_tree_is_fit_against_the_residual_of_the_other_trees
           ReferenceTree.stumpFit 0 [- (1 / 4); 1 / 4] [0; 0]).
  - exact stumpFit_sums.
  - reflexivity.
  - reflexivity.
  - reflexivity.
Defined.

(** ** The test side of a fit *)

Section TestFitsFacts.
Context {Tree Rng : Type} {treeOps : TreeOps Tree Rng} {nodeOps : NodeOps Tree}.
Implicit Type fit : BARTFit Tree.

Lemma sameTrainingSide_refl fit : sameTrainingSide fit fit.
Proof. unfold sameTrainingSide. repeat split. Qed.

(** The loop of updateTestFits writes [state.totalTestFits] only, and keeps
    its size. *)
Lemma updateTestFitsLoop_frame :
  forall count i fit currTestFits,
    let fit' := fst (updateTestFitsLoop count i fit currTestFits) in
    sameTrainingSide fit fit' /\ data fit' = data fit /\
    List.length (totalTestFits (state fit')) = List.length (totalTestFits (state fit)).
Proof.
  induction count as [| count IH]; intros i fit curr; cbn [updateTestFitsLoop].
  - cbn [fst]. split; [apply sameTrainingSide_refl | split; reflexivity].
  - destruct (nth_error (trees (state fit)) i) as [tree_i |].
    + cbv zeta.
      match goal with |- context [updateTestFitsLoop count (S i) ?f ?c] =>
        specialize (IH (S i) f c); cbv zeta in IH;
        destruct IH as (Hside & Hdata & Hlen);
        set (r := updateTestFitsLoop count (S i) f c) in * end.
      cbn [with_state set_totalTestFits state data totalTestFits] in Hdata, Hlen.
      rewrite length_ext_addVectorsInPlace in Hlen.
      split; [| split; assumption].
      unfold sameTrainingSide in *.
      cbn [with_state set_totalTestFits state data control model scratch trees treeFits
             totalFits] in Hside.
      exact Hside.
    + cbn [fst]. split; [apply sameTrainingSide_refl | split; reflexivity].
Qed.

Lemma updateTestFits_frame fit :
  sameTrainingSide fit (updateTestFits fit) /\ data (updateTestFits fit) = data fit /\
  List.length (totalTestFits (state (updateTestFits fit)))
  = List.length (totalTestFits (state fit)).
Proof.
  unfold updateTestFits. cbv zeta.
  match goal with |- context [updateTestFitsLoop ?c ?i ?f ?b] =>
    destruct (updateTestFitsLoop_frame c i f b) as (Hside & Hdata & Hlen) end.
  cbv zeta in Hside, Hdata, Hlen.
  cbn [with_state set_totalTestFits state data totalTestFits] in Hdata, Hlen.
  rewrite length_ext_setVectorToConstant in Hlen.
  split; [| split; assumption].
  unfold sameTrainingSide in *.
  cbn [with_state set_totalTestFits state data control model scratch trees treeFits totalFits]
    in Hside.
  exact Hside.
Qed.

End TestFitsFacts.

Lemma sameTrainingSide_trans {Tree : Type} (a b c : BARTFit Tree) :
  sameTrainingSide a b -> sameTrainingSide b c -> sameTrainingSide a c.
Proof.
  unfold sameTrainingSide.
  intros (A1 & A2 & A3 & A4 & A5 & A6 & A7 & A8 & A9 & A10 & A11 & A12 & A13 & A14 & A15)
         (B1 & B2 & B3 & B4 & B5 & B6 & B7 & B8 & B9 & B10 & B11 & B12 & B13 & B14 & B15).
  repeat split; etransitivity; eassumption.
Qed.

(** The transposition loop on a buffer of the right shape leaves the
    transpose of the matrix it is handed. *)
Lemma transposeInto_isTransposeOf (rows columns : nat) (Mt M : list (list R)) :
  List.length M = columns ->
  Forall (fun column => List.length column = rows) M ->
  List.length Mt = rows ->
  Forall (fun row => List.length row = columns) Mt ->
  isTransposeOf rows columns (transposeInto Mt (firstn columns M) 0 rows) M.
Proof.
  intros HlM HcM HlMt HrMt.
  rewrite firstn_all2 by lia.
  assert (Hge : Forall (fun column => (rows <= List.length column)%nat) M).
  { eapply Forall_impl; [| exact HcM]. cbv beta. intros column ->. lia. }
  destruct (transposeInto_spec rows columns M Mt 0 HlMt HrMt Hge) as (H1 & H2 & H3).
  unfold isTransposeOf. repeat split; try assumption.
  intros row col Hrow Hcol. rewrite (H3 row col Hrow Hcol).
  replace (0 <=? col)%nat with true by (symmetry; apply Nat.leb_le; lia).
  replace (col <? 0 + List.length M)%nat with true by (symmetry; apply Nat.ltb_lt; lia).
  cbn [andb]. now rewrite Nat.sub_0_r.
Qed.

(** X14.  setTestPredictorAndOffset, on test data of the shape the fit
    asks for (as many columns as the training matrix, [numTestObservations]
    entries each, and, when the number of test observations stays as it is,
    a transposed buffer of that size), returns and leaves the training side
    as it is.  Handed no matrix or no observations it removes the test
    data: the matrix, its transpose, the total test fits and also the test
    offset, whatever offset argument it is handed.  Handed a matrix it
    installs it, leaves its transpose in [Xt_test] and one total test fit
    per test observation, and keeps the test offset when the offset argument
    is the invalid address. *)
Theorem X14_setTestPredictorAndOffset_installs_or_removes_the_test_data
    {Tree Rng : Type} {treeOps : TreeOps Tree Rng}
    (fit : BARTFit Tree) (Xt_test : TestScratch) (X_test' : option (list (list R)))
    (testOffset' : TestOffsetArgument) (m' : nat) :
  let p := numPredictors (data fit) in
  (forall M, m' <> 0%nat -> X_test' = Some M ->
     List.length M = p /\
     Forall (fun column => List.length column = m') M /\
     (m' = numTestObservations (data fit) ->
      exists Mt, Xt_test = Some Mt /\ List.length Mt = m' /\
                 Forall (fun row => List.length row = p) Mt)) ->
  exists fit' Xt_test',
    setTestPredictorAndOffset fit Xt_test X_test' testOffset' m' = Returned (fit', Xt_test') /\
    sameTrainingSide fit fit' /\
    ((m' = 0%nat \/ X_test' = None) ->
     Xt_test' = None /\ X_test (data fit') = None /\
     numTestObservations (data fit') = 0%nat /\ testOffset (data fit') = None /\
     totalTestFits (state fit') = []) /\
    (forall M, m' <> 0%nat -> X_test' = Some M ->
       X_test (data fit') = Some M /\ numTestObservations (data fit') = m' /\
       testOffset (data fit')
       = match testOffset' with
         | INVALID_ADDRESS => testOffset (data fit)
         | Address o => o
         end /\
       List.length (totalTestFits (state fit'))
       = (if (m' =? numTestObservations (data fit))%nat
          then List.length (totalTestFits (state fit)) else m') /\
       exists Mt', Xt_test' = Some Mt' /\ isTransposeOf m' p Mt' M).
Proof.
  intros p Hshape. unfold setTestPredictorAndOffset. cbv zeta. fold p.
  destruct (Nat.eqb_spec m' 0) as [Hzero | Hpos].
  - (* no test observations *)
    eexists. eexists. split; [reflexivity |].
    split; [unfold sameTrainingSide; repeat split |].
    split; [intros _; repeat split |].
    intros M Hm. contradiction.
  - destruct X_test' as [M |].
    + destruct (Hshape M Hpos eq_refl) as (HlM & HcM & Hbuffer).
      destruct (Nat.eqb_spec m' (numTestObservations (data fit))) as [Hsame | Hresize];
        cbn [negb].
      * (* the buffers are kept *)
        destruct (Hbuffer Hsame) as (Mt & -> & HlMt & HrMt).
        eexists. eexists. split; [reflexivity |].
        match goal with |- context [updateTestFits ?f] =>
          destruct (updateTestFits_frame f) as (Hside & Hdata & Hlen);
          set (fit' := updateTestFits f) in * end.
        split.
        { eapply sameTrainingSide_trans; [| exact Hside].
          unfold sameTrainingSide. destruct testOffset'; repeat split. }
        split; [intros [E | E]; [contradiction | discriminate] |].
        intros M0 _ E. injection E as <-.
        rewrite Hdata. rewrite Hlen.
        destruct testOffset';
          cbn [with_data with_state data state set_X_test set_testOffset X_test
                 numTestObservations testOffset totalTestFits];
          (split; [reflexivity |]); (split; [symmetry; exact Hsame |]);
          (split; [reflexivity |]); (split; [reflexivity |]);
          exists (transposeInto Mt (firstn p M) 0 (numTestObservations (data fit)));
          (split; [reflexivity |]); rewrite <- Hsame;
          apply transposeInto_isTransposeOf; assumption.
      * (* new buffers *)
        eexists. eexists. split; [reflexivity |].
        match goal with |- context [updateTestFits ?f] =>
          destruct (updateTestFits_frame f) as (Hside & Hdata & Hlen);
          set (fit' := updateTestFits f) in * end.
        split.
        { eapply sameTrainingSide_trans; [| exact Hside].
          unfold sameTrainingSide. destruct testOffset'; repeat split. }
        split; [intros [E | E]; [contradiction | discriminate] |].
        intros M0 _ E. injection E as <-.
        rewrite Hdata. rewrite Hlen.
        destruct (newMatrix_shape m' p) as (HlN & HrN).
        destruct testOffset';
          cbn [with_data with_state data state set_X_test set_testOffset X_test
                 set_totalTestFits numTestObservations testOffset totalTestFits];
          (split; [reflexivity |]); (split; [reflexivity |]);
          (split; [reflexivity |]); (split; [apply repeat_length |]);
          exists (transposeInto (newMatrix m' p) (firstn p M) 0 m');
          (split; [reflexivity |]);
          apply transposeInto_isTransposeOf; assumption.
    + eexists. eexists. split; [reflexivity |].
      split; [unfold sameTrainingSide; repeat split |].
      split; [intros _; repeat split |].
      intros M _ E. discriminate.
Qed.

Lemma X14_setTestPredictorAndOffset_installs_or_removes_the_test_data_witness :
  exists (fit' : BARTFit ReferenceTree.Tree) (Mt' : list (list R)),
    setTestPredictorAndOffset (treeOps := ReferenceTree.ops) ReferenceTree.stumpFit None
      (Some [[5; 6]]) INVALID_ADDRESS 2
    = Returned (fit', Some Mt') /\
    isTransposeOf 2 1 Mt' [[5; 6]].
Proof.
  destruct (X14_setTestPredictorAndOffset_installs_or_removes_the_test_data
              (treeOps := ReferenceTree.ops) ReferenceTree.stumpFit None
              (Some [[5; 6]]) INVALID_ADDRESS 2)
    as (fit' & Xt_test' & Hrun & _ & _ & Hinstalled).
  - intros M _ E. injection E as <-. split; [reflexivity |]. split.
    + repeat constructor.
    + cbn. intros E. discriminate.
  - destruct (Hinstalled [[5; 6]]) as (_ & _ & _ & _ & Mt' & -> & Ht).
    + intros E. discriminate.
    + reflexivity.
    + exists fit', Mt'. split; [exact Hrun | exact Ht].
Defined.

Section TestFitsSum.
Context {Tree Rng : Type} {treeOps : TreeOps Tree Rng} {local : FitsAreLocal treeOps}.
Implicit Type fit : BARTFit Tree.

Lemma sumOverTrees_cons (row : list R) (rows : list (list R)) (k : nat) :
  sumOverTrees (row :: rows) k = nth k row 0 + sumOverTrees rows k.
Proof. reflexivity. Qed.

(** Every round of the loop adds the test fits of one tree to the total. *)
Lemma updateTestFitsLoop_sums :
  forall count i fit currTestFits,
    let m := numTestObservations (data fit) in
    List.length (totalTestFits (state fit)) = m ->
    List.length currTestFits = m ->
    let fit' := fst (updateTestFitsLoop count i fit currTestFits) in
    forall k, (k < m)%nat ->
      nth k (totalTestFits (state fit')) 0
      = nth k (totalTestFits (state fit)) 0
        + sumOverTrees (map (fun t => snd (getFits fit t))
                          (firstn count (skipn i (trees (state fit))))) k.
Proof.
  induction count as [| count IH]; intros i fit curr m Htotal Hcurr fit' k Hk.
  - unfold fit'. cbn [updateTestFitsLoop fst firstn map]. unfold sumOverTrees. cbn. lra.
  - unfold fit'. cbn [updateTestFitsLoop].
    destruct (nth_error (trees (state fit)) i) as [tree_i |] eqn:Etree.
    + cbv zeta. fold m.
      assert (Hfill : List.length (snd (getFits fit tree_i)) = m)
        by apply getFits_fills_the_test_buffer.
      rewrite (overwrite_same_length _ curr (snd (getFits fit tree_i))) by congruence.
      set (total := ext_addVectorsInPlace (snd (getFits fit tree_i)) m 1
                      (totalTestFits (state fit))).
      set (fit1 := with_state fit (set_totalTestFits (state fit) total)).
      assert (Hl1 : List.length total = m)
        by (unfold total; now rewrite length_ext_addVectorsInPlace).
      specialize (IH (S i) fit1 (snd (getFits fit tree_i))). cbv zeta in IH.
      change (numTestObservations (data fit1)) with m in IH.
      change (totalTestFits (state fit1)) with total in IH.
      change (trees (state fit1)) with (trees (state fit)) in IH.
      rewrite (IH Hl1 Hfill k Hk).
      rewrite (skipn_nth_error _ _ _ Etree). cbn [firstn map].
      rewrite sumOverTrees_cons.
      unfold total. rewrite nth_ext_addVectorsInPlace by assumption.
      assert (Hsame : map (fun t => snd (getFits fit1 t))
                        (firstn count (skipn (S i) (trees (state fit))))
                      = map (fun t => snd (getFits fit t))
                          (firstn count (skipn (S i) (trees (state fit))))).
      { apply map_ext. intros t. f_equal. apply getFits_local.
        unfold sameSurroundings. repeat split. }
      rewrite Hsame. lra.
    + cbn [fst]. rewrite (skipn_nth_error_None _ _ Etree).
      rewrite firstn_nil. unfold sumOverTrees. cbn. lra.
Qed.

End TestFitsSum.

(** X15.  updateTestFits leaves in [state.totalTestFits] the sum of the
    test fits of the trees: entry [k] is the sum over the [numTrees] trees
    of the test fit [getFits] gives for test observation [k] (for trees
    whose [getFits] reads the fit but not the fits of the ensemble, and
    fills the test buffer). *)
Theorem X15_total_test_fits_are_the_sum_of_the_test_fits_of_the_trees
    {Tree Rng : Type} {treeOps : TreeOps Tree Rng} {local : FitsAreLocal treeOps}
    (fit : BARTFit Tree) :
  let m := numTestObservations (data fit) in
  List.length (totalTestFits (state fit)) = m ->
  let fit' := updateTestFits fit in
  List.length (totalTestFits (state fit')) = m /\
  forall k, (k < m)%nat ->
    nth k (totalTestFits (state fit')) 0 = sumOverTrees (testFitsOfTrees fit') k.
Proof.
  intros m Htotal fit'.
  destruct (updateTestFits_frame fit) as (Hside & Hdata & Hlen). fold fit' in Hside, Hdata, Hlen.
  split; [congruence |].
  intros k Hk. unfold testFitsOfTrees.
  destruct Hside as (Hc & Hm & Hs & Ht & _).
  rewrite Hc, Ht.
  assert (Hsame : map (fun t => snd (getFits fit' t))
                    (firstn (numTrees (control fit)) (trees (state fit)))
                  = map (fun t => snd (getFits fit t))
                      (firstn (numTrees (control fit)) (trees (state fit)))).
  { apply map_ext. intros t. f_equal. apply getFits_local.
    unfold sameSurroundings. repeat split; congruence. }
  rewrite Hsame. unfold fit', updateTestFits. cbv zeta. fold m.
  set (fit0 := with_state fit
                 (set_totalTestFits (state fit)
                    (ext_setVectorToConstant (totalTestFits (state fit)) m 0))).
  pose proof (updateTestFitsLoop_sums (numTrees (control fit0)) 0 fit0 (repeat 0 m)) as Hsum.
  cbv zeta in Hsum.
  change (numTestObservations (data fit0)) with m in Hsum.
  change (trees (state fit0)) with (trees (state fit)) in Hsum.
  change (control fit0) with (control fit) in *.
  change (totalTestFits (state fit0))
    with (ext_setVectorToConstant (totalTestFits (state fit)) m 0) in Hsum.
  rewrite Hsum; try assumption.
  - rewrite nth_ext_setVectorToConstant_inside by lia. cbn [skipn].
    assert (Hsame0 : map (fun t => snd (getFits fit0 t))
                       (firstn (numTrees (control fit)) (trees (state fit)))
                     = map (fun t => snd (getFits fit t))
                         (firstn (numTrees (control fit)) (trees (state fit)))).
    { apply map_ext. intros t. f_equal. apply getFits_local.
      unfold sameSurroundings. repeat split. }
    rewrite Hsame0. lra.
  - now rewrite length_ext_setVectorToConstant.
  - apply repeat_length.
Qed.

Lemma leafParameterAt_same_surroundings (fit fit' : BARTFit ReferenceTree.Tree) (i : nat)
    (t : ReferenceTree.Tree) :
  data fit = data fit' -> scratch fit = scratch fit' ->
  ReferenceTestTree.leafParameterAt fit i t = ReferenceTestTree.leafParameterAt fit' i t.
Proof.
  intros Hd Hs. induction t as [obs m | j c l IHl r IHr]; cbn [ReferenceTestTree.leafParameterAt].
  - reflexivity.
  - rewrite Hd, Hs, IHl, IHr. reflexivity.
Qed.

Lemma referenceTestTree_fits_are_local : FitsAreLocal ReferenceTestTree.ops.
Proof.
  split.
  - intros fit fit' t (_ & _ & Hd & Hs). cbn.
    unfold ReferenceTree.trainingFits, ReferenceTestTree.testFits. rewrite Hd. cbn [fst].
    f_equal. apply map_ext. intros i. now apply leafParameterAt_same_surroundings.
  - intros fit t. cbn. unfold ReferenceTestTree.testFits.
    now rewrite length_map, length_seq.
Qed.

Lemma X15_total_test_fits_are_the_sum_of_the_test_fits_of_the_trees_witness :
  let fit' := updateTestFits (treeOps := ReferenceTestTree.ops)
                ReferenceTestTree.stumpFitWithTests in
  List.length (totalTestFits (state fit')) = 2%nat /\
  forall k, (k < 2)%nat ->
    nth k (totalTestFits (state fit')) 0
    = sumOverTrees (testFitsOfTrees (treeOps := ReferenceTestTree.ops) fit') k.
Proof.
  apply (X15_total_test_fits_are_the_sum_of_the_test_fits_of_the_trees
           (local := referenceTestTree_fits_are_local) ReferenceTestTree.stumpFitWithTests).
  reflexivity.
Defined.

(** *** Replacing columns of the test matrix *)

(** One round of the loop of updateTestPredictors keeps the shape of the
    two matrices and keeps one the transpose of the other. *)
Lemma installTestColumn_transpose (m p : nat) (M Mt : list (list R)) (col : nat)
    (x : list R) :
  isTransposeOf m p Mt M ->
  isTransposeOf m p (snd (installTestColumn m M Mt col x))
    (fst (installTestColumn m M Mt col x)).
Proof.
  intros (HlM & HcM & HlMt & HrMt & Ht).
  unfold isTransposeOf, installTestColumn. cbn [fst snd].
  split; [now rewrite length_upd |].
  split.
  { destruct (Nat.lt_ge_cases col (List.length M)) as [Hc | Hc].
    - apply Forall_upd; [exact HcM |]. rewrite length_memcpy.
      now apply Forall_nth_length.
    - now rewrite upd_outside. }
  split; [now rewrite length_writeXtColumn |].
  split.
  { apply Forall_by_nth. intros r Hr. rewrite length_writeXtColumn in Hr.
    rewrite nth_writeXtColumn.
    destruct (_ && _ && _)%bool; [rewrite length_upd |]; now apply Forall_nth_length. }
  intros row c Hrow Hc. rewrite nth_writeXtColumn.
  assert (Hrow_len : List.length (nth row Mt []) = p)
    by (apply Forall_nth_length; [exact HrMt | lia]).
  destruct (Nat.eq_dec c col) as [-> | Hne].
  - rewrite nth_upd_same by lia. rewrite nth_memcpy_cases.
    rewrite (Forall_nth_length _ m col HcM) by lia.
    replace (row <? List.length Mt)%nat with (row <? m)%nat by now rewrite HlMt.
    destruct (row <? m)%nat eqn:E1; cbn [andb]; [| now apply Ht].
    destruct (row <? List.length x)%nat eqn:E2; cbn [andb].
    + now apply nth_upd_same; lia.
    + now apply Ht.
  - rewrite nth_upd_other by congruence.
    destruct (_ && _ && _)%bool; [rewrite nth_upd_other by congruence |]; now apply Ht.
Qed.

(** The loop of updateTestPredictors: the transposition is kept, a column
    that is not named is not touched, and a column that is named holds the
    values handed for it, when it is not named again later. *)
Lemma installTestColumns_spec (m p : nat) :
  forall (columns : list nat) (newTestPredictor M Mt : list (list R)),
    isTransposeOf m p Mt M ->
    let M' := fst (installTestColumns m M Mt columns newTestPredictor) in
    let Mt' := snd (installTestColumns m M Mt columns newTestPredictor) in
    isTransposeOf m p Mt' M' /\
    (forall c, ~ In c columns -> nth c M' [] = nth c M []) /\
    (forall i col x,
       nth_error columns i = Some col -> nth_error newTestPredictor i = Some x ->
       (col < p)%nat -> List.length x = m ->
       (forall j, (i < j)%nat -> nth_error columns j <> Some col) ->
       nth col M' [] = x).
Proof.
  induction columns as [| col0 columns IH]; intros newP M Mt Ht; cbv zeta.
  - cbn [installTestColumns fst snd]. split; [exact Ht |]. split; [reflexivity |].
    intros [| i] col x H; discriminate.
  - destruct newP as [| x0 newP].
    + cbn [installTestColumns fst snd]. split; [exact Ht |]. split; [reflexivity |].
      intros [| i] col x _ H; discriminate.
    + cbn [installTestColumns].
      pose proof (installTestColumn_transpose m p M Mt col0 x0 Ht) as Ht1.
      destruct (installTestColumn m M Mt col0 x0) as [M1 Mt1] eqn:E1.
      cbn [fst snd] in Ht1.
      assert (EM1 : M1 = upd col0 (memcpy (nth col0 M []) x0 m) M)
        by (unfold installTestColumn in E1; now injection E1 as <- _).
      destruct (IH newP M1 Mt1 Ht1) as (H1 & H2 & H3).
      split; [exact H1 |]. split.
      * intros c Hc. rewrite H2 by (intros Hin; apply Hc; now right).
        rewrite EM1. apply nth_upd_other. intros ->. apply Hc. now left.
      * intros [| i] col x Hcol Hx Hp Hlen Hlater.
        -- cbn in Hcol, Hx. injection Hcol as ->. injection Hx as ->.
           rewrite H2.
           ++ rewrite EM1. destruct Ht as (HlM & HcM & _).
              rewrite nth_upd_same by lia.
              assert (Hlc : List.length (nth col M []) = m)
                by (apply Forall_nth_length; [exact HcM | lia]).
              rewrite <- Hlc. apply memcpy_all. congruence.
           ++ intros Hin. apply In_nth_error in Hin. destruct Hin as [j Hj].
              apply (Hlater (S j)); [lia | exact Hj].
        -- apply (H3 i col x Hcol Hx Hp Hlen).
           intros j Hj. apply (Hlater (S j)). lia.
Qed.

(** X16.  updateTestPredictors, on a fit whose [Xt_test] is the transpose
    of its [X_test], handed [numColumns] columns of the fit and as many new
    columns of [m] entries, returns and keeps it so; the training side, the
    number of test observations and the test offset stay as they are; a
    column that is not named is not touched, and a named column holds the
    values handed for it (when it is not named again later in the list). *)
Theorem X16_updateTestPredictors_keeps_Xt_test_the_transpose_of_X_test
    {Tree Rng : Type} {treeOps : TreeOps Tree Rng}
    (fit : BARTFit Tree) (M Mt newTestPredictor : list (list R)) (columns : list nat)
    (numColumns : nat) :
  let m := numTestObservations (data fit) in
  let p := numPredictors (data fit) in
  X_test (data fit) = Some M ->
  isTransposeOf m p Mt M ->
  (numColumns <= List.length columns)%nat ->
  (numColumns <= List.length newTestPredictor)%nat ->
  Forall (fun col => (col < p)%nat) (firstn numColumns columns) ->
  Forall (fun x => List.length x = m) newTestPredictor ->
  exists fit' M' Mt',
    updateTestPredictors fit (Some Mt) newTestPredictor columns numColumns
    = Returned (fit', Some Mt') /\
    X_test (data fit') = Some M' /\
    isTransposeOf m p Mt' M' /\
    numTestObservations (data fit') = m /\
    testOffset (data fit') = testOffset (data fit) /\
    sameTrainingSide fit fit' /\
    (forall c, ~ In c (firstn numColumns columns) -> nth c M' [] = nth c M []) /\
    (forall i col x,
       nth_error (firstn numColumns columns) i = Some col ->
       nth_error newTestPredictor i = Some x ->
       (forall j, (i < j)%nat -> nth_error (firstn numColumns columns) j <> Some col) ->
       nth col M' [] = x).
Proof.
  intros m p HM Ht _ _ Hcols Hnew.
  assert (Hnamed_in : forall (M' : list (list R)),
            (forall i col x,
               nth_error (firstn numColumns columns) i = Some col ->
               nth_error newTestPredictor i = Some x ->
               (col < p)%nat -> List.length x = m ->
               (forall j, (i < j)%nat -> nth_error (firstn numColumns columns) j <> Some col) ->
               nth col M' [] = x) ->
            forall i col x,
              nth_error (firstn numColumns columns) i = Some col ->
              nth_error newTestPredictor i = Some x ->
              (forall j, (i < j)%nat -> nth_error (firstn numColumns columns) j <> Some col) ->
              nth col M' [] = x).
  { intros M' H i col x Hc Hx Hlast. apply (H i col x Hc Hx); [| | exact Hlast].
    - exact (proj1 (Forall_forall _ _) Hcols col (nth_error_In _ _ Hc)).
    - exact (proj1 (Forall_forall _ _) Hnew x (nth_error_In _ _ Hx)). }
  unfold updateTestPredictors. cbv zeta. fold m. rewrite HM.
  set (cols := firstn numColumns columns).
  destruct (installTestColumns_spec m p cols newTestPredictor M Mt Ht) as (H1 & H2 & H3).
  destruct cols as [| col0 cols'] eqn:Ecols.
  - cbn [installTestColumns fst snd] in H1, H2, H3.
    destruct (updateTestFits_frame fit) as (Hside & Hdata & _).
    exists (updateTestFits fit), M, Mt. rewrite Hdata.
    split; [reflexivity |]. split; [exact HM |]. split; [exact H1 |].
    split; [reflexivity |]. split; [reflexivity |]. split; [exact Hside |].
    split; [intros c _; reflexivity |].
    intros [| i] col x H; discriminate.
  - rewrite <- Ecols in *. clear Ecols.
    destruct (installTestColumns m M Mt cols newTestPredictor) as [M' Mt'].
    cbn [fst snd] in H1, H2, H3.
    match goal with |- context [updateTestFits ?f] =>
      destruct (updateTestFits_frame f) as (Hside & Hdata & _) end.
    eexists. exists M', Mt'. split; [reflexivity |]. rewrite Hdata.
    cbn [with_data data set_X_test X_test numTestObservations testOffset].
    split; [reflexivity |]. split; [exact H1 |]. split; [reflexivity |].
    split; [reflexivity |]. split; [| split; [assumption | apply Hnamed_in; assumption]].
    eapply sameTrainingSide_trans; [| exact Hside].
    unfold sameTrainingSide. repeat split.
Qed.

Lemma X16_updateTestPredictors_keeps_Xt_test_the_transpose_of_X_test_witness :
  exists (fit' : BARTFit ReferenceTree.Tree) (Mt' : list (list R)),
    updateTestPredictors (treeOps := ReferenceTestTree.ops)
      ReferenceTestTree.stumpFitWithTests (Some [[0]; [1]]) [[3; 4]] [0%nat] 1
    = Returned (fit', Some Mt') /\
    X_test (data fit') = Some [[3; 4]] /\
    isTransposeOf 2 1 Mt' [[3; 4]].
Proof.
  destruct (X16_updateTestPredictors_keeps_Xt_test_the_transpose_of_X_test
              (treeOps := ReferenceTestTree.ops)
              ReferenceTestTree.stumpFitWithTests [[0; 1]] [[0]; [1]] [[3; 4]] [0%nat] 1)
    as (fit' & M' & Mt' & Hrun & HX & Ht & _ & _ & _ & _ & Hnamed).
  - reflexivity.
  - unfold isTransposeOf. cbn. repeat split; try (repeat constructor; fail).
    intros [| [| row]] [| col] Hrow Hcol; try lia; reflexivity.
  - cbn. lia.
  - cbn. lia.
  - cbn. repeat constructor.
  - cbn. repeat constructor.
  - assert (HM' : M' = [[3; 4]]).
    { destruct Ht as (HlM' & _). cbn in HlM'.
      destruct M' as [| c0 [| c1 M']]; try discriminate.
      f_equal. apply (Hnamed 0%nat 0%nat [3; 4]); try reflexivity.
      intros [| j] Hj; [lia |]. cbn. destruct j; discriminate. }
    exists fit', Mt'. rewrite HM' in HX, Ht.
    split; [exact Hrun |]. split; [exact HX | exact Ht].
Defined.

(** ** Data from host objects: the sizes *)

Lemma columnsOf_length (n p : nat) (flat : list R) : List.length (columnsOf n p flat) = p.
Proof.
  revert flat; induction p as [| p IH]; intros flat; cbn [columnsOf List.length]; auto.
Qed.

Lemma columnsOf_columns (n p : nat) :
  forall flat : list R,
    (n * p <= List.length flat)%nat ->
    Forall (fun column => List.length column = n) (columnsOf n p flat).
Proof.
  induction p as [| p IH]; intros flat Hlen; cbn [columnsOf]; constructor.
  - rewrite length_firstn. nia.
  - apply IH. rewrite length_skipn. nia.
Qed.

Lemma isReal_RealVector (expr : SEXP) :
  isReal expr = true -> exists v dims, expr = RealVector v dims.
Proof. destruct expr; try discriminate. intros _. eauto. Qed.

Lemma isInteger_IntegerVector (expr : SEXP) :
  isInteger expr = true -> exists v, expr = IntegerVector v.
Proof. destruct expr; try discriminate. intros _. eauto. Qed.

Lemma require_Returned (cond : bool) (msg : string) (u : unit) :
  require cond msg = Returned u -> cond = true.
Proof. unfold require. destruct cond; [reflexivity | discriminate]. Qed.

Ltac require_step H E :=
  let u := fresh "u" in
  let Hu := fresh "Hu" in
  bind_step H u Hu; pose proof (require_Returned _ _ _ Hu) as E; clear u Hu.

Lemma getDims_two (expr : SEXP) (msg : string) (rows cols : Z) :
  match getDims expr with
  | Some [r; c] => Returned (r, c)
  | _ => Thrown msg
  end = Returned (rows, cols) ->
  getDims expr = Some [rows; cols].
Proof.
  destruct (getDims expr) as [[| r [| c [| ? ?]]] |]; try discriminate.
  intros H. injection H as <- <-. reflexivity.
Qed.

Lemma wrap32_bounds (z : Z) : (0 <= wrap32 z < 2 ^ 32)%Z.
Proof. unfold wrap32. apply Z.mod_pos_bound. lia. Qed.

(** X17.  A [Data] that initializeDataFromExpression returns from host
    objects (whose matrices have as many entries as their dimensions say)
    is consistent: there is at least one observation, [y] holds one entry
    per observation, [x] has [numPredictors] columns of [numObservations]
    entries, there is one variable type and one maximal number of cuts
    (an unsigned 32-bit number) per predictor, weights that are kept have
    one entry per observation, a test matrix that is kept has at least one
    row and [numPredictors] columns, no test matrix means no test
    observation, and the sigma estimate is positive. *)
Theorem X17_data_from_host_objects_are_consistent
    (data data' : Data) (dataExpr : string -> SEXP) :
  isHostMatrix (dataExpr "x"%string) ->
  isHostMatrix (dataExpr "x.test"%string) ->
  initializeDataFromExpression data dataExpr = Returned data' ->
  dataIsConsistent data' /\
  match offset data' with
  | Some o => offset data' = offset data \/ List.length o = numObservations data'
  | None => True
  end /\
  testOffset data' = testOffset data.
Proof.
  intros HostX HostT H. unfold initializeDataFromExpression in H. cbv zeta in H.
  require_step H Ey. require_step H Ey0.
  require_step H Ex. bind_step H dims Hdims. require_step H Erows.
  require_step H Evt. require_step H Evtl.
  bind_step H dataT HT. bind_step H dataW HW. bind_step H dataO HO.
  require_step H Es. require_step H Esl. require_step H Espos.
  require_step H Ec. require_step H Ecl.
  injection H as <-.
  destruct dims as [rows cols]. apply getDims_two in Hdims.
  destruct (isReal_RealVector _ Ey) as (vy & dy & Hy).
  destruct (isReal_RealVector _ Ex) as (vx & dx & Hx).
  destruct (isInteger_IntegerVector _ Evt) as (vt & Hvt).
  destruct (isInteger_IntegerVector _ Ec) as (vc & Hvc).
  rewrite Hy, Hx, Hvt in *. rewrite Hvc in *.
  cbn [getDims] in Hdims. subst dx.
  cbn [Rlength REAL INTEGER set_sizes set_y set_X set_variableTypes numObservations
         numPredictors fst snd] in *.
  apply Bool.negb_true_iff, Nat.eqb_neq in Ey0.
  apply Z.eqb_eq in Erows. apply Nat.eqb_eq in Evtl. apply Nat.eqb_eq in Ecl.
  destruct (HostX vx rows cols eq_refl) as (Hr0 & Hc0 & Hlx).
  set (n := List.length vy) in *.
  set (p := Z.to_nat cols) in *.
  assert (Hnp : (n * p)%nat = List.length vx) by (unfold p; nia).
  (* the three optional blocks *)
  set (data2 := {| y := vy; X := columnsOf n p vx; X_test := X_test data;
                   weights := weights data; offset := offset data;
                   testOffset := testOffset data; numObservations := n;
                   numPredictors := p; numTestObservations := numTestObservations data;
                   sigmaEstimate := sigmaEstimate data;
                   variableTypes :=
                     map (fun t => if (t =? 0)%Z then ORDINAL else CATEGORICAL) (firstn p vt);
                   maxNumCuts := maxNumCuts data |}) in *.
  assert (FT : y dataT = vy /\ X dataT = columnsOf n p vx /\ numObservations dataT = n /\
               numPredictors dataT = p /\ variableTypes dataT = variableTypes data2 /\
               offset dataT = offset data /\ testOffset dataT = testOffset data /\
               match X_test dataT with
               | Some M => (0 < numTestObservations dataT)%nat /\ List.length M = p /\
                           Forall (fun column => List.length column
                                                 = numTestObservations dataT) M
               | None => numTestObservations dataT = 0%nat
               end).
  { destruct (nullOrEmpty (dataExpr "x.test"%string)) eqn:Enull.
    - injection HT as <-. cbn. repeat split.
    - require_step HT Et. bind_step HT dimsT HdimsT. require_step HT Ecols.
      injection HT as <-. destruct dimsT as [rowsT colsT]. apply getDims_two in HdimsT.
      destruct (isReal_RealVector _ Et) as (vT & dT & HvT).
      rewrite HvT in *. cbn [getDims] in HdimsT. subst dT.
      cbn [fst snd REAL numPredictors numObservations] in *.
      destruct (HostT vT rowsT colsT eq_refl) as (HrT & HcT & HlT).
      apply Z.eqb_eq in Ecols.
      unfold nullOrEmpty in Enull. cbn [isS4Null isNull Rlength orb] in Enull.
      apply Nat.eqb_neq in Enull.
      cbn [set_X_test y X numObservations numPredictors variableTypes offset testOffset
             X_test numTestObservations].
      repeat split; try reflexivity.
      + nia.
      + apply columnsOf_length.
      + apply columnsOf_columns. fold p in Ecols. nia. }
  destruct FT as (FTy & FTX & FTn & FTp & FTv & FTo & FTto & FTt).
  assert (FW : y dataW = vy /\ X dataW = columnsOf n p vx /\ numObservations dataW = n /\
               numPredictors dataW = p /\ variableTypes dataW = variableTypes data2 /\
               offset dataW = offset data /\ testOffset dataW = testOffset data /\
               X_test dataW = X_test dataT /\
               numTestObservations dataW = numTestObservations dataT /\
               match weights dataW with Some w => List.length w = n | None => True end).
  { destruct (nullOrEmpty (dataExpr "weights"%string)) eqn:Enull.
    - injection HW as <-. cbn. repeat split; assumption.
    - require_step HW Ew. require_step HW Ewl. injection HW as <-.
      destruct (isReal_RealVector _ Ew) as (vw & dw & Hvw). rewrite Hvw in *.
      cbn [Rlength REAL] in *. apply Nat.eqb_eq in Ewl. rewrite FTn in Ewl.
      cbn. repeat split; assumption. }
  destruct FW as (FWy & FWX & FWn & FWp & FWv & FWo & FWto & FWt & FWm & FWw).
  assert (FO : y dataO = vy /\ X dataO = columnsOf n p vx /\ numObservations dataO = n /\
               numPredictors dataO = p /\ variableTypes dataO = variableTypes data2 /\
               testOffset dataO = testOffset data /\
               X_test dataO = X_test dataT /\
               numTestObservations dataO = numTestObservations dataT /\
               match weights dataO with Some w => List.length w = n | None => True end /\
               match offset dataO with
               | Some o => offset dataO = offset data \/ List.length o = n
               | None => True
               end).
  { destruct (nullOrEmpty (dataExpr "offset"%string)) eqn:Enull.
    - injection HO as <-. cbn. repeat split; try assumption.
      rewrite FWo. destruct (offset data); [now left | exact I].
    - require_step HO Eo. require_step HO Eol. injection HO as <-.
      destruct (isReal_RealVector _ Eo) as (vo & dimo & Hvo). rewrite Hvo in *.
      cbn [Rlength REAL] in *. apply Nat.eqb_eq in Eol. rewrite FWn in Eol.
      cbn. repeat split; try assumption. now right. }
  destruct FO as (FOy & FOX & FOn & FOp & FOv & FOto & FOt & FOm & FOw & FOo).
  cbn [set_sigmaEstimate numPredictors] in Ecl. rewrite FOp in *.
  unfold dataIsConsistent.
  cbn [set_maxNumCuts set_sigmaEstimate y X X_test weights offset testOffset numObservations
         numPredictors numTestObservations sigmaEstimate variableTypes maxNumCuts].
  rewrite FOy, FOX, FOn, FOp, FOv, FOto, FOt, FOm.
  split; [| split; [exact FOo | reflexivity]].
  split; [fold n; lia |]. split; [reflexivity |].
  split; [apply columnsOf_length |].
  split; [apply columnsOf_columns; lia |].
  split.
  { unfold data2. cbn [variableTypes]. rewrite length_map, length_firstn. lia. }
  split; [exact FOw |].
  split; [exact FTt |].
  split.
  { destruct (Rle_dec (nth 0 (REAL (dataExpr "sigma"%string)) 0) 0); [discriminate | lra]. }
  eexists. split; [reflexivity |]. split.
  - rewrite length_map, length_firstn. lia.
  - intros c Hc.
    rewrite (nth_indep _ 0%Z (wrap32 0)) by (rewrite length_map, length_firstn; lia).
    rewrite map_nth. apply wrap32_bounds.
Qed.

Lemma fullDataExpression_is_accepted :
  exists data' : Data,
    initializeDataFromExpression dataWithOffset fullDataExpression = Returned data'.
Proof.
  unfold initializeDataFromExpression. compare_reals. eexists. reflexivity.
Qed.

Lemma fullDataExpression_matrices :
  isHostMatrix (fullDataExpression "x"%string) /\
  isHostMatrix (fullDataExpression "x.test"%string).
Proof.
  split; intros v rows cols E; cbn in E; injection E as <- <- <-; cbn; lia.
Qed.

Lemma X17_data_from_host_objects_are_consistent_witness :
  exists data' : Data,
    initializeDataFromExpression dataWithOffset fullDataExpression = Returned data' /\
    dataIsConsistent data'.
Proof.
  destruct fullDataExpression_is_accepted as [data' Hrun].
  exists data'. split; [exact Hrun |].
  destruct fullDataExpression_matrices as [Hx Ht].
  exact (proj1 (X17_data_from_host_objects_are_consistent
                  dataWithOffset data' fullDataExpression Hx Ht Hrun)).
Defined.

(** ** The rest of the Mean-Normal model *)

(** X18.  The [k] that print reports for a prior made by
    [initializeMeanNormalModel(model, control, k)] is the absolute value of
    the [k] the prior was made from: the precision keeps the square of
    [k] only. *)
Theorem X18_print_reports_the_absolute_value_of_k
    {Tree : Type} (fit : BARTFit Tree) (k : R) :
  (0 < numTrees (control fit))%nat ->
  k <> 0 ->
  MeanNormalNode.print
    (with_model fit
       {| responseModel := responseModel (model fit);
          endNodeModel := MeanNormalNode.initializeMeanNormalModelFromK (control fit) k |})
  = Rabs k.
Proof.
  intros Htrees Hk.
  unfold MeanNormalNode.print, MeanNormalNode.initializeMeanNormalModelFromK.
  cbn [with_model model control endNodeModel precision].
  set (c := if responseIsBinary (control fit) then 3 else 0.5).
  assert (Hc : 0 < c) by (unfold c; destruct (responseIsBinary (control fit)); lra).
  set (T := sqrt (INR (numTrees (control fit)))).
  assert (HT : 0 < T) by (apply sqrt_lt_R0, lt_0_INR; exact Htrees).
  set (s := c / (k * T)).
  assert (Hs : s <> 0).
  { unfold s. intros E. apply (Rmult_eq_compat_r (k * T)) in E.
    unfold Rdiv in E. rewrite Rmult_assoc, Rinv_l, Rmult_1_r, Rmult_0_l in E.
    - lra.
    - intros E'. apply Rmult_integral in E'. destruct E'; [contradiction | lra]. }
  replace (1 / (1 / (s * s))) with (Rsqr s) by (unfold Rsqr; field; exact Hs).
  rewrite sqrt_Rsqr_abs.
  assert (Habs : Rabs s = c / (Rabs k * T)).
  { unfold s, Rdiv. rewrite Rabs_mult, Rabs_inv, Rabs_mult.
    rewrite (Rabs_pos_eq c) by lra. rewrite (Rabs_pos_eq T) by lra. reflexivity. }
  rewrite Habs.
  assert (Hak : 0 < Rabs k) by (apply Rabs_pos_lt; exact Hk).
  field. repeat split; lra.
Qed.

Lemma X18_print_reports_the_absolute_value_of_k_witness :
  MeanNormalNode.print
    (with_model ReferenceTree.stumpFit
       {| responseModel := responseModel (model ReferenceTree.stumpFit);
          endNodeModel :=
            MeanNormalNode.initializeMeanNormalModelFromK
              (control ReferenceTree.stumpFit) (- 2) |})
  = Rabs (- 2).
Proof.
  apply (X18_print_reports_the_absolute_value_of_k ReferenceTree.stumpFit (- 2)).
  - cbn. lia.
  - lra.
Defined.

(** X19.  drawFromPosterior on a leaf whose scratch holds the average
    [y_bar] and the effective number of observations [n_eff] draws
    [m + s z], with [z] the standard normal draw,
    [m = n_eff y_bar / (n_eff + tau sigma^2)] and
    [s = 1 / sqrt (tau + n_eff / sigma^2)]: the mean is the average shrunk
    towards zero (it has the sign of [y_bar] and is no larger), the
    deviation is at most the one of the prior, and on a leaf without
    observations the draw is the draw from the prior. *)
Theorem X19_the_posterior_draw_shrinks_the_leaf_average_towards_zero
    {Tree Rng : Type} {normalRng : NormalRngOps Rng}
    (fit : BARTFit Tree) (node : Node) (y : list R) (residualVariance : R) (rng : Rng) :
  let tau := precision (endNodeModel (model fit)) in
  let n_eff := numEffectiveObservations (getScratch node) in
  let y_bar := mu (getScratch node) in
  0 < tau -> 0 < residualVariance -> 0 <= n_eff ->
  let z := fst (ext_rng_simulateStandardNormal rng) in
  let m := n_eff * y_bar / (n_eff + tau * residualVariance) in
  let s := 1 / sqrt (tau + n_eff / residualVariance) in
  MeanNormalNode.drawFromPosterior fit node y residualVariance rng
  = (MeanNormal.setScratch node {| mu := m + s * z; numEffectiveObservations := n_eff |},
     snd (ext_rng_simulateStandardNormal rng)) /\
  Rabs m <= Rabs y_bar /\ 0 <= m * y_bar /\
  0 < s <= 1 / sqrt tau /\
  (n_eff = 0 ->
   MeanNormalNode.drawFromPosterior fit node y residualVariance rng
   = MeanNormalNode.drawFromPrior fit node rng).
Proof.
  intros tau n_eff y_bar Htau Hrv Hn z m s.
  assert (Hprod : 0 < tau * residualVariance) by now apply Rmult_lt_0_compat.
  assert (Hden : 0 < n_eff + tau * residualVariance) by lra.
  assert (Hq : 0 <= n_eff / residualVariance).
  { unfold Rdiv. apply Rmult_le_pos; [exact Hn |]. left. now apply Rinv_0_lt_compat. }
  assert (Hpost : 0 < tau + n_eff / residualVariance) by lra.
  assert (Hsqrt : 0 < sqrt (tau + n_eff / residualVariance)) by now apply sqrt_lt_R0.
  assert (Hsqrt_tau : 0 < sqrt tau) by now apply sqrt_lt_R0.
  set (w := n_eff / (n_eff + tau * residualVariance)).
  assert (Hw : 0 <= w <= 1).
  { unfold w. split.
    - unfold Rdiv. apply Rmult_le_pos; [exact Hn |]. left. now apply Rinv_0_lt_compat.
    - apply (Rmult_le_reg_r (n_eff + tau * residualVariance)); [exact Hden |].
      unfold Rdiv. rewrite Rmult_assoc, Rinv_l by lra. lra. }
  assert (Hm : m = w * y_bar) by (unfold m, w; field; lra).
  split; [| split; [| split; [| split]]].
  - unfold MeanNormalNode.drawFromPosterior. cbv zeta.
    fold tau n_eff y_bar. unfold z.
    destruct (ext_rng_simulateStandardNormal rng) as [z0 rng']. cbn [fst snd].
    f_equal. f_equal. f_equal. f_equal. unfold m. field. split; lra.
  - rewrite Hm, Rabs_mult. rewrite (Rabs_pos_eq w) by lra.
    pose proof (Rabs_pos y_bar). nra.
  - rewrite Hm. replace (w * y_bar * y_bar) with (w * (y_bar * y_bar)) by ring.
    apply Rmult_le_pos; [lra | apply Rle_0_sqr].
  - unfold s. split.
    + unfold Rdiv. rewrite Rmult_1_l. now apply Rinv_0_lt_compat.
    + unfold Rdiv. rewrite !Rmult_1_l. apply Rinv_le_contravar; [exact Hsqrt_tau |].
      apply sqrt_le_1_alt. lra.
  - intros Hzero.
    unfold MeanNormalNode.drawFromPosterior, MeanNormalNode.drawFromPrior. cbv zeta.
    fold tau n_eff y_bar.
    destruct (ext_rng_simulateStandardNormal rng) as [z0 rng'].
    f_equal. f_equal. f_equal. rewrite Hzero.
    unfold Rdiv. rewrite !Rmult_0_l, Rplus_0_r, Rplus_0_l. ring.
Qed.

Lemma X19_the_posterior_draw_shrinks_the_leaf_average_towards_zero_witness :
  let node := nodeWith [0%nat; 1%nat] {| mu := 3; numEffectiveObservations := 2 |} in
  let m := 2 * 3 / (2 + 1 * 1) in
  let s := 1 / sqrt (1 + 2 / 1) in
  MeanNormalNode.drawFromPosterior (normalRng := listNormalRng)
    (leafFit None 2 1) node [2; 4] 1 [5]
  = (MeanNormal.setScratch node {| mu := m + s * 5; numEffectiveObservations := 2 |}, []) /\
  Rabs m <= Rabs 3.
Proof.
  destruct (X19_the_posterior_draw_shrinks_the_leaf_average_towards_zero
              (normalRng := listNormalRng) (leafFit None 2 1)
              (nodeWith [0%nat; 1%nat] {| mu := 3; numEffectiveObservations := 2 |})
              [2; 4] 1 [5])
    as (Hdraw & Hshrunk & _); cbn; try lra.
  split; assumption.
Defined.

(** *** The scratch of a parent from the scratch of its children *)

Lemma ext_sumVectorElements_app (a b : list R) :
  ext_sumVectorElements (a ++ b) (List.length a + List.length b)
  = ext_sumVectorElements a (List.length a) + ext_sumVectorElements b (List.length b).
Proof.
  induction a as [| a0 a IH]; cbn [app List.length Nat.add ext_sumVectorElements].
  - destruct b; cbn; lra.
  - rewrite IH. lra.
Qed.

Lemma weightedSum_app (wa wb xa xb : list R) :
  List.length wa = List.length xa ->
  Reference.weightedSum (wa ++ wb) (xa ++ xb) (List.length xa + List.length xb)
  = Reference.weightedSum wa xa (List.length xa)
    + Reference.weightedSum wb xb (List.length xb).
Proof.
  revert xa; induction wa as [| w0 wa IH]; intros [| x0 xa] H; try discriminate.
  - cbn [app List.length Nat.add]. destruct xb, wb; cbn; lra.
  - cbn [app List.length Nat.add Reference.weightedSum].
    rewrite IH by (cbn in H; lia). lra.
Qed.

Lemma gather_all (y : list R) (indices : list nat) :
  Reference.gather y indices (List.length indices) = map (fun i => nth i y 0) indices.
Proof. unfold Reference.gather. now rewrite firstn_all. Qed.

Lemma gather_app (y : list R) (left right : list nat) :
  Reference.gather y (left ++ right) (List.length left + List.length right)
  = Reference.gather y left (List.length left)
    ++ Reference.gather y right (List.length right).
Proof.
  rewrite <- length_app. rewrite !gather_all. apply map_app.
Qed.

Lemma length_gather_all (y : list R) (indices : list nat) :
  List.length (Reference.gather y indices (List.length indices)) = List.length indices.
Proof. rewrite gather_all. apply length_map. Qed.

Lemma sum_gather_app (y : list R) (left right : list nat) :
  ext_sumVectorElements
    (Reference.gather y (left ++ right) (List.length left + List.length right))
    (List.length left + List.length right)
  = ext_sumVectorElements (Reference.gather y left (List.length left)) (List.length left)
    + ext_sumVectorElements (Reference.gather y right (List.length right))
        (List.length right).
Proof.
  rewrite gather_app.
  pose proof (length_gather_all y left) as Hl.
  pose proof (length_gather_all y right) as Hr.
  set (yl := Reference.gather y left (List.length left)) in *.
  set (yr := Reference.gather y right (List.length right)) in *.
  rewrite <- Hl, <- Hr. apply ext_sumVectorElements_app.
Qed.

Lemma weightedSum_gather_app (w y : list R) (left right : list nat) :
  Reference.weightedSum
    (Reference.gather w (left ++ right) (List.length left + List.length right))
    (Reference.gather y (left ++ right) (List.length left + List.length right))
    (List.length left + List.length right)
  = Reference.weightedSum (Reference.gather w left (List.length left))
      (Reference.gather y left (List.length left)) (List.length left)
    + Reference.weightedSum (Reference.gather w right (List.length right))
        (Reference.gather y right (List.length right)) (List.length right).
Proof.
  rewrite !gather_app.
  pose proof (length_gather_all y left) as Hl.
  pose proof (length_gather_all y right) as Hr.
  pose proof (length_gather_all w left) as Hwl.
  set (yl := Reference.gather y left (List.length left)) in *.
  set (yr := Reference.gather y right (List.length right)) in *.
  set (wl := Reference.gather w left (List.length left)) in *.
  rewrite <- Hl, <- Hr. apply weightedSum_app. congruence.
Qed.

(** X20.  For leaves below the root, prepareScratchFromChildren gives the
    parent the scratch that prepareScratchForLikelihoodAndPosteriorCalculations
    computes from the observations of both children: the effective numbers
    of observations add up and the average is the average over the union,
    with or without weights (the children's effective numbers and their
    sum are not zero). *)
Theorem X20_the_scratch_from_the_children_is_the_scratch_of_the_union
    {Tree : Type} (fit : BARTFit Tree) (y : list R) (residualVariance : R)
    (leftIndices rightIndices : list nat) (sLeft sRight sParent : NodeScratch) :
  let prepare :=
    MeanNormal.prepareScratchForLikelihoodAndPosteriorCalculations (stats := Reference.stats)
      fit in
  let leftChild := prepare (nodeWith leftIndices sLeft) y residualVariance in
  let rightChild := prepare (nodeWith rightIndices sRight) y residualVariance in
  let parent := nodeWith (leftIndices ++ rightIndices) sParent in
  numEffectiveObservations (getScratch leftChild) <> 0 ->
  numEffectiveObservations (getScratch rightChild) <> 0 ->
  numEffectiveObservations (getScratch leftChild)
  + numEffectiveObservations (getScratch rightChild) <> 0 ->
  getScratch
    (MeanNormalNode.prepareScratchFromChildren fit parent y residualVariance
       leftChild rightChild)
  = getScratch (prepare parent y residualVariance).
Proof.
  intros prepare leftChild rightChild parent.
  unfold MeanNormalNode.prepareScratchFromChildren. cbv zeta.
  cbn [MeanNormal.setScratch getScratch].
  unfold leftChild, rightChild, parent, prepare,
    MeanNormal.prepareScratchForLikelihoodAndPosteriorCalculations, nodeWith.
  cbn [isTop getNumObservations getObservationIndices].
  destruct (weights (data fit)) as [w |].
  - (* weighted *)
    cbn [ext_mt_computeIndexedWeightedMean Reference.stats].
    unfold Reference.computeWeightedMean.
    cbn [MeanNormal.setScratch getScratch mu numEffectiveObservations].
    rewrite length_app, weightedSum_gather_app, sum_gather_app.
    intros Hl Hr Hsum. f_equal. field. repeat split; assumption.
  - (* without weights *)
    cbn [ext_mt_computeIndexedMean Reference.stats].
    unfold Reference.computeMean.
    cbn [MeanNormal.setScratch getScratch mu numEffectiveObservations].
    rewrite length_app, sum_gather_app, plus_INR.
    intros Hl Hr Hsum. f_equal. field. repeat split; assumption.
Qed.

Lemma X20_the_scratch_from_the_children_is_the_scratch_of_the_union_witness :
  let fit := leafFit (Some [2; 6]) 2 1 in
  let s := {| mu := 0; numEffectiveObservations := 0 |} in
  let prepare :=
    MeanNormal.prepareScratchForLikelihoodAndPosteriorCalculations (stats := Reference.stats)
      fit in
  getScratch
    (MeanNormalNode.prepareScratchFromChildren fit (nodeWith ([0%nat] ++ [1%nat]) s) [1; 3] 1
       (prepare (nodeWith [0%nat] s) [1; 3] 1) (prepare (nodeWith [1%nat] s) [1; 3] 1))
  = getScratch (prepare (nodeWith ([0%nat] ++ [1%nat]) s) [1; 3] 1).
Proof.
  apply (X20_the_scratch_from_the_children_is_the_scratch_of_the_union
           (leafFit (Some [2; 6]) 2 1) [1; 3] 1 [0%nat] [1%nat]
           {| mu := 0; numEffectiveObservations := 0 |}
           {| mu := 0; numEffectiveObservations := 0 |}
           {| mu := 0; numEffectiveObservations := 0 |}); cbn; lra.
Defined.

(** ** The design matrices of the linear-regression model *)

Lemma nth_map_inside {A B : Type} (f : A -> B) (d : B) (d' : A) (l : list A) (i : nat) :
  (i < List.length l)%nat -> nth i (map f l) d = f (nth i l d').
Proof.
  intros Hi. rewrite (nth_indep (map f l) d (f d')) by (now rewrite length_map).
  apply map_nth.
Qed.

Lemma nth_map_seq {A : Type} (f : nat -> A) (d : A) (n i : nat) :
  (i < n)%nat -> nth i (map f (seq 0 n)) d = f i.
Proof.
  intros Hi. rewrite (nth_map_inside f d 0%nat) by (now rewrite length_seq).
  now rewrite seq_nth.
Qed.

(** X22.  On a fit whose [Xt] is the transpose of [X], the design matrix
    createXtForNode builds for a node is made of the columns of [model.Xt]
    (the matrix initializeLinearRegressionNormalModel builds from [X]) at
    the observation indices of the node, in their order: each is [1]
    followed by the predictors of that observation.  For a node that holds
    all the observations in order it is [model.Xt] itself. *)
Theorem X22_the_design_matrix_of_a_node_is_cut_from_the_one_of_the_model
    {Tree : Type} (fit : BARTFit Tree) (node : Node) :
  let n := numObservations (data fit) in
  predictorShape fit -> XtIsTransposeOfX fit ->
  (getNumObservations node <= List.length (getObservationIndices node))%nat ->
  Forall (fun i => (i < n)%nat) (getObservationIndices node) ->
  LinearRegressionNormal.createXtForNode fit node
  = map (fun i => nth i (LinearRegressionNormal.initializeXt (data fit)) [])
      (firstn (getNumObservations node) (getObservationIndices node)) /\
  (getObservationIndices node = seq 0 n -> getNumObservations node = n ->
   LinearRegressionNormal.createXtForNode fit node
   = LinearRegressionNormal.initializeXt (data fit)).
Proof.
  intros n (HlX & HcX & HlXt & HrXt) Ht Hk Hin.
  set (p := numPredictors (data fit)) in *.
  assert (Hcolumn : forall i, (i < n)%nat ->
            1 :: firstn p (nth i (Xt (scratch fit)) [])
            = nth i (LinearRegressionNormal.initializeXt (data fit)) []).
  { intros i Hi. unfold LinearRegressionNormal.initializeXt.
    rewrite nth_map_seq by exact Hi. f_equal.
    assert (Hrow : List.length (nth i (Xt (scratch fit)) []) = p)
      by (apply Forall_nth_length; [exact HrXt | fold n in HlXt; lia]).
    rewrite firstn_all2 by lia.
    apply (list_equal_by_nth 0).
    - now rewrite length_map, length_seq.
    - intros c. destruct (Nat.lt_ge_cases c p) as [Hc | Hc].
      + rewrite nth_map_seq by exact Hc. now apply Ht.
      + rewrite !nth_overflow by (rewrite ?length_map, ?length_seq; lia). reflexivity. }
  assert (Hmain : LinearRegressionNormal.createXtForNode fit node
                  = map (fun i => nth i (LinearRegressionNormal.initializeXt (data fit)) [])
                      (firstn (getNumObservations node) (getObservationIndices node))).
  { unfold LinearRegressionNormal.createXtForNode. fold p.
    apply (list_equal_by_nth []).
    - rewrite !length_map, length_seq, length_firstn. lia.
    - intros c. destruct (Nat.lt_ge_cases c (getNumObservations node)) as [Hc | Hc].
      + rewrite nth_map_seq by exact Hc.
        rewrite (nth_map_inside _ [] 0%nat) by (rewrite length_firstn; lia).
        rewrite nth_firstn_inside by exact Hc.
        apply Hcolumn. rewrite Forall_forall in Hin. apply Hin. apply nth_In. lia.
      + rewrite !nth_overflow
          by (rewrite ?length_map, ?length_seq, ?length_firstn; lia).
        reflexivity. }
  split; [exact Hmain |].
  intros Hall Hcount. rewrite Hmain, Hall, Hcount.
  replace (firstn n (seq 0 n)) with (seq 0 n)
    by (symmetry; apply firstn_all2; rewrite length_seq; lia).
  unfold LinearRegressionNormal.initializeXt. fold n.
  apply (list_equal_by_nth []).
  - now rewrite !length_map.
  - intros c. destruct (Nat.lt_ge_cases c n) as [Hc | Hc].
    + repeat rewrite nth_map_seq by exact Hc. reflexivity.
    + rewrite !nth_overflow by (rewrite ?length_map, ?length_seq; lia). reflexivity.
Qed.

Lemma X22_the_design_matrix_of_a_node_is_cut_from_the_one_of_the_model_witness :
  let node := nodeWith [1%nat; 0%nat] {| mu := 0; numEffectiveObservations := 0 |} in
  LinearRegressionNormal.createXtForNode ReferenceTree.stumpFit node
  = map (fun i => nth i (LinearRegressionNormal.initializeXt (data ReferenceTree.stumpFit)) [])
      (firstn 2 [1%nat; 0%nat]).
Proof.
  apply (X22_the_design_matrix_of_a_node_is_cut_from_the_one_of_the_model
           ReferenceTree.stumpFit
           (nodeWith [1%nat; 0%nat] {| mu := 0; numEffectiveObservations := 0 |})).
  - exact (proj1 stumpFit_shape).
  - exact (proj2 stumpFit_shape).
  - cbn. lia.
  - repeat constructor.
Defined.

(** ** Control from host objects, and a run *)

Import RInterface.

(** What the initializer has checked when it returns. *)
Lemma initializeControl_checks (control control' : Control) (counts counts' : ControlCounts)
    (controlExpr : string -> HostValue) :
  initializeControlFromExpression control counts controlExpr = Returned (control', counts') ->
  let entry := fun name => nth 0 (hostINTEGER (controlExpr name)) 0%Z in
  let orElse := fun (i d : Z) => if (i =? NA_INTEGER)%Z then d else i in
  (numSamples counts' = entry "n.samples"%string /\ (1 <= numSamples counts')%Z) /\
  (numBurnIn counts' = orElse (entry "n.burn"%string) 0%Z /\ (0 <= numBurnIn counts')%Z) /\
  (numTrees control' = Z.to_nat (entry "n.trees"%string) /\ (1 <= numTrees control')%nat) /\
  (numThreads counts' = orElse (entry "n.threads"%string) 1%Z /\
   (1 <= numThreads counts')%Z) /\
  (treeThinningRate control' = orElse (entry "n.thin"%string) 1%Z /\
   (0 <= treeThinningRate control')%Z) /\
  (printEvery counts' = orElse (entry "printEvery"%string) (printEvery counts) /\
   (entry "printEvery"%string <> NA_INTEGER -> (1 <= printEvery counts')%Z)) /\
  (printCutoffs counts' = orElse (entry "printCutoffs"%string) 0%Z /\
   (0 <= printCutoffs counts')%Z) /\
  hasCallback control' = hasCallback control.
Proof.
  intros H. unfold initializeControlFromExpression in H. cbv zeta in H.
  bind_step H binary Hbinary. bind_step H verbose' Hverbose.
  bind_step H keep Hkeep. bind_step H quantiles Hquantiles.
  bind_step H samples Hsamples. require_step H Esamples_na. require_step H Esamples.
  bind_step H burn Hburn. require_step H Eburn.
  bind_step H ntrees Htrees. require_step H Etrees_na. require_step H Etrees.
  bind_step H threads Hthreads. require_step H Ethreads.
  bind_step H thin Hthin. require_step H Ethin.
  bind_step H every Hevery. bind_step H printEvery' Hprint.
  bind_step H cutoffs Hcutoffs. require_step H Ecutoffs.
  apply Returned_inj in H. injection H as <- <-.
  cbn [numSamples numBurnIn numThreads printEvery printCutoffs numTrees treeThinningRate
         hasCallback].
  assert (Hslot : forall slot exact m1 m2 i,
            integerSlot slot exact m1 m2 = Returned i -> i = nth 0 (hostINTEGER slot) 0%Z).
  { intros slot exact m1 m2 i Hi. unfold integerSlot in Hi.
    do 2 check_step Hi. now injection Hi as <-. }
  apply Hslot in Hsamples, Hburn, Htrees, Hthreads, Hthin, Hevery, Hcutoffs.
  subst samples burn ntrees threads thin every cutoffs.
  cbv zeta.
  apply Bool.negb_true_iff in Esamples, Eburn, Etrees, Ethreads, Ethin, Ecutoffs.
  apply Z.leb_gt in Esamples, Etrees, Ethreads.
  apply Z.ltb_ge in Eburn, Ethin, Ecutoffs.
  repeat split; try assumption; try lia.
  - destruct (negb (_ =? NA_INTEGER)%Z) eqn:Ena.
    + apply Bool.negb_true_iff in Ena. rewrite Ena.
      require_step Hprint Epos. now injection Hprint as <-.
    + apply Bool.negb_false_iff in Ena. rewrite Ena. now injection Hprint as <-.
  - intros Hna. destruct (negb (_ =? NA_INTEGER)%Z) eqn:Ena.
    + require_step Hprint Epos. injection Hprint as <-.
      apply Bool.negb_true_iff, Z.leb_gt in Epos. lia.
    + apply Bool.negb_false_iff, Z.eqb_eq in Ena. contradiction.
Qed.


(** X23.  A control that initializeControlFromExpression accepts has at
    least one sample, one tree and one thread, and no negative number of
    burn-in steps, thinning rate or number of printed cutoffs; [NA] stands
    for no burn-in, one thread, a thinning rate of one, no printed cutoffs,
    and leaves [printEvery] as it is; the callback is not touched.  A
    thinning rate of zero is accepted. *)
Theorem X23_an_accepted_control_is_in_range
    (control control' : Control) (counts counts' : ControlCounts)
    (controlExpr : string -> HostValue) :
  initializeControlFromExpression control counts controlExpr = Returned (control', counts') ->
  let entry := fun name => nth 0 (hostINTEGER (controlExpr name)) 0%Z in
  (1 <= numSamples counts')%Z /\ (0 <= numBurnIn counts')%Z /\
  (1 <= numTrees control')%nat /\ (1 <= numThreads counts')%Z /\
  (0 <= treeThinningRate control')%Z /\ (0 <= printCutoffs counts')%Z /\
  (entry "n.burn"%string = NA_INTEGER -> numBurnIn counts' = 0%Z) /\
  (entry "n.threads"%string = NA_INTEGER -> numThreads counts' = 1%Z) /\
  (entry "n.thin"%string = NA_INTEGER -> treeThinningRate control' = 1%Z) /\
  (entry "n.thin"%string = 0%Z -> treeThinningRate control' = 0%Z) /\
  (entry "printCutoffs"%string = NA_INTEGER -> printCutoffs counts' = 0%Z) /\
  (entry "printEvery"%string = NA_INTEGER -> printEvery counts' = printEvery counts) /\
  (entry "printEvery"%string <> NA_INTEGER -> (1 <= printEvery counts')%Z) /\
  hasCallback control' = hasCallback control.
Proof.
  intros H. cbv beta zeta.
  destruct (initializeControl_checks _ _ _ _ _ H)
    as ((_ & Hs) & (Eb & Hb) & (_ & Ht) & (Eth & Hth) & (Ethin & Hthin) & (Eev & Hev)
        & (Ecut & Hcut) & Hcb).
  cbv beta zeta in Eb, Eth, Ethin, Eev, Ecut, Hev.
  repeat split; try assumption.
  - intros E. rewrite Eb, E. reflexivity.
  - intros E. rewrite Eth, E. reflexivity.
  - intros E. rewrite Ethin, E. reflexivity.
  - intros E. rewrite Ethin, E. reflexivity.
  - intros E. rewrite Ecut, E. reflexivity.
  - intros E. rewrite Eev, E. reflexivity.
Qed.

Lemma controlWithoutThinning_is_accepted :
  exists control' counts',
    initializeControlFromExpression (control ReferenceTree.stumpFit) countsBefore
      controlWithoutThinning
    = Returned (control', counts').
Proof.
  unfold initializeControlFromExpression. cbv. eexists. eexists. reflexivity.
Qed.

Lemma X23_an_accepted_control_is_in_range_witness :
  exists control' counts',
    initializeControlFromExpression (control ReferenceTree.stumpFit) countsBefore
      controlWithoutThinning
    = Returned (control', counts') /\
    (1 <= numSamples counts')%Z /\ treeThinningRate control' = 0%Z /\
    numThreads counts' = 1%Z.
Proof.
  destruct controlWithoutThinning_is_accepted as (control' & counts' & Hrun).
  exists control', counts'. split; [exact Hrun |].
  destruct (X23_an_accepted_control_is_in_range _ _ _ _ _ Hrun)
    as (Hs & _ & _ & _ & _ & _ & _ & Hthreads & _ & Hthin & _).
  split; [exact Hs |]. split; [apply Hthin | apply Hthreads]; reflexivity.
Defined.

Lemma runArguments_checks (counts : ControlCounts) (numBurnInExpr numSamplesExpr : SEXP)
    (numBurnIn' numSamples' : Z) :
  runArguments counts numBurnInExpr numSamplesExpr = Returned (numBurnIn', numSamples') ->
  let burn := nth 0 (INTEGER numBurnInExpr) 0%Z in
  let samples := nth 0 (INTEGER numSamplesExpr) 0%Z in
  (burn = NA_INTEGER /\ numBurnIn' = numBurnIn counts \/
   burn <> NA_INTEGER /\ numBurnIn' = burn /\ (0 <= burn)%Z) /\
  (samples = NA_INTEGER /\ numSamples' = numSamples counts \/
   samples <> NA_INTEGER /\ numSamples' = samples /\ (1 <= samples)%Z).
Proof.
  intros H. unfold runArguments in H. cbv zeta in H.
  check_step H. check_step H. require_step H Eburn.
  check_step H. check_step H. require_step H Esamples.
  apply Returned_inj in H. injection H as <- <-. cbv zeta.
  apply Bool.negb_true_iff, Bool.andb_false_iff in Eburn, Esamples.
  split.
  - destruct (Z.eqb_spec (nth 0 (INTEGER numBurnInExpr) 0%Z) NA_INTEGER) as [E | E].
    + left. split; [exact E | reflexivity].
    + right. split; [exact E |]. split; [reflexivity |].
      destruct Eburn as [Ena | Eneg]; [discriminate | apply Z.ltb_ge in Eneg; exact Eneg].
  - destruct (Z.eqb_spec (nth 0 (INTEGER numSamplesExpr) 0%Z) NA_INTEGER) as [E | E].
    + left. split; [exact E | reflexivity].
    + right. split; [exact E |]. split; [reflexivity |].
      destruct Esamples as [Ena | Eneg]; [discriminate | apply Z.leb_gt in Eneg; lia].
Qed.

(** X24.  dbarts_run on a fit whose control initializeControlFromExpression
    accepted: arguments that pass its checks give runSampler at least one
    sample and no negative number of burn-in steps ([NA] stands for the
    value of the control), so that a sampler that returns has handed back
    results, never NULL, and the read through that pointer is defined.
    With the thinning rate zero, which the control accepts, the run ends
    at once: no iteration is entered and the results are the buffers as
    they were allocated. *)
Theorem X24_dbarts_run_is_handed_results_by_the_sampler
    {Tree Rng : Type} {treeOps : TreeOps Tree Rng} {rngOps : RngOps Rng}
    (fit : BARTFit Tree) (rng : Rng) (control0 : Control) (counts0 counts : ControlCounts)
    (controlExpr : string -> HostValue) (numBurnInExpr numSamplesExpr : SEXP)
    (numBurnIn' numSamples' : Z) :
  initializeControlFromExpression control0 counts0 controlExpr
  = Returned (control fit, counts) ->
  runArguments counts numBurnInExpr numSamplesExpr = Returned (numBurnIn', numSamples') ->
  (0 <= numBurnIn')%Z /\ (1 <= numSamples')%Z /\
  (forall fuel r s,
     runSampler fit rng numBurnIn' numSamples' fuel = Some (Returned (r, s)) ->
     r = Some (theResults s) /\
     dbarts_run (Some fit) rng counts numBurnInExpr numSamplesExpr fuel
     = Some (Returned (theResults s, s))) /\
  (treeThinningRate (control fit) = 0%Z ->
   forall fuel,
     exists s,
       dbarts_run (Some fit) rng counts numBurnInExpr numSamplesExpr (S fuel)
       = Some (Returned (theResults s, s)) /\
       trace s = [] /\ theFit s = fit /\
       theResults s
       = newResults (numObservations (data fit)) (numPredictors (data fit))
           (numTestObservations (data fit)) numSamples').
Proof.
  intros Hcontrol Hargs.
  destruct (initializeControl_checks _ _ _ _ _ Hcontrol) as ((_ & Hs) & (_ & Hb) & _).
  destruct (runArguments_checks _ _ _ _ _ Hargs) as (Hburn & Hsamples). cbv zeta in *.
  assert (Hb' : (0 <= numBurnIn')%Z) by (destruct Hburn as [[_ ->] | (_ & -> & ?)]; lia).
  assert (Hs' : (1 <= numSamples')%Z) by (destruct Hsamples as [[_ ->] | (_ & -> & ?)]; lia).
  assert (Hne : (numSamples' =? 0)%Z = false) by (apply Z.eqb_neq; lia).
  split; [exact Hb' |]. split; [exact Hs' |]. split.
  - intros fuel r s Hrun. unfold dbarts_run. rewrite Hargs, Hrun.
    unfold runSampler in Hrun. cbv zeta in Hrun. rewrite Hne in Hrun.
    destruct (samplerLoop _ _ _ _ _) as [[s1 | msg |] |]; try discriminate.
    injection Hrun as <- <-. split; reflexivity.
  - intros Hthin fuel. unfold dbarts_run. rewrite Hargs.
    unfold runSampler. cbv zeta. rewrite Hthin, Hne.
    rewrite Z.mul_0_r. change (wrap64 0) with 0%Z. cbn [samplerLoop].
    change (0 <? 0)%Z with false. cbv iota.
    eexists. split; [reflexivity |]. cbn [trace theFit theResults]. repeat split.
Qed.

Lemma fitWithoutThinning_control :
  initializeControlFromExpression (control ReferenceTree.stumpFit) countsBefore
    controlWithoutThinning
  = Returned
      (control fitWithoutThinning,
       {| numSamples := 2; numBurnIn := 1; numThreads := 1; printEvery := 100;
          printCutoffs := 0 |}).
Proof. unfold initializeControlFromExpression. cbv. reflexivity. Qed.

Lemma X24_dbarts_run_is_handed_results_by_the_sampler_witness :
  exists s : Sampler ReferenceTree.Tree nat,
    dbarts_run (treeOps := ReferenceTree.ops) (rngOps := countingRng)
      (Some fitWithoutThinning) 0%nat
      {| numSamples := 2; numBurnIn := 1; numThreads := 1; printEvery := 100;
         printCutoffs := 0 |}
      (IntegerVector [NA_INTEGER]) (IntegerVector [3%Z]) 1
    = Some (Returned (theResults s, s)) /\
    trace s = [].
Proof.
  destruct (X24_dbarts_run_is_handed_results_by_the_sampler
              (treeOps := ReferenceTree.ops) (rngOps := countingRng)
              fitWithoutThinning 0%nat (control ReferenceTree.stumpFit) countsBefore
              {| numSamples := 2; numBurnIn := 1; numThreads := 1; printEvery := 100;
                 printCutoffs := 0 |}
              controlWithoutThinning (IntegerVector [NA_INTEGER]) (IntegerVector [3%Z])
              1%Z 3%Z fitWithoutThinning_control eq_refl)
    as (_ & _ & _ & Hthin).
  destruct (Hthin eq_refl 0%nat) as (s & Hrun & Htrace & _).
  exists s. split; assumption.
Defined.

(** ** Saving a fit *)

(** X25.  setPrior multiplies the scale of the prior of sigma by the
    square of [sigmaEstimate / range] (of 1 for a binary response);
    saveToFile divides by the same square before it writes.  So, for a fit
    whose prior was set by setPrior, the model handed to [writeModel] holds
    the scale the prior was given, with the sigma of the fit; and whatever
    the calls on the file do, the fit is left as it was: the scale is put
    back.  The file is there exactly when every write succeeded. *)
Theorem X25_saveToFile_writes_the_scale_the_prior_was_given
    {Tree : Type} (fit0 : BARTFit Tree) (calls : FileCalls) :
  let fit := setPrior fit0 in
  (responseIsBinary (control fit0) = false ->
   sigmaEstimate (data fit0) / dsRange (dataScale (scratch fit0)) <> 0) ->
  let ok := fst (fst (saveToFile fit calls)) in
  let fit' := snd (fst (saveToFile fit calls)) in
  let file := snd (saveToFile fit calls) in
  fit' = fit /\
  (ok = true <->
   opens calls = true /\ writesVersion calls = true /\ writesControl calls = true /\
   writesModel calls = true /\ writesData calls = true /\ writesState calls = true) /\
  (ok = false -> file = None) /\
  (ok = true ->
   exists saved : BARTFit Tree,
     file = Some [VersionString "00.08.00"; WrittenControl (control fit);
                  WrittenModel (model saved); WrittenData (data fit); WrittenState saved] /\
     getScale (model saved) = getScale (model fit0) /\
     CHEAT_SIGMA (model saved) = CHEAT_SIGMA (model fit) /\
     endNodeModel (model saved) = endNodeModel (model fit0) /\
     control saved = control fit /\ data saved = data fit /\
     scratch saved = scratch fit /\ state saved = state fit).
Proof.
  intros fit Hfactor ok fit' file.
  assert (Hscale :
    getScale (model fit)
    / ((if responseIsBinary (control fit) then 1
        else sigmaEstimate (data fit) / dsRange (dataScale (scratch fit)))
       * (if responseIsBinary (control fit) then 1
          else sigmaEstimate (data fit) / dsRange (dataScale (scratch fit))))
    = getScale (model fit0)).
  { unfold fit, setPrior.
    cbn [with_model model control data scratch setScale set_sigma getScale CHEAT_SIGMA
           responseModel scale sigma].
    unfold getScale.
    destruct (responseIsBinary (control fit0)); cbv iota.
    - field.
    - specialize (Hfactor eq_refl). field.
      split; intros E; apply Hfactor; unfold Rdiv; rewrite E; ring_simplify;
        try reflexivity.
      rewrite Rinv_0. ring. }
  unfold ok, fit', file, saveToFile. cbv zeta.
  destruct (opens calls); cbn [negb].
  2:{ cbn [fst snd]. repeat split; try discriminate; intros H; try discriminate.
      destruct H as [H _]. discriminate. }
  destruct (writesVersion calls), (writesControl calls), (writesModel calls),
    (writesData calls), (writesState calls); cbn [negb fst snd];
    (split; [reflexivity |]);
    (split; [split; [intros H; try discriminate; repeat split
                    | intros (H1 & H2 & H3 & H4 & H5 & H6); try discriminate; reflexivity] |]);
    (split; [intros H; try discriminate; reflexivity |]);
    intros H; try discriminate.
  eexists. split; [reflexivity |].
  cbn [with_model model control data scratch state setScale getScale CHEAT_SIGMA
         responseModel scale sigma endNodeModel].
  repeat split. exact Hscale.
Qed.

Lemma X25_saveToFile_writes_the_scale_the_prior_was_given_witness :
  let calls :=
    {| opens := true; writesVersion := true; writesControl := true; writesModel := true;
       writesData := true; writesState := true |} in
  let fit := setPrior (twoObservationFit false None) in
  snd (fst (saveToFile fit calls)) = fit /\
  exists saved : BARTFit unit,
    snd (saveToFile fit calls)
    = Some [VersionString "00.08.00"; WrittenControl (control fit);
            WrittenModel (model saved); WrittenData (data fit); WrittenState saved] /\
    getScale (model saved) = 5.
Proof.
  intros calls fit.
  destruct (X25_saveToFile_writes_the_scale_the_prior_was_given
              (twoObservationFit false None) calls)
    as (Hfit & _ & _ & Hfile).
  - intros _. cbn. lra.
  - split; [exact Hfit |].
    destruct (Hfile eq_refl) as (saved & Hsaved & Hscale & _).
    exists saved. split; [exact Hsaved | exact Hscale].
Defined.

(** ** The state as a host object *)

Lemma length_concat_rows (n : nat) (rows : list (list R)) :
  Forall (fun row => List.length row = n) rows ->
  List.length (List.concat rows) = (n * List.length rows)%nat.
Proof.
  induction 1 as [| row rows Hrow _ IH]; cbn [List.concat List.length]; [lia |].
  rewrite length_app, IH, Hrow. lia.
Qed.

Lemma columnsOf_concat (n : nat) (rows : list (list R)) :
  Forall (fun row => List.length row = n) rows ->
  columnsOf n (List.length rows) (List.concat rows) = rows.
Proof.
  induction 1 as [| row rows Hrow _ IH]; cbn [List.concat List.length columnsOf]; [reflexivity |].
  assert (Hf : firstn n (row ++ List.concat rows) = row).
  { rewrite firstn_app. replace (n - List.length row)%nat with 0%nat by lia.
    rewrite firstn_O, app_nil_r. apply firstn_all2. lia. }
  assert (Hs : skipn n (row ++ List.concat rows) = List.concat rows).
  { rewrite skipn_app. replace (n - List.length row)%nat with 0%nat by lia.
    rewrite skipn_O. rewrite skipn_all2 by lia. reflexivity. }
  now rewrite Hf, Hs, IH.
Qed.

Lemma memcpy_same_size {A : Type} (buf src : list A) (k : nat) :
  List.length buf = k -> List.length src = k -> memcpy buf src k = src.
Proof.
  intros Hb Hs. rewrite <- Hb. apply memcpy_all. congruence.
Qed.

Section StateRoundTrip.
Context {Tree : Type} {treeStrings : TreeStrings Tree}.
Implicit Type fit : BARTFit Tree.

Lemma copyIntoSlot_whole (slotExpr slotExpr' : SEXP) (source : list R) (count : nat) :
  copyIntoSlot slotExpr source count = Returned slotExpr' ->
  Rlength slotExpr = count -> List.length source = count ->
  REAL slotExpr' = source.
Proof.
  destruct slotExpr as [| | v dims | |]; try discriminate.
  cbn [copyIntoSlot Rlength]. intros H Hv Hs. apply Returned_inj in H. subst slotExpr'.
  cbn [REAL]. now apply memcpy_same_size.
Qed.

(** What restoring reads of a state object that storeStateExpressionFromFit
    has written is what createStateExpressionFromFit writes. *)
Lemma stored_state_reads_as_created fit (sigma : R) (stateExpr stored : StateExpression) :
  fitBuffersHaveTheirSizes fit ->
  isHostMatrix (fit_tree stateExpr) ->
  List.length (createTreeStrings fit) = numTrees (control fit) ->
  storeStateExpressionFromFit fit sigma stateExpr = Returned stored ->
  let created := createStateExpressionFromFit fit sigma in
  REAL (fit_tree stored) = REAL (fit_tree created) /\
  REAL (fit_total stored) = REAL (fit_total created) /\
  (numTestObservations (data fit) <> 0%nat ->
   REAL (fit_test stored) = REAL (fit_test created)) /\
  REAL (sigmaSlot stored) = REAL (sigmaSlot created) /\
  firstn (numTrees (control fit)) (treesSlot stored)
  = firstn (numTrees (control fit)) (treesSlot created).
Proof.
  intros (HlT & HrT & Hlt & Hlm) Hmatrix Hstrings H.
  unfold storeStateExpressionFromFit in H. cbv zeta in H.
  set (n := numObservations (data fit)) in *.
  set (T := numTrees (control fit)) in *.
  set (m := numTestObservations (data fit)) in *.
  assert (Hflat : List.length (List.concat (treeFits (state fit))) = (n * T)%nat)
    by (now rewrite (length_concat_rows n), HlT).
  bind_step H dims Hdims. require_step H Edims.
  bind_step H tree' Htree. require_step H Etotal. bind_step H total' Htotal.
  bind_step H test' Htest. require_step H Esigma. bind_step H sigma' Hsigma.
  require_step H Etrees. apply Returned_inj in H. subst stored.
  destruct dims as [rows cols]. apply getDims_two in Hdims.
  apply Bool.andb_true_iff in Edims. destruct Edims as [Erows Ecols].
  apply Z.eqb_eq in Erows, Ecols. cbn [fst snd] in Erows, Ecols.
  apply Nat.eqb_eq in Etotal, Esigma, Etrees.
  unfold createStateExpressionFromFit. cbv zeta. fold n T m.
  cbn [fit_tree fit_total fit_test sigmaSlot treesSlot REAL].
  rewrite !firstn_all2 by lia.
  assert (Hsize : Rlength (fit_tree stateExpr) = (n * T)%nat).
  { destruct (fit_tree stateExpr) as [| | vt dt | |] eqn:Et; try discriminate.
    cbn [getDims] in Hdims. subst dt. cbn [Rlength].
    destruct (Hmatrix vt rows cols eq_refl) as (_ & _ & Hlen). nia. }
  split; [apply (copyIntoSlot_whole _ _ _ _ Htree); assumption |].
  split; [apply (copyIntoSlot_whole _ _ _ _ Htotal); assumption |].
  split.
  { intros Hm. destruct (Nat.eqb_spec m 0) as [E | _]; [contradiction |].
    cbn [negb] in Htest. require_step Htest Etest. apply Nat.eqb_eq in Etest.
    cbn [REAL]. rewrite ?firstn_all2 by lia.
    apply (copyIntoSlot_whole _ _ _ _ Htest); assumption. }
  split; [apply (copyIntoSlot_whole _ _ _ _ Hsigma); [assumption | reflexivity] |].
  rewrite ?(firstn_all2 (n := T) (createTreeStrings fit)) by lia.
  rewrite (overwrite_same_length _ (treesSlot stateExpr) (createTreeStrings fit))
    by congruence.
  now rewrite ?(firstn_all2 (n := T) (createTreeStrings fit)) by lia.
Qed.
End StateRoundTrip.



(** ** Cross validation: the result array and the losses *)



(** *** The losses *)

Lemma sumOfSquaredResiduals_nonneg (n : nat) :
  forall y y_hat : list R, 0 <= Crossvalidate.ext_computeSumOfSquaredResiduals y n y_hat.
Proof.
  induction n as [| n IH]; intros [| yi y] [| hi y_hat];
    cbn [Crossvalidate.ext_computeSumOfSquaredResiduals]; try lra.
  specialize (IH y y_hat). pose proof (Rle_0_sqr (yi - hi)) as Hsq. unfold Rsqr in Hsq. lra.
Qed.

Lemma sumOfSquaredResiduals_zero (n : nat) :
  forall y y_hat : list R,
    (n <= List.length y)%nat -> (n <= List.length y_hat)%nat ->
    (Crossvalidate.ext_computeSumOfSquaredResiduals y n y_hat = 0 <->
     forall i, (i < n)%nat -> nth i y 0 = nth i y_hat 0).
Proof.
  induction n as [| n IH]; intros [| yi y] [| hi y_hat] Hy Hh;
    cbn [Crossvalidate.ext_computeSumOfSquaredResiduals List.length] in *; try lia.
  - split; [intros _ i Hi; lia | reflexivity].
  - split; [intros _ i Hi; lia | reflexivity].
  - split; [intros _ i Hi; lia | reflexivity].
  - split; [intros _ i Hi; lia | reflexivity].
  - pose proof (sumOfSquaredResiduals_nonneg n y y_hat) as Hrest.
    pose proof (Rle_0_sqr (yi - hi)) as Hsq. unfold Rsqr in Hsq.
    specialize (IH y y_hat ltac:(lia) ltac:(lia)).
    split.
    + intros Hzero.
      assert (Hhead : (yi - hi) * (yi - hi) = 0) by lra.
      assert (Htail : Crossvalidate.ext_computeSumOfSquaredResiduals y n y_hat = 0) by lra.
      intros [| i] Hi; cbn [nth].
      * apply Rmult_integral in Hhead. destruct Hhead; lra.
      * apply (proj1 IH Htail). lia.
    + intros Hall.
      pose proof (Hall 0%nat ltac:(lia)) as H0. cbn [nth] in H0.
      assert (Htail : Crossvalidate.ext_computeSumOfSquaredResiduals y n y_hat = 0).
      { apply (proj2 IH). intros i Hi. apply (Hall (S i)). lia. }
      rewrite Htail, H0. ring.
Qed.

(** X28.  The mean squared error calculateMSELoss computes for at least
    one test observation and one sample is the sum of the squared
    differences between the test responses and the averages of their
    samples, over the number of test observations: it is not negative, and
    it is zero exactly when every test response equals the average of its
    samples. *)
Theorem X28_the_mean_squared_error_is_zero_only_for_exact_posterior_means
    (y_test : list R) (numTestObservations : nat) (testSamples : list (list R))
    (numSamples : nat) :
  (0 < numTestObservations)%nat -> (0 < numSamples)%nat ->
  (numTestObservations <= List.length y_test)%nat ->
  let loss :=
    Crossvalidate.calculateMSELoss y_test numTestObservations testSamples numSamples in
  0 <= loss /\
  (loss = 0 <->
   forall i, (i < numTestObservations)%nat ->
     nth i y_test 0 = Crossvalidate.posteriorMean testSamples numSamples i).
Proof.
  intros Hn Hs Hy loss. unfold loss, Crossvalidate.calculateMSELoss. cbv zeta.
  set (y_test_hat :=
         map (Crossvalidate.posteriorMean testSamples numSamples) (seq 0 numTestObservations)).
  assert (Hlen : List.length y_test_hat = numTestObservations)
    by (unfold y_test_hat; now rewrite length_map, length_seq).
  assert (Hnth : forall i, (i < numTestObservations)%nat ->
            nth i y_test_hat 0 = Crossvalidate.posteriorMean testSamples numSamples i)
    by (intros i Hi; unfold y_test_hat; now apply nth_map_seq).
  assert (HN : 0 < INR numTestObservations) by (apply lt_0_INR; exact Hn).
  pose proof (sumOfSquaredResiduals_nonneg numTestObservations y_test y_test_hat) as Hnonneg.
  pose proof (sumOfSquaredResiduals_zero numTestObservations y_test y_test_hat Hy
                ltac:(lia)) as Hzero.
  split.
  - unfold Rdiv. apply Rmult_le_pos; [exact Hnonneg |]. left. now apply Rinv_0_lt_compat.
  - split.
    + intros Hloss i Hi. rewrite <- (Hnth i Hi). apply (proj1 Hzero); [| exact Hi].
      apply (Rmult_eq_compat_r (INR numTestObservations)) in Hloss.
      unfold Rdiv in Hloss. rewrite Rmult_assoc, Rinv_l, Rmult_1_r, Rmult_0_l in Hloss; lra.
    + intros Hall.
      assert (Hsum : Crossvalidate.ext_computeSumOfSquaredResiduals y_test numTestObservations
                       y_test_hat = 0).
      { apply (proj2 Hzero). intros i Hi. rewrite (Hnth i Hi). now apply Hall. }
      rewrite Hsum. unfold Rdiv. ring.
Qed.

Lemma X28_the_mean_squared_error_is_zero_only_for_exact_posterior_means_witness :
  let loss := Crossvalidate.calculateMSELoss [2; 4] 2 [[1; 3]; [3; 5]] 2 in
  0 <= loss /\
  (loss = 0 <->
   forall i, (i < 2)%nat ->
     nth i [2; 4] 0 = Crossvalidate.posteriorMean [[1; 3]; [3; 5]] 2 i).
Proof.
  apply (X28_the_mean_squared_error_is_zero_only_for_exact_posterior_means
           [2; 4] 2 [[1; 3]; [3; 5]] 2); cbn; lia.
Defined.

Section MCRFacts.
Context {extNormal : Crossvalidate.ExtNormal}.

(** The loop counts one error for every test observation that is not
    given its class. *)
Lemma countErrors_counts (y_test : list R) (testSamples : list (list R)) (numSamples : nat) :
  forall count i fp fn,
    let r := Crossvalidate.countErrors count i y_test testSamples numSamples fp fn in
    (fst r + snd r)%nat
    = (fp + fn
       + List.length
           (filter (Crossvalidate.misclassified y_test testSamples numSamples)
              (seq i count)))%nat.
Proof.
  induction count as [| count IH]; intros i fp fn; cbv zeta.
  - cbn [Crossvalidate.countErrors fst snd seq filter List.length]. lia.
  - cbn [Crossvalidate.countErrors seq filter]. cbv zeta.
    unfold Crossvalidate.misclassified at 1.
    destruct (Req_dec_T (nth i y_test 0)
                (Crossvalidate.predictedClass testSamples numSamples i)) as [Eq | Ne].
    + rewrite (IH (S i) fp fn). reflexivity.
    + destruct (Req_dec_T (nth i y_test 0) 1) as [E1 | N1].
      * rewrite (IH (S i) fp (S fn)). cbn [List.length]. lia.
      * rewrite (IH (S i) (S fp) fn). cbn [List.length]. lia.
Qed.

End MCRFacts.

(** X29.  The misclassification rate calculateMCRLoss computes for at
    least one test observation is the share of the test observations
    whose response is not the class predicted for them (1 when the mean
    of the probabilities of their samples is above 0.5, else 0): it lies
    between 0 and 1 and is zero exactly when every test observation is
    given its class; a response that is neither 0 nor 1 counts as an
    error. *)
Theorem X29_the_misclassification_rate_is_the_share_of_wrong_classes
    {extNormal : Crossvalidate.ExtNormal}
    (y_test : list R) (numTestObservations : nat) (testSamples : list (list R))
    (numSamples : nat) :
  (0 < numTestObservations)%nat ->
  let loss :=
    Crossvalidate.calculateMCRLoss y_test numTestObservations testSamples numSamples in
  let wrong :=
    filter (Crossvalidate.misclassified y_test testSamples numSamples)
      (seq 0 numTestObservations) in
  loss = INR (List.length wrong) / INR numTestObservations /\
  0 <= loss <= 1 /\
  (loss = 0 <->
   forall i, (i < numTestObservations)%nat ->
     nth i y_test 0 = Crossvalidate.predictedClass testSamples numSamples i) /\
  (forall i, (i < numTestObservations)%nat ->
     nth i y_test 0 <> 0 -> nth i y_test 0 <> 1 -> 0 < loss).
Proof.
  intros Hn loss wrong.
  assert (HN : 0 < INR numTestObservations) by (apply lt_0_INR; exact Hn).
  assert (Hloss : loss = INR (List.length wrong) / INR numTestObservations).
  { unfold loss, Crossvalidate.calculateMCRLoss.
    pose proof (countErrors_counts y_test testSamples numSamples numTestObservations 0 0 0)
      as Hcount. cbv zeta in Hcount.
    destruct (Crossvalidate.countErrors numTestObservations 0 y_test testSamples numSamples
                0 0) as [fp fn].
    cbn [fst snd] in Hcount. rewrite Hcount. reflexivity. }
  assert (Hle : (List.length wrong <= numTestObservations)%nat).
  { unfold wrong.
    pose proof (filter_length_le (Crossvalidate.misclassified y_test testSamples numSamples)
                  (seq 0 numTestObservations)) as Hf.
    now rewrite length_seq in Hf. }
  assert (Hzero : List.length wrong = 0%nat <->
                  forall i, (i < numTestObservations)%nat ->
                    nth i y_test 0 = Crossvalidate.predictedClass testSamples numSamples i).
  { split.
    - intros Hnone i Hi.
      destruct (Req_dec_T (nth i y_test 0)
                  (Crossvalidate.predictedClass testSamples numSamples i)) as [E | Ne];
        [exact E |].
      exfalso. apply length_zero_iff_nil in Hnone.
      assert (Hin : In i wrong).
      { unfold wrong. apply filter_In. split; [apply in_seq; lia |].
        unfold Crossvalidate.misclassified.
        destruct (Req_dec_T _ _); [contradiction | reflexivity]. }
      rewrite Hnone in Hin. exact Hin.
    - intros Hall. apply length_zero_iff_nil.
      destruct wrong as [| i rest] eqn:Ewrong; [reflexivity |]. exfalso.
      assert (Hin : In i (i :: rest)) by now left.
      rewrite <- Ewrong in Hin. unfold wrong in Hin. apply filter_In in Hin.
      destruct Hin as [Hseq Hmis]. apply in_seq in Hseq.
      unfold Crossvalidate.misclassified in Hmis.
      destruct (Req_dec_T _ _) as [E | Ne]; [discriminate |].
      apply Ne, Hall. lia. }
  split; [exact Hloss |]. split; [| split].
  - rewrite Hloss. split.
    + unfold Rdiv. apply Rmult_le_pos; [apply pos_INR |]. left. now apply Rinv_0_lt_compat.
    + apply (Rmult_le_reg_r (INR numTestObservations)); [exact HN |].
      unfold Rdiv. rewrite Rmult_assoc, Rinv_l, Rmult_1_r, Rmult_1_l by lra.
      now apply le_INR.
  - rewrite <- Hzero, Hloss. split.
    + intros H. apply (Rmult_eq_compat_r (INR numTestObservations)) in H.
      unfold Rdiv in H. rewrite Rmult_assoc, Rinv_l, Rmult_1_r, Rmult_0_l in H by lra.
      now apply INR_eq.
    + intros ->. unfold Rdiv. cbn [INR]. ring.
  - intros i Hi H0 H1. rewrite Hloss.
    assert (Hin : In i wrong).
    { unfold wrong. apply filter_In. split; [apply in_seq; lia |].
      unfold Crossvalidate.misclassified, Crossvalidate.predictedClass. cbv zeta.
      destruct (Rgt_dec _ _); destruct (Req_dec_T _ _); try reflexivity; contradiction. }
    assert (Hpos : (0 < List.length wrong)%nat)
      by (destruct wrong; [contradiction | cbn; lia]).
    unfold Rdiv. apply Rmult_lt_0_compat; [now apply lt_0_INR | now apply Rinv_0_lt_compat].
Qed.

Lemma X29_the_misclassification_rate_is_the_share_of_wrong_classes_witness :
  let loss :=
    Crossvalidate.calculateMCRLoss (extNormal := Crossvalidate.stepNormal)
      [1; 0; 2] 3 [[1; 1; 1]; [1; -1; 1]] 2 in
  0 <= loss <= 1.
Proof.
  destruct (X29_the_misclassification_rate_is_the_share_of_wrong_classes
              (extNormal := Crossvalidate.stepNormal)
              [1; 0; 2] 3 [[1; 1; 1]; [1; -1; 1]] 2)
    as (_ & Hrange & _).
  - lia.
  - exact Hrange.
Defined.

(** ** The listing of the cutoffs *)

Lemma cutoffsPrinted_app (a b : list Printed) :
  cutoffsPrinted (a ++ b) = cutoffsPrinted a ++ cutoffsPrinted b.
Proof.
  induction a as [| p a IH]; [reflexivity |].
  destruct p; cbn [app cutoffsPrinted]; rewrite IH; reflexivity.
Qed.

Lemma nth_error_last {A : Type} (d : A) (l : list A) :
  l <> [] -> nth_error l (List.length l - 1) = Some (last l d).
Proof.
  induction l as [| a l IH]; [congruence |]. intros _.
  destruct l as [| b l]; [reflexivity |].
  replace (List.length (a :: b :: l) - 1)%nat with (S (List.length (b :: l) - 1))
    by (cbn [List.length]; lia).
  change (last (a :: b :: l) d) with (last (b :: l) d).
  cbn [nth_error]. apply IH. discriminate.
Qed.

(** The loop prints the cut points from [j] on, up to the last but one and
    up to its count, and no dots. *)
Lemma printCutoffsLoop_prints (numCuts : Z) (cutPoints_i : list R) :
  (1 <= numCuts < 2 ^ 32)%Z ->
  Z.of_nat (List.length cutPoints_i) = numCuts ->
  forall (count : nat) (j : Z) (out : list Printed),
    (0 <= j <= numCuts - 1)%Z ->
    exists j' out',
      printCutoffsLoop count j numCuts cutPoints_i out = Returned (j', out') /\
      j' = Z.min (numCuts - 1) (j + Z.of_nat count) /\
      cutoffsPrinted out'
      = cutoffsPrinted out
        ++ firstn (Z.to_nat (j' - j)) (skipn (Z.to_nat j) cutPoints_i) /\
      existsb isDots out' = existsb isDots out.
Proof.
  intros Hcuts Hlen.
  assert (Hwrap : wrap32 (numCuts - 1) = (numCuts - 1)%Z) by (apply wrap32_small; lia).
  induction count as [| count IH]; intros j out Hj; cbn [printCutoffsLoop].
  - exists j, out. split; [reflexivity |]. split; [lia |].
    replace (j - j)%Z with 0%Z by lia. cbn [Z.to_nat firstn]. rewrite app_nil_r.
    split; reflexivity.
  - rewrite Hwrap. destruct (Z.ltb_spec j (numCuts - 1)) as [Hlt | Hge].
    + destruct (nth_error cutPoints_i (Z.to_nat j)) as [c |] eqn:Ec.
      2:{ apply nth_error_None in Ec. lia. }
      destruct (IH (j + 1)%Z
                  (out ++ Cutoff c :: (if ((j + 1) mod 5 =? 0)%Z then [BreakAndTab] else []))
                  ltac:(lia)) as (j' & out' & Hrun & Hj' & Hprinted & Hdots).
      exists j', out'. split; [exact Hrun |]. split; [lia |]. split.
      * rewrite Hprinted, cutoffsPrinted_app.
        replace (cutoffsPrinted
                   (Cutoff c :: (if ((j + 1) mod 5 =? 0)%Z then [BreakAndTab] else [])))
          with [c] by (destruct ((j + 1) mod 5 =? 0)%Z; reflexivity).
        rewrite <- app_assoc. f_equal.
        replace (Z.to_nat (j' - j)) with (S (Z.to_nat (j' - (j + 1)))) by lia.
        replace (Z.to_nat (j + 1)) with (S (Z.to_nat j)) by lia.
        rewrite (skipn_nth_error _ _ _ Ec). reflexivity.
      * rewrite Hdots, existsb_app.
        destruct ((j + 1) mod 5 =? 0)%Z; cbn; now rewrite Bool.orb_false_r.
    + exists j, out. split; [reflexivity |]. split; [lia |].
      replace (j - j)%Z with 0%Z by lia. cbn [Z.to_nat firstn]. rewrite app_nil_r.
      split; reflexivity.
Qed.

(** X30.  The listing of the cut points of a column that printInitialSummary
    prints when [printCutoffs] is positive: for a column with at least one
    cut point it prints the first [min (numCuts - 1, printCutoffs - 1)] cut
    points and then the last one, hence at most [printCutoffs] numbers, and
    never the dots, also when cut points are left out; for a column without
    cut points it reads outside the buffer. *)
Theorem X30_the_listing_of_cutoffs_ends_with_the_last_and_has_no_dots
    (i : nat) (numCuts printCutoffs : Z) (cutPoints_i : list R) :
  (0 <= numCuts < 2 ^ 32)%Z -> (1 <= printCutoffs < 2 ^ 32)%Z ->
  Z.of_nat (List.length cutPoints_i) = numCuts ->
  (numCuts = 0%Z -> printCutoffsOfColumn i numCuts printCutoffs cutPoints_i = Undefined) /\
  ((1 <= numCuts)%Z ->
   exists out,
     printCutoffsOfColumn i numCuts printCutoffs cutPoints_i = Returned out /\
     cutoffsPrinted out
     = firstn (Z.to_nat (Z.min (numCuts - 1) (printCutoffs - 1))) cutPoints_i
       ++ [last cutPoints_i 0] /\
     (List.length (cutoffsPrinted out) <= Z.to_nat printCutoffs)%nat /\
     existsb isDots out = false).
Proof.
  intros Hcuts Hprint Hlen.
  assert (Hcount : wrap32 (printCutoffs - 1) = (printCutoffs - 1)%Z)
    by (apply wrap32_small; lia).
  unfold printCutoffsOfColumn. rewrite Hcount. split.
  - intros Hzero. rewrite Hzero in Hlen |- *.
    destruct cutPoints_i as [| c rest]; [| cbn [List.length] in Hlen; lia].
    destruct (Z.to_nat (printCutoffs - 1)) as [| count]; cbn [printCutoffsLoop].
    + destruct (_ && _ && _)%bool; now destruct (Z.to_nat (wrap32 (0 - 1))).
    + change (wrap32 (0 - 1)) with (2 ^ 32 - 1)%Z.
      destruct (Z.ltb_spec 0 (2 ^ 32 - 1)) as [_ | ?]; [reflexivity | lia].
  - intros Hone.
    destruct (printCutoffsLoop_prints numCuts cutPoints_i ltac:(lia) Hlen
                (Z.to_nat (printCutoffs - 1)) 0 [ColumnHead (Z.of_nat i + 1)] ltac:(lia))
      as (j & out & Hrun & Hj & Hprinted & Hdots).
    rewrite Hrun.
    assert (Hwrap : wrap32 (numCuts - 1) = (numCuts - 1)%Z) by (apply wrap32_small; lia).
    rewrite Hwrap.
    replace ((2 <? j)%Z && (j =? printCutoffs)%Z && (j <? numCuts - 1)%Z)%bool with false.
    2:{ symmetry. destruct (Z.eqb_spec j printCutoffs) as [E | _]; [lia |].
        now rewrite Bool.andb_false_r. }
    assert (Hlast : nth_error cutPoints_i (Z.to_nat (numCuts - 1))
                    = Some (last cutPoints_i 0)).
    { replace (Z.to_nat (numCuts - 1)) with (List.length cutPoints_i - 1)%nat by lia.
      apply nth_error_last. intros E. rewrite E in Hlen. cbn in Hlen. lia. }
    rewrite Hlast. eexists. split; [reflexivity |].
    rewrite cutoffsPrinted_app, Hprinted. cbn [cutoffsPrinted app skipn Z.to_nat].
    replace (j - 0)%Z with j by lia.
    replace (0 + Z.of_nat (Z.to_nat (printCutoffs - 1)))%Z with (printCutoffs - 1)%Z in Hj
      by lia.
    subst j. split; [reflexivity |]. split.
    + rewrite length_app, length_firstn. cbn [List.length]. lia.
    + rewrite existsb_app, Hdots. reflexivity.
Qed.

Lemma X30_the_listing_of_cutoffs_ends_with_the_last_and_has_no_dots_witness :
  exists out,
    printCutoffsOfColumn 0 5 3 [1; 2; 3; 4; 5] = Returned out /\
    cutoffsPrinted out = [1; 2; 5] /\
    existsb isDots out = false.
Proof.
  destruct (X30_the_listing_of_cutoffs_ends_with_the_last_and_has_no_dots
              0 5 3 [1; 2; 3; 4; 5]) as (_ & Hprinted); try (cbn; lia).
  destruct (Hprinted ltac:(lia)) as (out & Hrun & Hcuts & _ & Hdots).
  exists out. split; [exact Hrun |]. split; [exact Hcuts | exact Hdots].
Defined.

Import Registry.

(** ** The registry of the fits *)

Lemma sameAddress_Some (a : nat) (b : option nat) :
  sameAddress (Some a) b = true <-> b = Some a.
Proof.
  destruct b as [b |]; cbn [sameAddress].
  - rewrite Nat.eqb_eq. split; congruence.
  - split; discriminate.
Qed.

Lemma allocated_spec (a : nat) (l : list nat) :
  existsb (Nat.eqb a) l = true <-> In a l.
Proof.
  rewrite existsb_exists. split.
  - intros [x [Hx E]]. apply Nat.eqb_eq in E. now subst.
  - intros H. exists a. split; [exact H | apply Nat.eqb_refl].
Qed.

Lemma address_in_range (h : Host) (e a : nat) :
  R_ExternalPtrAddr h e = Some a -> (e < List.length (externalPointers h))%nat.
Proof.
  unfold R_ExternalPtrAddr. intros H.
  destruct (Nat.lt_ge_cases e (List.length (externalPointers h))) as [Hlt | Hge]; [exact Hlt |].
  rewrite nth_overflow in H by exact Hge. discriminate.
Qed.

(** In a consistent host, an object that holds an address is found in the
    set. *)
Lemma found_spec (h : Host) (e a : nat) :
  consistent h -> R_ExternalPtrAddr h e = Some a -> found h e = true.
Proof.
  intros (_ & _ & _ & Hmember & _) Ha.
  unfold found. apply existsb_exists. exists e. split.
  - exact (proj1 (Hmember e a Ha)).
  - unfold equivalent. rewrite Ha. cbn. apply Nat.eqb_refl.
Qed.

Lemma released_address (h : Host) (e a e' : nat) :
  R_ExternalPtrAddr h e = Some a ->
  R_ExternalPtrAddr (released h e a) e'
  = if (e' =? e)%nat then None else R_ExternalPtrAddr h e'.
Proof.
  intros Ha. unfold R_ExternalPtrAddr, released. cbn [externalPointers].
  rewrite nth_upd.
  destruct (Nat.eqb_spec e' e) as [-> | Hne]; cbn [andb]; [| reflexivity].
  apply address_in_range in Ha. apply Nat.ltb_lt in Ha. now rewrite Ha.
Qed.

Lemma released_consistent (h : Host) (e a : nat) :
  consistent h -> R_ExternalPtrAddr h e = Some a -> consistent (released h e a).
Proof.
  intros (Hmembers & Hfits & Hholds & Hmember & Hheld & Hinj) Ha.
  unfold consistent.
  split; [| split; [| split; [| split; [| split]]]].
  - cbn [released activeFits]. now apply NoDup_filter.
  - cbn [released allocated]. now apply NoDup_filter.
  - intros e'. cbn [released activeFits]. rewrite filter_In.
    intros [Hin Hne]. apply negb_true_iff, Nat.eqb_neq in Hne.
    rewrite released_address by exact Ha.
    destruct (Nat.eqb_spec e' e) as [E | _]; [contradiction |]. now apply Hholds.
  - intros e' a'. rewrite released_address by exact Ha.
    destruct (Nat.eqb_spec e' e) as [E | Hne]; [discriminate |].
    intros Ha'. destruct (Hmember e' a' Ha') as [Hin Hall].
    cbn [released activeFits allocated]. rewrite !filter_In. repeat split; try assumption.
    + apply negb_true_iff, Nat.eqb_neq. exact Hne.
    + apply negb_true_iff, Nat.eqb_neq. intros ->. apply Hne. now apply (Hinj e' e a).
  - intros a'. cbn [released allocated]. rewrite filter_In.
    intros [Hin Hne]. apply negb_true_iff, Nat.eqb_neq in Hne.
    destruct (Hheld a' Hin) as [e' Ha']. exists e'.
    rewrite released_address by exact Ha.
    destruct (Nat.eqb_spec e' e) as [-> | _]; [congruence | exact Ha'].
  - intros e1 e2 a'. rewrite !released_address by exact Ha.
    destruct (Nat.eqb_spec e1 e); [discriminate |].
    destruct (Nat.eqb_spec e2 e); [discriminate |]. apply Hinj.
Qed.

Lemma released_frees (h : Host) (e a : nat) :
  ~ In a (allocated (released h e a)).
Proof.
  cbn [released allocated]. rewrite filter_In. intros [_ H].
  rewrite Nat.eqb_refl in H. discriminate.
Qed.

(** In a consistent host the set erases by key what it erases by
    iterator. *)
Lemma eraseKey_member (h : Host) (e a : nat) :
  consistent h -> R_ExternalPtrAddr h e = Some a ->
  activeFits (eraseKey h e) = filter (fun e' => negb (e' =? e)%nat) (activeFits h).
Proof.
  intros (_ & _ & Hholds & _ & _ & Hinj) Ha.
  cbn [eraseKey activeFits]. apply filter_ext_in. intros e' Hin. f_equal.
  unfold equivalent. rewrite Ha.
  destruct (Nat.eqb_spec e' e) as [-> | Hne].
  - rewrite Ha. cbn. apply Nat.eqb_refl.
  - apply not_true_is_false. rewrite sameAddress_Some. intros Ha'.
    apply Hne. now apply (Hinj e' e a).
Qed.

Lemma fitFinalizer_releases (h : Host) (e a : nat) :
  consistent h -> R_ExternalPtrAddr h e = Some a ->
  fitFinalizer h e = Returned (released h e a).
Proof.
  intros Hc Ha. unfold fitFinalizer. rewrite Ha.
  rewrite (found_spec h e a Hc Ha). cbn [negb].
  unfold deleteFit. cbn [eraseKey allocated].
  destruct Hc as (Hmembers & Hfits & Hholds & Hmember & Hheld & Hinj).
  rewrite (proj2 (allocated_spec a (allocated h)) (proj2 (Hmember e a Ha))).
  cbn [obind]. f_equal. unfold R_ClearExternalPtr, released.
  cbn [externalPointers activeFits allocated]. f_equal.
  exact (eraseKey_member h e a
           (conj Hmembers (conj Hfits (conj Hholds (conj Hmember (conj Hheld Hinj))))) Ha).
Qed.

Lemma fitFinalizer_consistent (h : Host) (e : nat) :
  consistent h -> exists h', fitFinalizer h e = Returned h' /\ consistent h'.
Proof.
  intros Hc. destruct (R_ExternalPtrAddr h e) as [a |] eqn:Ha.
  - exists (released h e a). split.
    + now apply fitFinalizer_releases.
    + now apply released_consistent.
  - exists h. split; [| exact Hc]. unfold fitFinalizer. now rewrite Ha.
Qed.

Lemma finalizeLoop_releases :
  forall (members : list nat) (h : Host),
    consistent h -> activeFits h = members ->
    exists h', finalizeLoop members h = Returned h' /\ consistent h' /\ activeFits h' = [].
Proof.
  induction members as [| e members IH]; intros h Hc Hm.
  - exists h. cbn. auto.
  - pose proof Hc as (Hmembers & Hfits & Hholds & Hmember & Hheld & Hinj).
    destruct (Hholds e) as [a Ha]; [rewrite Hm; now left |].
    cbn [finalizeLoop]. rewrite Ha. unfold deleteFit.
    rewrite (proj2 (allocated_spec a (allocated h)) (proj2 (Hmember e a Ha))).
    cbn [obind].
    unfold R_ClearExternalPtr, eraseMember. cbn [externalPointers activeFits allocated].
    change {| externalPointers := upd e None (externalPointers h);
              activeFits := filter (fun e' => negb (e' =? e)%nat) (activeFits h);
              allocated := filter (fun a' => negb (a' =? a)%nat) (allocated h) |}
      with (released h e a).
    apply IH.
    + now apply released_consistent.
    + cbn [released activeFits]. rewrite Hm. cbn [filter]. rewrite Nat.eqb_refl. cbn [negb].
      rewrite Hm in Hmembers. apply NoDup_cons_iff in Hmembers. destruct Hmembers as [Hnot _].
      apply forallb_filter_id. apply forallb_forall. intros e' Hin.
      apply negb_true_iff, Nat.eqb_neq. intros ->. contradiction.
Qed.

Lemma dbarts_create_consistent (h : Host) (address : nat) :
  consistent h -> ~ In address (allocated h) ->
  consistent (fst (dbarts_create h address)).
Proof.
  intros (Hmembers & Hfits & Hholds & Hmember & Hheld & Hinj) Hfresh.
  set (result := List.length (externalPointers h)).
  set (h1 := {| externalPointers := externalPointers h ++ [Some address];
                activeFits := activeFits h; allocated := address :: allocated h |}).
  assert (Haddr : forall e, R_ExternalPtrAddr h1 e
                            = if (e =? result)%nat then Some address else R_ExternalPtrAddr h e).
  { intros e. unfold R_ExternalPtrAddr, h1. cbn [externalPointers].
    destruct (Nat.eqb_spec e result) as [-> | Hne].
    - unfold result. rewrite app_nth2 by lia. now rewrite Nat.sub_diag.
    - destruct (Nat.lt_ge_cases e result) as [Hlt | Hge].
      + now rewrite app_nth1 by exact Hlt.
      + rewrite !nth_overflow; [reflexivity | unfold result in *; lia |].
        rewrite length_app. cbn [List.length]. unfold result in *. lia. }
  assert (Hold : forall e a, R_ExternalPtrAddr h e = Some a -> e <> result /\ a <> address).
  { intros e a Ha. split.
    - apply address_in_range in Ha. unfold result. lia.
    - intros ->. apply Hfresh. exact (proj2 (Hmember e address Ha)). }
  assert (Hnew : found h1 result = false).
  { unfold found. apply not_true_is_false. rewrite existsb_exists.
    intros [e [Hin He]]. cbn [h1 activeFits] in Hin.
    destruct (Hholds e Hin) as [a Ha]. destruct (Hold e a Ha) as [Hne Hna].
    unfold equivalent in He. rewrite !Haddr, Nat.eqb_refl in He.
    destruct (Nat.eqb_spec e result); [contradiction |].
    rewrite Ha in He. cbn in He. apply Nat.eqb_eq in He. congruence. }
  unfold dbarts_create. cbn [fst]. fold result h1. unfold insert. rewrite Hnew.
  set (h2 := {| externalPointers := externalPointers h1;
                activeFits := result :: activeFits h1; allocated := allocated h1 |}).
  assert (Haddr2 : forall e, R_ExternalPtrAddr h2 e
                             = if (e =? result)%nat then Some address else R_ExternalPtrAddr h e)
    by exact Haddr.
  unfold consistent. cbn [h2 h1 activeFits allocated].
  split; [| split; [| split; [| split; [| split]]]].
  - constructor; [| exact Hmembers]. intros Hin.
    destruct (Hholds result Hin) as [a Ha]. now destruct (Hold result a Ha).
  - now constructor.
  - intros e [<- | Hin]; rewrite Haddr2.
    + rewrite Nat.eqb_refl. now exists address.
    + destruct (Hholds e Hin) as [a Ha]. destruct (Hold e a Ha) as [Hne _].
      destruct (Nat.eqb_spec e result); [contradiction |]. now exists a.
  - intros e a. rewrite Haddr2. destruct (Nat.eqb_spec e result) as [-> | Hne].
    + intros [= <-]. split; now left.
    + intros Ha. destruct (Hmember e a Ha). split; now right.
  - intros a [<- | Hin].
    + exists result. now rewrite Haddr2, Nat.eqb_refl.
    + destruct (Hheld a Hin) as [e Ha]. exists e. rewrite Haddr2.
      destruct (Hold e a Ha) as [Hne _].
      now destruct (Nat.eqb_spec e result).
  - intros e e' a. rewrite !Haddr2.
    destruct (Nat.eqb_spec e result) as [-> | Hne], (Nat.eqb_spec e' result) as [-> | Hne'].
    + reflexivity.
    + intros [= <-] Ha. now destruct (Hold e' address Ha).
    + intros Ha [= <-]. now destruct (Hold e address Ha).
    + apply Hinj.
Qed.

Lemma consistent_empty : consistent emptyHost.
Proof.
  unfold consistent, emptyHost, R_ExternalPtrAddr. cbn.
  repeat split; try constructor; try contradiction.
  - destruct e; discriminate.
  - destruct e; discriminate.
  - destruct e; discriminate.
Qed.

Lemma reachable_consistent (h : Host) : reachable h -> consistent h.
Proof.
  induction 1 as [| h address _ IH Hfresh | h h' e _ IH He | h h' _ IH He].
  - exact consistent_empty.
  - now apply dbarts_create_consistent.
  - destruct (fitFinalizer_consistent h e IH) as [h2 [E Hc]]. congruence.
  - destruct (finalizeLoop_releases (activeFits h) h IH eq_refl) as [h2 [E [Hc _]]].
    unfold dbarts_finalize in He. congruence.
Qed.

(** X21.  Whatever calls of dbarts_create, of the finalizer and of
    dbarts_finalize came before: the finalizer returns on any object, and
    leaves the object invalid and its fit deleted; dbarts_isValidPointer
    answers TRUE exactly for the objects whose fit is allocated; and
    dbarts_finalize returns, leaves no fit allocated and no pointer valid.
    No fit is deleted twice, and none is left behind. *)
Theorem X21_no_fit_is_deleted_twice_and_none_is_left_behind (h : Host) (fitExpr : nat) :
  reachable h ->
  (exists h',
     fitFinalizer h fitExpr = Returned h' /\
     dbarts_isValidPointer h' fitExpr = false /\
     forall a, R_ExternalPtrAddr h fitExpr = Some a -> ~ In a (allocated h')) /\
  (dbarts_isValidPointer h fitExpr = true
   <-> exists a, R_ExternalPtrAddr h fitExpr = Some a /\ In a (allocated h)) /\
  (exists h',
     dbarts_finalize h = Returned h' /\
     allocated h' = [] /\
     forall e, dbarts_isValidPointer h' e = false).
Proof.
  intros Hreach. pose proof (reachable_consistent h Hreach) as Hc.
  split; [| split].
  - destruct (R_ExternalPtrAddr h fitExpr) as [a |] eqn:Ha.
    + exists (released h fitExpr a). split; [now apply fitFinalizer_releases |]. split.
      * unfold dbarts_isValidPointer.
        rewrite released_address by exact Ha. now rewrite Nat.eqb_refl.
      * intros a' [= <-]. apply released_frees.
    + exists h. split; [| split].
      * unfold fitFinalizer. now rewrite Ha.
      * unfold dbarts_isValidPointer. now rewrite Ha.
      * discriminate.
  - unfold dbarts_isValidPointer.
    destruct (R_ExternalPtrAddr h fitExpr) as [a |] eqn:Ha.
    + rewrite (found_spec h fitExpr a Hc Ha). split; [| reflexivity].
      intros _. exists a. split; [reflexivity |].
      destruct Hc as (_ & _ & _ & Hmember & _). exact (proj2 (Hmember fitExpr a Ha)).
    + split; [discriminate |]. intros [a [E _]]. discriminate.
  - destruct (finalizeLoop_releases (activeFits h) h Hc eq_refl) as [h' [E [Hc' Hnone]]].
    exists h'. split; [exact E |].
    destruct Hc' as (_ & _ & _ & Hmember & Hheld & _). split.
    + destruct (allocated h') as [| a rest] eqn:Ea; [reflexivity |].
      destruct (Hheld a (or_introl eq_refl)) as [e Ha].
      destruct (Hmember e a Ha) as [Hin _]. rewrite Hnone in Hin. contradiction.
    + intros e. unfold dbarts_isValidPointer, found. rewrite Hnone.
      now destruct (R_ExternalPtrAddr h' e).
Qed.

Lemma X21_no_fit_is_deleted_twice_and_none_is_left_behind_witness :
  let h := fst (dbarts_create emptyHost 7) in
  reachable h /\
  (exists h',
     fitFinalizer h 0 = Returned h' /\
     dbarts_isValidPointer h' 0 = false /\
     forall a, R_ExternalPtrAddr h 0 = Some a -> ~ In a (allocated h')) /\
  (dbarts_isValidPointer h 0 = true
   <-> exists a, R_ExternalPtrAddr h 0 = Some a /\ In a (allocated h)) /\
  (exists h',
     dbarts_finalize h = Returned h' /\
     allocated h' = [] /\
     forall e, dbarts_isValidPointer h' e = false).
Proof.
  assert (Hreach : reachable (fst (dbarts_create emptyHost 7))).
  { apply reachable_create; [exact reachable_empty | cbn; tauto]. }
  split; [exact Hreach |].
  exact (X21_no_fit_is_deleted_twice_and_none_is_left_behind
           (fst (dbarts_create emptyHost 7)) 0 Hreach).
Defined.
